(* ===== verification/_CoqProject ===== *)
-Q . S2P
Prelude.v
Descriptors.v
Float.v
Bounded.v
Text.v
Wire.v
ServerProto.v
RedisClient.v
LogAggregator.v
Security.v
IPC.v
Supervisor.v
SupervisorThreads.v
Health.v
Resource.v
NetNS.v
Metrics.v
Sandbox.v
FileWatcher.v
Snapshot.v
SnapshotFiles.v
Rust.v
Wal.v
Pages.v
Btree.v
Streams.v
Pubsub.v
Plugins.v
Tsdb.v
ZSet.v
Store.v
Http.v
Handler.v
Auth.v
Bits.v
Pool.v
Accept.v
Types.v
Main.v
Startup.v
System.v
Program.v
Fleet.v
FleetJobs.v
