(* ===== verification/Prelude.v ===== *)
(** * RedisOps sandbox runtime: a verification library

    The program is the C++ sandbox runtime of RedisOps ([sandbox/src], with its
    headers in [sandbox/include/devops]).  It connects to the Redis-compatible
    server of [redisdb], polls it for jobs, runs each job's command in a child
    with its own namespaces, and reports the output and the exit status.
    Around that loop are a log, security profiles, metrics, health checks,
    resource monitors, network namespaces, messages between sandboxes, a file
    watcher, a process supervisor and snapshots.  Of the server ([redisdb/src],
    in Rust) the codec, the commands with their store, the connections and the
    storage parts beside them are here as well.

    ** Files

    Names are those of the source, a C++ method [C::f] being [f] in the module
    of its class; a suffix or another name is used only where Rocq or a second
    class of the file has taken it.

    - [Prelude.v]: outcomes of C++ code, machine integers, wait statuses, bytes,
      lists, ordered keys, and the tactics and hints the other files use.
    - [Bounded.v]: the class of bounded logs; its instances are the aggregator,
      the audit log and the resource history, each in its own file.
    - [Text.v]: [std::string] searches and cuts, number parsing and printing.
    - [Wire.v] (module [Socket]): [read_exact] and [write_all] of
      [redis_client.cpp] over a stream socket.
    - [ServerProto.v] (module [Server]): the server's codec,
      [redisdb/src/proto/mod.rs].
    - [RedisClient.v] (module [Redis]): [redis_client.cpp].
    - [LogAggregator.v] (module [Log]): [log_aggregator.cpp].
    - [Security.v]: [security.cpp], the built-in profiles included.
    - [IPC.v]: [ipc.cpp], channel and manager.
    - [Supervisor.v]: [process_supervisor.cpp], an operation as a function;
      [SupervisorThreads.v] (module [Threads]): the same code as the steps of
      its threads over the kernel's table of children.
    - [Health.v]: [health_monitor.cpp].
    - [Resource.v]: [resource_monitor.cpp], monitor and manager.
    - [NetNS.v]: [netns.cpp], namespace and manager.
    - [Metrics.v]: [metrics.cpp].
    - [Sandbox.v] (modules [Cgroup], [Seccomp], [Sandbox]): [cgroup.cpp],
      [seccomp.cpp], [sandbox.cpp].
    - [FileWatcher.v]: [file_watcher.cpp].
    - [Snapshot.v]: [snapshot.cpp], the metadata and the directory of snapshots;
      [SnapshotFiles.v]: the files a snapshot is made of.
    - [Float.v] (module [F64]): [f64] as bits, with its comparisons.
    - [ZSet.v]: sorted sets, [redisdb/src/zset/mod.rs].
    - [Store.v]: the server's keys, lists and bits, [redisdb/src/store/mod.rs].
    - [Handler.v]: the server's commands, [redisdb/src/handler.rs];
      [Auth.v]: [auth] and [config] of the same file, and all of [dispatch];
      [Bits.v]: bit fields, a property of the two.
    - [Pool.v]: the commands of the server's tasks, [redisdb/src/server.rs], as
      a step relation; [Accept.v]: the loop that accepts connections, with its
      semaphore, around them.
    - [Types.v]: the types of the server's keys, an invariant of [Pool].
    - [Main.v]: options and job loop of [main.cpp].
    - [Startup.v]: the rest of [main.cpp]: what is constructed, connected,
      registered with callbacks, shut down and destroyed.
    - [System.v]: the job loop with its client against the server's task,
      handler and store, as bytes over one connection.
    - [Program.v]: [Startup.main] with that server, from start-up to exit.
    - [Fleet.v]: any number of job loops on one server, step by step;
      [FleetJobs.v]: what becomes of the jobs they share.
    - [Rust.v]: [Result], panics, operations on an object, slices of bytes;
      [Wal.v], [Pages.v] (modules [Page], [Buffer]) and [Btree.v]: the storage
      engine, [redisdb/src/btree]; [Tsdb.v]: [redisdb/src/tsdb] on top of it;
      [Streams.v] (modules [Streams], [Stats]): [streams.rs], [stats.rs].
    - [Pubsub.v], [Plugins.v], [Http.v]: [pubsub.rs], [plugins.rs], [http.rs].

    [Main] composes [Security.validate_command], [Sandbox.run] and the
    requests of [RedisClient]; [RedisClient] is proved against [ServerProto]
    over [Wire].  A command of [Handler] is a program over the atomic
    operations of [Store]; [Handler.run] executes one alone and [Pool] many at
    once, and [System] closes the circle: [Main.job_turn] sends requests
    through [Redis.send], the bytes are read by [Server.read_request], run by
    the handler, and the answer read back.  [Startup] constructs the objects
    of all the components, gives [Health] its checks, and destroys them.
    [SnapshotFiles.create] calls [Snapshot.create], and [Snapshot] refers to
    the control groups of [Sandbox].  [Fleet] has the turn of [Main] and the
    server of [Pool].  [Accept] runs
    the steps of [Pool] in the tasks it counts with [Stats]; [Http] reads
    [Stats], [Streams] and [Pubsub].  [Tsdb] stores through [Btree], which
    works on the pages of [Pages] and the log of [Wal].  The other components do not call each
    other.

    ** How code is modelled

    An operation is a function from its arguments and the object's state (a
    record with the class's members) to its result and the new state.  Code
    that can throw, or whose behaviour is undefined on some inputs, returns an
    [outcome]; undefined accesses, locking a mutex twice and the like are
    values ([Undefined]) and so theorems say when they occur.  A fixed-width
    integer is a [Z] whose wrap-around is written out ([u32], [u64]); a
    [double] is a float of the Standard Library's [SpecFloat] where the code
    computes with it, and its 64 bits where it only travels.  A [std::map] or
    [std::unordered_map] is a [gmap]; a walk over a [std::map] is in the order
    of its keys, a walk over an unordered one in the order of [map_to_list],
    which the theorems do not depend on.

    What the operating system or another library answers is an argument:
    segments and room of a socket, results of [pipe], [clone], [fork] and
    [waitpid], the clock, the lines of files of [/proc], the shell's verdict on
    a command, whether the allocator can reserve, the matches of a regular
    expression, how a [double] prints.  Calls on the system are recorded in
    traces.  Threads: [IPC.v] has the steps of a channel and its receive thread
    as a relation, [Pool.v] those of the server's tasks, [Fleet.v] those of the
    job loops as well, and [SupervisorThreads.v] those of the monitors, the watchdog and the holder of
    the mutex.  [Supervisor.v] and [Health.v] take what the other threads do
    while one waits or sleeps as an argument; for the supervisor
    [operations_are_executions] shows its operations to be executions of the
    steps.

    In the Rust server a handler is a program over the operations of the
    store, since others run while it awaits the lock; an operation is atomic.
    Panics of a debug build (overflow, shifts, slices) are values.  Rust's
    library on text and the reading and printing of [f64] are the class
    [RustText], of which [ascii_text] is an instance.  The semaphore and the
    broadcast channels of tokio are the classes [Semaphore] and [Broadcast],
    whose laws are their documentation, with an instance each.

    ** What the theorems show

    - The wire: requests are exactly the protocol's frames (with the size
      computed in 32 bits), a call returns what the server encoded however the
      network cuts it, and no peer can make the client read outside a buffer.
    - A job: one that is allowed is run once and reported once, in a given
      order of requests; one that is refused never runs; other replies are
      ignored.  Against the server: a queued job's result is what the child's
      exit status says, under the keys the server keeps for it; a queue of any
      length is served and emptied; the log keeps the order of the lines.  The
      server hands each submitted job out once, whatever the tasks'
      interleaving, and its keys keep their types; a job can be overtaken by
      its own "queued" status, a field with a bar cuts the job apart, and a
      connection the server closes (30 seconds of silence, a line that is no
      UTF-8) leaves its job running for ever.  A run collects the child's
      output, decodes its status, and closes the descriptors it opened, on the
      error paths too.
    - The program: a start-up that succeeds has registered the sandbox and the
      callbacks, and the end of [main] releases what was acquired, also on an
      early return; but after a refused connection the health monitor's thread
      outlives an object its checks read, and the checks look at nothing that
      changes.  Both together: started against a server with a queue of jobs,
      the program registers, serves them all and exits with status 0 and
      everything released; what it has sent is the requests, byte for byte.
    - A fleet: many runtimes on one server, their connections breaking at any
      time, never run a job twice; with connections that last, every job is
      waiting, held by one runtime, or settled with the outcome of its run, for
      what other connections do does not show in the keys of a job; and a fleet
      that goes on empties the queue.
    - The server's store: a sorted set is the ranking of all that was ever
      added (removal leaves entries behind); a bit field is read back and
      nothing else has changed; [auth] protects nothing.
    - The server's edges: there are never more connections than the limit, the
      loop gets its permit exactly below it, and the counters are right but for
      tasks that panic; a subscriber gets what is published until anybody
      unsubscribes; every HTTP request gets one complete answer.
    - The storage engine: a log is replayed exactly, or refused when it is cut,
      but the engine's own transactions are never recovered; the buffer pool is
      the page file it caches; the tree built on it panics at every operation
      after the first key.  Series stay in the order of time; streams and
      statistics are windows on their history.
    - Supervision: what [start], [stop] and the monitor do, that [stop]
      returns; and that restarts, removal, the watchdog and the timeout do not
      behave as their names say (each a theorem about all states).  Over all
      interleavings: the entries, the monitor threads and the kernel's table of
      children agree; [stop] never notices that the process ends; [start] can
      wait for the very process it has started.
    - Messages: the datagram format is read back, the queue is a bounded FIFO,
      delivery to callbacks; a channel that is connected never receives, since
      its address is bound twice; a forged length exposes old bytes.
    - Logs, audit and history are bounded suffixes of what was pushed (proved
      once, for the class), and searches agree with filters on them.
    - Security: the verdict on a command in closed form, the effects of a
      profile; the Prometheus text contains each sample once; HTTP answers are
      complete; inotify buffers, snapshot metadata and a process's memory dump
      round-trip; the memory part of a snapshot is never filled.
    - Monitoring: a pass over the health checks, the double unlock after it;
      limits that no reading can exceed.  Network namespaces: creation has no
      rollback and addresses are not the recorded ones.

    ** Fuel

    [Wire] loops have fuel one more than the bytes left (a turn moves at least
    one); the reader of responses twice the bytes of the message and two (a
    value consumes its tag, and the loop over an array ends); field and event
    loops one more than the bytes received; the wait loop of [stop] has its fuel as an argument and
    [stop_terminates] shows that [timeout_ms + 2] turns are enough while the
    clock goes on.  The fuel of [Health.monitor_loop] counts turns, of which
    the first never completes.  For the others a theorem of the component
    excludes [NoFuel].  The commands of [Handler] need no fuel: a program is a
    finite tree.  [System.loop] has one turn per entry of its list of
    surroundings.  [Wal.replay] has one more than the bytes of the file.  The
    recursions of [Btree] over page ids have fuel ([NoEnd]); what is proved of
    them holds for every fuel but 0.

    ** Not modelled

    Messages on the terminal, the usage text and the signal handler (only the
    flag it clears); data races (an operation is atomic); pids handed out twice
    (a hypothesis of the theorems on threads, [fresh_pids]); memory exhaustion
    other than that of reserving an array and of the child's stack.  Of the
    Rust server: its [main] (logging and control-C), binding a port, failures
    of the disk, and operations of the storage engine running at the same
    time.  The terminal client, benchmarks, scripts and tests.

    ** Plan

    Next: type invariants of the C++ objects, the finer data races of the
    supervisor (an operation reads an entry's fields one by one), and
    interleavings inside the storage engine. *)

From stdpp Require Export base strings gmap list sorting pretty numbers option.
From Stdlib Require Export ZArith Lia.
From Stdlib Require Ascii String.

#[global] Open Scope Z_scope.

Create HintDb redisops.
Create Rewrite HintDb redisops.

(** ** Outcomes of C++ code

    A C++ function returns, throws, or cannot continue: it runs into undefined
    behaviour, waits for ever, or ends the program: in [std::terminate], or by
    a signal it does not handle.
    [NoFuel] is an artefact of the fuel-driven definitions; every fuelled
    definition comes with a theorem that enough fuel never yields it. *)

Inductive exn :=
  | InvalidArgument        (**r std::invalid_argument, from std::stoull and std::stoi *)
  | OutOfRange             (**r std::out_of_range *)
  | BadAlloc               (**r std::bad_alloc / std::length_error *)
  | SystemError.           (**r std::system_error, from std::thread::join *)

Inductive fault :=
  | OutOfBounds            (**r access outside an array or a vector's storage *)
  | Relock                 (**r locking a std::mutex the thread already owns *)
  | UnlockNotOwned         (**r unlocking a std::mutex the thread does not own *)
  | Indeterminate          (**r reading an object that was never initialised *)
  | BadFree                (**r free() of a pointer malloc() did not return *)
  | NullPointer            (**r dereferencing a null shared_ptr *)
  | Terminate              (**r std::terminate: a joinable std::thread destroyed *)
  | Blocked                (**r waiting for a thread that never ends *)
  | Sigpipe.               (**r killed by SIGPIPE *)

Inductive outcome (A : Type) :=
  | Ret (a : A)
  | Throw (e : exn)
  | Undefined (f : fault)
  | NoFuel.
Arguments Ret {A} _.
Arguments Throw {A} _.
Arguments Undefined {A} _.
Arguments NoFuel {A}.

#[global] Instance exn_eq_dec : EqDecision exn.
Proof. solve_decision. Defined.
#[global] Instance fault_eq_dec : EqDecision fault.
Proof. solve_decision. Defined.

#[global] Instance outcome_ret : MRet outcome := fun A a => Ret a.
#[global] Instance outcome_bind : MBind outcome := fun A B k m =>
  match m with
  | Ret a => k a
  | Throw e => Throw e
  | Undefined f => Undefined f
  | NoFuel => NoFuel
  end.

#[global] Instance outcome_fmap : FMap outcome := fun A B f m => m ≫= fun a => Ret (f a).

(** A computation that neither hits undefined behaviour nor runs out of fuel:
    it returns or throws. *)
Definition defined {A} (m : outcome A) : Prop :=
  match m with Ret _ | Throw _ => True | Undefined _ | NoFuel => False end.

Definition returns {A} (m : outcome A) (P : A -> Prop) : Prop :=
  match m with Ret a => P a | _ => False end.

Lemma bind_ret {A B} (a : A) (k : A -> outcome B) : (Ret a ≫= k) = k a.
Proof. reflexivity. Qed.

Lemma bind_Ret_inv {A B} (m : outcome A) (k : A -> outcome B) b :
  (m ≫= k) = Ret b -> exists a, m = Ret a /\ k a = Ret b.
Proof. destruct m; simpl; try discriminate. eauto. Qed.

Lemma defined_bind {A B} (m : outcome A) (k : A -> outcome B) :
  defined m -> (forall a, m = Ret a -> defined (k a)) -> defined (m ≫= k).
Proof. destruct m; simpl; auto. Qed.

#[export] Hint Resolve defined_bind : redisops.

(** ** Machine integers *)

(** Unsigned arithmetic at width [w] wraps. *)
Definition wrap (w z : Z) : Z := z mod 2 ^ w.
Definition u32 (z : Z) : Z := wrap 32 z.
Definition u64 (z : Z) : Z := wrap 64 z.

(** The signed reading of a [w]-bit pattern (C++20: two's complement). *)
Definition to_signed (w z : Z) : Z :=
  if wrap w z <? 2 ^ (w - 1) then wrap w z else wrap w z - 2 ^ w.

Definition in_u32 (z : Z) : Prop := 0 <= z < 2 ^ 32.
Definition in_u64 (z : Z) : Prop := 0 <= z < 2 ^ 64.
Definition in_i32 (z : Z) : Prop := - 2 ^ 31 <= z < 2 ^ 31.
Definition in_i64 (z : Z) : Prop := - 2 ^ 63 <= z < 2 ^ 63.

Lemma wrap_small w z : 0 <= z < 2 ^ w -> wrap w z = z.
Proof. apply Z.mod_small. Qed.

Lemma wrap_range w z : 0 <= w -> 0 <= wrap w z < 2 ^ w.
Proof. intros. apply Z.mod_pos_bound. lia. Qed.

Lemma u32_small z : in_u32 z -> u32 z = z.
Proof. apply wrap_small. Qed.
Lemma u64_small z : in_u64 z -> u64 z = z.
Proof. apply wrap_small. Qed.
Lemma u32_range z : in_u32 (u32 z).
Proof. apply wrap_range. lia. Qed.
Lemma u64_range z : in_u64 (u64 z).
Proof. apply wrap_range. lia. Qed.

Lemma wrap_wrap w z : wrap w (wrap w z) = wrap w z.
Proof. apply Zmod_mod. Qed.

Lemma wrap_add_l w a b : wrap w (wrap w a + b) = wrap w (a + b).
Proof. apply Zplus_mod_idemp_l. Qed.

Lemma to_signed_wrap w z :
  0 < w -> - 2 ^ (w - 1) <= z < 2 ^ (w - 1) -> to_signed w (wrap w z) = z.
Proof.
  intros Hw Hz. unfold to_signed. rewrite wrap_wrap. unfold wrap.
  assert (E : 2 ^ w = 2 * 2 ^ (w - 1)).
  { rewrite <- Z.pow_succ_r by lia. f_equal. lia. }
  destruct (Z.ltb_spec z 0).
  - rewrite <- (Z.mod_unique_pos z (2 ^ w) (-1) (z + 2 ^ w)) by lia.
    destruct (Z.ltb_spec (z + 2 ^ w) (2 ^ (w - 1))); lia.
  - rewrite Z.mod_small by lia.
    destruct (Z.ltb_spec z (2 ^ (w - 1))); lia.
Qed.

#[export] Hint Resolve u32_range u64_range : redisops.
#[export] Hint Rewrite u32_small u64_small using (unfold in_u32, in_u64 in *; lia) : redisops.

(** ** Bytes and strings *)

(** A [uint8_t] or a [char] is an [ascii]; a [std::vector<uint8_t>] is a
    [list ascii] and a [std::string] is a [string] (embedded NULs allowed). *)
Abbreviation byte := Ascii.ascii (only parsing).

Definition byte_val (b : byte) : Z := Z.of_N (Ascii.N_of_ascii b).
Definition byte_of (z : Z) : byte := Ascii.ascii_of_N (Z.to_N (z mod 256)).

Lemma byte_val_range b : 0 <= byte_val b < 256.
Proof.
  unfold byte_val. assert (H := Ascii.N_ascii_bounded b). lia.
Qed.

Lemma byte_of_val b : byte_of (byte_val b) = b.
Proof.
  unfold byte_of. rewrite Z.mod_small by apply byte_val_range.
  unfold byte_val. rewrite N2Z.id. apply Ascii.ascii_N_embedding.
Qed.

Lemma byte_val_of z : byte_val (byte_of z) = z mod 256.
Proof.
  unfold byte_val, byte_of. rewrite Ascii.N_ascii_embedding.
  - apply Z2N.id. apply Z.mod_pos_bound. lia.
  - assert (0 <= z mod 256 < 256) by (apply Z.mod_pos_bound; lia). lia.
Qed.

(** Little-endian memory image of an [n]-byte integer, and its reading. *)
Fixpoint le_bytes (n : nat) (z : Z) : list byte :=
  match n with
  | O => []
  | S n => byte_of z :: le_bytes n (z / 256)
  end.

Fixpoint le_val (bs : list byte) : Z :=
  match bs with
  | [] => 0
  | b :: bs => byte_val b + 256 * le_val bs
  end.

Lemma length_le_bytes n z : length (le_bytes n z) = n.
Proof. revert z; induction n; simpl; auto. Qed.

Lemma le_val_bytes n z : le_val (le_bytes n z) = wrap (8 * Z.of_nat n) z.
Proof.
  revert z; induction n as [|n IH]; intros z; simpl le_bytes; simpl le_val.
  - unfold wrap. rewrite Z.mul_0_r, Z.pow_0_r, Z.mod_1_r. reflexivity.
  - rewrite IH, byte_val_of. unfold wrap.
    replace (8 * Z.of_nat (S n)) with (8 + 8 * Z.of_nat n) by lia.
    rewrite Z.pow_add_r by lia. change (2 ^ 8) with 256.
    rewrite Z.rem_mul_r by lia. reflexivity.
Qed.

Lemma le_val_range bs : 0 <= le_val bs < 2 ^ (8 * Z.of_nat (length bs)).
Proof.
  induction bs as [|b bs IH]; simpl le_val; simpl length.
  - lia.
  - assert (H := byte_val_range b).
    replace (8 * Z.of_nat (S (length bs))) with (8 + 8 * Z.of_nat (length bs)) by lia.
    rewrite Z.pow_add_r by lia. change (2 ^ 8) with 256. lia.
Qed.

#[export] Hint Rewrite length_le_bytes : redisops.
#[global] Arguments le_bytes : simpl never.
#[global] Arguments le_val : simpl never.

(** [std::string(v.begin(), v.end())] and back. *)
Definition string_of (bs : list byte) : string := String.string_of_list_ascii bs.
Definition bytes_of (s : string) : list byte := String.list_ascii_of_string s.

Lemma string_of_bytes s : string_of (bytes_of s) = s.
Proof. apply String.string_of_list_ascii_of_string. Qed.
Lemma bytes_of_string bs : bytes_of (string_of bs) = bs.
Proof. apply String.list_ascii_of_string_of_list_ascii. Qed.
Lemma length_bytes_of s : length (bytes_of s) = String.length s.
Proof. induction s; simpl; auto. Qed.
Lemma bytes_of_app s t : bytes_of (s +:+ t) = bytes_of s ++ bytes_of t.
Proof. induction s; simpl; f_equal; auto. Qed.
Lemma string_of_app a b : string_of (a ++ b) = string_of a +:+ string_of b.
Proof. induction a; simpl; [done|]. unfold string_of in *. by rewrite IHa. Qed.

#[export] Hint Rewrite string_of_bytes bytes_of_string bytes_of_app : redisops.

(** ** Lists *)

(** The last [n] elements, in order. *)
Definition lastn {A} (n : nat) (l : list A) : list A := drop (length l - n) l.

Lemma length_lastn {A} n (l : list A) : length (lastn n l) = (n `min` length l)%nat.
Proof. unfold lastn. rewrite length_drop. lia. Qed.

Lemma lastn_all {A} n (l : list A) : (length l <= n)%nat -> lastn n l = l.
Proof. intros. unfold lastn. replace (length l - n)%nat with O by lia. done. Qed.

Lemma lastn_suffix {A} n (l : list A) : lastn n l `suffix_of` l.
Proof. exists (take (length l - n) l). symmetry. apply take_drop. Qed.

Lemma lastn_snoc_S {A} n (l : list A) x : lastn (S n) (l ++ [x]) = lastn n l ++ [x].
Proof.
  unfold lastn. rewrite length_app. simpl.
  replace (length l + 1 - S n)%nat with (length l - n)%nat by lia.
  rewrite drop_app_le by lia. done.
Qed.

Lemma lastn_app_r {A} n (l k : list A) : (n <= length k)%nat -> lastn n (l ++ k) = lastn n k.
Proof.
  intros H. unfold lastn. rewrite length_app.
  rewrite drop_app_ge by lia. f_equal. lia.
Qed.

Lemma lastn_app_lastn {A} n (l k : list A) : lastn n (lastn n l ++ k) = lastn n (l ++ k).
Proof.
  destruct (decide (n <= length k)%nat); [by rewrite !lastn_app_r by done|].
  rewrite <- (take_drop (length l - n) l) at 2. rewrite <- app_assoc.
  change (drop (length l - n) l) with (lastn n l).
  unfold lastn at 1 3. rewrite !length_app, length_lastn, length_take.
  destruct (decide (length l <= n)%nat).
  - replace (length l - n)%nat with O by lia. done.
  - rewrite (drop_app_ge (take _ _)) by (rewrite length_take; lia).
    f_equal. rewrite length_take. lia.
Qed.

Lemma lastn_rev_take {A} n (l : list A) : reverse (take n (reverse l)) = lastn n l.
Proof. unfold lastn. by rewrite take_reverse, reverse_involutive. Qed.

(** [while (d.size() > n) d.pop_front()]: the loop the bounded buffers share. *)
Fixpoint pop_front_while {A} (n : nat) (l : list A) : list A :=
  match l with
  | [] => []
  | x :: l' => if decide (n < length l)%nat then pop_front_while n l' else l
  end.

Lemma pop_front_while_lastn {A} n (l : list A) : pop_front_while n l = lastn n l.
Proof.
  induction l as [|x l IH]; [done|]. simpl. case_decide.
  - rewrite IH. unfold lastn. simpl length.
    replace (S (length l) - n)%nat with (S (length l - n)) by lia. done.
  - rewrite lastn_all by (simpl; lia). done.
Qed.

(** [for (i = size > n ? size - n : 0; i < size; i++) result.push_back(v[i])]:
    the copy-out loop of the [get_*] functions, over the index [i]. *)
Fixpoint copy_from {A} (fuel i : nat) (l : list A) : list A :=
  match fuel with
  | O => []
  | S fuel => match l !! i with Some x => x :: copy_from fuel (S i) l | None => [] end
  end.

Lemma copy_from_drop {A} fuel i (l : list A) :
  (length l - i <= fuel)%nat -> copy_from fuel i l = drop i l.
Proof.
  revert i; induction fuel as [|fuel IH]; intros i H; simpl.
  - by rewrite drop_ge by lia.
  - destruct (l !! i) eqn:E.
    + rewrite IH by lia. symmetry. by apply drop_S.
    + apply lookup_ge_None in E. by rewrite drop_ge by lia.
Qed.

Lemma copy_tail_lastn {A} n (l : list A) :
  copy_from (length l) (if decide (n < length l)%nat then (length l - n)%nat else O) l = lastn n l.
Proof. unfold lastn. case_decide; rewrite copy_from_drop by lia; f_equal; lia. Qed.

(** ** Wait statuses

    The macros of Linux's [<sys/wait.h>], and the statuses the kernel builds
    for a process that exits and for one a signal kills. *)

Definition WEXITSTATUS (st : Z) : Z := Z.land (Z.shiftr st 8) 255.
Definition WTERMSIG (st : Z) : Z := Z.land st 127.
Definition WIFEXITED (st : Z) : bool := WTERMSIG st =? 0.
(** [((signed char)((st & 0x7f) + 1) >> 1) > 0] *)
Definition WIFSIGNALED (st : Z) : bool := 0 <? Z.shiftr (to_signed 8 (WTERMSIG st + 1)) 1.

Definition exited (code : Z) : Z := Z.shiftl code 8.
Definition signaled (sig : Z) : Z := sig.

Lemma WEXITSTATUS_range st : 0 <= WEXITSTATUS st < 256.
Proof.
  unfold WEXITSTATUS. change 255 with (Z.ones 8). rewrite Z.land_ones by lia.
  apply Z.mod_pos_bound. lia.
Qed.

Lemma WEXITSTATUS_small n : 0 <= n < 256 -> WEXITSTATUS n = 0.
Proof.
  intros H. unfold WEXITSTATUS. rewrite Z.shiftr_div_pow2 by lia. by rewrite Z.div_small by lia.
Qed.

Lemma WTERMSIG_mod st : WTERMSIG st = st mod 128.
Proof. unfold WTERMSIG. change 127 with (Z.ones 7). by rewrite Z.land_ones by lia. Qed.

Lemma wait_exited code :
  0 <= code < 256 -> WIFEXITED (exited code) = true /\ WEXITSTATUS (exited code) = code.
Proof.
  intros H. unfold WIFEXITED, exited. rewrite WTERMSIG_mod, Z.shiftl_mul_pow2 by lia. split.
  - apply Z.eqb_eq. change (2 ^ 8) with (2 * 128). rewrite Z.mul_assoc. apply Z_mod_mult.
  - unfold WEXITSTATUS. rewrite Z.shiftr_div_pow2 by lia. rewrite Z.div_mul by lia.
    change 255 with (Z.ones 8). rewrite Z.land_ones by lia. by rewrite Z.mod_small by lia.
Qed.

Lemma wait_signaled sig :
  0 < sig < 127 ->
  WIFEXITED (signaled sig) = false /\ WIFSIGNALED (signaled sig) = true /\ WTERMSIG (signaled sig) = sig.
Proof.
  intros H. assert (E : WTERMSIG (signaled sig) = sig) by (rewrite WTERMSIG_mod; apply Z.mod_small; unfold signaled; lia).
  unfold WIFEXITED, WIFSIGNALED. rewrite E. repeat split; [apply Z.eqb_neq; lia|].
  unfold to_signed. rewrite wrap_small by lia. change (2 ^ (8 - 1)) with 128.
  rewrite (proj2 (Z.ltb_lt (sig + 1) 128)) by lia.
  apply Z.ltb_lt. rewrite Z.shiftr_div_pow2 by lia. change (2 ^ 1) with 2.
  apply Z.div_str_pos. lia.
Qed.

(** ** Ordered maps *)

(** The keys of a [std::map] with string keys, in its order. *)
Definition sorted_keys {A} (m : gmap string A) : list string := merge_sort String.le (map_to_list m).*1.

Lemma sorted_keys_elem {A} (m : gmap string A) k : k ∈ sorted_keys m <-> is_Some (m !! k).
Proof.
  unfold sorted_keys. rewrite merge_sort_Permutation, list_elem_of_fmap. split.
  - intros ([n a] & -> & H). apply elem_of_map_to_list in H. by exists a.
  - intros [a H]. exists (k, a). split; [done|]. by apply elem_of_map_to_list.
Qed.

Lemma NoDup_sorted_keys {A} (m : gmap string A) : NoDup (sorted_keys m).
Proof. unfold sorted_keys. rewrite merge_sort_Permutation. apply NoDup_fst_map_to_list. Qed.

Lemma Sorted_sorted_keys {A} (m : gmap string A) : Sorted String.le (sorted_keys m).
Proof. apply (Sorted_merge_sort String.le). Qed.

(** ** Tactics *)

(** Case analysis on the code's tests. *)
Ltac case_tests :=
  repeat match goal with
  | |- context [if ?b then _ else _] => destruct b eqn:?; simpl
  | H : context [if ?b then _ else _] |- _ => destruct b eqn:?; simpl in H
  end.

(** Inverts a chain of binds that returned. *)
Ltac inv_binds :=
  repeat match goal with
  | H : (_ ≫= _) = Ret _ |- _ =>
      apply bind_Ret_inv in H; destruct H as (? & ? & H); simpl in H
  end; simplify_eq.
