(* ===== verification/Descriptors.v ===== *)
(** * File descriptors opened and closed

    The trace of a program's calls that open a descriptor ([socket],
    [inotify_init1]) or [close] one, and what it holds after them.  A number
    the system gives out again counts once for every time it was opened. *)

From stdpp Require Import base list numbers.
From S2P Require Import Prelude.

Inductive fd_call := Opened (fd : Z) | Closed (fd : Z).

(** A list without one occurrence of an element. *)
Fixpoint remove (fd : Z) (l : list Z) : option (list Z) :=
  match l with
  | [] => None
  | x :: l => if decide (x = fd) then Some l else cons x <$> remove fd l
  end.

(** The descriptors held after the calls; [None] if one was closed that was
    not held: a second [close], or the [close] of something never opened. *)
Fixpoint held (l : list Z) (calls : list fd_call) : option (list Z) :=
  match calls with
  | [] => Some l
  | Opened fd :: calls => held (fd :: l) calls
  | Closed fd :: calls => l ← remove fd l; held l calls
  end.

(** [socket] and its kind give a descriptor or a negative number. *)
Definition opens (fd : Z) : list fd_call := if fd <? 0 then [] else [Opened fd].

(** What a variable that is negative when empty holds. *)
Definition holds (fd : Z) : list Z := if fd <? 0 then [] else [fd].

(** The descriptors in [own] are those held after [calls]. *)
Definition owner (calls : list fd_call) (own : list Z) : Prop := exists l, held [] calls = Some l /\ l ≡ₚ own.

Lemma held_app l calls calls' : held l (calls ++ calls') = held l calls ≫= fun l' => held l' calls'.
Proof.
  revert l. induction calls as [|[fd|fd] calls IH]; intros l; cbn [held app]; [done|apply IH|].
  destruct (remove fd l) as [l1|]; [apply IH|done].
Qed.

Lemma remove_Some fd l l' : remove fd l = Some l' -> l ≡ₚ fd :: l'.
Proof.
  revert l'. induction l as [|x l IH]; intros l'; cbn; [done|]. case_decide as Hx; [by intros [= <-]; subst|].
  intros (l1 & El & ->)%fmap_Some. rewrite (IH _ El). apply perm_swap.
Qed.

Lemma remove_in fd l : fd ∈ l -> is_Some (remove fd l).
Proof.
  induction l as [|x l IH]; intros Hin; cbn; [by apply not_elem_of_nil in Hin|]. case_decide as Hx; [by eexists|].
  apply elem_of_cons in Hin as [->|Hin]; [done|]. by apply fmap_is_Some, IH.
Qed.

Lemma remove_held fd l own : l ≡ₚ fd :: own -> exists l', remove fd l = Some l' /\ l' ≡ₚ own.
Proof.
  intros Hl. destruct (remove_in fd l) as [l' E]; [rewrite Hl; by left|]. exists l'. split; [done|].
  apply (Permutation_cons_inv (a := fd)). by rewrite <- (remove_Some _ _ _ E).
Qed.

Lemma owner_perm calls own own' : own ≡ₚ own' -> owner calls own -> owner calls own'.
Proof. intros Hp (l & Hl & Hl'). exists l. split; [done|]. by etrans. Qed.

Lemma remove_app fd l l' rest : remove fd l = Some l' -> remove fd (l ++ rest) = Some (l' ++ rest).
Proof.
  revert l'. induction l as [|x l IH]; intros l'; cbn; [done|]. case_decide; [by intros [= <-]|].
  intros (l1 & El & ->)%fmap_Some. by rewrite (IH _ El).
Qed.

Lemma held_frame calls l l' rest : held l calls = Some l' -> held (l ++ rest) calls = Some (l' ++ rest).
Proof.
  revert l. induction calls as [|[fd|fd] calls IH]; intros l; cbn [held]; [by intros [= <-]|apply (IH (fd :: l))|].
  destruct (remove fd l) as [l1|] eqn:E; [|done]. rewrite (remove_app _ _ _ _ E). apply IH.
Qed.

(** One part of a program after another. *)
Lemma owner_app calls calls' own own' : owner calls own -> owner calls' own' -> owner (calls ++ calls') (own' ++ own).
Proof.
  intros (l & Hl & Hp) (l' & Hl' & Hp'). exists (l' ++ l). rewrite held_app, Hl. split; [|by rewrite Hp, Hp'].
  exact (held_frame _ [] _ _ Hl').
Qed.

Lemma owner_none : owner [] [].
Proof. by exists []. Qed.

Lemma owner_opened fd : owner (opens fd) (holds fd).
Proof. unfold opens, holds. destruct (fd <? 0); by eexists. Qed.

(** A descriptor opened and closed at once. *)
Lemma owner_round fd : owner [Opened fd; Closed fd] [].
Proof. exists []. cbn. by rewrite decide_True. Qed.

(** The [close] of what a variable holds, if it holds something. *)
Definition closes (fd : Z) : list fd_call := if 0 <=? fd then [Closed fd] else [].

Lemma owner_closes calls own fd : owner calls (holds fd ++ own) -> owner (calls ++ closes fd) own.
Proof.
  unfold holds, closes. destruct (Z.ltb_spec fd 0), (Z.leb_spec 0 fd); try lia; [by rewrite app_nil_r|].
  intros (l & Hl & Hp). destruct (remove_held _ _ _ Hp) as (l' & Hr & Hp'). exists l'. split; [|done].
  rewrite held_app, Hl. cbn. by rewrite Hr.
Qed.
