(* ===== verification/Float.v ===== *)
(** * [f64] as its bits

    The server keeps and sends doubles as their 64 bits.  Here the bits are
    read as the binary64 numbers of the Standard Library ([SpecFloat]), with
    the comparisons Rust makes on them; on numbers that are no NaN these are
    the comparisons of the bits read as sign and magnitude, which makes them
    orders. *)

From stdpp Require Import base numbers.
From Stdlib Require Import ZArith Lia SpecFloat.
From S2P Require Import Prelude.

Module F64.

Definition prec : Z := 53.
Definition emax : Z := 1024.

Definition negative (b : Z) : bool := 2 ^ 63 <=? b.
Definition exponent (b : Z) : Z := (b / 2 ^ 52) mod 2 ^ 11.
Definition fraction (b : Z) : Z := b mod 2 ^ 52.

(** [f64::from_bits]. *)
Definition of_bits (b : Z) : spec_float :=
  let s := negative b in
  if exponent b =? 2047 then if fraction b =? 0 then S754_infinity s else S754_nan
  else if exponent b =? 0 then
    if fraction b =? 0 then S754_zero s else S754_finite s (Z.to_pos (fraction b)) (-1074)
  else S754_finite s (Z.to_pos (fraction b + 2 ^ 52)) (exponent b - 1075).

(** [f64::to_bits]; the one NaN there is is the quiet one. *)
Definition to_bits (x : spec_float) : Z :=
  let sign (s : bool) := if s then 2 ^ 63 else 0 in
  match x with
  | S754_zero s => sign s
  | S754_infinity s => sign s + 2047 * 2 ^ 52
  | S754_nan => 2047 * 2 ^ 52 + 2 ^ 51
  | S754_finite s m e =>
      if Z.pos m <? 2 ^ 52 then sign s + Z.pos m else sign s + (e + 1075) * 2 ^ 52 + (Z.pos m - 2 ^ 52)
  end.

(** [n as f64]. *)
Definition of_int (n : Z) : Z := to_bits (binary_normalize prec emax n 0 false).

(** [a < b], [a == b], [(a - b).abs() < f64::EPSILON]. *)
Definition lt (a b : Z) : bool := SFltb (of_bits a) (of_bits b).
Definition eq (a b : Z) : bool := SFeqb (of_bits a) (of_bits b).
Definition EPSILON : spec_float := S754_finite false (2 ^ 52) (-104).
Definition close (a b : Z) : bool := SFltb (SFabs (SFsub prec emax (of_bits a) (of_bits b))) EPSILON.

(** A number: 64 bits that are no NaN. *)
Definition number (b : Z) : Prop := in_u64 b /\ of_bits b <> S754_nan.

(** Sign and magnitude as an integer. *)
Definition key (b : Z) : Z := if negative b then 2 ^ 63 - b else b.

Lemma bits_parts b : in_u64 b ->
  b = (if negative b then 2 ^ 63 else 0) + exponent b * 2 ^ 52 + fraction b /\
  0 <= exponent b < 2048 /\ 0 <= fraction b < 2 ^ 52.
Proof.
  unfold in_u64, negative, exponent, fraction. intros Hb.
  pose proof (Z.mod_pos_bound (b / 2 ^ 52) (2 ^ 11) ltac:(lia)).
  pose proof (Z.mod_pos_bound b (2 ^ 52) ltac:(lia)).
  split; [|lia].
  pose proof (Z.div_mod b (2 ^ 52) ltac:(lia)). pose proof (Z.div_mod (b / 2 ^ 52) (2 ^ 11) ltac:(lia)) as Hd.
  rewrite Z.div_div in Hd by lia. change (2 ^ 52 * 2 ^ 11) with (2 ^ 63) in Hd.
  destruct (Z.leb_spec (2 ^ 63) b).
  - assert (b / 2 ^ 63 = 1) by (symmetry; apply (Z.div_unique b (2 ^ 63) 1 (b - 2 ^ 63)); lia). lia.
  - assert (b / 2 ^ 63 = 0) by (apply Z.div_small; lia). lia.
Qed.

Lemma pos_compare x y : 0 < x -> 0 < y -> Pos.compare (Z.to_pos x) (Z.to_pos y) = (x ?= y).
Proof. intros. by rewrite <- Z2Pos.inj_compare. Qed.

(** The order of two numbers is that of their keys. *)
Lemma compare_key a b : number a -> number b -> SFcompare (of_bits a) (of_bits b) = Some (key a ?= key b).
Proof.
  intros [Ha Hna] [Hb Hnb]. destruct (bits_parts a Ha) as (Ea & Hea & Hfa), (bits_parts b Hb) as (Eb & Heb & Hfb).
  unfold of_bits, key in *.
  assert (Hpow : 2 ^ 52 = 4503599627370496 /\ 2 ^ 63 = 9223372036854775808) by done. destruct Hpow as [H52 H63].
  rewrite H52, H63 in *.
  destruct (negative a), (negative b), (Z.eqb_spec (exponent a) 2047), (Z.eqb_spec (exponent b) 2047),
    (Z.eqb_spec (exponent a) 0), (Z.eqb_spec (exponent b) 0), (Z.eqb_spec (fraction a) 0), (Z.eqb_spec (fraction b) 0);
    try lia; try done; cbn [SFcompare]; f_equal;
    repeat match goal with
    | |- context [Pos.compare_cont Eq ?x ?y] =>
        change (Pos.compare_cont Eq x y) with (Pos.compare x y); rewrite pos_compare by lia
    | |- context [?x ?= ?y] => destruct (Z.compare_spec x y)
    end; first [done|lia].
Qed.

Lemma lt_key a b : number a -> number b -> lt a b = (key a <? key b).
Proof.
  intros Ha Hb. unfold lt, SFltb. rewrite compare_key by done. unfold Z.ltb. by destruct (key a ?= key b).
Qed.

Lemma eq_key a b : number a -> number b -> eq a b = (key a =? key b).
Proof.
  intros Ha Hb. unfold eq, SFeqb. rewrite compare_key by done. rewrite Z.eqb_compare. by destruct (key a ?= key b).
Qed.


End F64.
