(* ===== verification/Bounded.v ===== *)
(** * Bounded logs

    What [LogAggregator], the audit log of [SecurityManager] and the history
    of [ResourceMonitor] have in common: an operation appends entries at the
    back and drops as many at the front as there are above a bound, and a
    query copies the last ones.  The class states it, each of the three has
    an instance in its own file, and what a run of operations keeps is proved
    here once. *)

From stdpp Require Import base list.
From Stdlib Require Import Lia.
From S2P Require Import Prelude.

Class BoundedLog (L Op E : Type) := {
  perform : Op -> L -> L;
  kept : L -> list E;
  bound : L -> nat;
  logged : Op -> L -> list E;           (**r what the operation appends *)
  recent : nat -> L -> list E;          (**r the query *)
  perform_kept o l : (length (kept l) <= bound l)%nat ->
    kept (perform o l) = lastn (bound l) (kept l ++ logged o l);
  perform_bound o l : bound (perform o l) = bound l;
  recent_kept n l : recent n l = lastn n (kept l)
}.

Section Runs.
Context {L Op E : Type} `{BoundedLog L Op E}.

#[local] Set Default Proof Using "Type*".

Definition performs (ops : list Op) (l : L) : L := foldl (fun l o => perform o l) l ops.

(** All that a run appends, in order. *)
Fixpoint all_logged (ops : list Op) (l : L) : list E :=
  match ops with
  | [] => []
  | o :: ops => logged o l ++ all_logged ops (perform o l)
  end.

Lemma performs_bound ops l : bound (performs ops l) = bound l.
Proof. revert l. induction ops as [|o ops IH]; intros l; [done|]. cbn. rewrite <- (perform_bound o l). apply IH. Qed.

(** A run keeps the last entries of all that was ever logged. *)
Lemma performs_kept ops l :
  (length (kept l) <= bound l)%nat -> kept (performs ops l) = lastn (bound l) (kept l ++ all_logged ops l).
Proof.
  revert l. induction ops as [|o ops IH]; intros l Hl; [by rewrite app_nil_r, lastn_all|].
  change (performs (o :: ops) l) with (performs ops (perform o l)).
  rewrite IH; rewrite perform_kept, perform_bound by done; [|rewrite length_lastn; lia].
  by rewrite lastn_app_lastn, <- app_assoc.
Qed.

Lemma performs_bounded ops l : (length (kept l) <= bound l)%nat -> (length (kept (performs ops l)) <= bound l)%nat.
Proof. intros Hl. rewrite performs_kept by done. rewrite length_lastn. lia. Qed.

Lemma recent_performs n ops l :
  (length (kept l) <= bound l)%nat ->
  recent n (performs ops l) = lastn n (lastn (bound l) (kept l ++ all_logged ops l)).
Proof. intros Hl. by rewrite recent_kept, performs_kept. Qed.

(** An entry is there as long as what was logged since then fits the bound. *)
Lemma logged_kept o ops l :
  (length (kept l) <= bound l)%nat ->
  (length (logged o l) + length (all_logged ops (perform o l)) <= bound l)%nat ->
  logged o l ++ all_logged ops (perform o l) `suffix_of` kept (performs (o :: ops) l).
Proof.
  intros Hl Hn. rewrite performs_kept by done. cbn [all_logged].
  set (new := logged o l ++ all_logged ops (perform o l)).
  assert (Hnew : (length new <= bound l)%nat) by (unfold new; rewrite length_app; lia).
  clearbody new. unfold lastn. rewrite length_app.
  exists (drop (length (kept l) + length new - bound l) (kept l)).
  apply drop_app_le. lia.
Qed.

End Runs.
