(* ===== verification/Text.v ===== *)
(** * Strings: the [std::string] and number-parsing functions the runtime uses

    [std::to_string] is stdpp's decimal [pretty]; [std::stoull] and
    [std::stoi] are written out from the standard (leading white space, an
    optional sign, digits up to the first other character, the two
    exceptions).  A search returns [None] for [std::string::npos]. *)

From stdpp Require Import base strings list pretty numbers.
From Stdlib Require Import ZArith Lia.
From Stdlib Require Ascii String.
From S2P Require Import Prelude.

(** [std::to_string(n)], for any integral type. *)
Definition to_string (z : Z) : string := pretty z.

(** [std::string::find(pat, from)]. *)
Definition find (s pat : string) (from : nat) : option nat := String.index from pat s.

(** [s.find(pat) != npos]. *)
Definition contains (s pat : string) : bool := bool_decide (is_Some (find s pat 0)).

(** [s.starts_with(pat)], also [s.find(pat) == 0] (see [find_0_prefix]). *)
Definition starts_with (s pat : string) : bool := String.prefix pat s.

(** [s.substr(pos, n)]. *)
Definition substr (s : string) (pos n : nat) : outcome string :=
  if decide (String.length s < pos)%nat then Throw OutOfRange
  else Ret (String.substring pos n s).

(** [s.substr(pos)]. *)
Definition substr_from (s : string) (pos : nat) : outcome string :=
  substr s pos (String.length s - pos).

(** [s.c_str()] read as a C string: up to the first NUL. *)
Fixpoint c_str (s : string) : string :=
  match s with
  | EmptyString => EmptyString
  | String c s => if byte_val c =? 0 then EmptyString else String c (c_str s)
  end.

(** ** Number parsing *)

Definition is_space (c : byte) : bool :=
  ((9 <=? byte_val c) && (byte_val c <=? 13)) || (byte_val c =? 32).

Definition is_digit (c : byte) : bool := (48 <=? byte_val c) && (byte_val c <=? 57).
Definition digit_val (c : byte) : Z := byte_val c - 48.

Fixpoint skip_space (s : string) : string :=
  match s with
  | String c s' => if is_space c then skip_space s' else s
  | EmptyString => s
  end.

(** The optional sign: whether it is a minus, and the rest. *)
Definition read_sign (s : string) : bool * string :=
  match s with
  | String c s' =>
      if byte_val c =? 45 then (true, s') else if byte_val c =? 43 then (false, s') else (false, s)
  | EmptyString => (false, s)
  end.

Fixpoint read_digits (acc : Z) (s : string) : Z * string :=
  match s with
  | String c s' => if is_digit c then read_digits (10 * acc + digit_val c) s' else (acc, s)
  | EmptyString => (acc, s)
  end.

Definition starts_with_digit (s : string) : bool :=
  match s with String c _ => is_digit c | EmptyString => false end.

(** What [strtoull]/[strtol] convert: the sign and the magnitude, if any. *)
Definition convert (s : string) : option (bool * Z) :=
  let '(neg, s1) := read_sign (skip_space s) in
  if starts_with_digit s1 then Some (neg, (read_digits 0 s1).1) else None.

(** [std::stoull(s)]: a minus sign negates modulo 2^64. *)
Definition stoull (s : string) : outcome Z :=
  match convert s with
  | None => Throw InvalidArgument
  | Some (neg, v) =>
      if decide (2 ^ 64 <= v) then Throw OutOfRange else Ret (if neg then u64 (- v) else v)
  end.

(** [std::stoi(s)]. *)
Definition stoi (s : string) : outcome Z :=
  match convert s with
  | None => Throw InvalidArgument
  | Some (neg, v) =>
      let z := if neg then - v else v in
      if decide (- 2 ^ 31 <= z < 2 ^ 31) then Ret z else Throw OutOfRange
  end.

(** [std::istringstream(s) >> n] for a [uint64_t n]: 0 when there is no
    number, the greatest value when it does not fit.  The last component is
    the unread rest, [None] once the stream has failed. *)
Definition extract_u64 (s : string) : Z * option string :=
  let '(neg, s1) := read_sign (skip_space s) in
  if starts_with_digit s1 then
    let '(v, rest) := read_digits 0 s1 in
    if decide (2 ^ 64 <= v) then (2 ^ 64 - 1, None)
    else (if neg then u64 (- v) else v, Some rest)
  else (0, None).

(** The variable after [iss >> n]: at the end of the input it keeps its value. *)
Definition extract_into (old : Z) (s : string) : Z :=
  match skip_space s with EmptyString => old | _ => (extract_u64 s).1 end.

(** ** Decimal round trip *)

Lemma pretty_N_char_digit n :
  (n < 10)%N -> is_digit (pretty_N_char n) = true /\ digit_val (pretty_N_char n) = Z.of_N n.
Proof.
  intros H. assert (E : n ∈ [0;1;2;3;4;5;6;7;8;9]%N).
  { rewrite !elem_of_cons. lia. }
  repeat (apply elem_of_cons in E as [->|E]; [by vm_compute|]).
  by apply elem_of_nil in E.
Qed.

Lemma read_digits_pretty_go (n : N) s :
  read_digits 0 (pretty_N_go n s) = read_digits (Z.of_N n) s.
Proof.
  revert s. induction (N.lt_wf_0 n) as [n _ IH]; intros s.
  destruct (decide (0 < n)%N) as [Hn|Hn].
  - rewrite pretty_N_go_step by done.
    rewrite IH by (apply N.div_lt; lia). simpl.
    destruct (pretty_N_char_digit (n `mod` 10)) as [-> ->]; [by apply N.mod_lt|].
    f_equal. pose proof (N.Div0.div_mod n 10). lia.
  - assert (n = 0%N) as -> by lia. by rewrite pretty_N_go_0.
Qed.

Lemma pretty_N_go_app (n : N) s t : pretty_N_go n (s +:+ t) = pretty_N_go n s +:+ t.
Proof.
  revert s. induction (N.lt_wf_0 n) as [n _ IH]; intros s.
  destruct (decide (0 < n)%N) as [Hn|Hn].
  - rewrite !(pretty_N_go_step n) by done.
    rewrite <- IH by (apply N.div_lt; lia). done.
  - assert (n = 0%N) as -> by lia. by rewrite !pretty_N_go_0.
Qed.

(** A string all of whose characters satisfy [P]. *)
Fixpoint all_chars (P : byte -> bool) (s : string) : bool :=
  match s with
  | EmptyString => true
  | String c s => P c && all_chars P s
  end.

Lemma all_chars_app P s t : all_chars P (s +:+ t) = all_chars P s && all_chars P t.
Proof. induction s as [|c s IH]; [done|]. simpl. by rewrite IH, andb_assoc. Qed.

Lemma all_chars_impl (P Q : byte -> bool) s :
  (forall c, P c = true -> Q c = true) -> all_chars P s = true -> all_chars Q s = true.
Proof.
  intros H. induction s as [|c s IH]; [done|]. cbn. rewrite !andb_true_iff. intros [? ?]; auto.
Qed.

(** No embedded NUL. *)
Definition nul_free (s : string) : Prop := all_chars (fun c => negb (byte_val c =? 0)) s = true.

Lemma pretty_N_go_digits (n : N) s :
  all_chars is_digit s = true -> all_chars is_digit (pretty_N_go n s) = true.
Proof.
  revert s. induction (N.lt_wf_0 n) as [n _ IH]; intros s Hs.
  destruct (decide (0 < n)%N) as [Hn|Hn].
  - rewrite pretty_N_go_step by done. apply IH; [by apply N.div_lt; lia|]. simpl.
    destruct (pretty_N_char_digit (n `mod` 10)) as [-> _]; [by apply N.mod_lt|done].
  - assert (n = 0%N) as -> by lia. by rewrite pretty_N_go_0.
Qed.

Lemma to_string_N (n : N) :
  to_string (Z.of_N n) = if decide (n = 0)%N then "0" else pretty_N_go n "".
Proof. by destruct n. Qed.

(** The decimal text of a non-negative number: digits only, at least one. *)
Lemma to_string_digits z : 0 <= z -> all_chars is_digit (to_string z) = true.
Proof.
  intros Hz. rewrite <- (Z2N.id z) by done. rewrite to_string_N.
  case_decide; [by vm_compute|]. by apply pretty_N_go_digits.
Qed.

Lemma to_string_nul_free z : 0 <= z -> nul_free (to_string z).
Proof.
  intros Hz. eapply all_chars_impl; [|by apply to_string_digits].
  intros c Hc. unfold is_digit in Hc. apply andb_true_iff in Hc as [H _].
  apply negb_true_iff, Z.eqb_neq. lia.
Qed.

Lemma to_string_nonempty z : 0 <= z -> to_string z <> EmptyString.
Proof.
  intros Hz. rewrite <- (Z2N.id z) by done. rewrite to_string_N.
  case_decide as E; [done|]. intros H.
  pose proof (read_digits_pretty_go (Z.to_N z) "") as R. rewrite H in R. simpl in R.
  injection R. lia.
Qed.

Lemma read_digits_to_string z rest :
  0 <= z -> read_digits 0 (to_string z +:+ rest) = read_digits z rest.
Proof.
  intros Hz. rewrite <- (Z2N.id z) by done. rewrite to_string_N. case_decide as E.
  - rewrite E. done.
  - rewrite <- pretty_N_go_app. rewrite read_digits_pretty_go. done.
Qed.

Lemma digit_not_space c : is_digit c = true -> is_space c = false.
Proof. unfold is_digit, is_space. rewrite !andb_true_iff, !orb_false_iff, !andb_false_iff. lia. Qed.

Lemma digit_no_sign c s : is_digit c = true -> read_sign (String c s) = (false, String c s).
Proof.
  unfold is_digit, read_sign. rewrite andb_true_iff. intros.
  destruct (Z.eqb_spec (byte_val c) 45); [lia|]. destruct (Z.eqb_spec (byte_val c) 43); [lia|done].
Qed.

(** The text of a number followed by a non-digit converts back, with or
    without leading spaces. *)
Lemma convert_to_string z rest :
  0 <= z -> starts_with_digit rest = false -> convert (to_string z +:+ rest) = Some (false, z).
Proof.
  intros Hz Hr. pose proof (to_string_digits z Hz) as Hd.
  pose proof (read_digits_to_string z rest Hz) as R.
  destruct (to_string z) as [|c s] eqn:E; [by apply to_string_nonempty in E|].
  simpl in Hd. apply andb_true_iff in Hd as [Hc _].
  change (String c s +:+ rest) with (String c (s +:+ rest)) in R |- *.
  assert (Rr : read_digits z rest = (z, rest)).
  { destruct rest as [|d rest]; [done|]. simpl in Hr |- *. by rewrite Hr. }
  unfold convert. cbn [skip_space]. rewrite (digit_not_space c Hc), (digit_no_sign c _ Hc).
  cbn [starts_with_digit]. rewrite Hc, R, Rr. done.
Qed.

Lemma convert_space c s : is_space c = true -> convert (String c s) = convert s.
Proof. intros H. unfold convert. cbn [skip_space]. by rewrite H. Qed.

Lemma stoull_to_string z rest :
  in_u64 z -> starts_with_digit rest = false -> stoull (to_string z +:+ rest) = Ret z.
Proof.
  intros Hz Hr. unfold stoull, in_u64 in *. rewrite convert_to_string by (lia || done).
  case_decide; [lia|done].
Qed.

Lemma string_app_nil s : s +:+ "" = s.
Proof. induction s as [|c s IH]; [done|]. change (String c (s +:+ "") = String c s). by rewrite IH. Qed.

Lemma stoull_of_to_string z : in_u64 z -> stoull (to_string z) = Ret z.
Proof. intros. rewrite <- (string_app_nil (to_string z)). by apply stoull_to_string. Qed.

(** At most [k] digits below [10 ^ k]. *)
Lemma length_pretty_N_go (k : nat) : forall (n : N) s,
  Z.of_N n < 10 ^ Z.of_nat k -> (String.length (pretty_N_go n s) <= k + String.length s)%nat.
Proof.
  induction k as [|k IH]; intros n s Hn.
  - assert (n = 0%N) as -> by (change (10 ^ Z.of_nat 0) with 1 in Hn; lia). by rewrite pretty_N_go_0.
  - destruct (decide (0 < n)%N) as [H0|H0].
    + rewrite pretty_N_go_step by done. etrans; [apply IH|cbn; lia].
      rewrite Nat2Z.inj_succ, Z.pow_succ_r in Hn by lia. rewrite N2Z.inj_div.
      apply Z.div_lt_upper_bound; lia.
    + assert (n = 0%N) as -> by lia. rewrite pretty_N_go_0. lia.
Qed.

Lemma to_string_neg z : z < 0 -> to_string z = "-" +:+ to_string (- z).
Proof. by destruct z. Qed.

Lemma length_to_string_nonneg z (k : nat) :
  0 <= z < 10 ^ Z.of_nat k -> (String.length (to_string z) <= S k)%nat.
Proof.
  intros [H0 Hz]. rewrite <- (Z2N.id z) by done. rewrite to_string_N. case_decide as E; [cbn; lia|].
  etrans; [apply (length_pretty_N_go k); lia|cbn; lia].
Qed.

Lemma length_to_string z (k : nat) :
  - 10 ^ Z.of_nat k < z < 10 ^ Z.of_nat k -> (String.length (to_string z) <= S (S k))%nat.
Proof.
  intros Hz. destruct (Z.ltb_spec z 0).
  - rewrite to_string_neg by done. change (S (String.length (to_string (- z))) <= S (S k))%nat.
    pose proof (length_to_string_nonneg (- z) k ltac:(lia)). lia.
  - pose proof (length_to_string_nonneg z k ltac:(lia)). lia.
Qed.

(** ** Searching *)

Lemma length_substring_le n s : (String.length (String.substring 0 n s) <= n)%nat.
Proof.
  revert n. induction s as [|c s IH]; intros [|n]; cbn; try lia. specialize (IH n). lia.
Qed.

Lemma substring_ge n s : (String.length s <= n)%nat -> String.substring 0 n s = s.
Proof.
  revert n. induction s as [|c s IH]; intros [|n] H; simpl in *; try done; [lia|]. f_equal. apply IH. lia.
Qed.

Lemma nul_free_bytes s : nul_free s -> Forall (fun b => b <> byte_of 0) (bytes_of s).
Proof.
  unfold nul_free. induction s as [|c s IH]; intros H; [constructor|]. cbn in *.
  apply andb_true_iff in H as [Hc Hs]. constructor; [|by apply IH].
  intros ->. by vm_compute in Hc.
Qed.

Lemma c_str_nul_free s : nul_free s -> c_str s = s.
Proof.
  unfold nul_free. induction s as [|c s IH]; intros H; [done|]. simpl in *.
  apply andb_true_iff in H as [Hc Hs]. destruct (byte_val c =? 0); [done|]. f_equal. by apply IH.
Qed.

Lemma substring_all s : String.substring 0 (String.length s) s = s.
Proof. induction s as [|c s IH]; [done|]. cbn. by rewrite IH. Qed.

Lemma prefix_empty s : String.prefix "" s = true.
Proof. by destruct s. Qed.

Lemma string_app_assoc (s t u : string) : s +:+ (t +:+ u) = (s +:+ t) +:+ u.
Proof. induction s as [|c s IH]; [done|]. change (String c (s +:+ (t +:+ u)) = String c ((s +:+ t) +:+ u)). by rewrite IH. Qed.

Lemma prefix_app s t : String.prefix s (s +:+ t) = true.
Proof.
  induction s as [|c s IH]; [by destruct t|].
  change (String c s +:+ t) with (String c (s +:+ t)). simpl.
  destruct (Ascii.ascii_dec c c); [apply IH|done].
Qed.

(** A common beginning decides nothing. *)
Lemma prefix_common p x y : String.prefix (p +:+ x) (p +:+ y) = String.prefix x y.
Proof.
  induction p as [|c p IH]; [done|]. change (String.prefix (String c (p +:+ x)) (String c (p +:+ y)) = String.prefix x y).
  cbn [String.prefix]. destruct (Ascii.ascii_dec c c); [exact IH|done].
Qed.

Lemma prefix_inv s t : String.prefix s t = true -> exists u, t = s +:+ u.
Proof.
  revert t; induction s as [|c s IH]; intros t H; [by exists t|].
  destruct t as [|d t]; [done|]. simpl in H. destruct (Ascii.ascii_dec c d); [subst|done].
  destruct (IH t H) as [u ->]. by exists u.
Qed.

Lemma starts_with_spec s pat : starts_with s pat = true <-> exists u, s = pat +:+ u.
Proof. split; [apply prefix_inv|]. intros [u ->]. apply prefix_app. Qed.

(** [s.find(pat) == 0] is the prefix test. *)
Lemma find_0_prefix s pat : find s pat 0 = Some 0%nat <-> starts_with s pat = true.
Proof.
  unfold find, starts_with. destruct s as [|c s], pat as [|d pat]; simpl; try done.
  destruct (Ascii.ascii_dec d c); [|split; [by case_match|done]].
  destruct (String.prefix pat s); [done|]. split; [by case_match|done].
Qed.

Lemma string_length_app s t : String.length (s +:+ t) = (String.length s + String.length t)%nat.
Proof. induction s as [|c s IH]; [done|]. change (S (String.length (s +:+ t)) = S (String.length s + String.length t)%nat). by rewrite IH. Qed.

Lemma substring_app s t m : String.substring (String.length s) m (s +:+ t) = String.substring 0 m t.
Proof. induction s as [|c s IH]; [done|]. exact IH. Qed.

Lemma substring_prefix s t : String.substring 0 (String.length s) (s +:+ t) = s.
Proof.
  induction s as [|c s IH]; [by destruct t|].
  change (String c (String.substring 0 (String.length s) (s +:+ t)) = String c s). by rewrite IH.
Qed.

Lemma substr_from_app s t : substr_from (s +:+ t) (String.length s) = Ret t.
Proof.
  unfold substr_from, substr. rewrite string_length_app. rewrite decide_False by lia.
  rewrite substring_app. replace (String.length s + String.length t - String.length s)%nat with (String.length t) by lia.
  by rewrite substring_all.
Qed.

(** ** Searching for a quoted key

    The text [... "kw": ...] cut at its quotes. *)

Definition NL : string := String (byte_of 10) "".
Definition CRLF : string := String (byte_of 13) NL.

Definition quote : byte := byte_of 34.
Definition DQ : string := String quote "".
Definition quote_free (s : string) : Prop := all_chars (fun c => negb (bool_decide (c = quote))) s = true.

Lemma find_skip (s t pat : string) :
  quote_free s -> find (s +:+ t) (DQ +:+ pat) 0 = (fun n => (String.length s + n)%nat) <$> find t (DQ +:+ pat) 0.
Proof.
  unfold quote_free, find. induction s as [|c s IH]; intros H.
  { change ("" +:+ t) with t. by destruct (String.index 0 _ t). }
  cbn in H. apply andb_true_iff in H as [Hc Hs]. apply negb_true_iff, bool_decide_eq_false in Hc.
  change (String c s +:+ t) with (String c (s +:+ t)).
  change (DQ +:+ pat) with (String quote pat) in *. cbn [String.index String.prefix].
  destruct (Ascii.ascii_dec quote c) as [Eq|_]; [congruence|].
  rewrite IH by done. by destruct (String.index 0 _ t).
Qed.

(** At a quote that does not start the key, the search goes on. *)
Lemma find_next (t pat : string) :
  String.prefix pat t = false -> find (DQ +:+ t) (DQ +:+ pat) 0 = S <$> find t (DQ +:+ pat) 0.
Proof.
  intros H. unfold find. change (DQ +:+ pat) with (String quote pat). change (DQ +:+ t) with (String quote t).
  cbn [String.index String.prefix]. destruct (Ascii.ascii_dec quote quote); [|congruence]. rewrite H.
  by destruct (String.index 0 _ t).
Qed.

Lemma find_here (t pat : string) : find (DQ +:+ (pat +:+ t)) (DQ +:+ pat) 0 = Some O.
Proof. apply find_0_prefix. apply starts_with_spec. exists t. reflexivity. Qed.

Lemma find_quote_here (t : string) : find (DQ +:+ t) DQ 0 = Some O.
Proof. apply find_0_prefix. apply starts_with_spec. by exists t. Qed.

(** The quote that ends a quote-free text. *)
Lemma find_quote (s t : string) : quote_free s -> find (s +:+ (DQ +:+ t)) DQ 0 = Some (String.length s).
Proof.
  intros H. change (find (s +:+ (DQ +:+ t)) (DQ +:+ "") 0 = Some (String.length s)). rewrite find_skip by done.
  change (DQ +:+ "") with DQ. rewrite find_quote_here. cbn. f_equal. lia.
Qed.

(** A key is not the text between two quotes unless both are equal. *)
Lemma prefix_key (kw s Y : string) :
  quote_free kw -> quote_free s ->
  String.prefix (kw +:+ DQ +:+ ":") (s +:+ DQ +:+ Y) = bool_decide (kw = s) && starts_with Y ":".
Proof.
  unfold quote_free. revert s. induction kw as [|c kw IH]; intros s Hk Hs.
  - destruct s as [|d s].
    + change (String.prefix (String quote ":") (String quote Y) = bool_decide ("" = "") && starts_with Y ":").
      cbn [String.prefix]. rewrite bool_decide_true by done.
      destruct (Ascii.ascii_dec quote quote); [reflexivity|congruence].
    + cbn in Hs. apply andb_true_iff in Hs as [Hd _]. apply negb_true_iff, bool_decide_eq_false in Hd.
      change (String.prefix (String quote ":") (String d (s +:+ DQ +:+ Y)) = bool_decide ("" = String d s) && starts_with Y ":").
      cbn [String.prefix]. destruct (Ascii.ascii_dec quote d) as [Eq|_]; [congruence|].
      by rewrite bool_decide_false.
  - cbn in Hk. apply andb_true_iff in Hk as [Hc Hk]. apply negb_true_iff, bool_decide_eq_false in Hc.
    destruct s as [|d s].
    + change (String.prefix (String c (kw +:+ DQ +:+ ":")) (String quote Y) = bool_decide (String c kw = "") && starts_with Y ":").
      cbn [String.prefix]. destruct (Ascii.ascii_dec c quote) as [Eq|_]; [congruence|].
      by rewrite bool_decide_false.
    + cbn in Hs. apply andb_true_iff in Hs as [Hd Hs].
      change (String.prefix (String c (kw +:+ DQ +:+ ":")) (String d (s +:+ DQ +:+ Y)) =
              bool_decide (String c kw = String d s) && starts_with Y ":").
      cbn [String.prefix]. destruct (Ascii.ascii_dec c d) as [<-|Hne].
      * rewrite IH by done. f_equal. apply bool_decide_ext. split; congruence.
      * rewrite bool_decide_false; [done|congruence].
Qed.

(** The pieces between the quotes, and the first key among them. *)
Fixpoint quoted (pieces : list string) (last : string) : string :=
  match pieces with [] => last | s :: l => s +:+ DQ +:+ quoted l last end.

Fixpoint no_key (kw : string) (pieces : list string) : bool :=
  match pieces with
  | s :: ((v :: _) as l) => negb (bool_decide (kw = s) && starts_with v ":") && no_key kw l
  | _ => true
  end.

Lemma find_key (kw : string) (pieces : list string) (rest : string) :
  quote_free kw -> starts_with kw ":" = false -> Forall quote_free pieces ->
  no_key kw (tail pieces) = true -> pieces <> [] ->
  find (quoted pieces (kw +:+ DQ +:+ ":" +:+ rest)) (DQ +:+ (kw +:+ DQ +:+ ":")) 0 =
  Some (String.length (quoted pieces "") - 1)%nat.
Proof.
  intros Hk Hc H. revert rest. induction H as [|s l Hs Hl IH]; intros rest Hn Hne; [done|].
  cbn [quoted tail] in *. rewrite find_skip by done. destruct l as [|k l].
  - cbn [quoted]. replace (DQ +:+ (kw +:+ DQ +:+ ":" +:+ rest)) with (DQ +:+ ((kw +:+ DQ +:+ ":") +:+ rest))
      by (by rewrite <- !string_app_assoc).
    rewrite find_here. cbn [fmap option_fmap option_map].
    rewrite !string_length_app. cbn. f_equal. lia.
  - assert (Hp : String.prefix (kw +:+ DQ +:+ ":") (quoted (k :: l) (kw +:+ DQ +:+ ":" +:+ rest)) = false).
    { cbn [quoted]. inversion Hl; subst. rewrite prefix_key by done.
      destruct l as [|v l]; cbn [quoted].
      - replace (starts_with (kw +:+ DQ +:+ ":" +:+ rest) ":") with false; [by rewrite andb_false_r|].
        unfold starts_with in *. destruct kw as [|c kw]; [by vm_compute|].
        change (String c kw +:+ DQ +:+ ":" +:+ rest) with (String c (kw +:+ DQ +:+ ":" +:+ rest)).
        cbn [String.prefix] in *. destruct (Ascii.ascii_dec _ c); [|done]. by rewrite prefix_empty in Hc.
      - cbn [no_key] in Hn. apply andb_true_iff in Hn as [Hn _]. apply negb_true_iff in Hn.
        unfold starts_with in *. destruct v as [|c v].
        + by rewrite andb_false_r.
        + change (String c v +:+ DQ +:+ quoted l (kw +:+ DQ +:+ ":" +:+ rest)) with
            (String c (v +:+ DQ +:+ quoted l (kw +:+ DQ +:+ ":" +:+ rest))).
          cbn [String.prefix] in *. destruct (Ascii.ascii_dec _ c); [|by rewrite andb_false_r].
          rewrite prefix_empty in *. by rewrite Hn. }
    rewrite find_next by exact Hp. rewrite IH; [| |done]; cycle 1.
    { cbn [tail]. cbn [no_key] in Hn. destruct l as [|v l]; [done|]. by apply andb_true_iff in Hn as [_ Hn]. }
    cbn [fmap option_fmap option_map]. f_equal. rewrite (string_length_app s), (string_length_app DQ).
    cbn [quoted]. rewrite !(string_length_app k), !(string_length_app DQ). cbn. lia.
Qed.

(** ** Suffixes *)

Lemma app_suffix_eq (s t x y : string) :
  String.length x = String.length y -> s +:+ x = t +:+ y -> x = y.
Proof.
  revert t. induction s as [|c s IH]; intros t Hl E.
  - destruct t as [|d t]; [done|]. apply (f_equal String.length) in E.
    change ("" +:+ x) with x in E. rewrite string_length_app in E. cbn in E. lia.
  - destruct t as [|d t].
    + apply (f_equal String.length) in E. change ("" +:+ y) with y in E.
      rewrite string_length_app in E. cbn in E. lia.
    + change (String c (s +:+ x) = String d (t +:+ y)) in E. injection E as _ E. by apply (IH t).
Qed.

Lemma app_suffix_inj (s t x : string) : s +:+ x = t +:+ x -> s = t.
Proof.
  revert t. induction s as [|c s IH]; intros t E.
  - destruct t as [|d t]; [done|]. apply (f_equal String.length) in E.
    change ("" +:+ x) with x in E. rewrite string_length_app in E. cbn in E. lia.
  - destruct t as [|d t].
    + apply (f_equal String.length) in E. change ("" +:+ x) with x in E.
      rewrite string_length_app in E. cbn in E. lia.
    + change (String c (s +:+ x) = String d (t +:+ x)) in E. injection E as -> E. f_equal. by apply IH.
Qed.
