(* ===== verification/Wire.v ===== *)
(** * Sockets: the [recv]/[send] loops of [redis_client.cpp]

    The kernel's side of a stream socket is a script: the segments a peer's
    bytes arrive in, and the room the send buffer has at each [send].  The
    loops [write_all] and [read_exact] hide that script from the rest of the
    client, which is what the theorems of this file say. *)

From stdpp Require Import base list numbers.
From Stdlib Require Import ZArith Lia.
From S2P Require Import Prelude.

Module Socket.

(** What one [recv] finds: some bytes (never none), or an error. *)
Inductive segment :=
  | Data (b : byte) (bs : list byte)
  | RecvErr.

Record socket := mkSocket {
  rx : list segment;     (**r what the peer sends, as it arrives *)
  tx_room : list Z;      (**r at each [send]: the room of the send buffer, or the error, negated *)
  tx : list byte         (**r what was sent so far *)
}.

(** [::recv(fd, buf, len, 0)], [len > 0]: at most [len] bytes of the segment
    that arrived; 0 at end of stream, -1 on error. *)
Definition recv (len : nat) (s : list segment) : Z * list byte * list segment :=
  match s with
  | [] => (0, [], [])
  | RecvErr :: s => (-1, [], s)
  | Data b bs :: s =>
      let got := take len (b :: bs) in
      let rest := match drop len (b :: bs) with [] => s | c :: cs => Data c cs :: s end in
      (Z.of_nat (length got), got, rest)
  end.

(** The connection was reset: the peer's end is gone. *)
Definition EPIPE : Z := 32.

(** [::send(fd, data, len, 0)], [len > 0]: as much as there is room for.
    Without [MSG_NOSIGNAL] a send on a connection that was reset raises SIGPIPE,
    which [main] leaves at its default: it kills the process. *)
Definition send (data : list byte) (s : socket) : outcome (Z * socket) :=
  match tx_room s with
  | [] => Ret (-1, s)
  | room :: rooms =>
      if room =? - EPIPE then Undefined Sigpipe
      else if room <=? 0 then Ret (-1, mkSocket (rx s) rooms (tx s))
      else
        let sent := take (Z.to_nat room) data in
        Ret (Z.of_nat (length sent), mkSocket (rx s) rooms (tx s ++ sent))
  end.

(** [RedisClient::read_exact]. *)
Fixpoint read_exact_loop (fuel got len : nat) (buf : list byte) (s : list segment)
  : outcome (bool * list byte * list segment) :=
  match fuel with
  | O => NoFuel
  | S fuel =>
      if decide (got < len)%nat then
        let '(n, data, s) := recv (len - got) s in
        if n <=? 0 then Ret (false, buf, s)
        else read_exact_loop fuel (got + Z.to_nat n) len (buf ++ data) s
      else Ret (true, buf, s)
  end.

Definition read_exact (len : nat) (s : list segment) : outcome (bool * list byte * list segment) :=
  read_exact_loop (S len) 0 len [] s.

(** [RedisClient::write_all]. *)
Fixpoint write_all_loop (fuel sent : nat) (data : list byte) (s : socket)
  : outcome (bool * socket) :=
  match fuel with
  | O => NoFuel
  | S fuel =>
      if decide (sent < length data)%nat then
        '(n, s) ← send (drop sent data) s;
        if n <=? 0 then Ret (false, s) else write_all_loop fuel (sent + Z.to_nat n) data s
      else Ret (true, s)
  end.

Definition write_all (data : list byte) (s : socket) : outcome (bool * socket) :=
  write_all_loop (S (length data)) 0 data s.

(** The bytes a peer delivers before the connection fails or closes. *)
Fixpoint delivered (s : list segment) : list byte :=
  match s with
  | Data b bs :: s => (b :: bs) ++ delivered s
  | _ => []
  end.

(** Every [send] finds some room, and there are enough of them. *)
Fixpoint room_for (n : nat) (rooms : list Z) : Prop :=
  match n, rooms with
  | O, _ => True
  | S _, [] => False
  | S _, r :: rooms => 0 < r /\ room_for (n - Z.to_nat r) rooms
  end.

(** ** Facts about one system call *)

Lemma recv_delivered len s :
  (0 < len)%nat ->
  let '(n, data, s') := recv len s in
  (n <= 0 /\ delivered s = [] /\ data = []) \/
  (n = Z.of_nat (length data) /\ (0 < length data <= len)%nat /\
   delivered s = data ++ delivered s').
Proof.
  intros Hlen. destruct s as [|[b bs|] s]; simpl; [left; done| |left; split; [lia|done]].
  right. destruct len as [|len]; [lia|].
  change (take (S len) (b :: bs)) with (b :: take len bs).
  change (drop (S len) (b :: bs)) with (drop len bs).
  split; [done|]. split; [simpl; rewrite length_take; lia|].
  rewrite <- (take_drop len bs) at 1. simpl. f_equal.
  destruct (drop len bs); simpl; by rewrite <- ?app_assoc, ?app_nil_r.
Qed.

(** ** The read loop *)

Lemma read_exact_loop_spec fuel got len buf s :
  (len - got < fuel)%nat ->
  exists ok out s', read_exact_loop fuel got len buf s = Ret (ok, out, s') /\
    if decide (len - got <= length (delivered s))%nat
    then ok = true /\ out = buf ++ take (len - got) (delivered s) /\
         delivered s' = drop (len - got) (delivered s)
    else ok = false.
Proof.
  revert got buf s. induction fuel as [|fuel IH]; intros got buf s Hf; [lia|]. simpl.
  case_decide as Hgot.
  - pose proof (recv_delivered (len - got) s ltac:(lia)) as R.
    destruct (recv (len - got) s) as [[n data] s1].
    destruct R as [(Hn & Hd & ->) | (-> & Hlen & Hd)].
    + exists false, buf, s1. destruct (Z.leb_spec n 0); [|lia]. split; [done|].
      rewrite Hd. simpl. case_decide; [lia|done].
    + destruct (Z.leb_spec (Z.of_nat (length data)) 0); [lia|]. rewrite Nat2Z.id.
      destruct (IH (got + length data)%nat (buf ++ data) s1) as (ok & out & s' & E & P); [lia|].
      exists ok, out, s'. split; [done|].
      replace (len - (got + length data))%nat with (len - got - length data)%nat in P by lia.
      rewrite Hd, length_app. repeat case_decide; try lia; [|done].
      destruct P as (-> & -> & P). split; [done|].
      rewrite take_app_ge, drop_app_ge by lia. by rewrite app_assoc.
  - exists true, buf, s. split; [done|].
    replace (len - got)%nat with O by lia. case_decide; [|lia].
    by rewrite take_0, drop_0, app_nil_r.
Qed.

(** The loop returns the next [len] bytes the peer delivers whatever the
    segments they come in, or fails. *)
Lemma read_exact_ok len s :
  (len <= length (delivered s))%nat ->
  exists s', read_exact len s = Ret (true, take len (delivered s), s') /\
             delivered s' = drop len (delivered s).
Proof.
  intros H. destruct (read_exact_loop_spec (S len) 0 len [] s) as (ok & out & s' & E & P); [lia|].
  rewrite Nat.sub_0_r in P. case_decide; [|lia]. destruct P as (-> & -> & P).
  exists s'. by split.
Qed.

Lemma read_exact_short len s :
  (length (delivered s) < len)%nat ->
  exists out s', read_exact len s = Ret (false, out, s').
Proof.
  intros H. destruct (read_exact_loop_spec (S len) 0 len [] s) as (ok & out & s' & E & P); [lia|].
  rewrite Nat.sub_0_r in P. case_decide; [lia|]. subst. by exists out, s'.
Qed.

(** ** The write loop *)

Lemma write_all_loop_spec fuel sent data s :
  (length data - sent < fuel)%nat ->
  (write_all_loop fuel sent data s = Undefined Sigpipe /\ - EPIPE ∈ tx_room s) \/
  exists ok s' k, write_all_loop fuel sent data s = Ret (ok, s') /\
    rx s' = rx s /\ tx s' = tx s ++ take k (drop sent data) /\
    (ok = true -> (length data - sent <= k)%nat) /\
    (room_for (length data - sent) (tx_room s) -> ok = true).
Proof.
  revert sent s. induction fuel as [|fuel IH]; intros sent s Hf; [lia|]. cbn [write_all_loop].
  case_decide as Hs; cycle 1.
  { right. exists true, s, O. rewrite take_0, app_nil_r. repeat split; try done. lia. }
  unfold send. destruct s as [srx [|r rooms] stx]; cbn [tx_room rx tx].
  { right. exists false, (mkSocket srx [] stx), O. rewrite take_0, app_nil_r.
    repeat split; try done. destruct (length data - sent)%nat eqn:?; [lia|done]. }
  destruct (Z.eqb_spec r (- EPIPE)) as [->|Hp]; [left; split; [done|left]|].
  destruct (Z.leb_spec r 0) as [Hr|Hr]; cbn [mbind outcome_bind].
  { right. exists false, (mkSocket srx rooms stx), O. rewrite take_0, app_nil_r.
    repeat split; try done. destruct (length data - sent)%nat eqn:?; [lia|].
    cbn. intros [? _]. lia. }
  rewrite length_take, length_drop.
  destruct (Z.leb_spec (Z.of_nat (Z.to_nat r `min` (length data - sent))) 0); [lia|].
  rewrite Nat2Z.id. set (n := (Z.to_nat r `min` (length data - sent))%nat) in *.
  destruct (IH (sent + n)%nat (mkSocket srx rooms (stx ++ take (Z.to_nat r) (drop sent data))))
    as [[E Hin]|(ok & s' & k & E & Hrx & Htx & Hok & Hroom)]; [lia|left; split; [done|by right]|].
  right. exists ok, s', (n + k)%nat. cbn [tx_room rx tx] in *. rewrite E, Hrx, Htx. repeat split; try done.
  - rewrite <- app_assoc. f_equal. rewrite <- take_take_drop, drop_drop. f_equal.
    subst n. destruct (decide (Z.to_nat r <= length data - sent)%nat).
    + by rewrite Nat.min_l by lia.
    + rewrite !take_ge by (rewrite length_drop; lia). done.
  - intros O. specialize (Hok O). lia.
  - intros R. apply Hroom. destruct (length data - sent)%nat as [|m] eqn:Em; [lia|].
    cbn in R. destruct R as [_ R]. subst n.
    replace (length data - (sent + Z.to_nat r `min` S m))%nat with (S m - Z.to_nat r)%nat by lia.
    done.
Qed.

(** Whatever the kernel accepts at each call, the bytes go out in order and
    without repetition; the loop reports success only when all of them went. It
    returns, unless the peer has reset the connection. *)
Lemma write_all_spec data s :
  (write_all data s = Undefined Sigpipe /\ - EPIPE ∈ tx_room s) \/
  exists ok s' k, write_all data s = Ret (ok, s') /\ rx s' = rx s /\
    tx s' = tx s ++ take k data /\ (ok = true -> (length data <= k)%nat) /\
    (room_for (length data) (tx_room s) -> ok = true).
Proof.
  destruct (write_all_loop_spec (S (length data)) 0 data s) as [H|(ok & s' & k & E & P)]; [lia|by left|].
  right. exists ok, s', k. rewrite Nat.sub_0_r in P. done.
Qed.

(** A loop that has room is not killed. *)
Lemma write_all_loop_room fuel sent data s :
  room_for (length data - sent) (tx_room s) -> write_all_loop fuel sent data s <> Undefined Sigpipe.
Proof.
  revert sent s. induction fuel as [|fuel IH]; intros sent s R; [done|]. cbn [write_all_loop].
  case_decide as Hs; [|done]. unfold send. destruct s as [srx [|r rooms] stx]; cbn [tx_room rx tx] in *; [done|].
  destruct (length data - sent)%nat as [|m] eqn:Em; [lia|]. cbn [room_for] in R. destruct R as [Hr R].
  destruct (Z.eqb_spec r (- EPIPE)) as [->|_]; [unfold EPIPE in Hr; lia|]. rewrite (proj2 (Z.leb_gt _ _) Hr).
  cbn [mbind outcome_bind]. rewrite length_take, length_drop, Em.
  destruct (Z.leb_spec (Z.of_nat (Z.to_nat r `min` S m)) 0); [lia|]. apply IH. cbn [tx_room]. rewrite Nat2Z.id.
  replace (length data - (sent + Z.to_nat r `min` S m))%nat with (S m - Z.to_nat r)%nat by lia. done.
Qed.

(** On a connection that was reset nothing is sent. *)
Lemma write_all_reset data s rooms :
  data <> [] -> tx_room s = - EPIPE :: rooms -> write_all data s = Undefined Sigpipe.
Proof.
  intros Hd Hr. unfold write_all. cbn [write_all_loop]. rewrite decide_True by (destruct data; [done|cbn; lia]).
  unfold send. by rewrite Hr.
Qed.

Lemma write_all_ok data s :
  room_for (length data) (tx_room s) ->
  exists s', write_all data s = Ret (true, s') /\ rx s' = rx s /\ tx s' = tx s ++ data.
Proof.
  intros R. destruct (write_all_spec data s) as [[E _]|(ok & s' & k & E & Hrx & Htx & Hk & Hok)].
  { exfalso. apply (write_all_loop_room (S (length data)) 0 data s); [by rewrite Nat.sub_0_r|exact E]. }
  rewrite (Hok R) in *. exists s'. rewrite Htx, take_ge by (apply Hk; done). done.
Qed.

(** Room for [n] bytes however they are cut: as many calls that find some. *)
Definition ample (n : nat) (rooms : list Z) : Prop := Forall (fun r => 0 < r) rooms /\ (n <= length rooms)%nat.

Lemma ample_room n rooms : ample n rooms -> room_for n rooms.
Proof.
  revert n. induction rooms as [|r rooms IH]; intros n [Hr Hn]; destruct n as [|n]; cbn in *; try done; [lia|].
  inversion Hr as [|? ? Hr1 Hr2]. subst. split; [done|]. destruct (Z.to_nat r) as [|k] eqn:E; [lia|].
  cbn [Nat.sub]. apply IH. split; [done|lia].
Qed.

(** A write uses up a call for every byte at most. *)
Lemma write_all_loop_ample fuel sent data s ok s' m :
  write_all_loop fuel sent data s = Ret (ok, s') ->
  ample ((length data - sent) + m) (tx_room s) -> ample m (tx_room s').
Proof.
  revert sent s. induction fuel as [|fuel IH]; intros sent s H [Hr Hn]; [done|]. cbn [write_all_loop] in H.
  case_decide as Hs; [|injection H as <- <-; split; [done|lia]].
  destruct s as [srx [|r rooms] stx]; unfold send in H; cbn [tx_room rx tx] in *; [cbn in Hn; lia|].
  inversion Hr as [|? ? Hr1 Hr2]. subst. cbn beta in Hr1.
  rewrite (proj2 (Z.eqb_neq r (- EPIPE))) in H by (unfold EPIPE; lia).
  rewrite (proj2 (Z.leb_gt r 0)) in H by done. cbn [mbind outcome_bind] in H.
  rewrite length_take, length_drop in H. destruct (Z.leb_spec (Z.of_nat (Z.to_nat r `min` (length data - sent))) 0); [lia|].
  apply IH in H; [done|]. cbn in *. split; [done|]. lia.
Qed.

Lemma write_all_ample data s m :
  ample (length data + m) (tx_room s) ->
  exists s', write_all data s = Ret (true, s') /\ rx s' = rx s /\ tx s' = tx s ++ data /\ ample m (tx_room s').
Proof.
  intros Ha. destruct (write_all_ok data s) as (s' & E & Hrx & Htx).
  { apply ample_room. destruct Ha as [H1 H2]. split; [done|lia]. }
  exists s'. split_and!; try done. unfold write_all in E. eapply write_all_loop_ample; [exact E|].
  by rewrite Nat.sub_0_r.
Qed.

End Socket.
