(* ===== verification/ServerProto.v ===== *)
(** * The server's side of the wire protocol: [redisdb/src/proto/mod.rs]

    The Rust server the sandbox talks to: how it encodes a response
    ([Response::encode], [write_response]) and reads a request
    ([read_request]).  The C++ client's codec ([RedisClient.v]) is proved
    against these definitions. *)

From stdpp Require Import base strings list numbers.
From Stdlib Require Import ZArith Lia.
From S2P Require Import Prelude.

#[local] Set Warnings "-register-all".

Module Server.

(** [proto::Response]; [Dbl] keeps the 64-bit pattern of its [f64]. *)
Inductive Response :=
  | Nil
  | Err (code : Z) (msg : string)
  | Str (s : string)
  | Int (v : Z)
  | Dbl (bits : Z)
  | Arr (elems : list Response).

Section Response_ind.
Variable P : Response -> Prop.
Hypothesis HNil : P Nil.
Hypothesis HErr : forall code msg, P (Err code msg).
Hypothesis HStr : forall s, P (Str s).
Hypothesis HInt : forall v, P (Int v).
Hypothesis HDbl : forall b, P (Dbl b).
Hypothesis HArr : forall elems, Forall P elems -> P (Arr elems).

(** Induction with the hypothesis on every element of an array. *)
Fixpoint Response_nested_ind (r : Response) : P r :=
  match r with
  | Nil => HNil
  | Err code msg => HErr code msg
  | Str s => HStr s
  | Int v => HInt v
  | Dbl b => HDbl b
  | Arr elems =>
      HArr elems ((fix go (l : list Response) : Forall P l :=
        match l with
        | [] => List.Forall_nil _
        | r :: l => List.Forall_cons _ _ _ (Response_nested_ind r) (go l)
        end) elems)
  end.
End Response_ind.

Definition SER_NIL : Z := 0.
Definition SER_ERR : Z := 1.
Definition SER_STR : Z := 2.
Definition SER_INT : Z := 3.
Definition SER_DBL : Z := 4.
Definition SER_ARR : Z := 5.

(** [x.len() as u32] followed by the bytes. *)
Definition encode_string (s : string) : list byte :=
  le_bytes 4 (u32 (Z.of_nat (String.length s))) ++ bytes_of s.

Fixpoint encode (r : Response) : list byte :=
  match r with
  | Nil => [byte_of SER_NIL]
  | Err code msg => byte_of SER_ERR :: le_bytes 4 (u32 code) ++ encode_string msg
  | Str s => byte_of SER_STR :: encode_string s
  | Int v => byte_of SER_INT :: le_bytes 8 (u64 v)
  | Dbl bits => byte_of SER_DBL :: le_bytes 8 bits
  | Arr elems =>
      byte_of SER_ARR :: le_bytes 4 (u32 (Z.of_nat (length elems))) ++
      (fix go (l : list Response) : list byte :=
         match l with [] => [] | r :: l => encode r ++ go l end) elems
  end.

(** The encodings of an array's elements, one after the other. *)
Fixpoint encode_all (l : list Response) : list byte :=
  match l with [] => [] | r :: l => encode r ++ encode_all l end.

Lemma encode_Arr elems :
  encode (Arr elems) =
  byte_of SER_ARR :: le_bytes 4 (u32 (Z.of_nat (length elems))) ++ encode_all elems.
Proof. done. Qed.

Lemma encode_nonempty r : (0 < length (encode r))%nat.
Proof. destruct r; simpl; lia. Qed.

(** The values the Rust types allow, and lengths the [as u32] casts keep. *)
Fixpoint wf (r : Response) : Prop :=
  match r with
  | Nil => True
  | Err code msg => in_i32 code /\ in_u32 (Z.of_nat (String.length msg))
  | Str s => in_u32 (Z.of_nat (String.length s))
  | Int v => in_i64 v
  | Dbl bits => in_u64 bits
  | Arr elems =>
      in_u32 (Z.of_nat (length elems)) /\
      (fix go (l : list Response) : Prop :=
         match l with [] => True | r :: l => wf r /\ go l end) elems
  end.

Lemma wf_Arr elems : wf (Arr elems) -> in_u32 (Z.of_nat (length elems)) /\ Forall wf elems.
Proof.
  intros [H1 H2]. split; [done|]. clear H1. induction elems as [|r l IH]; [done|].
  destruct H2 as [Hr Hl]. constructor; auto.
Qed.

(** [write_response]: a length prefix, then the payload. *)
Definition write_response (payload : list byte) : list byte :=
  le_bytes 4 (u32 (Z.of_nat (length payload))) ++ payload.

(** ** Requests *)

Definition MAX_MSG_SIZE : Z := 4 * 1024 * 1024.
Definition MAX_ARGS : Z := 1024.

Inductive ProtoError :=
  | Io
  | TooLarge (n : Z)
  | TooManyArgs (n : Z)
  | Malformed (what : string).

(** [String::from_utf8]'s test: the well-formed byte sequences of Unicode. *)
Definition between (lo hi : Z) (b : byte) : bool := (lo <=? byte_val b) && (byte_val b <=? hi).
Definition continuation (b : byte) : bool := between 128 191 b.

Fixpoint valid_utf8 (bs : list byte) : bool :=
  match bs with
  | [] => true
  | b0 :: t0 =>
      if between 0 127 b0 then valid_utf8 t0
      else
        match t0 with
        | [] => false
        | b1 :: t1 =>
            if between 194 223 b0 then continuation b1 && valid_utf8 t1
            else
              match t1 with
              | [] => false
              | b2 :: t2 =>
                  if between 224 239 b0 then
                    (if byte_val b0 =? 224 then between 160 191 b1
                     else if byte_val b0 =? 237 then between 128 159 b1
                     else continuation b1) && continuation b2 && valid_utf8 t2
                  else
                    match t2 with
                    | [] => false
                    | b3 :: t3 =>
                        if between 240 244 b0 then
                          (if byte_val b0 =? 240 then between 144 191 b1
                           else if byte_val b0 =? 244 then between 128 143 b1
                           else continuation b1) && continuation b2 && continuation b3 &&
                          valid_utf8 t3
                        else false
                    end
              end
        end
  end.

(** The [for _ in 0..n] loop: the arguments, or the error it stops on. *)
Fixpoint read_args (n : nat) (buf : list byte) : ProtoError + list string :=
  match n with
  | O => inr []
  | S n =>
      if decide (length buf < 4)%nat then inl (Malformed "truncated arg header")
      else
        let sz := le_val (take 4 buf) in
        let buf := drop 4 buf in
        if Z.of_nat (length buf) <? sz then inl (Malformed "truncated arg body")
        else
          let body := take (Z.to_nat sz) buf in
          if valid_utf8 body then
            match read_args n (drop (Z.to_nat sz) buf) with
            | inl e => inl e
            | inr args => inr (string_of body :: args)
            end
          else inl (Malformed "invalid utf-8")
  end.

(** [read_request] over the bytes a connection delivers: the request or the
    error, and the bytes after the message. *)
Definition read_request (stream : list byte) : (ProtoError + list string) * list byte :=
  if decide (length stream < 4)%nat then (inl Io, [])
  else
    let msg_len := le_val (take 4 stream) in
    let stream := drop 4 stream in
    if MAX_MSG_SIZE <? msg_len then (inl (TooLarge msg_len), stream)
    else if Z.of_nat (length stream) <? msg_len then (inl Io, [])
    else
      let buf := take (Z.to_nat msg_len) stream in
      let rest := drop (Z.to_nat msg_len) stream in
      if decide (length buf < 4)%nat then (inl (Malformed "header too short"), rest)
      else
        let n := le_val (take 4 buf) in
        if MAX_ARGS <? n then (inl (TooManyArgs n), rest)
        else (read_args (Z.to_nat n) (drop 4 buf), rest).

(** A request as the protocol lays it out: each argument with its length. *)
Definition frame_arg (a : string) : list byte :=
  le_bytes 4 (Z.of_nat (String.length a)) ++ bytes_of a.

Definition frame_args (args : list string) : list byte := concat (frame_arg <$> args).

Fixpoint args_size (args : list string) : Z :=
  match args with
  | [] => 0
  | a :: args => 4 + Z.of_nat (String.length a) + args_size args
  end.

Definition request_size (args : list string) : Z := 4 + args_size args.

Definition frame (args : list string) : list byte :=
  le_bytes 4 (request_size args) ++ le_bytes 4 (Z.of_nat (length args)) ++ frame_args args.

#[global] Arguments frame_arg : simpl never.

Lemma length_frame_arg a : length (frame_arg a) = (4 + String.length a)%nat.
Proof. unfold frame_arg. by rewrite length_app, length_le_bytes, length_bytes_of. Qed.

Lemma frame_args_cons a args : frame_args (a :: args) = frame_arg a ++ frame_args args.
Proof. done. Qed.

Lemma length_frame_args args : Z.of_nat (length (frame_args args)) = args_size args.
Proof.
  induction args as [|a args IH]; [done|].
  rewrite frame_args_cons, length_app, length_frame_arg. cbn [args_size]. lia.
Qed.

Lemma args_size_nonneg args : 0 <= args_size args.
Proof. rewrite <- length_frame_args. lia. Qed.

Lemma args_size_elem a args :
  a ∈ args -> 4 + Z.of_nat (String.length a) <= args_size args.
Proof.
  intros H. induction args as [|b args IH]; [by apply elem_of_nil in H|].
  cbn [args_size]. pose proof (args_size_nonneg args).
  apply elem_of_cons in H as [->|H]; [lia|]. specialize (IH H). lia.
Qed.

Lemma read_args_frame args :
  Forall (fun a => in_u32 (Z.of_nat (String.length a)) /\ valid_utf8 (bytes_of a) = true) args ->
  read_args (length args) (frame_args args) = inr args.
Proof.
  induction 1 as [|a args [Ha Hu] _ IH]; [done|].
  rewrite frame_args_cons. unfold frame_arg. cbn [length read_args]. rewrite <- app_assoc.
  case_decide as Hl; [rewrite length_app, length_le_bytes in Hl; lia|].
  rewrite (take_app_length' _ _ 4), (drop_app_length' _ _ 4) by (by rewrite length_le_bytes).
  rewrite le_val_bytes, wrap_small by (unfold in_u32 in Ha; lia).
  destruct (Z.ltb_spec (Z.of_nat (length (bytes_of a ++ frame_args args)))
              (Z.of_nat (String.length a))) as [Hb|_];
    [rewrite length_app, length_bytes_of in Hb; lia|].
  rewrite Nat2Z.id, take_app_length', drop_app_length' by (by rewrite length_bytes_of).
  by rewrite Hu, IH, string_of_bytes.
Qed.

(** An argument that is not UTF-8 makes the request malformed. *)
Lemma read_args_frame_bad args :
  Forall (fun a => in_u32 (Z.of_nat (String.length a))) args ->
  Exists (fun a => valid_utf8 (bytes_of a) = false) args ->
  exists e, read_args (length args) (frame_args args) = inl e.
Proof.
  intros Hl Hb. induction Hb as [a args Ha|a args Hb IH]; inversion Hl as [|? ? Hla Hl']; subst;
    rewrite frame_args_cons; unfold frame_arg; cbn [length read_args]; rewrite <- app_assoc;
    (case_decide as Hd; [rewrite length_app, length_le_bytes in Hd; lia|]);
    rewrite (take_app_length' _ _ 4), (drop_app_length' _ _ 4) by (by rewrite length_le_bytes);
    rewrite le_val_bytes, wrap_small by (unfold in_u32 in Hla; lia);
    (destruct (Z.ltb_spec (Z.of_nat (length (bytes_of a ++ frame_args args)))
              (Z.of_nat (String.length a))) as [Hlt|_];
    [rewrite length_app, length_bytes_of in Hlt; lia|]);
    rewrite Nat2Z.id, take_app_length', drop_app_length' by (by rewrite length_bytes_of).
  - rewrite Ha. by eexists.
  - destruct (IH Hl') as [e ->]. destruct (valid_utf8 (bytes_of a)); by eexists.
Qed.

(** The server reads back the arguments of a framed request that respects its
    limits, and leaves the following bytes alone. *)
Lemma read_request_frame args rest :
  Forall (fun a => valid_utf8 (bytes_of a) = true) args ->
  Z.of_nat (length args) <= MAX_ARGS ->
  request_size args <= MAX_MSG_SIZE ->
  read_request (frame args ++ rest) = (inr args, rest).
Proof.
  intros Hu Hn Hs. unfold MAX_ARGS, MAX_MSG_SIZE, request_size in *.
  unfold read_request, frame, request_size.
  pose proof (length_frame_args args) as Hl. pose proof (args_size_nonneg args) as Hpos.
  rewrite <- !app_assoc.
  case_decide as H; [rewrite length_app, length_le_bytes in H; lia|].
  rewrite (take_app_length' _ _ 4), (drop_app_length' _ _ 4) by (by rewrite length_le_bytes).
  rewrite le_val_bytes, wrap_small by lia. unfold MAX_MSG_SIZE, MAX_ARGS.
  destruct (Z.ltb_spec (4 * 1024 * 1024) (4 + args_size args)); [lia|].
  rewrite app_assoc. set (payload := le_bytes 4 (Z.of_nat (length args)) ++ frame_args args).
  assert (Hp : Z.of_nat (length payload) = 4 + args_size args).
  { unfold payload. rewrite length_app, length_le_bytes. lia. }
  destruct (Z.ltb_spec (Z.of_nat (length (payload ++ rest))) (4 + args_size args)) as [Hb|_];
    [rewrite length_app in Hb; lia|].
  rewrite take_app_length', drop_app_length' by lia.
  case_decide as Hp4; [lia|]. unfold payload.
  rewrite (take_app_length' _ _ 4), (drop_app_length' _ _ 4) by (by rewrite length_le_bytes).
  rewrite le_val_bytes, wrap_small by lia.
  destruct (Z.ltb_spec 1024 (Z.of_nat (length args))); [lia|].
  rewrite Nat2Z.id, read_args_frame; [done|].
  rewrite Forall_forall in *. intros a Ha. split; [|by apply Hu].
  apply list_elem_of_In, args_size_elem in Ha. unfold in_u32. lia.
Qed.

Lemma read_request_bad args :
  Exists (fun a => valid_utf8 (bytes_of a) = false) args ->
  Z.of_nat (length args) <= MAX_ARGS -> request_size args <= MAX_MSG_SIZE ->
  exists e rest, read_request (frame args) = (inl e, rest).
Proof.
  intros Hu Hn Hs. unfold MAX_ARGS, MAX_MSG_SIZE, request_size in *.
  unfold read_request, frame, request_size.
  pose proof (length_frame_args args) as Hl. pose proof (args_size_nonneg args) as Hpos.
  case_decide as H; [rewrite length_app, length_le_bytes in H; lia|].
  rewrite (take_app_length' _ _ 4), (drop_app_length' _ _ 4) by (by rewrite length_le_bytes).
  rewrite le_val_bytes, wrap_small by lia. unfold MAX_MSG_SIZE, MAX_ARGS.
  destruct (Z.ltb_spec (4 * 1024 * 1024) (4 + args_size args)); [lia|].
  set (payload := le_bytes 4 (Z.of_nat (length args)) ++ frame_args args).
  assert (Hp : Z.of_nat (length payload) = 4 + args_size args).
  { unfold payload. rewrite length_app, length_le_bytes. lia. }
  destruct (Z.ltb_spec (Z.of_nat (length payload)) (4 + args_size args)); [lia|].
  rewrite take_ge by lia. case_decide as Hp4; [lia|]. unfold payload.
  rewrite (take_app_length' _ _ 4), (drop_app_length' _ _ 4) by (by rewrite length_le_bytes).
  rewrite le_val_bytes, wrap_small by lia.
  destruct (Z.ltb_spec 1024 (Z.of_nat (length args))); [lia|].
  rewrite Nat2Z.id. destruct (read_args_frame_bad args) as [e ->]; [|done|by do 2 eexists].
  rewrite Forall_forall. intros a Ha. apply list_elem_of_In, args_size_elem in Ha. unfold in_u32. lia.
Qed.

End Server.
