(* ===== verification/RedisClient.v ===== *)
(** * The Redis client: [sandbox/src/redis_client.cpp]

    Connection state, the request encoder ([send]), the response decoder
    ([read_value_from], [read_response]) and the command wrappers.  Buffers
    are accessed through [mem_read] and [mem_write], which are undefined
    outside the buffer, so that memory safety is a statement of the model. *)

From stdpp Require Import base strings list numbers.
From Stdlib Require Import ZArith Lia.
From S2P Require Import Prelude Descriptors Text Wire ServerProto.

#[local] Set Warnings "-register-all".

Module Redis.

(** [enum class ResponseTag : uint8_t]. *)
Inductive ResponseTag := Nil | Error | Str | Int | Dbl | Arr.

#[global] Instance ResponseTag_eq_dec : EqDecision ResponseTag.
Proof. solve_decision. Defined.

(** The tag a byte names; any other byte is no case of the [switch]. *)
Definition tag_of (b : Z) : option ResponseTag :=
  match b with
  | 0 => Some Nil | 1 => Some Error | 2 => Some Str
  | 3 => Some Int | 4 => Some Dbl | 5 => Some Arr
  | _ => None
  end.

(** [struct Response]; [dbl] keeps the 64-bit pattern of the [double]. *)
Inductive Response := mkResponse {
  tag : ResponseTag;
  err_code : Z;
  err_msg : string;
  str : string;
  integer : Z;
  dbl : Z;
  arr : list Response
}.

(** [Response resp; resp.tag = t;]: every other member has its default. *)
Definition blank (t : ResponseTag) : Response := mkResponse t 0 "" "" 0 0 [].

Definition is_nil (r : Response) : bool := bool_decide (tag r = Nil).
Definition is_error (r : Response) : bool := bool_decide (tag r = Error).
Definition as_str (r : Response) : string := str r.
Definition as_int (r : Response) : Z := integer r.
Definition as_dbl (r : Response) : Z := dbl r.
Definition as_arr (r : Response) : list Response := arr r.

(** ** Memory *)

(** [memcpy(dst, buf.data() + pos, n)]. *)
Definition mem_read (buf : list byte) (pos n : nat) : outcome (list byte) :=
  if decide (pos + n <= length buf)%nat then Ret (take n (drop pos buf)) else Undefined OutOfBounds.

(** [memcpy(buf.data() + pos, src, n)]. *)
Definition mem_write (buf : list byte) (pos : nat) (src : list byte) : outcome (list byte) :=
  if decide (pos + length src <= length buf)%nat
  then Ret (take pos buf ++ src ++ drop (pos + length src) buf)
  else Undefined OutOfBounds.

(** ** Encoding a request *)

(** [uint32_t payload_size = 4; for (arg : args) payload_size += 4 + arg.size();] *)
Fixpoint payload_size (acc : Z) (args : list string) : Z :=
  match args with
  | [] => acc
  | arg :: args => payload_size (u32 (acc + u64 (4 + Z.of_nat (String.length arg)))) args
  end.

(** The loop over the arguments, from [offset]. *)
Fixpoint write_args (msg : list byte) (offset : nat) (args : list string) : outcome (list byte) :=
  match args with
  | [] => Ret msg
  | arg :: args =>
      let len := u32 (Z.of_nat (String.length arg)) in
      msg ← mem_write msg offset (le_bytes 4 len);
      msg ← mem_write msg (offset + 4) (bytes_of arg);
      write_args msg (offset + (4 + String.length arg)) args
  end.

(** The message [RedisClient::send] builds before [write_all]. *)
Definition encode_request (args : list string) : outcome (list byte) :=
  let payload := payload_size 4 args in
  let msg := replicate (Z.to_nat (u32 (4 + payload))) (byte_of 0) in
  msg ← mem_write msg 0 (le_bytes 4 payload);
  msg ← mem_write msg 4 (le_bytes 4 (u32 (Z.of_nat (length args))));
  write_args msg 8 args.

(** ** Decoding a response *)

Section Decode.

(** Whether [resp.arr.reserve(count)] succeeds: the allocator's answer. *)
Context (reserve_ok : Z -> bool).

(** [read_value_from(buf, pos)] and the element loop of its [Arr] case.  Both
    return the value, if any, and the position they leave [pos] at. *)
Fixpoint read_value_from (fuel : nat) (buf : list byte) (pos : nat)
  : outcome (option Response * nat) :=
  match fuel with
  | O => NoFuel
  | S fuel =>
      if decide (length buf <= pos)%nat then Ret (None, pos)
      else
        b ← mem_read buf pos 1;
        let pos := S pos in
        match tag_of (le_val b) with
        | Some Nil => Ret (Some (blank Nil), pos)
        | Some Error =>
            if decide (length buf < pos + 8)%nat then Ret (None, pos)
            else
              code ← mem_read buf pos 4;
              let pos := (pos + 4)%nat in
              l ← mem_read buf pos 4;
              let pos := (pos + 4)%nat in
              let msg_len := le_val l in
              if Z.of_nat (length buf) <? Z.of_nat pos + msg_len then Ret (None, pos)
              else
                msg ← mem_read buf pos (Z.to_nat msg_len);
                Ret (Some (mkResponse Error (to_signed 32 (le_val code)) (string_of msg) "" 0 0 []),
                     (pos + Z.to_nat msg_len)%nat)
        | Some Str =>
            if decide (length buf < pos + 4)%nat then Ret (None, pos)
            else
              l ← mem_read buf pos 4;
              let pos := (pos + 4)%nat in
              let slen := le_val l in
              if Z.of_nat (length buf) <? Z.of_nat pos + slen then Ret (None, pos)
              else
                s ← mem_read buf pos (Z.to_nat slen);
                Ret (Some (mkResponse Str 0 "" (string_of s) 0 0 []), (pos + Z.to_nat slen)%nat)
        | Some Int =>
            if decide (length buf < pos + 8)%nat then Ret (None, pos)
            else
              v ← mem_read buf pos 8;
              Ret (Some (mkResponse Int 0 "" "" (to_signed 64 (le_val v)) 0 []), (pos + 8)%nat)
        | Some Dbl =>
            if decide (length buf < pos + 8)%nat then Ret (None, pos)
            else
              v ← mem_read buf pos 8;
              Ret (Some (mkResponse Dbl 0 "" "" 0 (le_val v) []), (pos + 8)%nat)
        | Some Arr =>
            if decide (length buf < pos + 4)%nat then Ret (None, pos)
            else
              c ← mem_read buf pos 4;
              let pos := (pos + 4)%nat in
              let count := le_val c in
              if reserve_ok count then read_elems fuel buf pos 0 count [] else Throw BadAlloc
        | None => Ret (None, pos)
        end
  end
with read_elems (fuel : nat) (buf : list byte) (pos : nat) (i count : Z) (acc : list Response)
  : outcome (option Response * nat) :=
  match fuel with
  | O => NoFuel
  | S fuel =>
      if i <? count then
        '(elem, pos) ← read_value_from fuel buf pos;
        match elem with
        | None => Ret (None, pos)
        | Some r => read_elems fuel buf pos (i + 1) count (acc ++ [r])
        end
      else Ret (Some (mkResponse Arr 0 "" "" 0 0 acc), pos)
  end.

(** Fuel for a buffer: every call and every turn of the loop but the last of
    each value reads at least a byte. *)
Definition parse (buf : list byte) : outcome (option Response) :=
  '(r, _) ← read_value_from (2 * length buf + 2) buf 0;
  Ret r.

Definition MAX_RESPONSE : Z := 64 * 1024 * 1024.

(** [RedisClient::read_response]. *)
Definition read_response (s : list Socket.segment)
  : outcome (option Response * list Socket.segment) :=
  '(ok, hdr, s) ← Socket.read_exact 4 s;
  if negb ok then Ret (None, s)
  else
    let len := le_val hdr in
    if MAX_RESPONSE <? len then Ret (None, s)
    else
      '(ok, buf, s) ← Socket.read_exact (Z.to_nat len) s;
      if negb ok then Ret (None, s)
      else r ← parse buf; Ret (r, s).

(** [RedisClient::read_value]: the same without the size limit, and with the
    buffer's allocation in the way. *)
Definition read_value (s : list Socket.segment)
  : outcome (option Response * list Socket.segment) :=
  '(ok, hdr, s) ← Socket.read_exact 4 s;
  if negb ok then Ret (None, s)
  else
    let len := le_val hdr in
    if reserve_ok len then
      '(ok, buf, s) ← Socket.read_exact (Z.to_nat len) s;
      if negb ok then Ret (None, s) else r ← parse buf; Ret (r, s)
    else Throw BadAlloc.

(** ** The client object *)

Record RedisClient := mkClient { fd_ : Z; net : Socket.socket }.

(** [RedisClient::close], also the destructor. *)
Definition close (c : RedisClient) : RedisClient * list fd_call :=
  if 0 <=? fd_ c then (mkClient (-1) (net c), [Closed (fd_ c)]) else (c, []).

Definition is_connected (c : RedisClient) : bool := 0 <=? fd_ c.

(** [RedisClient::connect], and what it does to descriptors: [sock] and [rc] are what [socket()] and
    [::connect()] return, [peer] the connection they set up. *)
Definition connect (sock rc : Z) (peer : Socket.socket) (c : RedisClient) : bool * RedisClient * list fd_call :=
  let c := mkClient sock (net c) in
  if sock <? 0 then (false, c, [])
  else if rc <? 0 then let '(c, calls) := close c in (false, c, Opened sock :: calls)
  else (true, mkClient sock peer, [Opened sock]).

(** [RedisClient::send]; on an invalid descriptor [::send] returns -1. *)
Definition send (args : list string) (c : RedisClient) : outcome (option Response * RedisClient) :=
  msg ← encode_request args;
  if negb (is_connected c) then Ret (None, c)
  else
    '(ok, n) ← Socket.write_all msg (net c);
    if negb ok then Ret (None, mkClient (fd_ c) n)
    else
      '(r, s) ← read_response (Socket.rx n);
      Ret (r, mkClient (fd_ c) (Socket.mkSocket s (Socket.tx_room n) (Socket.tx n))).

(** ** The command wrappers *)

Definition set (key val : string) := send ["set"; key; val].
Definition get (key : string) := send ["get"; key].
Definition del (key : string) := send ["del"; key].
Definition lpush (key val : string) := send ["lpush"; key; val].
Definition rpop (key : string) := send ["rpop"; key].
Definition lrange (key : string) (start stop : Z) :=
  send ["lrange"; key; to_string start; to_string stop].
Definition llen (key : string) := send ["llen"; key].
Definition job_next := send ["job next"].
Definition job_status (id : string) := send ["job status"; id].
Definition job_result (id : string) (exit_code duration_ms : Z) :=
  send ["job result"; id; to_string exit_code; to_string duration_ms].
Definition job_log (id line : string) := send ["job log"; id; line].
Definition sandbox_register (id type addr : string) := send ["sandbox register"; id; type; addr].
Definition sandbox_claim (id job_id : string) := send ["sandbox claim"; id; job_id].
Definition sandbox_release (id : string) := send ["sandbox release"; id].
(** [value] is the text [std::format("{:.6}", value)] gives. *)
Definition metric_record (name value : string) := send ["metric record"; name; value].
Definition metric_summary := send ["metric summary"].

End Decode.

(** The client's view of a server's response. *)
Fixpoint of_server (r : Server.Response) : Response :=
  match r with
  | Server.Nil => blank Nil
  | Server.Err code msg => mkResponse Error code msg "" 0 0 []
  | Server.Str s => mkResponse Str 0 "" s 0 0 []
  | Server.Int v => mkResponse Int 0 "" "" v 0 []
  | Server.Dbl b => mkResponse Dbl 0 "" "" 0 b []
  | Server.Arr elems => mkResponse Arr 0 "" "" 0 0 (map of_server elems)
  end.

(** ** Memory lemmas *)

Lemma mem_read_app pre mid post :
  mem_read (pre ++ mid ++ post) (length pre) (length mid) = Ret mid.
Proof.
  unfold mem_read. rewrite decide_True by (rewrite !length_app; lia).
  by rewrite drop_app_length, take_app_length.
Qed.

Lemma mem_write_app done rest src :
  (length src <= length rest)%nat ->
  mem_write (done ++ rest) (length done) src = Ret ((done ++ src) ++ drop (length src) rest).
Proof.
  intros H. unfold mem_write. rewrite decide_True by (rewrite length_app; lia).
  by rewrite take_app_length, drop_app_add, <- app_assoc.
Qed.

Lemma mem_write_cases buf pos src :
  (exists buf', mem_write buf pos src = Ret buf' /\ length buf' = length buf /\
                (pos + length src <= length buf)%nat) \/
  mem_write buf pos src = Undefined OutOfBounds.
Proof.
  unfold mem_write. case_decide; [left|by right]. eexists. split; [done|].
  rewrite !length_app, length_take, length_drop. lia.
Qed.

(** ** The encoder *)

Lemma u32_add_u64 a x : u32 (a + u64 x) = u32 (a + x).
Proof.
  unfold u32, u64, wrap. rewrite <- Zplus_mod_idemp_r.
  rewrite <- (Zplus_mod_idemp_r x). f_equal. f_equal.
  change (2 ^ 64) with (2 ^ 32 * 2 ^ 32). rewrite Z.rem_mul_r by lia.
  rewrite Z.mul_comm, Z.mod_add by lia. apply Zmod_mod.
Qed.

Lemma payload_size_spec acc args : payload_size (u32 acc) args = u32 (acc + Server.args_size args).
Proof.
  revert acc. induction args as [|a args IH]; intros acc; cbn [payload_size Server.args_size].
  - by rewrite Z.add_0_r.
  - rewrite u32_add_u64. unfold u32 at 1 2. rewrite wrap_add_l. rewrite IH. f_equal. lia.
Qed.

Lemma write_args_ok done rest args :
  Z.of_nat (length rest) = Server.args_size args -> Server.args_size args < 2 ^ 32 ->
  write_args (done ++ rest) (length done) args = Ret (done ++ Server.frame_args args).
Proof.
  revert done rest. induction args as [|a args IH]; intros done rest Hl Hs; cbn [write_args Server.args_size] in *.
  { assert (rest = []) as -> by (apply nil_length_inv; lia). done. }
  pose proof (Server.args_size_nonneg args). rewrite u32_small by (unfold in_u32; lia).
  rewrite mem_write_app by (rewrite length_le_bytes; lia). cbn [mbind outcome_bind].
  rewrite length_le_bytes.
  replace (length done + 4)%nat with (length (done ++ le_bytes 4 (Z.of_nat (String.length a))))
    by by rewrite length_app, length_le_bytes.
  rewrite mem_write_app by (rewrite length_bytes_of, length_drop; lia). cbn [mbind outcome_bind].
  rewrite length_bytes_of, drop_drop.
  replace (length done + (4 + String.length a))%nat with (length ((done ++ le_bytes 4 (Z.of_nat (String.length a))) ++ bytes_of a))
    by (rewrite !length_app, length_le_bytes, length_bytes_of; lia).
  rewrite IH by (rewrite ?length_drop; lia).
  by rewrite Server.frame_args_cons, <- !app_assoc.
Qed.

Lemma write_args_cases msg off args :
  (off <= length msg)%nat ->
  (exists msg', write_args msg off args = Ret msg' /\
                Z.of_nat off + Server.args_size args <= Z.of_nat (length msg)) \/
  write_args msg off args = Undefined OutOfBounds.
Proof.
  revert msg off. induction args as [|a args IH]; intros msg off Hoff; cbn [write_args Server.args_size].
  { left. exists msg. split; [done|lia]. }
  destruct (mem_write_cases msg off (le_bytes 4 (u32 (Z.of_nat (String.length a)))))
    as [(m1 & -> & L1 & _)| ->]; [|by right]. cbn [mbind outcome_bind].
  destruct (mem_write_cases m1 (off + 4) (bytes_of a)) as [(m2 & -> & L2 & B2)| ->]; [|by right].
  cbn [mbind outcome_bind]. rewrite length_bytes_of in B2.
  destruct (IH m2 (off + (4 + String.length a))%nat) as [(m3 & -> & B3)| ->]; [lia| |by right].
  left. exists m3. split; [done|lia].
Qed.

(** The encoder against the protocol: the framed request when the whole
    message is shorter than 2^32 bytes, and a write past the vector's end for
    every longer one, where [payload_size] has wrapped. *)
Lemma encode_request_cases args :
  encode_request args =
  if decide (4 + Server.request_size args < 2 ^ 32) then Ret (Server.frame args)
  else Undefined OutOfBounds.
Proof.
  unfold encode_request, Server.request_size. pose proof (Server.args_size_nonneg args) as Hpos.
  pose proof (payload_size_spec 4 args) as Ep. change (u32 4) with 4 in Ep.
  rewrite Ep. clear Ep.
  case_decide as H.
  - rewrite !(u32_small (4 + Server.args_size args)) by (unfold in_u32; lia).
    rewrite (u32_small (4 + _)) by (unfold in_u32; lia).
    set (buf := replicate _ _).
    assert (Hb : Z.of_nat (length buf) = 8 + Server.args_size args).
    { unfold buf. rewrite length_replicate. lia. }
    pose proof (mem_write_app [] buf (le_bytes 4 (4 + Server.args_size args))) as E1.
    rewrite length_le_bytes in E1. cbn [app length] in E1. rewrite E1 by lia.
    cbn [mbind outcome_bind]. clear E1.
    assert (Hn : in_u32 (Z.of_nat (length args))).
    { unfold in_u32. assert (Z.of_nat (length args) <= Server.args_size args); [|lia].
      clear. induction args as [|a args IH]; [done|]. cbn [length Server.args_size]. lia. }
    rewrite (u32_small (Z.of_nat (length args)) Hn).
    pose proof (mem_write_app (le_bytes 4 (4 + Server.args_size args)) (drop 4 buf)
                  (le_bytes 4 (Z.of_nat (length args)))) as E2.
    rewrite !length_le_bytes in E2. rewrite E2 by (rewrite length_drop; lia).
    cbn [mbind outcome_bind]. clear E2. rewrite drop_drop.
    pose proof (write_args_ok (le_bytes 4 (4 + Server.args_size args) ++
                  le_bytes 4 (Z.of_nat (length args))) (drop (4 + 4) buf) args) as E3.
    rewrite length_app, !length_le_bytes in E3.
    change (4 + 4)%nat with 8%nat in *. rewrite E3 by (rewrite ?length_drop; lia).
    by rewrite <- app_assoc.
  - set (buf := replicate _ _).
    assert (Hb : Z.of_nat (length buf) < 2 ^ 32).
    { unfold buf. rewrite length_replicate. pose proof (u32_range (4 + u32 (4 + Server.args_size args))).
      unfold in_u32 in *. lia. }
    destruct (mem_write_cases buf 0 (le_bytes 4 (u32 (4 + Server.args_size args))))
      as [(m1 & -> & L1 & _)| ->]; [|done]. cbn [mbind outcome_bind].
    destruct (mem_write_cases m1 4 (le_bytes 4 (u32 (Z.of_nat (length args)))))
      as [(m2 & -> & L2 & B2)| ->]; [|done]. cbn [mbind outcome_bind].
    rewrite length_le_bytes in B2.
    destruct (write_args_cases m2 8 args) as [(m3 & -> & B3)| ->]; [lia|lia|done].
Qed.

(** ** The decoder: safety *)

Section DecodeFacts.
Context (reserve_ok : Z -> bool).

(** What a call started at [pos] may do: leave the position inside the
    buffer, past [pos] when it produced a value ([strict]), or throw because
    the allocator refused a count. *)
Definition well_behaved (buf : list byte) (pos : nat) (strict : bool)
    (m : outcome (option Response * nat)) : Prop :=
  match m with
  | Ret (r, p) => (pos <= p <= length buf)%nat /\ (strict = true -> is_Some r -> (pos < p)%nat)
  | Throw e => e = BadAlloc /\ exists count, in_u32 count /\ reserve_ok count = false
  | Undefined _ | NoFuel => False
  end.

Lemma well_behaved_weaken buf pos pos' strict m :
  (pos < pos')%nat -> well_behaved buf pos' false m -> well_behaved buf pos strict m.
Proof. destruct m as [[r p]| | |]; simpl; [|done..]. intros. split; lia. Qed.

Lemma mem_read_ok buf pos n :
  (pos + n <= length buf)%nat -> exists d, mem_read buf pos n = Ret d /\ length d = n.
Proof.
  intros H. unfold mem_read. rewrite decide_True by done. eexists. split; [done|].
  rewrite length_take, length_drop. lia.
Qed.

Lemma le_val_u32 d : length d = 4%nat -> in_u32 (le_val d).
Proof. intros H. pose proof (le_val_range d) as R. rewrite H in R. exact R. Qed.

(** Steps one checked [memcpy] of the decoder. *)
Ltac step_read :=
  match goal with
  | |- context [mem_read ?b ?p ?n] =>
      let d := fresh "d" in let Ed := fresh "Ed" in let Ld := fresh "Ld" in
      destruct (mem_read_ok b p n) as (d & Ed & Ld); [lia|];
      rewrite Ed; cbn [mbind outcome_bind]
  end.

Ltac step_test :=
  match goal with
  | |- context [decide (?a < ?b)%nat] => destruct (decide (a < b)%nat)
  | |- context [?a <? ?b] => destruct (Z.ltb_spec a b)
  end.

Lemma read_well_behaved fuel :
  (forall buf pos, (pos <= length buf)%nat -> (2 * (length buf - pos) + 1 <= fuel)%nat ->
     well_behaved buf pos true (read_value_from reserve_ok fuel buf pos)) /\
  (forall buf pos i count acc,
     (pos <= length buf)%nat -> (2 * (length buf - pos) + 2 <= fuel)%nat ->
     well_behaved buf pos false (read_elems reserve_ok fuel buf pos i count acc)).
Proof.
  induction fuel as [|fuel [IHv IHe]]; [split; intros; lia|]. split.
  - intros buf pos Hpos Hf. cbn [read_value_from].
    destruct (decide (length buf <= pos)%nat); [split; [lia|by intros _ [? ?]]|].
    step_read. destruct (tag_of (le_val d)) as [[]|].
    all: repeat (step_test || step_read); try (split; [lia|first [intros; lia | by intros _ [? ?]]]).
    match goal with L : length ?c = 4%nat |- context [reserve_ok (le_val ?c)] =>
      pose proof (le_val_u32 _ L); destruct (reserve_ok (le_val c)) eqn:Er end.
    + apply (well_behaved_weaken _ _ (S pos + 4)); [lia|]. apply IHe; lia.
    + split; [done|]. by eexists.
  - intros buf pos i count acc Hpos Hf. cbn [read_elems].
    destruct (i <? count); [|split; [lia|done]].
    pose proof (IHv buf pos Hpos ltac:(lia)) as Hv.
    destruct (read_value_from reserve_ok fuel buf pos) as [[[r|] p]|e| |]; cbn [mbind outcome_bind]; try done.
    + destruct Hv as [Hb Hs]. specialize (Hs eq_refl (mk_is_Some _ _ eq_refl)).
      apply (well_behaved_weaken _ _ p); [lia|]. apply IHe; lia.
    + destruct Hv as [Hb _]. split; [lia|done].
Qed.

Lemma parse_cases buf :
  (exists r, parse reserve_ok buf = Ret r) \/
  (parse reserve_ok buf = Throw BadAlloc /\ exists count, in_u32 count /\ reserve_ok count = false).
Proof.
  destruct (read_well_behaved (2 * length buf + 2)) as [H _].
  specialize (H buf 0%nat ltac:(lia) ltac:(lia)). unfold parse.
  destruct (read_value_from _ _ _ _) as [[r p]|e| |]; cbn [mbind outcome_bind]; try done.
  - left. by exists r.
  - right. destruct H as [-> H]. done.
Qed.

(** ** The decoder: round trip *)

Lemma to_signed_u32 z : in_i32 z -> to_signed 32 (u32 z) = z.
Proof. intros. apply to_signed_wrap; [lia|]. exact H. Qed.
Lemma to_signed_u64 z : in_i64 z -> to_signed 64 (u64 z) = z.
Proof. intros. apply to_signed_wrap; [lia|]. exact H. Qed.

(** Reading [mid] at position [length pre] of a buffer that holds it there. *)
Lemma mem_read_at buf pos n pre mid post :
  buf = pre ++ mid ++ post -> pos = length pre -> n = length mid -> mem_read buf pos n = Ret mid.
Proof. intros -> -> ->. apply mem_read_app. Qed.

Ltac lens := rewrite ?length_app, ?length_cons, ?length_app, ?length_le_bytes, ?length_bytes_of; cbn [length]; lia.

(** [read_field pre mid post]: the next [memcpy] reads the field [mid] of a
    buffer that is [pre ++ mid ++ post]. *)
Ltac read_field pre mid post :=
  lazymatch goal with |- mbind _ (mem_read ?b ?p ?n) = _ =>
    rewrite (mem_read_at b p n pre mid post) end;
    [|by rewrite <- ?app_assoc; cbn [app]; rewrite <- ?app_assoc|lens|lens];
  cbn [mbind outcome_bind].

Definition decodes (r : Server.Response) : Prop :=
  forall fuel pre post,
    (forall n, 0 <= n <= Z.of_nat (length (Server.encode r)) -> reserve_ok n = true) ->
    (2 * length (Server.encode r) + 1 <= fuel)%nat ->
    read_value_from reserve_ok fuel (pre ++ Server.encode r ++ post) (length pre) =
    Ret (Some (of_server r), (length pre + length (Server.encode r))%nat).

Lemma le_val_tag t : 0 <= t < 256 -> le_val [byte_of t] = t.
Proof. intros. unfold le_val. rewrite byte_val_of, Z.mod_small by lia. lia. Qed.

Lemma le_val_bytes4 z : in_u32 z -> le_val (le_bytes 4 z) = z.
Proof. intros. rewrite le_val_bytes. by apply wrap_small. Qed.

Lemma le_val_bytes8 z : in_u64 z -> le_val (le_bytes 8 z) = z.
Proof. intros. rewrite le_val_bytes. by apply wrap_small. Qed.

Lemma read_elems_decodes elems :
  Forall decodes elems ->
  forall fuel pre post i count acc,
    (forall n, 0 <= n <= Z.of_nat (length (Server.encode_all elems)) -> reserve_ok n = true) ->
    i + Z.of_nat (length elems) = count ->
    (2 * length (Server.encode_all elems) + 2 <= fuel)%nat ->
    read_elems reserve_ok fuel (pre ++ Server.encode_all elems ++ post) (length pre) i count acc =
    Ret (Some (mkResponse Arr 0 "" "" 0 0 (acc ++ map of_server elems)),
         (length pre + length (Server.encode_all elems))%nat).
Proof.
  induction 1 as [|r elems Hr _ IH]; intros fuel pre post i count acc Hres Hc Hf;
    (destruct fuel as [|fuel]; [lia|]); cbn [read_elems Server.encode_all length map] in *.
  - destruct (Z.ltb_spec i count); [lia|]. by rewrite app_nil_r, Nat.add_0_r.
  - destruct (Z.ltb_spec i count); [|lia].
    rewrite length_app in Hres, Hf. pose proof (Server.encode_nonempty r).
    rewrite <- app_assoc, Hr by (intros; apply Hres || idtac; lia).
    cbn [mbind outcome_bind]. rewrite app_assoc, <- (length_app pre).
    rewrite IH by (intros; try apply Hres; lia).
    rewrite <- app_assoc, !length_app. cbn [app]. do 2 f_equal. lia.
Qed.

(** Enters [read_value_from] on a buffer that starts with the tag [t]. *)
Ltac read_the_tag pre t :=
  cbn [read_value_from]; rewrite decide_False by lens;
  lazymatch goal with |- context [pre ++ (byte_of t :: ?body) ++ ?post] =>
    read_field pre [byte_of t] (body ++ post) end;
  rewrite le_val_tag by done;
  let v := eval vm_compute in (tag_of t) in change (tag_of t) with v; cbv beta iota;
  rewrite ?decide_False by lens.

Ltac pass_test := lazymatch goal with |- (if ?a <? ?b then _ else _) = _ =>
  rewrite (proj2 (Z.ltb_ge a b)) by lens end.

Lemma encode_decodes r : Server.wf r -> decodes r.
Proof.
  induction r as [|code msg|s|v|b|elems IH] using Server.Response_nested_ind;
    intros Hwf fuel pre post Hres Hf; (destruct fuel as [|fuel]; [lia|]);
    [..|apply Server.wf_Arr in Hwf; rewrite Server.encode_Arr in *]; cbn [Server.encode] in *;
    unfold Server.encode_string in *.
  - read_the_tag pre Server.SER_NIL. by rewrite Nat.add_1_r.
  - destruct Hwf as [Hc Hm]. rewrite (u32_small _ Hm) in *.
    set (n := Z.of_nat (String.length msg)) in *. read_the_tag pre Server.SER_ERR.
    read_field (pre ++ [byte_of Server.SER_ERR]) (le_bytes 4 (u32 code)) (le_bytes 4 n ++ bytes_of msg ++ post).
    read_field (pre ++ [byte_of Server.SER_ERR] ++ le_bytes 4 (u32 code)) (le_bytes 4 n) (bytes_of msg ++ post).
    rewrite (le_val_bytes4 n Hm). pass_test.
    read_field (pre ++ [byte_of Server.SER_ERR] ++ le_bytes 4 (u32 code) ++ le_bytes 4 n) (bytes_of msg) post.
    rewrite le_val_bytes4, to_signed_u32, string_of_bytes by auto with redisops.
    cbn [of_server]. do 2 f_equal. lens.
  - rewrite (u32_small _ Hwf) in *. set (n := Z.of_nat (String.length s)) in *.
    read_the_tag pre Server.SER_STR.
    read_field (pre ++ [byte_of Server.SER_STR]) (le_bytes 4 n) (bytes_of s ++ post).
    rewrite (le_val_bytes4 n Hwf). pass_test.
    read_field (pre ++ [byte_of Server.SER_STR] ++ le_bytes 4 n) (bytes_of s) post.
    rewrite string_of_bytes. cbn [of_server]. do 2 f_equal. lens.
  - read_the_tag pre Server.SER_INT.
    read_field (pre ++ [byte_of Server.SER_INT]) (le_bytes 8 (u64 v)) post.
    rewrite le_val_bytes8, to_signed_u64 by auto with redisops.
    cbn [of_server]. do 2 f_equal. lens.
  - read_the_tag pre Server.SER_DBL.
    read_field (pre ++ [byte_of Server.SER_DBL]) (le_bytes 8 b) post.
    rewrite le_val_bytes8 by auto. cbn [of_server]. do 2 f_equal. lens.
  - destruct Hwf as [Hn Hall]. rewrite (u32_small _ Hn) in *.
    set (n := Z.of_nat (length elems)) in *. read_the_tag pre Server.SER_ARR.
    read_field (pre ++ [byte_of Server.SER_ARR]) (le_bytes 4 n) (Server.encode_all elems ++ post).
    rewrite (le_val_bytes4 n Hn).
    assert (Hne : (length elems <= length (Server.encode_all elems))%nat).
    { clear. induction elems as [|r l IH]; [done|]. cbn [Server.encode_all length].
      rewrite length_app. pose proof (Server.encode_nonempty r). lia. }
    rewrite Hres by (subst n; lens).
    pose proof (read_elems_decodes elems) as R.
    specialize (R ltac:(rewrite List.Forall_forall in *; intros x Hx; by apply IH, Hall)).
    specialize (R fuel (pre ++ [byte_of Server.SER_ARR] ++ le_bytes 4 n) post 0 n []).
    rewrite <- !app_assoc in R. cbn [app] in *. rewrite <- ?app_assoc.
    replace (S (length pre) + 4)%nat with (length (pre ++ byte_of Server.SER_ARR :: le_bytes 4 n)) by lens.
    rewrite R; [|intros k Hk; apply Hres; revert Hk; lens|lia|revert Hf; lens].
    cbn [of_server]. do 2 f_equal. lens.
Qed.

End DecodeFacts.

(** ** Responses over the connection *)

Section Client.
Context (reserve_ok : Z -> bool).

Lemma parse_encode r :
  Server.wf r ->
  (forall n, 0 <= n <= Z.of_nat (length (Server.encode r)) -> reserve_ok n = true) ->
  parse reserve_ok (Server.encode r) = Ret (Some (of_server r)).
Proof.
  intros Hwf Hres. unfold parse.
  pose proof (encode_decodes reserve_ok r Hwf (2 * length (Server.encode r) + 2)%nat [] [] Hres ltac:(lia)) as R.
  rewrite app_nil_r in R. cbn [app length] in R. by rewrite R.
Qed.

(** [read_response] as a function of the bytes the peer delivers. *)
Definition response_of (bytes : list byte) : outcome (option Response) :=
  if decide (length bytes < 4)%nat then Ret None
  else
    let len := le_val (take 4 bytes) in
    if MAX_RESPONSE <? len then Ret None
    else if Z.of_nat (length (drop 4 bytes)) <? len then Ret None
    else parse reserve_ok (take (Z.to_nat len) (drop 4 bytes)).

Lemma read_response_delivered s :
  match read_response reserve_ok s with
  | Ret (r, s') =>
      response_of (Socket.delivered s) = Ret r /\
      (is_Some r -> Socket.delivered s' =
         drop (4 + Z.to_nat (le_val (take 4 (Socket.delivered s)))) (Socket.delivered s))
  | Throw e => response_of (Socket.delivered s) = Throw e
  | Undefined _ | NoFuel => False
  end.
Proof.
  unfold read_response, response_of. case_decide as H4.
  { destruct (Socket.read_exact_short 4 s H4) as (out & s' & ->). split; [done|by intros [? ?]]. }
  destruct (Socket.read_exact_ok 4 s) as (s1 & -> & E1); [lia|]. cbn [mbind outcome_bind negb].
  destruct (MAX_RESPONSE <? _); [split; [done|by intros [? ?]]|].
  set (len := le_val (take 4 (Socket.delivered s))). rewrite <- E1.
  assert (0 <= len) by apply le_val_range.
  destruct (Z.ltb_spec (Z.of_nat (length (Socket.delivered s1))) len).
  { destruct (Socket.read_exact_short (Z.to_nat len) s1) as (out & s' & ->); [lia|].
    split; [done|by intros [? ?]]. }
  destruct (Socket.read_exact_ok (Z.to_nat len) s1) as (s2 & -> & E2); [lia|].
  cbn [mbind outcome_bind negb].
  destruct (parse_cases reserve_ok (take (Z.to_nat len) (Socket.delivered s1)))
    as [[r ->]|[-> _]]; cbn [mbind outcome_bind]; [|done].
  split; [done|]. intros _. by rewrite E2, E1, drop_drop.
Qed.

Lemma response_of_written r rest :
  Server.wf r ->
  (forall n, 0 <= n <= Z.of_nat (length (Server.encode r)) -> reserve_ok n = true) ->
  Z.of_nat (length (Server.encode r)) <= MAX_RESPONSE ->
  response_of (Server.write_response (Server.encode r) ++ rest) = Ret (Some (of_server r)) /\
  drop (4 + Z.to_nat (le_val (take 4 (Server.write_response (Server.encode r) ++ rest))))
    (Server.write_response (Server.encode r) ++ rest) = rest.
Proof.
  intros Hwf Hres Hlen. unfold response_of, Server.write_response. rewrite <- app_assoc.
  unfold MAX_RESPONSE in *.
  rewrite (take_app_length' (le_bytes 4 _) _ 4), (drop_app_length' (le_bytes 4 _) _ 4)
    by (by rewrite length_le_bytes).
  rewrite u32_small, le_val_bytes4 by (unfold in_u32; lia).
  rewrite decide_False by (rewrite length_app, length_le_bytes; lia).
  rewrite (proj2 (Z.ltb_ge _ _)) by lia. rewrite (proj2 (Z.ltb_ge _ _)) by (rewrite length_app; lia).
  rewrite Nat2Z.id, take_app_length. split; [by apply parse_encode|].
  rewrite <- drop_drop, (drop_app_length' (le_bytes 4 _) _ 4) by (by rewrite length_le_bytes).
  apply drop_app_length.
Qed.

(** [send] on a connection whose peer delivers some answer. *)
Lemma send_answered c args r :
  is_connected c = true -> Server.request_size args <= Server.MAX_MSG_SIZE ->
  Socket.room_for (length (Server.frame args)) (Socket.tx_room (net c)) ->
  response_of (Socket.delivered (Socket.rx (net c))) = Ret r ->
  exists c', send reserve_ok args c = Ret (r, c') /\
    Socket.tx (net c') = Socket.tx (net c) ++ Server.frame args /\
    (is_Some r -> Socket.delivered (Socket.rx (net c')) =
       drop (4 + Z.to_nat (le_val (take 4 (Socket.delivered (Socket.rx (net c))))))
         (Socket.delivered (Socket.rx (net c)))).
Proof.
  intros Hconn Hsize Hroom Hr. unfold send.
  rewrite encode_request_cases, decide_True by (unfold Server.MAX_MSG_SIZE in *; lia).
  cbn [mbind outcome_bind]. rewrite Hconn. cbn [negb].
  destruct (Socket.write_all_ok _ _ Hroom) as (n & -> & Erx & Etx). cbn [mbind outcome_bind negb].
  rewrite Erx. pose proof (read_response_delivered (Socket.rx (net c))) as R. rewrite Hr in R.
  destruct (read_response reserve_ok (Socket.rx (net c))) as [[r' s]| | |]; cbn [mbind outcome_bind];
    [|congruence|done|done].
  destruct R as [E R]. injection E as ->. eexists. split; [done|]. cbn [net Socket.tx Socket.rx]. by split.
Qed.

(** [send] on a connection that was reset. *)
Lemma send_reset c args rooms :
  is_connected c = true -> Server.request_size args <= Server.MAX_MSG_SIZE ->
  Socket.tx_room (net c) = - Socket.EPIPE :: rooms -> send reserve_ok args c = Undefined Sigpipe.
Proof.
  intros Hconn Hsize Hroom. unfold send.
  rewrite encode_request_cases, decide_True by (unfold Server.MAX_MSG_SIZE in *; lia).
  cbn [mbind outcome_bind]. rewrite Hconn. cbn [negb].
  by rewrite (Socket.write_all_reset _ _ rooms).
Qed.

(** The descriptor stays. *)
Lemma send_fd args c r c' : send reserve_ok args c = Ret (r, c') -> fd_ c' = fd_ c.
Proof.
  unfold send. destruct (encode_request args); cbn [mbind outcome_bind]; try done.
  destruct (is_connected c); cbn [negb]; [|by intros [= <- <-]].
  destruct (Socket.write_all _ _) as [[ok n]| | |]; cbn [mbind outcome_bind]; try done.
  destruct ok; cbn [negb]; [|by intros [= <- <-]].
  destruct (read_response _ _) as [[x s]| | |]; cbn [mbind outcome_bind]; try done. by intros [= <- <-].
Qed.

(** [send] on a connection whose peer has written a response, and goes on;
    the send buffer has room for this request and for [m] bytes more. *)
Lemma send_written c args resp rest m :
  is_connected c = true -> Server.request_size args <= Server.MAX_MSG_SIZE ->
  Server.wf resp -> (forall n, 0 <= n <= Z.of_nat (length (Server.encode resp)) -> reserve_ok n = true) ->
  Z.of_nat (length (Server.encode resp)) <= MAX_RESPONSE ->
  Socket.ample (length (Server.frame args) + m) (Socket.tx_room (net c)) ->
  Socket.delivered (Socket.rx (net c)) = Server.write_response (Server.encode resp) ++ rest ->
  exists c', send reserve_ok args c = Ret (Some (of_server resp), c') /\ fd_ c' = fd_ c /\
    Socket.tx (net c') = Socket.tx (net c) ++ Server.frame args /\
    Socket.delivered (Socket.rx (net c')) = rest /\ Socket.ample m (Socket.tx_room (net c')).
Proof.
  intros Hconn Hsize Hwf Halloc Hmax Hroom Hrx.
  destruct (response_of_written resp rest Hwf Halloc Hmax) as [R1 R2]. rewrite <- Hrx in R1.
  assert (Hr : Socket.room_for (length (Server.frame args)) (Socket.tx_room (net c))).
  { apply Socket.ample_room. destruct Hroom as [H1 H2]. split; [done|lia]. }
  destruct (send_answered c args _ Hconn Hsize Hr R1) as (c' & E & Etx & Erx). exists c'.
  split_and!; [done|by eapply send_fd|done|by rewrite (Erx (mk_is_Some _ _ eq_refl)), Hrx|].
  unfold send in E. rewrite encode_request_cases, decide_True in E by (unfold Server.MAX_MSG_SIZE in *; lia).
  cbn [mbind outcome_bind] in E. rewrite Hconn in E. cbn [negb] in E.
  destruct (Socket.write_all_ample _ _ _ Hroom) as (n & Ew & _ & _ & Ha). rewrite Ew in E. cbn [mbind outcome_bind negb] in E.
  destruct (read_response _ _) as [[r' s]| | |]; try done. cbn [mbind outcome_bind] in E. by injection E as _ <-.
Qed.

End Client.

(** ** Properties *)

(** C13: for every list of arguments, [RedisClient::send] builds exactly the
    protocol's frame when the message fits in 32 bits, and for every longer
    list writes past the end of the vector it sized with the wrapped
    [payload_size]. *)
Theorem encode_request_exact args :
  encode_request args =
  if decide (4 + Server.request_size args < 2 ^ 32) then Ret (Server.frame args)
  else Undefined OutOfBounds.
Proof. apply encode_request_cases. Qed.

(** C1: on a connected client whose socket takes the request, [send] delivers
    a message from which the server's [read_request] recovers the arguments,
    and returns the client's view of the response the server encoded, for
    any segmentation of the stream; the bytes after the response stay unread. *)
Theorem rpc_roundtrip reserve_ok c args resp rest
    (Hconn : is_connected c = true)
    (Hutf8 : Forall (fun a => Server.valid_utf8 (bytes_of a) = true) args)
    (Hargs : Z.of_nat (length args) <= Server.MAX_ARGS)
    (Hsize : Server.request_size args <= Server.MAX_MSG_SIZE)
    (Hroom : Socket.room_for (length (Server.frame args)) (Socket.tx_room (net c)))
    (Hwf : Server.wf resp)
    (Hmax : Z.of_nat (length (Server.encode resp)) <= MAX_RESPONSE)
    (Halloc : forall n, 0 <= n <= Z.of_nat (length (Server.encode resp)) -> reserve_ok n = true)
    (Hrx : Socket.delivered (Socket.rx (net c)) =
           Server.write_response (Server.encode resp) ++ rest) :
  exists c' sent,
    send reserve_ok args c = Ret (Some (of_server resp), c') /\
    Socket.tx (net c') = Socket.tx (net c) ++ sent /\
    Server.read_request sent = (inr args, []) /\
    Socket.delivered (Socket.rx (net c')) = rest.
Proof.
  destruct (response_of_written reserve_ok resp rest Hwf Halloc Hmax) as [R1 R2]. rewrite <- Hrx in R1.
  destruct (send_answered reserve_ok c args _ Hconn Hsize Hroom R1) as (c' & E & Etx & Erx).
  exists c', (Server.frame args). split; [done|]. split; [done|]. split.
  - rewrite <- (app_nil_r (Server.frame args)). by apply Server.read_request_frame.
  - rewrite (Erx (mk_is_Some _ _ eq_refl)), Hrx. exact R2.
Qed.

Definition demo_client : RedisClient :=
  mkClient 3 (Socket.mkSocket
    [Socket.Data (byte_of 10) []; Socket.Data (byte_of 0) [byte_of 0; byte_of 0; byte_of 5; byte_of 1];
     Socket.Data (byte_of 0) [byte_of 0; byte_of 0; byte_of 2; byte_of 0; byte_of 0];
     Socket.Data (byte_of 0) [byte_of 0]; Socket.Data (byte_of 7) []] [5; 2; 100] []).

Lemma rpc_roundtrip_witness :
  exists c' sent,
    send (fun _ => true) ["get"; "k"] demo_client =
      Ret (Some (of_server (Server.Arr [Server.Str ""])), c') /\
    Socket.tx (net c') = Socket.tx (net demo_client) ++ sent /\
    Server.read_request sent = (inr ["get"; "k"], []) /\
    Socket.delivered (Socket.rx (net c')) = [byte_of 7].
Proof.
  apply (rpc_roundtrip (fun _ => true) demo_client ["get"; "k"] (Server.Arr [Server.Str ""])
           [byte_of 7]).
  all: try (vm_compute; repeat split; congruence).
  repeat constructor.
Defined.

(** C14: whatever bytes a peer sends, in whatever segments, [read_response]
    stays inside its buffers and terminates: it returns, or it throws
    [std::bad_alloc] because the allocator refused an array's announced
    element count. *)
Theorem response_memory_safe reserve_ok s :
  (exists r s', read_response reserve_ok s = Ret (r, s')) \/
  (read_response reserve_ok s = Throw BadAlloc /\
   exists count, in_u32 count /\ reserve_ok count = false).
Proof.
  pose proof (read_response_delivered reserve_ok s) as R.
  destruct (read_response reserve_ok s) as [[r s']|e| |]; [left; by eexists _, _| |done|done].
  right. unfold response_of in R. case_decide; [done|]. case_tests; try done.
  destruct (parse_cases reserve_ok
    (take (Z.to_nat (le_val (take 4 (Socket.delivered s)))) (drop 4 (Socket.delivered s))))
    as [[r E]|[E H']]; [congruence|]. by replace e with BadAlloc by congruence.
Qed.

(** C36: the response depends on the bytes the peer delivers and not on how
    the network cut them into segments. *)
Theorem response_segmentation_irrelevant reserve_ok s1 s2
    (Hsame : Socket.delivered s1 = Socket.delivered s2) :
  fst <$> read_response reserve_ok s1 = fst <$> read_response reserve_ok s2.
Proof.
  pose proof (read_response_delivered reserve_ok s1) as R1.
  pose proof (read_response_delivered reserve_ok s2) as R2. rewrite Hsame in R1.
  destruct (read_response reserve_ok s1) as [[r1 t1]|e1| |],
    (read_response reserve_ok s2) as [[r2 t2]|e2| |]; try done; simpl; try congruence.
  - destruct R1 as [R1 _], R2 as [R2 _]. congruence.
  - destruct R1 as [R1 _]. congruence.
  - destruct R2 as [R2 _]. congruence.
Qed.

Lemma response_segmentation_irrelevant_witness :
  fst <$> read_response (fun _ => true)
    [Socket.Data (byte_of 1) [byte_of 0; byte_of 0; byte_of 0; byte_of 0]] =
  fst <$> read_response (fun _ => true)
    [Socket.Data (byte_of 1) [byte_of 0]; Socket.Data (byte_of 0) []; Socket.Data (byte_of 0) [byte_of 0]].
Proof. apply response_segmentation_irrelevant. vm_compute. reflexivity. Defined.

(** A five-byte response announcing [count] elements makes the client
    ask the allocator for [count] [Response] objects before it notices that
    there are none; a refusal escapes as an exception. *)
Theorem announced_count_reserved reserve_ok count (Hc : 1 <= count < 2 ^ 32) :
  parse reserve_ok (byte_of Server.SER_ARR :: le_bytes 4 count) =
  if reserve_ok count then Ret None else Throw BadAlloc.
Proof.
  unfold parse. rewrite length_cons, length_le_bytes. cbn [Nat.mul Nat.add].
  cbn [read_value_from]. rewrite decide_False by (rewrite length_cons, length_le_bytes; lia).
  pose proof (mem_read_app [] [byte_of Server.SER_ARR] (le_bytes 4 count)) as E1.
  cbn [app length] in E1. rewrite E1. cbn [mbind outcome_bind].
  rewrite le_val_tag by done. change (tag_of Server.SER_ARR) with (Some Arr). cbv beta iota.
  rewrite decide_False by (rewrite length_cons, length_le_bytes; lia).
  pose proof (mem_read_app [byte_of Server.SER_ARR] (le_bytes 4 count) []) as E2.
  rewrite app_nil_r, length_le_bytes in E2. cbn [app length] in E2. rewrite E2. cbn [mbind outcome_bind].
  rewrite le_val_bytes4 by (unfold in_u32; lia). destruct (reserve_ok count); [|done].
  cbn [read_elems]. rewrite (proj2 (Z.ltb_lt _ _)) by lia. cbn [read_value_from].
  rewrite decide_True by (rewrite length_cons, length_le_bytes; lia). done.
Qed.

Lemma announced_count_reserved_witness :
  1 <= 4294967295 < 2 ^ 32 /\
  parse (fun n => n <? 1000) (byte_of Server.SER_ARR :: le_bytes 4 4294967295) = Throw BadAlloc.
Proof.
  split; [lia|]. apply (announced_count_reserved (fun n => n <? 1000) 4294967295). lia.
Defined.

End Redis.
