(* ===== verification/LogAggregator.v ===== *)
(** * The log aggregator: [sandbox/src/log_aggregator.cpp]

    A bounded queue of log entries, pushed by the runtime's parts and by each
    line a job prints, and searched from the newest entry.  Every operation
    holds [mutex_] for its whole body, so an operation is one step. *)

From stdpp Require Import base strings list numbers.
From Stdlib Require Import ZArith Lia.
From S2P Require Import Prelude Text Bounded.

#[local] Set Warnings "-abstract-large-number".

Module Log.

Record LogEntry := mkEntry {
  timestamp_ms : Z;
  source : string;
  level : string;
  message : string
}.

Record LogAggregator := mkLog {
  entries_ : list LogEntry;
  max_entries_ : nat
}.

(** A new aggregator. *)
Definition init : LogAggregator := mkLog [] 10000.

(** [push], at the time [now]. *)
Definition push (now : Z) (source level message : string) (a : LogAggregator) : LogAggregator :=
  mkLog (pop_front_while (max_entries_ a) (entries_ a ++ [mkEntry now source level message]))
        (max_entries_ a).

(** [raw_line.substr(raw_line.find(' ') + 1)]: without a space, [npos + 1]
    wraps to 0. *)
Definition after_first_space (raw_line : string) : outcome string :=
  match find raw_line " " 0 with
  | Some i => substr_from raw_line (i + 1)
  | None => substr_from raw_line 0
  end.

Definition push_raw (now : Z) (source raw_line : string) (a : LogAggregator)
  : outcome LogAggregator :=
  if starts_with raw_line "[ERROR]" || starts_with raw_line "ERROR:" then
    msg ← after_first_space raw_line; Ret (push now source "error" msg a)
  else if starts_with raw_line "[WARN]" || starts_with raw_line "WARN:" then
    msg ← after_first_space raw_line; Ret (push now source "warn" msg a)
  else if starts_with raw_line "[DEBUG]" || starts_with raw_line "DEBUG:" then
    msg ← after_first_space raw_line; Ret (push now source "debug" msg a)
  else Ret (push now source "info" raw_line a).

(** The loop from [rbegin()] of [search] and [get_by_source]. *)
Fixpoint scan (p : LogEntry -> bool) (limit : nat) (rev_entries results : list LogEntry)
  : list LogEntry :=
  match rev_entries with
  | [] => results
  | e :: es =>
      if decide (length results < limit)%nat
      then scan p limit es (if p e then results ++ [e] else results)
      else results
  end.

Definition search (query : string) (limit : nat) (a : LogAggregator) : list LogEntry :=
  reverse (scan (fun e => contains (message e) query) limit (reverse (entries_ a)) []).

Definition get_by_source (src : string) (limit : nat) (a : LogAggregator) : list LogEntry :=
  reverse (scan (fun e => bool_decide (source e = src)) limit (reverse (entries_ a)) []).

Section Regex.
(** [std::regex re(pattern)] and [std::regex_search(s, re)]; [None] is an
    exception, which [search_regex] swallows. *)
Context (regex_search : string -> option (string -> option bool)).

Fixpoint scan_regex (p : string -> option bool) (limit : nat)
    (rev_entries results : list LogEntry) : list LogEntry :=
  match rev_entries with
  | [] => results
  | e :: es =>
      if decide (length results < limit)%nat
      then match p (message e) with
           | Some b => scan_regex p limit es (if b then results ++ [e] else results)
           | None => results
           end
      else results
  end.

Definition search_regex (pattern : string) (limit : nat) (a : LogAggregator) : list LogEntry :=
  match regex_search pattern with
  | Some p => reverse (scan_regex p limit (reverse (entries_ a)) [])
  | None => []
  end.
End Regex.

Definition get_recent (count : nat) (a : LogAggregator) : list LogEntry :=
  let size := length (entries_ a) in
  let start := if decide (count < size)%nat then (size - count)%nat else O in
  copy_from size start (entries_ a).

Definition set_max_entries (max : nat) (a : LogAggregator) : LogAggregator :=
  mkLog (entries_ a) max.
Definition count (a : LogAggregator) : nat := length (entries_ a).
Definition clear (a : LogAggregator) : LogAggregator := mkLog [] (max_entries_ a).

(** The state-changing operations, and runs of them. *)
Inductive op :=
  | Push (now : Z) (source level message : string)
  | PushRaw (now : Z) (source raw_line : string)
  | SetMax (max : nat)
  | Clear.

Definition exec (o : op) (a : LogAggregator) : outcome LogAggregator :=
  match o with
  | Push now s l m => Ret (push now s l m a)
  | PushRaw now s line => push_raw now s line a
  | SetMax n => Ret (set_max_entries n a)
  | Clear => Ret (clear a)
  end.

Fixpoint run (ops : list op) (a : LogAggregator) : outcome LogAggregator :=
  match ops with
  | [] => Ret a
  | o :: ops => a ← exec o a; run ops a
  end.

(** ** Lemmas *)

Lemma push_entries now s l m a :
  entries_ (push now s l m a) = lastn (max_entries_ a) (entries_ a ++ [mkEntry now s l m]).
Proof. apply pop_front_while_lastn. Qed.

Lemma scan_app p limit es results :
  (length results <= limit)%nat ->
  scan p limit es results = results ++ take (limit - length results) (List.filter p es).
Proof.
  revert results. induction es as [|e es IH]; intros results Hl; cbn [scan List.filter].
  { by rewrite take_nil, app_nil_r. }
  case_decide as H.
  - destruct (p e); [|by apply IH].
    rewrite IH by (rewrite length_app; cbn [length]; lia). rewrite length_app, <- app_assoc. cbn [length].
    replace (limit - length results)%nat with (S (limit - (length results + 1))) by lia. done.
  - replace (limit - length results)%nat with O by lia. by rewrite take_0, app_nil_r.
Qed.

Lemma filter_reverse {A} (p : A -> bool) l : List.filter p (reverse l) = reverse (List.filter p l).
Proof.
  induction l as [|x l IH]; [done|]. rewrite reverse_cons, List.filter_app, IH. cbn [List.filter].
  destruct (p x); [by rewrite reverse_cons|by rewrite app_nil_r].
Qed.

(** A scan from the newest entry, put back in order, gives the last [limit]
    entries that match. *)
Lemma scan_lastn p limit l :
  reverse (scan p limit (reverse l) []) = lastn limit (List.filter p l).
Proof.
  rewrite scan_app by (cbn; lia). cbn [app length]. rewrite Nat.sub_0_r, filter_reverse.
  apply lastn_rev_take.
Qed.

Lemma scan_regex_total q limit es results :
  scan_regex (fun s => Some (q s)) limit es results = scan (fun e => q (message e)) limit es results.
Proof. revert results. induction es as [|e es IH]; intros results; cbn; [done|]. by rewrite IH. Qed.

Lemma get_recent_lastn n a : get_recent n a = lastn n (entries_ a).
Proof. apply copy_tail_lastn. Qed.

(** [find] of the space: the index is in the string. *)
Lemma index_lt s c n i : String.index n (String c "") s = Some i -> (i < String.length s)%nat.
Proof.
  revert n i. induction s as [|d s IH]; intros n i H; [by destruct n|].
  destruct n as [|n]; cbn [String.index] in H.
  - destruct (String.prefix _ _); [injection H as <-; cbn; lia|].
    destruct (String.index 0 (String c "") s) eqn:E; [|done]. injection H as <-.
    apply IH in E. cbn. lia.
  - destruct (String.index n (String c "") s) eqn:E; [|done]. injection H as <-.
    apply IH in E. cbn. lia.
Qed.

Lemma substring_suffix s pos :
  (pos <= String.length s)%nat ->
  exists pre, s = pre +:+ String.substring pos (String.length s - pos) s /\ String.length pre = pos.
Proof.
  revert pos. induction s as [|c s IH]; intros pos Hp; cbn [String.length] in *.
  { exists EmptyString. destruct pos; [done|lia]. }
  destruct pos as [|pos].
  - exists EmptyString. split; [|done]. symmetry. apply (substring_all (String c s)).
  - destruct (IH pos ltac:(lia)) as (pre & E & L). exists (String c pre). cbn. split; [|lia].
    by rewrite E at 1.
Qed.

Lemma after_first_space_suffix line :
  exists pre msg, after_first_space line = Ret msg /\ line = pre +:+ msg /\
    String.length pre = match find line " " 0 with Some i => S i | None => O end.
Proof.
  unfold after_first_space, substr_from, substr.
  destruct (find line " " 0) as [i|] eqn:E.
  - apply index_lt in E. rewrite decide_False by lia.
    destruct (substring_suffix line (i + 1)) as (pre & Hp & L); [lia|].
    eexists pre, _. split; [done|]. split; [done|lia].
  - rewrite decide_False by lia. destruct (substring_suffix line 0) as (pre & Hp & L); [lia|].
    eexists pre, _. split; [done|]. split; [done|lia].
Qed.

Lemma push_raw_push now s line a :
  exists lvl msg, push_raw now s line a = Ret (push now s lvl msg a).
Proof.
  destruct (after_first_space_suffix line) as (pre & msg & E & _). unfold push_raw. rewrite E.
  case_tests; by eexists _, _.
Qed.

Lemma exec_returns o a : exists a', exec o a = Ret a'.
Proof.
  destruct o; cbn [exec]; try by eexists.
  destruct (push_raw_push now source0 raw_line a) as (l & m & ->). by eexists.
Qed.

(** ** The abstract log

    What a reader of the log expects: the entries logged so far, of which the
    last [max_entries_] are visible. *)

(** The text after the first space. *)
Fixpoint after_space (s : string) : option string :=
  match s with
  | EmptyString => None
  | String c s' => if decide (String c "" = " ") then Some s' else after_space s'
  end.

Definition level_tags : list (string * string) :=
  [("[ERROR]", "error"); ("ERROR:", "error"); ("[WARN]", "warn"); ("WARN:", "warn");
   ("[DEBUG]", "debug"); ("DEBUG:", "debug")].

(** The level and message a raw line is logged with. *)
Definition classify (line : string) : string * string :=
  match List.find (fun t => starts_with line t.1) level_tags with
  | Some t => (t.2, default line (after_space line))
  | None => ("info", line)
  end.

Definition entry_of (o : op) : option LogEntry :=
  match o with
  | Push now s l m => Some (mkEntry now s l m)
  | PushRaw now s line => Some (mkEntry now s (classify line).1 (classify line).2)
  | SetMax _ | Clear => None
  end.

Definition is_push (o : op) : Prop := is_Some (entry_of o).

Lemma find_space_after line :
  match find line " " 0 with
  | Some i => after_space line = Some (String.substring (i + 1) (String.length line - (i + 1)) line)
  | None => after_space line = None
  end.
Proof.
  unfold find. induction line as [|c s IH]; [done|]. cbn [String.index after_space].
  destruct (decide (String c "" = " ")) as [E|E].
  - injection E as ->. cbn. rewrite prefix_empty. cbn. by rewrite Nat.sub_0_r, substring_all.
  - replace (String.prefix " " (String c s)) with false.
    + destruct (String.index 0 " " s) eqn:Ei; [|exact IH]. rewrite IH. done.
    + cbn [String.prefix]. rewrite prefix_empty.
      match goal with |- context [Ascii.ascii_dec ?x ?y] => destruct (Ascii.ascii_dec x y) end;
        [by subst; destruct E|done].
Qed.

Lemma after_first_space_default line :
  after_first_space line = Ret (default line (after_space line)).
Proof.
  unfold after_first_space, substr_from, substr. pose proof (find_space_after line) as H.
  destruct (find line " " 0) as [i|] eqn:E; rewrite H.
  - apply index_lt in E. by rewrite decide_False by lia.
  - rewrite decide_False by lia. by rewrite Nat.sub_0_r, substring_all.
Qed.

Lemma push_raw_classify now s line a :
  push_raw now s line a = Ret (push now s (classify line).1 (classify line).2 a).
Proof.
  unfold push_raw, classify, level_tags. rewrite after_first_space_default. cbn [List.find fst].
  destruct (starts_with line "[ERROR]"), (starts_with line "ERROR:"); try done.
  destruct (starts_with line "[WARN]"), (starts_with line "WARN:"); try done.
  destruct (starts_with line "[DEBUG]"), (starts_with line "DEBUG:"); done.
Qed.

(** The aggregator as a bounded log of the entries pushed. *)
#[global] Program Instance log_bounded : BoundedLog LogAggregator LogEntry LogEntry := {
  perform e := push (timestamp_ms e) (source e) (level e) (message e);
  kept := entries_;
  bound := max_entries_;
  logged e _ := [e];
  recent := get_recent
}.
Next Obligation. intros [] a _. apply push_entries. Qed.
Next Obligation. done. Qed.
Next Obligation. apply get_recent_lastn. Qed.

Lemma exec_push o e a : entry_of o = Some e -> exec o a = Ret (perform e a).
Proof. intros H. destruct o; simplify_eq/=; by rewrite ?push_raw_classify. Qed.

Lemma run_pushes ops es a :
  Forall2 (fun o e => entry_of o = Some e) ops es -> run ops a = Ret (performs es a).
Proof.
  intros H. revert a. induction H as [|o e ops es Ho Hops IH]; intros a; [done|].
  cbn [run]. rewrite (exec_push o e a Ho). apply IH.
Qed.

Lemma all_logged_entries (es : list LogEntry) (a : LogAggregator) : all_logged es a = es.
Proof. revert a. induction es as [|e es IH]; intros a; [done|]. cbn. by rewrite IH. Qed.

Definition not_space (c : byte) : bool := negb (bool_decide (String c "" = " ")).

Lemma after_space_skip pre rest :
  all_chars not_space pre = true -> after_space (pre +:+ rest) = after_space rest.
Proof.
  induction pre as [|c pre IH]; intros H; [done|]. cbn [all_chars] in H.
  apply andb_true_iff in H as [Hc Hw]. change (String c pre +:+ ?x) with (String c (pre +:+ x)).
  cbn [after_space]. unfold not_space in Hc. rewrite negb_true_iff, bool_decide_eq_false in Hc.
  rewrite decide_False by done. by apply IH.
Qed.

(** ** Properties *)

(** C24: after any run of [push] and [push_raw] on an empty aggregator, the
    entries are the last [max_entries_] of all that were logged, in order,
    each raw line with its level and message; [search], [get_by_source] and
    [get_recent] return the last entries of these that they ask for, oldest
    first. *)
Theorem log_refines_history ops es n
    (Hlogged : Forall2 (fun o e => entry_of o = Some e) ops es) :
  exists a, run ops (mkLog [] n) = Ret a /\
    entries_ a = lastn n es /\
    (forall query limit, search query limit a =
       lastn limit (List.filter (fun e => contains (message e) query) (lastn n es))) /\
    (forall src limit, get_by_source src limit a =
       lastn limit (List.filter (fun e => bool_decide (source e = src)) (lastn n es))) /\
    (forall k, get_recent k a = lastn k (lastn n es)).
Proof.
  rewrite (run_pushes ops es _ Hlogged). eexists. split; [done|].
  pose proof (performs_kept es (mkLog [] n)) as E. cbn [kept bound log_bounded] in E.
  rewrite all_logged_entries in E. cbn [entries_ max_entries_ app] in E. specialize (E ltac:(cbn; lia)).
  split; [done|]. unfold search, get_by_source.
  split; [|split]; intros; rewrite ?get_recent_lastn, E; by rewrite ?scan_lastn.
Qed.

Definition demo_ops : list op :=
  [Push 1 "scheduler" "info" "running job: 7"; PushRaw 2 "sandbox:7" "[ERROR] no such file";
   PushRaw 3 "sandbox:7" "plain output"].

Lemma log_refines_history_witness :
  exists a, run demo_ops (mkLog [] 2) = Ret a /\
    entries_ a = [mkEntry 2 "sandbox:7" "error" "no such file"; mkEntry 3 "sandbox:7" "info" "plain output"] /\
    search "file" 100 a = [mkEntry 2 "sandbox:7" "error" "no such file"].
Proof.
  destruct (log_refines_history demo_ops
    [mkEntry 1 "scheduler" "info" "running job: 7"; mkEntry 2 "sandbox:7" "error" "no such file";
     mkEntry 3 "sandbox:7" "info" "plain output"] 2) as (a & R & E & S & _).
  { repeat constructor. }
  exists a. split; [exact R|]. split; [exact E|]. rewrite S. vm_compute. reflexivity.
Defined.

(** A raw line whose level tag is not followed by a space loses the text
    up to its first space: that text is in no field of the stored entry. *)
Theorem push_raw_drops_word now src word msg a (Hword : all_chars not_space word = true) :
  push_raw now src ("[ERROR]" +:+ word +:+ " " +:+ msg) a = Ret (push now src "error" msg a).
Proof.
  rewrite push_raw_classify. f_equal. unfold classify, level_tags. cbn [List.find fst].
  rewrite (proj2 (starts_with_spec _ _)) by by eexists. cbn [fst snd]. f_equal.
  rewrite (after_space_skip "[ERROR]") by done. by rewrite after_space_skip.
Qed.

Lemma push_raw_drops_word_witness :
  push_raw 5 "job" "[ERROR]disk full" (mkLog [] 10) = Ret (mkLog [mkEntry 5 "job" "error" "full"] 10).
Proof. exact (push_raw_drops_word 5 "job" "disk" "full" (mkLog [] 10) eq_refl). Defined.

End Log.
