(* ===== verification/Security.v ===== *)
(** * Security profiles: [sandbox/src/security.cpp]

    The built-in profiles, the manager that stores profiles and applies them,
    the command validation the job loop relies on, and the bounded audit log.
    [std::unordered_set] is a [gset], [std::unordered_map] a [gmap]; where the
    code walks one, the order is the library's and no theorem depends on it.
    Effects on the system ([system], [setrlimit], messages) are a trace. *)

From stdpp Require Import base strings gmap list numbers sets.
From Stdlib Require Import ZArith Lia.
From S2P Require Import Prelude Text Bounded.

#[local] Set Warnings "-abstract-large-number".

Module Security.

Record SecurityProfile := mkProfile {
  name : string;
  description : string;
  allowed_syscalls : gset string;
  blocked_syscalls : gset string;
  dropped_capabilities : gset string;
  kept_capabilities : gset string;
  readonly_paths : list string;
  blocked_paths : list string;
  allowed_paths : list string;
  allow_network : bool;
  allow_localhost : bool;
  allowed_hosts : list string;
  allowed_ports : list string;
  max_memory_bytes : Z;       (**r uint64_t *)
  max_cpu_percent : Z;        (**r uint32_t, like the fields below *)
  max_processes : Z;
  max_open_files : Z;
  max_file_size_mb : Z;
  max_execution_seconds : Z;
  max_stdout_bytes : Z;
  max_stderr_bytes : Z
}.

(** [SecurityProfile profile;]: the default member initialisers. *)
Definition default_profile : SecurityProfile :=
  {| name := ""; description := "";
     allowed_syscalls := ∅; blocked_syscalls := ∅;
     dropped_capabilities := ∅; kept_capabilities := ∅;
     readonly_paths := []; blocked_paths := []; allowed_paths := [];
     allow_network := false; allow_localhost := false;
     allowed_hosts := []; allowed_ports := [];
     max_memory_bytes := 256 * 1024 * 1024; max_cpu_percent := 50;
     max_processes := 64; max_open_files := 1024; max_file_size_mb := 100;
     max_execution_seconds := 300;
     max_stdout_bytes := 1024 * 1024; max_stderr_bytes := 1024 * 1024 |}.

(** ** Built-in profiles ([namespace profiles]) *)

Definition minimal_syscalls : list string := [
    "read"; "write"; "open"; "close"; "stat"; "fstat"; "lstat"; "poll"; "lseek"; "mmap";
    "mprotect"; "munmap"; "brk"; "rt_sigaction"; "rt_sigprocmask"; "ioctl"; "access"; "pipe";
    "select"; "sched_yield"; "mremap"; "msync"; "dup"; "dup2"; "nanosleep"; "getpid"; "socket";
    "connect"; "clone"; "fork"; "vfork"; "execve"; "exit"; "wait4"; "kill"; "uname"; "fcntl";
    "flock"; "fsync"; "fdatasync"; "truncate"; "ftruncate"; "getdents"; "getcwd"; "chdir";
    "fchdir"; "rename"; "mkdir"; "rmdir"; "creat"; "link"; "unlink"; "symlink"; "readlink";
    "chmod"; "fchmod"; "chown"; "fchown"; "lchown"; "umask"; "gettimeofday"; "getrlimit";
    "getrusage"; "sysinfo"; "times"; "getuid"; "getgid"; "setuid"; "setgid"; "geteuid";
    "getegid"; "setpgid"; "getppid"; "getpgrp"; "setsid"; "getgroups"; "setgroups"; "getpgid";
    "getsid"; "capget"; "capset"; "rt_sigpending"; "rt_sigtimedwait"; "rt_sigsuspend";
    "sigaltstack"; "utime"; "mknod"; "personality"; "statfs"; "fstatfs"; "getpriority";
    "setpriority"; "sched_setparam"; "sched_getparam"; "sched_setscheduler";
    "sched_getscheduler"; "sched_get_priority_max"; "sched_get_priority_min";
    "sched_rr_get_interval"; "mlock"; "munlock"; "mlockall"; "munlockall"; "vhangup";
    "pivot_root"; "arch_prctl"; "setrlimit"; "chroot"; "sync"; "settimeofday"; "sethostname";
    "setdomainname"; "gettid"; "readahead"; "setxattr"; "lsetxattr"; "fsetxattr"; "getxattr";
    "lgetxattr"; "fgetxattr"; "listxattr"; "llistxattr"; "flistxattr"; "removexattr";
    "lremovexattr"; "fremovexattr"; "tkill"; "time"; "futex"; "sched_setaffinity";
    "sched_getaffinity"; "set_tid_address"; "restart_syscall"; "fadvise64"; "clock_settime";
    "clock_gettime"; "clock_getres"; "clock_nanosleep"; "exit_group"; "epoll_wait";
    "epoll_ctl"; "tgkill"; "utimes"; "mbind"; "set_mempolicy"; "get_mempolicy"; "openat";
    "mkdirat"; "mknodat"; "fchownat"; "futimesat"; "newfstatat"; "unlinkat"; "renameat";
    "linkat"; "symlinkat"; "readlinkat"; "fchmodat"; "faccessat"; "pselect6"; "ppoll";
    "unshare"; "set_robust_list"; "get_robust_list"; "splice"; "tee"; "sync_file_range";
    "utimensat"; "epoll_pwait"; "signalfd"; "timerfd_create"; "eventfd"; "fallocate";
    "timerfd_settime"; "timerfd_gettime"; "accept4"; "signalfd4"; "eventfd2"; "epoll_create1";
    "dup3"; "pipe2"; "inotify_init1"; "preadv"; "pwritev"; "rt_tgsigqueueinfo";
    "perf_event_open"; "recvmmsg"; "prlimit64"; "name_to_handle_at"; "open_by_handle_at";
    "clock_adjtime"; "syncfs"; "sendmmsg"; "setns"; "getcpu"; "process_vm_readv";
    "process_vm_writev"; "kcmp"; "finit_module" ].

Definition minimal_dropped : list string := [
    "CAP_SYS_ADMIN"; "CAP_SYS_MODULE"; "CAP_SYS_RAWIO"; "CAP_SYS_PTRACE"; "CAP_SYS_TIME";
    "CAP_SYS_NICE"; "CAP_NET_ADMIN"; "CAP_NET_RAW"; "CAP_NET_BIND_SERVICE"; "CAP_IPC_LOCK";
    "CAP_IPC_OWNER"; "CAP_SYS_CHROOT"; "CAP_SYS_BOOT"; "CAP_SYS_RESOURCE"; "CAP_MKNOD";
    "CAP_LEASE"; "CAP_AUDIT_WRITE"; "CAP_AUDIT_CONTROL"; "CAP_SETFCAP"; "CAP_MAC_OVERRIDE";
    "CAP_MAC_ADMIN"; "CAP_SYSLOG"; "CAP_WAKE_ALARM"; "CAP_BLOCK_SUSPEND"; "CAP_AUDIT_READ" ].

Definition minimal : SecurityProfile :=
  {| name := "minimal"; description := "Minimal syscalls - only essential operations";
     allowed_syscalls := list_to_set minimal_syscalls; blocked_syscalls := ∅;
     dropped_capabilities := list_to_set minimal_dropped; kept_capabilities := ∅;
     readonly_paths := []; blocked_paths := []; allowed_paths := [];
     allow_network := false; allow_localhost := false;
     allowed_hosts := []; allowed_ports := [];
     max_memory_bytes := 128 * 1024 * 1024; max_cpu_percent := 25;
     max_processes := 16; max_open_files := 256;
     max_file_size_mb := max_file_size_mb default_profile;
     max_execution_seconds := 60;
     max_stdout_bytes := max_stdout_bytes default_profile;
     max_stderr_bytes := max_stderr_bytes default_profile |}.

Definition standard_dropped : list string := [
    "CAP_SYS_ADMIN"; "CAP_SYS_MODULE"; "CAP_SYS_RAWIO"; "CAP_SYS_PTRACE"; "CAP_SYS_TIME";
    "CAP_NET_ADMIN"; "CAP_NET_RAW"; "CAP_IPC_LOCK"; "CAP_IPC_OWNER"; "CAP_SYS_CHROOT";
    "CAP_SYS_BOOT"; "CAP_MKNOD"; "CAP_LEASE"; "CAP_AUDIT_WRITE"; "CAP_AUDIT_CONTROL";
    "CAP_SETFCAP"; "CAP_MAC_OVERRIDE"; "CAP_MAC_ADMIN"; "CAP_SYSLOG"; "CAP_WAKE_ALARM";
    "CAP_BLOCK_SUSPEND" ].

Definition standard : SecurityProfile :=
  {| name := "standard"; description := "Standard security - balanced for most workloads";
     allowed_syscalls := allowed_syscalls minimal; blocked_syscalls := ∅;
     dropped_capabilities := list_to_set standard_dropped; kept_capabilities := ∅;
     readonly_paths := []; blocked_paths := []; allowed_paths := [];
     allow_network := false; allow_localhost := false;
     allowed_hosts := []; allowed_ports := [];
     max_memory_bytes := 256 * 1024 * 1024; max_cpu_percent := 50;
     max_processes := 32; max_open_files := 512;
     max_file_size_mb := max_file_size_mb default_profile;
     max_execution_seconds := 120;
     max_stdout_bytes := max_stdout_bytes default_profile;
     max_stderr_bytes := max_stderr_bytes default_profile |}.

Definition relaxed_dropped : list string := [
    "CAP_SYS_ADMIN"; "CAP_SYS_MODULE"; "CAP_SYS_RAWIO"; "CAP_SYS_PTRACE" ].

Definition relaxed : SecurityProfile :=
  {| name := "relaxed"; description := "Relaxed security - for trusted code";
     allowed_syscalls := ∅; blocked_syscalls := ∅;
     dropped_capabilities := list_to_set relaxed_dropped; kept_capabilities := ∅;
     readonly_paths := []; blocked_paths := []; allowed_paths := [];
     allow_network := true; allow_localhost := true;
     allowed_hosts := []; allowed_ports := [];
     max_memory_bytes := 512 * 1024 * 1024; max_cpu_percent := 75;
     max_processes := 64; max_open_files := 1024;
     max_file_size_mb := max_file_size_mb default_profile;
     max_execution_seconds := 300;
     max_stdout_bytes := max_stdout_bytes default_profile;
     max_stderr_bytes := max_stderr_bytes default_profile |}.

(** A copy of [standard()] with the fields [network()] and [filesystem()] set. *)
Definition copy_with (p : SecurityProfile) (nm desc : string) (ro allowed : list string)
    (net : bool) (ports : list string) : SecurityProfile :=
  {| name := nm; description := desc;
     allowed_syscalls := allowed_syscalls p; blocked_syscalls := blocked_syscalls p;
     dropped_capabilities := dropped_capabilities p; kept_capabilities := kept_capabilities p;
     readonly_paths := ro; blocked_paths := blocked_paths p; allowed_paths := allowed;
     allow_network := net; allow_localhost := allow_localhost p;
     allowed_hosts := allowed_hosts p; allowed_ports := ports;
     max_memory_bytes := max_memory_bytes p; max_cpu_percent := max_cpu_percent p;
     max_processes := max_processes p; max_open_files := max_open_files p;
     max_file_size_mb := max_file_size_mb p;
     max_execution_seconds := max_execution_seconds p;
     max_stdout_bytes := max_stdout_bytes p; max_stderr_bytes := max_stderr_bytes p |}.

Definition network : SecurityProfile :=
  copy_with standard "network" "Network enabled - for services"
    (readonly_paths standard) (allowed_paths standard) true ["80"; "443"; "8080"; "8443"].

Definition filesystem : SecurityProfile :=
  copy_with standard "filesystem" "Filesystem access enabled"
    ["/etc"; "/usr"] ["/tmp"; "/var/tmp"; "/data"] (allow_network standard) (allowed_ports standard).

Definition untrusted_dropped : list string := [
    "CAP_CHOWN"; "CAP_DAC_OVERRIDE"; "CAP_DAC_READ_SEARCH"; "CAP_FOWNER"; "CAP_FSETID";
    "CAP_KILL"; "CAP_SETGID"; "CAP_SETUID"; "CAP_SETPCAP"; "CAP_LINUX_IMMUTABLE";
    "CAP_NET_BIND_SERVICE"; "CAP_NET_BROADCAST"; "CAP_NET_ADMIN"; "CAP_NET_RAW";
    "CAP_IPC_LOCK"; "CAP_IPC_OWNER"; "CAP_SYS_MODULE"; "CAP_SYS_RAWIO"; "CAP_SYS_CHROOT";
    "CAP_SYS_PTRACE"; "CAP_SYS_PACCT"; "CAP_SYS_ADMIN"; "CAP_SYS_BOOT"; "CAP_SYS_NICE";
    "CAP_SYS_RESOURCE"; "CAP_SYS_TIME"; "CAP_SYS_TTY_CONFIG"; "CAP_MKNOD"; "CAP_LEASE";
    "CAP_AUDIT_WRITE"; "CAP_AUDIT_CONTROL"; "CAP_SETFCAP"; "CAP_MAC_OVERRIDE"; "CAP_MAC_ADMIN";
    "CAP_SYSLOG"; "CAP_WAKE_ALARM"; "CAP_BLOCK_SUSPEND"; "CAP_AUDIT_READ"; "CAP_PERFMON";
    "CAP_BPF"; "CAP_CHECKPOINT_RESTORE" ].

Definition untrusted : SecurityProfile :=
  {| name := "untrusted"; description := "Maximum restrictions - for untrusted code";
     allowed_syscalls := ∅; blocked_syscalls := ∅;
     dropped_capabilities := list_to_set untrusted_dropped; kept_capabilities := ∅;
     readonly_paths := []; blocked_paths := []; allowed_paths := [];
     allow_network := false; allow_localhost := false;
     allowed_hosts := []; allowed_ports := [];
     max_memory_bytes := 64 * 1024 * 1024; max_cpu_percent := 10;
     max_processes := 8; max_open_files := 64;
     max_file_size_mb := max_file_size_mb default_profile;
     max_execution_seconds := 30;
     max_stdout_bytes := max_stdout_bytes default_profile;
     max_stderr_bytes := max_stderr_bytes default_profile |}.

(** ** The manager *)

Record AuditEntry := mkAudit {
  timestamp : Z;
  pid : Z;
  profile : string;
  action : string;
  details : string;
  allowed : bool
}.

Record SecurityManager := mkManager {
  profiles_ : gmap string SecurityProfile;
  audit_log_ : list AuditEntry
}.

Definition load_defaults (m : SecurityManager) : SecurityManager :=
  mkManager
    (<["untrusted" := untrusted]> (<["filesystem" := filesystem]> (<["network" := network]>
     (<["relaxed" := relaxed]> (<["standard" := standard]> (<["minimal" := minimal]>
      (profiles_ m)))))))
    (audit_log_ m).

(** The constructor. *)
Definition new_manager : SecurityManager := load_defaults (mkManager ∅ []).

Definition get_profile (nm : string) (m : SecurityManager) : option SecurityProfile :=
  profiles_ m !! nm.

Definition list_profiles (m : SecurityManager) : list string := (map_to_list (profiles_ m)).*1.

Definition create_profile (p : SecurityProfile) (m : SecurityManager) : bool * SecurityManager :=
  (true, mkManager (<[name p := p]> (profiles_ m)) (audit_log_ m)).

Definition delete_profile (nm : string) (m : SecurityManager) : bool * SecurityManager :=
  (bool_decide (is_Some (profiles_ m !! nm)), mkManager (delete nm (profiles_ m)) (audit_log_ m)).

(** *** Command validation *)

Record ValidationResult := mkResult { result_allowed : bool; violations : list string }.

(** The [for] loop over [blocked_paths]. *)
Fixpoint check_blocked (command : string) (paths : list string) (r : ValidationResult)
  : ValidationResult :=
  match paths with
  | [] => r
  | path :: paths =>
      check_blocked command paths
        (if bool_decide (find command path 0 = Some 0%nat)
         then mkResult false (violations r ++ ["Command in blocked path: " +:+ path])
         else r)
  end.

(** The loop over [allowed_paths] that stops at the first match. *)
Fixpoint any_prefix (command : string) (paths : list string) : bool :=
  match paths with
  | [] => false
  | path :: paths =>
      if bool_decide (find command path 0 = Some 0%nat) then true else any_prefix command paths
  end.

Definition validate_command (command profile_name : string) (m : SecurityManager)
  : ValidationResult :=
  let result := mkResult true [] in
  match get_profile profile_name m with
  | None => mkResult false (violations result ++ ["Profile not found: " +:+ profile_name])
  | Some p =>
      let result :=
        match allowed_paths p with
        | [] => result
        | paths =>
            if any_prefix command paths then result
            else mkResult false (violations result ++ ["Command not in allowed paths"])
        end in
      check_blocked command (blocked_paths p) result
  end.

(** *** Applying a profile *)

Inductive rlimit := RLIMIT_AS | RLIMIT_NPROC | RLIMIT_NOFILE | RLIMIT_FSIZE.

Inductive effect :=
  | System (cmd : string)
  | SetRlimit (r : rlimit) (value : Z)     (**r of the calling process *)
  | Out (line : string)
  | ErrOut (line : string).

Definition apply_syscall_filter (pid : Z) (p : SecurityProfile) : bool * list effect :=
  (true, [Out ("[security] applying syscall filter to pid " +:+ to_string pid)]).

Definition apply_capabilities (pid : Z) (p : SecurityProfile) : bool * list effect :=
  (true,
   (((fun cap => Out ("[security] dropping capability: " +:+ cap)) <$> elements (dropped_capabilities p))) ++
   ((fun cap => Out ("[security] keeping capability: " +:+ cap)) <$> elements (kept_capabilities p))).

Definition apply_filesystem_restrictions (pid : Z) (p : SecurityProfile) : bool * list effect :=
  (true, (fun path => System ("mount -o bind,remount,ro " +:+ path +:+ " " +:+ path)) <$> readonly_paths p).

Definition apply_network_restrictions (pid : Z) (p : SecurityProfile) : bool * list effect :=
  (true, if allow_network p then []
         else [System ("nsenter -t " +:+ to_string pid +:+ " -n ip link set lo down")]).

(** [log_audit], at the time [now]. *)
Definition log_audit (now pid : Z) (profile action details : string) (allowed : bool)
    (m : SecurityManager) : SecurityManager :=
  let log := audit_log_ m ++ [mkAudit now pid profile action details allowed] in
  mkManager (profiles_ m) (if decide (10000 < length log)%nat then drop 1 log else log).

(** One guarded step [if (cond) success &= f(pid, profile);]. *)
Definition apply_if (cond : bool) (f : bool * list effect) (acc : bool * list effect)
  : bool * list effect :=
  if cond then (acc.1 && f.1, acc.2 ++ f.2) else acc.

Definition nonempty_set (s : gset string) : bool := negb (bool_decide (s = ∅)).
Definition nonempty (l : list string) : bool := negb (bool_decide (l = [])).

(** [apply_profile] on Linux: the result, the effects in order, the manager. *)
Definition apply_profile (now pid : Z) (profile_name : string) (m : SecurityManager)
  : bool * list effect * SecurityManager :=
  match get_profile profile_name m with
  | None => (false, [ErrOut ("[security] profile not found: " +:+ profile_name)], m)
  | Some p =>
      let acc := (true, []) in
      let acc := apply_if (nonempty_set (allowed_syscalls p) || nonempty_set (blocked_syscalls p))
                   (apply_syscall_filter pid p) acc in
      let acc := apply_if (nonempty_set (dropped_capabilities p) || nonempty_set (kept_capabilities p))
                   (apply_capabilities pid p) acc in
      let acc := apply_if (nonempty (readonly_paths p) || nonempty (blocked_paths p))
                   (apply_filesystem_restrictions pid p) acc in
      let acc := apply_if (negb (allow_network p)) (apply_network_restrictions pid p) acc in
      let limits := [ SetRlimit RLIMIT_AS (max_memory_bytes p);
                      SetRlimit RLIMIT_NPROC (max_processes p);
                      SetRlimit RLIMIT_NOFILE (max_open_files p);
                      SetRlimit RLIMIT_FSIZE (u32 (u32 (max_file_size_mb p * 1024) * 1024)) ] in
      (acc.1, acc.2 ++ limits,
       log_audit now pid profile_name "apply" "Profile applied" acc.1 m)
  end.

Definition get_audit_log (last_n : nat) (m : SecurityManager) : list AuditEntry :=
  let size := length (audit_log_ m) in
  let start := if decide (last_n < size)%nat then (size - last_n)%nat else O in
  copy_from size start (audit_log_ m).

(** ** Lemmas *)

Lemma bool_decide_find_0 command path :
  bool_decide (find command path 0 = Some 0%nat) = starts_with command path.
Proof.
  destruct (starts_with command path) eqn:E.
  - apply bool_decide_eq_true. by apply find_0_prefix.
  - apply bool_decide_eq_false. intros H. apply find_0_prefix in H. congruence.
Qed.

Lemma any_prefix_existsb command paths :
  any_prefix command paths = existsb (starts_with command) paths.
Proof.
  induction paths as [|path paths IH]; [done|]. cbn. rewrite bool_decide_find_0, IH.
  by destruct (starts_with command path).
Qed.

Definition blocked_msgs (command : string) (paths : list string) : list string :=
  (fun path => "Command in blocked path: " +:+ path) <$> List.filter (starts_with command) paths.

Lemma check_blocked_spec command paths r :
  check_blocked command paths r =
  mkResult (result_allowed r && negb (existsb (starts_with command) paths))
           (violations r ++ blocked_msgs command paths).
Proof.
  revert r. induction paths as [|path paths IH]; intros r; cbn.
  { destruct r. by rewrite app_nil_r, andb_true_r. }
  rewrite bool_decide_find_0, IH. unfold blocked_msgs. cbn [List.filter].
  destruct (starts_with command path); cbn; [|done].
  by rewrite <- app_assoc, !andb_false_r.
Qed.

Lemma validate_command_cases command nm m :
  validate_command command nm m =
  match profiles_ m !! nm with
  | None => mkResult false ["Profile not found: " +:+ nm]
  | Some p =>
      let listed := bool_decide (allowed_paths p = []) || existsb (starts_with command) (allowed_paths p) in
      mkResult (listed && negb (existsb (starts_with command) (blocked_paths p)))
        ((if listed then [] else ["Command not in allowed paths"]) ++ blocked_msgs command (blocked_paths p))
  end.
Proof.
  unfold validate_command, get_profile. destruct (profiles_ m !! nm) as [p|]; [|done].
  rewrite check_blocked_spec. destruct (allowed_paths p) as [|a l] eqn:E; [done|].
  rewrite any_prefix_existsb, bool_decide_false by done. cbn [orb].
  by destruct (existsb (starts_with command) (a :: l)).
Qed.

Lemma existsb_starts_with command paths :
  existsb (starts_with command) paths = true <-> exists path, path ∈ paths /\ starts_with command path = true.
Proof. rewrite existsb_exists. by setoid_rewrite list_elem_of_In. Qed.

Lemma blocked_msgs_nil command paths :
  blocked_msgs command paths = [] <-> existsb (starts_with command) paths = false.
Proof.
  unfold blocked_msgs. induction paths as [|a l IH]; [done|]. cbn.
  destruct (starts_with command a); [done|exact IH].
Qed.

(** The entry an application of a profile leaves in the audit log. *)
Definition audit_of (now pid : Z) (nm : string) : AuditEntry :=
  mkAudit now pid nm "apply" "Profile applied" true.

Lemma apply_if_true cond f acc : f.1 = true -> acc.1 = true -> (apply_if cond f acc).1 = true.
Proof. intros Hf Ha. unfold apply_if. destruct cond; [|done]. cbn. by rewrite Ha, Hf. Qed.

Lemma log_audit_lastn now pid p a d b m :
  (length (audit_log_ m) <= 10000)%nat ->
  audit_log_ (log_audit now pid p a d b m) = lastn 10000 (audit_log_ m ++ [mkAudit now pid p a d b]).
Proof.
  intros Hl. unfold log_audit, lastn. cbn [audit_log_]. rewrite length_app. cbn [length].
  case_decide as H.
  - replace (length (audit_log_ m) + 1 - 10000)%nat with 1%nat by lia. done.
  - replace (length (audit_log_ m) + 1 - 10000)%nat with 0%nat by lia. done.
Qed.

(** [apply_profile] when the profile exists: it succeeds, whatever the
    commands it ran did. *)
Lemma apply_profile_found now pid nm m p :
  profiles_ m !! nm = Some p ->
  exists effs,
    apply_profile now pid nm m =
    (true, effs ++ [SetRlimit RLIMIT_AS (max_memory_bytes p); SetRlimit RLIMIT_NPROC (max_processes p);
                    SetRlimit RLIMIT_NOFILE (max_open_files p);
                    SetRlimit RLIMIT_FSIZE (u32 (max_file_size_mb p * 2 ^ 20))],
     log_audit now pid nm "apply" "Profile applied" true m) /\
    (allow_network p = false ->
     exists pre, effs = pre ++ [System ("nsenter -t " +:+ to_string pid +:+ " -n ip link set lo down")]) /\
    (forall path, path ∈ readonly_paths p ->
     System ("mount -o bind,remount,ro " +:+ path +:+ " " +:+ path) ∈ effs).
Proof.
  intros Hp. unfold apply_profile, get_profile. rewrite Hp.
  set (a1 := apply_if _ (apply_syscall_filter pid p) _).
  set (a2 := apply_if _ (apply_capabilities pid p) _).
  set (a3 := apply_if _ (apply_filesystem_restrictions pid p) _).
  set (a4 := apply_if _ (apply_network_restrictions pid p) _).
  assert (E : a4.1 = true) by (repeat apply apply_if_true; done).
  rewrite E. exists a4.2. split; [|split].
  - do 3 f_equal. unfold u32, wrap. rewrite Zmult_mod_idemp_l. do 4 f_equal. f_equal. f_equal. lia.
  - intros Hn. unfold a4, apply_if, apply_network_restrictions. rewrite Hn. cbn. by eexists.
  - intros path Hin. assert (Hc : nonempty (readonly_paths p) = true).
    { unfold nonempty. apply negb_true_iff, bool_decide_eq_false. intros E0. rewrite E0 in Hin.
      by apply elem_of_nil in Hin. }
    assert (H3 : System ("mount -o bind,remount,ro " +:+ path +:+ " " +:+ path) ∈ a3.2).
    { unfold a3, apply_if. rewrite Hc. cbn. apply elem_of_app. right. apply list_elem_of_fmap. eauto. }
    unfold a4, apply_if. destruct (negb (allow_network p)); [|done]. cbn. apply elem_of_app. by left.
Qed.

(** The system-call filter's message appears exactly when a profile lists
    system calls. *)
Lemma apply_profile_filters now pid nm m p :
  profiles_ m !! nm = Some p ->
  Out ("[security] applying syscall filter to pid " +:+ to_string pid) ∈ (apply_profile now pid nm m).1.2 <->
  nonempty_set (allowed_syscalls p) || nonempty_set (blocked_syscalls p) = true.
Proof.
  intros Hp. unfold apply_profile, get_profile. rewrite Hp. cbn [fst snd].
  set (c1 := nonempty_set _ || nonempty_set (blocked_syscalls p)).
  split; [|intros E; rewrite E; unfold apply_if; cbn [fst snd]; case_tests; set_solver].
  intros H. destruct c1; [done|]. exfalso. revert H.
  unfold apply_if, apply_capabilities, apply_filesystem_restrictions, apply_network_restrictions.
  set (msg := Out _). intros H.
  assert (N : forall l : list effect, Forall (fun e => e <> msg) l -> msg ∉ l).
  { intros l Hl Hin. rewrite List.Forall_forall in Hl. by eapply Hl; [apply list_elem_of_In|]. }
  revert H. apply N. clear N. subst msg.
  repeat (case_match; cbn [fst snd app]); repeat (apply Forall_app; split); repeat constructor;
    try (apply Forall_fmap, Forall_forall; intros ? _); try (apply List.Forall_forall; intros ? _);
    cbn; intros [=].
Qed.

(** *** Runs *)

Inductive op :=
  | Apply (now pid : Z) (profile_name : string)
  | Create (p : SecurityProfile)
  | Delete (nm : string)
  | LoadDefaults.

Definition exec (o : op) (m : SecurityManager) : SecurityManager :=
  match o with
  | Apply now pid nm => (apply_profile now pid nm m).2
  | Create p => (create_profile p m).2
  | Delete nm => (delete_profile nm m).2
  | LoadDefaults => load_defaults m
  end.

Definition run (ops : list op) (m : SecurityManager) : SecurityManager :=
  foldl (fun m o => exec o m) m ops.

(** What an operation adds to the audit log: an application of an existing
    profile. *)
Definition applied_by (o : op) (m : SecurityManager) : list AuditEntry :=
  match o with
  | Apply now pid nm => match profiles_ m !! nm with Some _ => [audit_of now pid nm] | None => [] end
  | _ => []
  end.

Lemma exec_audit o m :
  (length (audit_log_ m) <= 10000)%nat ->
  audit_log_ (exec o m) = lastn 10000 (audit_log_ m ++ applied_by o m).
Proof.
  intros Hl. destruct o as [now pid nm|p|nm|]; cbn [applied_by exec];
    try (by rewrite app_nil_r, lastn_all).
  destruct (profiles_ m !! nm) as [p|] eqn:Hp.
  - destruct (apply_profile_found now pid nm m p Hp) as (effs & -> & _).
    by apply log_audit_lastn.
  - unfold apply_profile, get_profile. rewrite Hp. cbn. by rewrite app_nil_r, lastn_all.
Qed.

Lemma get_audit_log_lastn n m : get_audit_log n m = lastn n (audit_log_ m).
Proof. apply copy_tail_lastn. Qed.

(** The audit log of a manager as a bounded log. *)
#[global] Instance audit_bounded : BoundedLog SecurityManager op AuditEntry := {
  perform := exec;
  kept := audit_log_;
  bound _ := 10000%nat;
  logged := applied_by;
  recent := get_audit_log;
  perform_kept := exec_audit;
  perform_bound _ _ := eq_refl;
  recent_kept := get_audit_log_lastn
}.

(** The applications of existing profiles in a run, in order. *)
Definition applied (ops : list op) (m : SecurityManager) : list AuditEntry := all_logged ops m.

(** What one profile restricts at least as much as another. *)
Definition at_least_as_strict (p q : SecurityProfile) : Prop :=
  dropped_capabilities q ⊆ dropped_capabilities p /\
  max_memory_bytes p <= max_memory_bytes q /\ max_cpu_percent p <= max_cpu_percent q /\
  max_processes p <= max_processes q /\ max_open_files p <= max_open_files q /\
  max_execution_seconds p <= max_execution_seconds q /\
  implb (allow_network p) (allow_network q) = true.

#[global] Instance at_least_as_strict_dec p q : Decision (at_least_as_strict p q).
Proof. unfold at_least_as_strict. apply _. Defined.

(** ** Properties *)

(** C23: [validate_command] allows a command exactly when the profile exists,
    one of its allowed paths (if it lists any) is a prefix of the command and
    none of its blocked paths is; the violations are empty exactly when the
    command is allowed. *)
Theorem validate_command_correct command nm m :
  (result_allowed (validate_command command nm m) = true <->
   exists p, profiles_ m !! nm = Some p /\
     (allowed_paths p = [] \/
      exists path, path ∈ allowed_paths p /\ starts_with command path = true) /\
     ~ (exists path, path ∈ blocked_paths p /\ starts_with command path = true)) /\
  (violations (validate_command command nm m) = [] <->
   result_allowed (validate_command command nm m) = true).
Proof.
  rewrite validate_command_cases. destruct (profiles_ m !! nm) as [p|]; cbn; cycle 1.
  { split; split; try done. by intros (? & ? & _). }
  set (listed := bool_decide _ || _). set (blk := existsb _ (blocked_paths p)). split.
  - rewrite andb_true_iff, negb_true_iff. unfold listed. rewrite orb_true_iff, bool_decide_eq_true.
    setoid_rewrite <- existsb_starts_with. unfold blk. split.
    + intros [H1 H2]. exists p. split; [done|]. split; [exact H1|congruence].
    + intros (q & [= <-] & H1 & H2). split; [exact H1|]. by apply not_true_iff_false.
  - rewrite app_nil, blocked_msgs_nil. fold blk.
    destruct listed, blk; cbn; split; try done; intros [? ?]; done.
Qed.

(** The audit log of any run holds the last 10000 applications of
    existing profiles, in order, and [get_audit_log] the last of these it is
    asked for. *)
Theorem audit_log_keeps_last ops n :
  audit_log_ (run ops new_manager) = lastn 10000 (applied ops new_manager) /\
  get_audit_log n (run ops new_manager) = lastn n (lastn 10000 (applied ops new_manager)).
Proof.
  assert (Hl : (length (kept new_manager) <= bound new_manager)%nat) by (cbn; lia).
  split; [exact (performs_kept ops new_manager Hl)|exact (recent_performs n ops new_manager Hl)].
Qed.

(** Applying a profile succeeds exactly when the profile exists; it then
    ends with the four resource limits in order, after taking the loopback
    down if the profile has no network and remounting every read-only path;
    for a missing profile nothing happens but a message. *)
Theorem apply_profile_effects now pid nm m :
  match profiles_ m !! nm with
  | None => apply_profile now pid nm m = (false, [ErrOut ("[security] profile not found: " +:+ nm)], m)
  | Some p =>
      exists effs,
        apply_profile now pid nm m =
          (true, effs ++ [SetRlimit RLIMIT_AS (max_memory_bytes p);
                          SetRlimit RLIMIT_NPROC (max_processes p);
                          SetRlimit RLIMIT_NOFILE (max_open_files p);
                          SetRlimit RLIMIT_FSIZE (u32 (max_file_size_mb p * 2 ^ 20))],
           log_audit now pid nm "apply" "Profile applied" true m) /\
        (allow_network p = false ->
         exists pre, effs = pre ++ [System ("nsenter -t " +:+ to_string pid +:+ " -n ip link set lo down")]) /\
        (forall path, path ∈ readonly_paths p ->
         System ("mount -o bind,remount,ro " +:+ path +:+ " " +:+ path) ∈ effs)
  end.
Proof.
  destruct (profiles_ m !! nm) as [p|] eqn:Hp; [by apply apply_profile_found|].
  unfold apply_profile, get_profile. by rewrite Hp.
Qed.

(** [max_file_size_mb * 1024 * 1024] is computed in 32 bits: a limit of
    4096 MB or more is applied as its remainder, 4 GB as a limit of 0 bytes. *)
Theorem file_size_limit_wraps now pid nm m p k
    (Hp : profiles_ m !! nm = Some p) (Hmb : max_file_size_mb p = 4096 * k) :
  SetRlimit RLIMIT_FSIZE 0 ∈ (apply_profile now pid nm m).1.2.
Proof.
  destruct (apply_profile_found now pid nm m p Hp) as (effs & -> & _). cbn [fst snd].
  rewrite Hmb. replace (u32 (4096 * k * 2 ^ 20)) with 0; [set_solver|].
  unfold u32, wrap. replace (4096 * k * 2 ^ 20) with (k * 2 ^ 32) by lia. by rewrite Z.mod_mul.
Qed.

Lemma file_size_limit_wraps_witness :
  SetRlimit RLIMIT_FSIZE 0 ∈
    (apply_profile 0 42 "big" (mkManager {["big" := 
       {| name := "big"; description := ""; allowed_syscalls := ∅; blocked_syscalls := ∅;
          dropped_capabilities := ∅; kept_capabilities := ∅; readonly_paths := []; blocked_paths := [];
          allowed_paths := []; allow_network := true; allow_localhost := true; allowed_hosts := [];
          allowed_ports := []; max_memory_bytes := 1; max_cpu_percent := 1; max_processes := 1;
          max_open_files := 1; max_file_size_mb := 4096; max_execution_seconds := 1;
          max_stdout_bytes := 1; max_stderr_bytes := 1 |}]} [])).1.2.
Proof. eapply (file_size_limit_wraps _ _ _ _ _ 1); [reflexivity|reflexivity]. Defined.

(** The built-in profiles are ordered as their descriptions say: from
    [untrusted] over [minimal], [standard] and its two variants to [relaxed],
    capabilities dropped only shrink and limits only grow. *)
Theorem builtin_profiles_ordered :
  at_least_as_strict untrusted minimal /\ at_least_as_strict minimal standard /\
  at_least_as_strict standard network /\ at_least_as_strict standard filesystem /\
  at_least_as_strict network relaxed /\ at_least_as_strict filesystem relaxed.
Proof.
  split; [|split; [|split; [|split; [|split]]]]; 
    (refine (proj1 (bool_decide_eq_true (at_least_as_strict _ _)) _); vm_compute; reflexivity).
Qed.

(** Five of the six built-in profiles, [untrusted] among them, list no
    path: under them every command whatsoever passes validation. *)
Theorem builtin_profiles_allow_any_command command nm
    (Hnm : nm ∈ ["minimal"; "standard"; "relaxed"; "network"; "untrusted"]) :
  validate_command command nm new_manager = mkResult true [].
Proof.
  rewrite validate_command_cases. repeat (apply elem_of_cons in Hnm as [->|Hnm]; [done|]).
  by apply elem_of_nil in Hnm.
Qed.

Lemma builtin_profiles_allow_any_command_witness :
  validate_command "rm -rf /" "untrusted" new_manager = mkResult true [].
Proof. apply builtin_profiles_allow_any_command. set_solver. Defined.

(** [untrusted], described as the maximum of restrictions, filters no
    system call at all, while the laxer [minimal] and [standard] do. *)
Theorem untrusted_has_no_syscall_filter now pid :
  (Out ("[security] applying syscall filter to pid " +:+ to_string pid)
    ∉ (apply_profile now pid "untrusted" new_manager).1.2) /\
  (Out ("[security] applying syscall filter to pid " +:+ to_string pid)
    ∈ (apply_profile now pid "minimal" new_manager).1.2).
Proof.
  rewrite (apply_profile_filters _ _ _ _ untrusted), (apply_profile_filters _ _ _ _ minimal)
    by (vm_compute; reflexivity).
  split; [|by vm_compute]. intros H. vm_compute in H. done.
Qed.

(** The path check of the [filesystem] profile is a plain prefix test:
    whatever follows an allowed prefix is allowed, other directories and
    [..] included. *)
Theorem filesystem_profile_prefix_only suffix path (Hpath : path ∈ allowed_paths filesystem) :
  validate_command (path +:+ suffix) "filesystem" new_manager = mkResult true [].
Proof.
  rewrite validate_command_cases. change (profiles_ new_manager !! "filesystem") with (Some filesystem).
  cbn [blocked_paths filesystem copy_with standard]. cbn [existsb negb].
  rewrite (proj2 (existsb_starts_with _ _)); [done|].
  exists path. split; [done|]. apply starts_with_spec. by eexists.
Qed.

Lemma filesystem_profile_prefix_only_witness :
  validate_command "/tmp/../etc/shadow" "filesystem" new_manager = mkResult true [].
Proof. apply (filesystem_profile_prefix_only "/../etc/shadow" "/tmp"). set_solver. Defined.

End Security.
