(* ===== verification/IPC.v ===== *)
(** * Inter-sandbox messages: [sandbox/src/ipc.cpp]

    The datagram format ([serialize], [deserialize]), a channel's state and
    operations, the Unix-domain sockets it uses, the life of its receive
    thread as a step relation, and the manager.  Log output is left out. *)

From stdpp Require Import base strings gmap list numbers.
From Stdlib Require Import ZArith Lia.
From S2P Require Import Prelude Descriptors Text.

Module IPC.

Record IPCConfig := mkConfig {
  sandbox_id : string;
  socket_path : string;
  max_message_size : Z;
  queue_size : Z;           (**r uint32_t *)
  enable_logging : bool
}.

Record IPCMessage := mkMessage {
  from : string;
  to : string;              (**r empty: everybody *)
  topic : string;
  payload : list byte;
  timestamp : Z;            (**r uint64_t *)
  sequence : Z              (**r uint64_t *)
}.

(** [IPCMessage::create]; it leaves [sequence] unassigned: [garbage] is what
    the storage held. *)
Definition create_message (now garbage : Z) (from to topic data : string) : IPCMessage :=
  mkMessage from to topic (bytes_of data) (u64 now) garbage.

Definition as_string (m : IPCMessage) : string := string_of (payload m).

(** ** The datagram format *)

Definition NUL : byte := byte_of 0.

(** A field and its terminator. *)
Definition field (s : string) : list byte := bytes_of s ++ [NUL].

(** Everything [send_raw] writes before the payload's length. *)
Definition header (m : IPCMessage) : list byte :=
  field (from m) ++ field (to m) ++ field (topic m) ++
  field (to_string (timestamp m)) ++ field (to_string (sequence m)).

Definition serialize (m : IPCMessage) : list byte :=
  header m ++ le_bytes 4 (u32 (Z.of_nat (length (payload m)))) ++ payload m.

(** [uint8_t buffer[65536]]: [recv] fills its front and leaves the rest. *)
Definition BUFFER_SIZE : nat := Z.to_nat 65536.

Definition recv_into (buffer datagram : list byte) : list byte * nat :=
  let d := take (length buffer) datagram in (d ++ drop (length d) buffer, length d).

(** The loop of [read_field]: the field and the position of what ended it. *)
Fixpoint read_field_loop (fuel : nat) (buffer : list byte) (received pos : nat) (acc : list byte)
  : outcome (list byte * nat) :=
  match fuel with
  | O => NoFuel
  | S fuel =>
      if decide (pos < received)%nat then
        match buffer !! pos with
        | None => Undefined OutOfBounds
        | Some b =>
            if decide (b = NUL) then Ret (acc, pos)
            else read_field_loop fuel buffer received (S pos) (acc ++ [b])
        end
      else Ret (acc, pos)
  end.

(** [read_field], which skips the terminator. *)
Definition read_field (buffer : list byte) (received pos : nat) : outcome (string * nat) :=
  '(f, pos) ← read_field_loop (S received) buffer received pos [];
  Ret (string_of f, S pos).

(** [buffer + pos], [n] bytes of it. *)
Definition buffer_read (buffer : list byte) (pos n : nat) : outcome (list byte) :=
  if decide (pos + n <= length buffer)%nat then Ret (take n (drop pos buffer))
  else Undefined OutOfBounds.

Definition deserialize (buffer : list byte) (received : nat) : outcome IPCMessage :=
  '(f, pos) ← read_field buffer received 0;
  '(t, pos) ← read_field buffer received pos;
  '(tp, pos) ← read_field buffer received pos;
  '(ts, pos) ← read_field buffer received pos;
  ts ← stoull ts;
  '(sq, pos) ← read_field buffer received pos;
  sq ← stoull sq;
  l ← buffer_read buffer pos 4;
  let pos := (pos + 4)%nat in
  let len := le_val l in
  if Z.of_nat (length buffer) <? Z.of_nat pos + len then Undefined OutOfBounds
  else
    p ← buffer_read buffer pos (Z.to_nat len);
    Ret (mkMessage f t tp p ts sq).

(** ** A channel *)

(** A subscriber's callback: what identifies it, and whether its body calls
    an operation that takes [recv_mutex_] of the channel that runs it. *)
Record callback := mkCallback { cb_id : Z; cb_locks : bool }.

Record IPCChannel := mkChannel {
  config_ : IPCConfig;
  connected_ : bool;
  subscribers_ : gmap string (list callback);
  message_queue_ : list IPCMessage;
  sequence_ : Z;
  messages_sent_ : Z;
  messages_received_ : Z;
  messages_dropped_ : Z;
  bytes_sent_ : Z;
  bytes_received_ : Z
}.

Definition new_channel (cfg : IPCConfig) : IPCChannel :=
  mkChannel cfg false ∅ [] 0 0 0 0 0 0.

Definition set_connected (b : bool) (c : IPCChannel) : IPCChannel :=
  mkChannel (config_ c) b (subscribers_ c) (message_queue_ c) (sequence_ c) (messages_sent_ c)
    (messages_received_ c) (messages_dropped_ c) (bytes_sent_ c) (bytes_received_ c).

Definition set_subscribers (s : gmap string (list callback)) (c : IPCChannel) : IPCChannel :=
  mkChannel (config_ c) (connected_ c) s (message_queue_ c) (sequence_ c) (messages_sent_ c)
    (messages_received_ c) (messages_dropped_ c) (bytes_sent_ c) (bytes_received_ c).

Definition set_queue (q : list IPCMessage) (c : IPCChannel) : IPCChannel :=
  mkChannel (config_ c) (connected_ c) (subscribers_ c) q (sequence_ c) (messages_sent_ c)
    (messages_received_ c) (messages_dropped_ c) (bytes_sent_ c) (bytes_received_ c).

Definition drop_one (c : IPCChannel) : IPCChannel :=
  mkChannel (config_ c) (connected_ c) (subscribers_ c) (message_queue_ c) (sequence_ c)
    (messages_sent_ c) (messages_received_ c) (u64 (messages_dropped_ c + 1)) (bytes_sent_ c)
    (bytes_received_ c).

Definition next_sequence (c : IPCChannel) : IPCChannel :=
  mkChannel (config_ c) (connected_ c) (subscribers_ c) (message_queue_ c) (u64 (sequence_ c + 1))
    (messages_sent_ c) (messages_received_ c) (messages_dropped_ c) (bytes_sent_ c)
    (bytes_received_ c).

Definition count_sent (n : Z) (c : IPCChannel) : IPCChannel :=
  mkChannel (config_ c) (connected_ c) (subscribers_ c) (message_queue_ c) (sequence_ c)
    (u64 (messages_sent_ c + 1)) (messages_received_ c) (messages_dropped_ c)
    (u64 (bytes_sent_ c + n)) (bytes_received_ c).

Definition count_received (n : Z) (c : IPCChannel) : IPCChannel :=
  mkChannel (config_ c) (connected_ c) (subscribers_ c) (message_queue_ c) (sequence_ c)
    (messages_sent_ c) (u64 (messages_received_ c + 1)) (messages_dropped_ c) (bytes_sent_ c)
    (u64 (bytes_received_ c + n)).

(** ** Unix-domain sockets *)

(** The bound addresses: whether a receive loop reads the socket bound there,
    and the datagrams waiting in it. *)
Record endpoint := mkEndpoint { read_by_loop : bool; waiting : list (list byte) }.
Abbreviation kernel := (gmap string endpoint).

(** [strncpy(addr.sun_path, path.c_str(), sizeof(addr.sun_path) - 1)]. *)
Definition sun_path (path : string) : string := String.substring 0 107 (c_str path).

Definition path_of (cfg : IPCConfig) (id : string) : string := socket_path cfg +:+ "-" +:+ id.
Definition addr_of (cfg : IPCConfig) (id : string) : string := sun_path (path_of cfg id).

Definition sys_unlink (path : string) (k : kernel) : kernel := delete (c_str path) k.

(** [bind]: fails on an address in use, or for a reason of its own. *)
Definition sys_bind (allowed loop : bool) (addr : string) (k : kernel) : option kernel :=
  if allowed then
    match k !! addr with
    | Some _ => None
    | None => Some (<[addr := mkEndpoint loop []]> k)
    end
  else None.

Section Channel.

(** The datagram sizes the kernel accepts. *)
Context (size_ok : nat -> bool).

Definition sys_sendto (addr : string) (datagram : list byte) (k : kernel) : Z * kernel :=
  match k !! addr with
  | None => (-1, k)
  | Some e =>
      if size_ok (length datagram)
      then (Z.of_nat (length datagram),
            <[addr := mkEndpoint (read_by_loop e) (waiting e ++ [datagram])]> k)
      else (-1, k)
  end.

(** [send_raw] at the time [now]; [sock_ok]: whether [socket()] succeeds. *)
Definition send_raw (sock_ok : bool) (now : Z) (dest tpc : string) (data : list byte)
    (c : IPCChannel) (k : kernel) : bool * IPCChannel * kernel :=
  if negb (connected_ c) then (false, c, k)
  else
    let msg := mkMessage (sandbox_id (config_ c)) dest tpc data now (sequence_ c) in
    let c := next_sequence c in
    let serialized := serialize msg in
    let target := addr_of (config_ c) dest in
    if negb sock_ok then (false, c, k)
    else
      let '(sent, k) := sys_sendto target serialized k in
      if sent <? 0 then (false, drop_one c, k) else (true, count_sent sent c, k).

Definition send (sock_ok : bool) (now : Z) (dest tpc data : string) (c : IPCChannel) (k : kernel)
  : bool * IPCChannel * kernel :=
  send_raw sock_ok now dest tpc (bytes_of data) c k.

Definition broadcast (sock_ok : bool) (now : Z) (tpc data : string) (c : IPCChannel) (k : kernel)
  : bool * IPCChannel * kernel :=
  send sock_ok now "" tpc data c k.

(** *** Subscriptions *)

Definition subscribe (tpc : string) (cb : callback) (c : IPCChannel) : bool * IPCChannel :=
  let cbs := default [] (subscribers_ c !! tpc) in
  (true, set_subscribers (<[tpc := cbs ++ [cb]]> (subscribers_ c)) c).

Definition unsubscribe (tpc : string) (c : IPCChannel) : bool * IPCChannel :=
  (true, set_subscribers (delete tpc (subscribers_ c)) c).

(** [request]; the timeout is not used. *)
Definition request (sock_ok : bool) (now : Z) (dest tpc data : string) (reply_cb : callback)
    (c : IPCChannel) (k : kernel) : bool * IPCChannel * kernel :=
  let reply_topic := tpc +:+ ":reply:" +:+ to_string (sequence_ c) in
  let '(_, c) := subscribe reply_topic reply_cb c in
  send sock_ok now dest tpc data c k.

(** *** Receiving *)

(** Running the callbacks of a topic with [recv_mutex_] held. *)
Fixpoint notify (cbs : list callback) (msg : IPCMessage) (calls : list (Z * IPCMessage))
  : outcome (list (Z * IPCMessage)) :=
  match cbs with
  | [] => Ret calls
  | cb :: cbs => if cb_locks cb then Undefined Relock else notify cbs msg (calls ++ [(cb_id cb, msg)])
  end.

(** [handle_message]: the callbacks it calls, in order, and the channel. *)
Definition handle_message (msg : IPCMessage) (c : IPCChannel)
  : outcome (list (Z * IPCMessage) * IPCChannel) :=
  if negb (bool_decide (to msg = "")) && negb (bool_decide (to msg = sandbox_id (config_ c)))
  then Ret ([], c)
  else
    let c := if Z.of_nat (length (message_queue_ c)) <? queue_size (config_ c)
             then set_queue (message_queue_ c ++ [msg]) c
             else drop_one c in
    calls ← match subscribers_ c !! topic msg with
            | Some cbs => notify cbs msg []
            | None => Ret []
            end;
    calls ← match subscribers_ c !! "*" with
            | Some cbs => notify cbs msg calls
            | None => Ret calls
            end;
    Ret (calls, c).

(** One datagram in the receive loop: the buffer afterwards too. *)
Definition receive_one (buffer datagram : list byte) (c : IPCChannel)
  : outcome (list byte * list (Z * IPCMessage) * IPCChannel) :=
  let '(buffer, received) := recv_into buffer datagram in
  if decide (received = O) then Ret (buffer, [], c)
  else
    msg ← deserialize buffer received;
    '(calls, c) ← handle_message msg (count_received (Z.of_nat received) c);
    Ret (buffer, calls, c).

(** *** The queue *)

Record QueueStats := mkStats {
  stat_sent : Z; stat_received : Z; stat_dropped : Z; stat_bytes_sent : Z; stat_bytes_received : Z
}.

Definition get_stats (c : IPCChannel) : QueueStats :=
  mkStats (messages_sent_ c) (messages_received_ c) (messages_dropped_ c) (bytes_sent_ c)
    (bytes_received_ c).

(** The loop of [get_pending]. *)
Fixpoint pop_pending (queue : list IPCMessage) (max_count : nat) (result : list IPCMessage)
  : list IPCMessage * list IPCMessage :=
  match queue with
  | [] => (result, [])
  | m :: q =>
      if decide (length result < max_count)%nat then pop_pending q max_count (result ++ [m])
      else (result, queue)
  end.

Definition get_pending (max_count : nat) (c : IPCChannel) : list IPCMessage * IPCChannel :=
  let '(result, q) := pop_pending (message_queue_ c) max_count [] in (result, set_queue q c).

Fixpoint pop_all (queue : list IPCMessage) : list IPCMessage :=
  match queue with [] => [] | _ :: q => pop_all q end.

Definition drain (c : IPCChannel) : bool * IPCChannel := (true, set_queue (pop_all (message_queue_ c)) c).

End Channel.

(** ** The receive thread

    [connect], [disconnect] and the thread that runs [receive_loop], with the
    kernel they share.  [closing] is the time a call of [disconnect] waits
    for the thread to end. *)

Inductive loop_state :=
  | NoThread
  | Pending                        (**r created, not yet past its [bind] *)
  | Running (sock : Z) (buffer : list byte)
  | Exited.

Record system := mkSystem {
  chan : IPCChannel;
  kern : kernel;
  loop : loop_state;
  closing : bool;
  called : list (Z * IPCMessage);  (**r the callbacks run so far *)
  fds : list fd_call               (**r the sockets made and closed *)
}.

Definition own_path (c : IPCChannel) : string := path_of (config_ c) (sandbox_id (config_ c)).
Definition own_addr (c : IPCChannel) : string := sun_path (own_path c).

(** [connect]: [sock] is what [socket()] gives, [bind_ok] whether the kernel
    grants the call.  The bound socket is never stored: nothing closes it. *)
Definition connect (sock : Z) (bind_ok : bool) (s : system) : bool * system :=
  if connected_ (chan s) then (true, s)
  else if sock <? 0 then (false, s)
  else
    let k := sys_unlink (own_path (chan s)) (kern s) in
    match sys_bind bind_ok false (own_addr (chan s)) k with
    | None => (false, mkSystem (chan s) k (loop s) (closing s) (called s) (fds s ++ [Opened sock; Closed sock]))
    | Some k =>
        (true, mkSystem (set_connected true (chan s)) k Pending (closing s) (called s) (fds s ++ [Opened sock]))
    end.

(** [disconnect] up to the [join]. *)
Definition disconnect_begin (s : system) : bool * system :=
  if negb (connected_ (chan s)) then (true, s)
  else (true, mkSystem (set_connected false (chan s)) (kern s) (loop s) true (called s) (fds s)).

(** The rest of [disconnect], once the thread has ended. *)
Definition disconnect_end (s : system) : system :=
  mkSystem (chan s) (sys_unlink (own_path (chan s)) (kern s)) NoThread false (called s) (fds s).

(** The start of [receive_loop], up to the loop. *)
Definition loop_start (sock : Z) (bind_ok : bool) (buffer : list byte) (s : system) : system :=
  let exit calls := mkSystem (chan s) (kern s) Exited (closing s) (called s) (fds s ++ calls) in
  if sock <? 0 then exit []
  else
    match sys_bind bind_ok true (own_addr (chan s)) (kern s) with
    | None => exit [Opened sock; Closed sock]
    | Some k => mkSystem (chan s) k (Running sock buffer) (closing s) (called s) (fds s ++ [Opened sock])
    end.

(** One turn of the loop that finds a datagram. *)
Definition loop_turn (sock : Z) (buffer : list byte) (s : system) : outcome system :=
  match kern s !! own_addr (chan s) with
  | Some (mkEndpoint true (d :: ds)) =>
      '(buffer, calls, c) ← receive_one buffer d (chan s);
      Ret (mkSystem c (<[own_addr (chan s) := mkEndpoint true ds]> (kern s)) (Running sock buffer)
             (closing s) (called s ++ calls) (fds s))
  | _ => Ret s
  end.

(** The end of [receive_loop]. *)
Definition loop_end (sock : Z) (s : system) : system :=
  mkSystem (chan s) (kern s) Exited (closing s) (called s) (fds s ++ [Closed sock]).

(** Changes to the sockets that neither remove nor replace the one bound to
    an address. *)
Definition keeps_own (addr : string) (k k' : kernel) : Prop :=
  forall e, k !! addr = Some e -> exists e', k' !! addr = Some e' /\ read_by_loop e' = read_by_loop e.

Definition with_chan (s : system) (c : IPCChannel) (k : kernel) : system :=
  mkSystem c k (loop s) (closing s) (called s) (fds s).

(** The steps of a channel: its owner's calls (one at a time), its receive
    thread, and what the rest of the machine does to the sockets ([machine]),
    other channels of the program included. *)
Inductive step (size_ok : nat -> bool) (machine : kernel -> kernel -> Prop) : system -> system -> Prop :=
  | step_connect s so bo :
      closing s = false -> step size_ok machine s (connect so bo s).2
  | step_disconnect s :
      closing s = false -> step size_ok machine s (disconnect_begin s).2
  | step_join s :
      closing s = true -> loop s = Exited \/ loop s = NoThread -> step size_ok machine s (disconnect_end s)
  | step_send s so now dest tpc data b c k :
      closing s = false -> send_raw size_ok so now dest tpc data (chan s) (kern s) = (b, c, k) ->
      step size_ok machine s (with_chan s c k)
  | step_request s so now dest tpc data cb b c k :
      closing s = false -> request size_ok so now dest tpc data cb (chan s) (kern s) = (b, c, k) ->
      step size_ok machine s (with_chan s c k)
  | step_subscribe s tpc cb :
      closing s = false -> step size_ok machine s (with_chan s (subscribe tpc cb (chan s)).2 (kern s))
  | step_unsubscribe s tpc :
      closing s = false -> step size_ok machine s (with_chan s (unsubscribe tpc (chan s)).2 (kern s))
  | step_get_pending s n :
      closing s = false -> step size_ok machine s (with_chan s (get_pending n (chan s)).2 (kern s))
  | step_drain s :
      closing s = false -> step size_ok machine s (with_chan s (drain (chan s)).2 (kern s))
  | step_loop_start s so bo buffer :
      loop s = Pending -> step size_ok machine s (loop_start so bo buffer s)
  | step_loop_turn s sock buffer s' :
      loop s = Running sock buffer -> connected_ (chan s) = true -> loop_turn sock buffer s = Ret s' ->
      step size_ok machine s s'
  | step_loop_end s sock buffer :
      loop s = Running sock buffer -> connected_ (chan s) = false ->
      step size_ok machine s (loop_end sock s)
  | step_machine s k :
      machine (kern s) k -> step size_ok machine s (with_chan s (chan s) k).

(** A channel as constructed. *)
Definition initial (cfg : IPCConfig) (k : kernel) : system :=
  mkSystem (new_channel cfg) k NoThread false [] [].

Definition reachable (size_ok : nat -> bool) (machine : kernel -> kernel -> Prop) (cfg : IPCConfig) (s : system) : Prop :=
  exists k, rtc (step size_ok machine) (initial cfg k) s.

(** ** The manager *)

Record IPCManager := mkManager {
  base_config_ : IPCConfig;
  channels_ : gmap string IPCChannel
}.

Definition config_for (base : IPCConfig) (id : string) : IPCConfig :=
  mkConfig id (socket_path base) (max_message_size base) (queue_size base) (enable_logging base).

(** [disconnect] of a channel whose receive thread has ended. *)
Definition close_channel (c : IPCChannel) (k : kernel) : kernel :=
  if connected_ c then kern (disconnect_end (disconnect_begin (mkSystem c k Exited false [] [])).2) else k.

(** [register_sandbox]; [None] is [nullptr].  A channel already registered
    under the id is replaced: its destructor runs unless somebody else holds
    the shared pointer ([held]).  The last result is what [connect] did with
    its socket. *)
Definition register_sandbox (sock : Z) (bind_ok held : bool) (id : string) (m : IPCManager) (k : kernel)
  : option IPCChannel * IPCManager * kernel * list fd_call :=
  let '(ok, s) := connect sock bind_ok (initial (config_for (base_config_ m) id) k) in
  if negb ok then (None, m, kern s, fds s)
  else
    let k := match channels_ m !! id with
             | Some old => if held then kern s else close_channel old (kern s)
             | None => kern s
             end in
    (Some (chan s), mkManager (base_config_ m) (<[id := chan s]> (channels_ m)), k, fds s).

Definition unregister_sandbox (id : string) (m : IPCManager) (k : kernel) : bool * IPCManager * kernel :=
  match channels_ m !! id with
  | None => (false, m, k)
  | Some c =>
      (true, mkManager (base_config_ m) (delete id (channels_ m)), close_channel c k)
  end.

(** The destructor of the manager disconnects every channel. *)
Definition destroy_manager (m : IPCManager) (k : kernel) : kernel :=
  foldl (fun k c => close_channel c k) k (map_to_list (channels_ m)).*2.

Definition get_channel (id : string) (m : IPCManager) : option IPCChannel := channels_ m !! id.

(** The loop of [broadcast_all], over the channels in any order. *)
Fixpoint broadcast_each (size_ok : nat -> bool) (sock_ok : bool) (now : Z) (tpc data : string)
    (ids : list (string * IPCChannel)) (chans : gmap string IPCChannel) (k : kernel)
  : gmap string IPCChannel * kernel :=
  match ids with
  | [] => (chans, k)
  | (id, c) :: ids =>
      let '(_, c, k) := broadcast size_ok sock_ok now tpc data c k in
      broadcast_each size_ok sock_ok now tpc data ids (<[id := c]> chans) k
  end.

Definition broadcast_all (size_ok : nat -> bool) (sock_ok : bool) (now : Z) (tpc data : string)
    (m : IPCManager) (k : kernel) : bool * IPCManager * kernel :=
  let '(chans, k) :=
    broadcast_each size_ok sock_ok now tpc data (map_to_list (channels_ m)) (channels_ m) k in
  (true, mkManager (base_config_ m) chans, k).

Record GlobalStats := mkGlobal {
  total_channels : Z; total_messages : Z; total_bytes : Z; active_subscriptions : Z
}.

Definition get_global_stats (m : IPCManager) : GlobalStats :=
  foldl (fun g '(_, c) =>
           let st := get_stats c in
           mkGlobal (total_channels g)
             (u64 (total_messages g + u64 (stat_sent st + stat_received st)))
             (u64 (total_bytes g + u64 (stat_bytes_sent st + stat_bytes_received st)))
             (active_subscriptions g))
    (mkGlobal (u64 (Z.of_nat (size (channels_ m)))) 0 0 0)
    (map_to_list (channels_ m)).

(** ** The datagram format: lemmas *)

Lemma byte_zero_NUL b : byte_val b = 0 -> b = NUL.
Proof. intros H. rewrite <- (byte_of_val b), H. done. Qed.

Lemma read_field_loop_ok bs fuel pre post received acc :
  Forall (fun b => b <> NUL) bs ->
  (length pre + length bs < received)%nat -> (length bs < fuel)%nat ->
  read_field_loop fuel (pre ++ bs ++ NUL :: post) received (length pre) acc =
  Ret (acc ++ bs, (length pre + length bs)%nat).
Proof.
  intros H. revert fuel pre acc. induction H as [|b bs Hb Hbs IH]; intros fuel pre acc Hr Hf;
    (destruct fuel as [|fuel]; [cbn [length] in Hf; lia|]); cbn [read_field_loop length app] in *;
    (rewrite decide_True by lia); rewrite (lookup_app_r pre), Nat.sub_diag by lia; cbn [lookup list_lookup].
  - rewrite decide_True by done. by rewrite app_nil_r, Nat.add_0_r.
  - rewrite decide_False by done.
    change (pre ++ b :: bs ++ NUL :: post) with (pre ++ [b] ++ bs ++ NUL :: post). rewrite app_assoc.
    replace (S (length pre)) with (length (pre ++ [b])) by (rewrite length_app; cbn; lia).
    rewrite IH by (rewrite ?length_app; cbn [length]; lia).
    rewrite <- app_assoc, length_app. cbn [length app]. do 2 f_equal. lia.
Qed.

Lemma length_field s : length (field s) = S (String.length s).
Proof. unfold field. rewrite length_app, length_bytes_of. cbn. lia. Qed.

(** The field at position [length pre] of a buffer that holds it there. *)
(** The fuel of [read_field] is enough for any buffer. *)
Lemma read_field_loop_fuel fuel buffer received pos acc :
  (received - pos < fuel)%nat -> read_field_loop fuel buffer received pos acc <> NoFuel.
Proof.
  revert pos acc. induction fuel as [|fuel IH]; intros pos acc Hf; [lia|]. simpl.
  case_decide; [|done]. destruct (buffer !! pos); [|done]. case_decide; [done|].
  apply IH. lia.
Qed.

Lemma deserialize_fuel buffer received : deserialize buffer received <> NoFuel.
Proof.
  assert (H : forall pos, read_field buffer received pos <> NoFuel).
  { intros pos. unfold read_field.
    pose proof (read_field_loop_fuel (S received) buffer received pos []) as Hl.
    destruct (read_field_loop _ _ _ _ _) as [[f p]| | |]; simpl; [done..|].
    exfalso. apply Hl; [lia|done]. }
  assert (Hs : forall s, stoull s <> NoFuel).
  { intros s. unfold stoull. destruct (convert s) as [[? ?]|]; [|done]. by repeat case_decide. }
  unfold deserialize.
  repeat match goal with
  | |- context [read_field buffer received ?p] =>
      pose proof (H p); destruct (read_field buffer received p) as [[? ?]| | |]; simpl; [|done..]
  | |- context [stoull ?s] => pose proof (Hs s); destruct (stoull s); simpl; [|done..]
  end.
  unfold buffer_read. repeat (case_match; simpl; try done); simplify_eq/=; done.
Qed.

Lemma read_field_ok buffer received pre s post :
  buffer = pre ++ field s ++ post -> nul_free s ->
  (length pre + length (field s) <= received)%nat ->
  read_field buffer received (length pre) = Ret (s, length (pre ++ field s)).
Proof.
  intros -> Hs Hr. rewrite length_field in Hr. unfold read_field, field.
  rewrite <- app_assoc. cbn [app].
  rewrite read_field_loop_ok by (rewrite ?length_bytes_of; auto using nul_free_bytes; lia).
  cbn [mbind outcome_bind app]. rewrite string_of_bytes, !length_app. cbn. do 2 f_equal. lia.
Qed.

(** A message the format can carry. *)
Definition wf_message (m : IPCMessage) : Prop :=
  nul_free (from m) /\ nul_free (to m) /\ nul_free (topic m) /\
  in_u64 (timestamp m) /\ in_u64 (sequence m).

Definition with_payload (m : IPCMessage) (p : list byte) : IPCMessage :=
  mkMessage (from m) (to m) (topic m) p (timestamp m) (sequence m).

Lemma buffer_read_mid pre mid post :
  buffer_read (pre ++ mid ++ post) (length pre) (length mid) = Ret mid.
Proof.
  unfold buffer_read. rewrite decide_True by (rewrite !length_app; lia).
  by rewrite drop_app_length, take_app_length.
Qed.

(** Deserialising a buffer that starts with a header, a length [L] and [rest]. *)
Lemma deserialize_buffer m L rest received :
  wf_message m -> in_u32 L -> (length (header m) <= received)%nat ->
  deserialize (header m ++ le_bytes 4 L ++ rest) received =
  if decide (L <= Z.of_nat (length rest)) then Ret (with_payload m (take (Z.to_nat L) rest))
  else Undefined OutOfBounds.
Proof.
  intros (Hf & Ht & Htp & Hts & Hsq) HL Hr. unfold deserialize.
  assert (Nts : nul_free (to_string (timestamp m))) by (apply to_string_nul_free; apply Hts).
  assert (Nsq : nul_free (to_string (sequence m))) by (apply to_string_nul_free; apply Hsq).
  unfold header in *. rewrite !length_app in Hr.
  set (F := field (from m)) in *. set (T := field (to m)) in *. set (P := field (topic m)) in *.
  set (S1 := field (to_string (timestamp m))) in *. set (S2 := field (to_string (sequence m))) in *.
  set (buffer := (F ++ T ++ P ++ S1 ++ S2) ++ _).
  pose proof (read_field_ok buffer received [] (from m) (T ++ P ++ S1 ++ S2 ++ le_bytes 4 L ++ rest)
    ltac:(by unfold buffer; rewrite <- !app_assoc) Hf ltac:(cbn [length]; fold F; lia)) as E0.
  cbn [length app] in E0. rewrite E0. clear E0. cbn [mbind outcome_bind app]. fold F.
  rewrite (read_field_ok buffer received F (to m) (P ++ S1 ++ S2 ++ le_bytes 4 L ++ rest)
    ltac:(by unfold buffer; rewrite <- !app_assoc) Ht ltac:(fold T; lia)).
  cbn [mbind outcome_bind]. fold T.
  rewrite (read_field_ok buffer received (F ++ T) (topic m) (S1 ++ S2 ++ le_bytes 4 L ++ rest)
    ltac:(by unfold buffer; rewrite <- !app_assoc) Htp ltac:(rewrite length_app; fold P; lia)).
  cbn [mbind outcome_bind]. fold P.
  rewrite (read_field_ok buffer received ((F ++ T) ++ P) (to_string (timestamp m)) (S2 ++ le_bytes 4 L ++ rest)
    ltac:(by unfold buffer; rewrite <- !app_assoc) Nts ltac:(rewrite !length_app; fold S1; lia)).
  cbn [mbind outcome_bind]. fold S1. rewrite stoull_of_to_string by done. cbn [mbind outcome_bind].
  rewrite (read_field_ok buffer received (((F ++ T) ++ P) ++ S1) (to_string (sequence m)) (le_bytes 4 L ++ rest)
    ltac:(by unfold buffer; rewrite <- !app_assoc) Nsq ltac:(rewrite !length_app; fold S2; lia)).
  cbn [mbind outcome_bind]. fold S2. rewrite stoull_of_to_string by done. cbn [mbind outcome_bind].
  set (H := (((F ++ T) ++ P) ++ S1) ++ S2).
  replace buffer with (H ++ le_bytes 4 L ++ rest) by (unfold buffer, H; by rewrite <- !app_assoc).
  pose proof (buffer_read_mid H (le_bytes 4 L) rest) as E. rewrite length_le_bytes in E. rewrite E.
  cbn [mbind outcome_bind]. clear E. rewrite le_val_bytes, wrap_small by exact HL.
  unfold in_u32 in HL. rewrite !length_app, length_le_bytes. case_decide as Hd.
  - rewrite (proj2 (Z.ltb_ge _ _)) by lia. unfold buffer_read.
    rewrite decide_True by (rewrite !length_app, length_le_bytes; lia).
    rewrite app_assoc. rewrite drop_app_length' by (by rewrite length_app, length_le_bytes). done.
  - by rewrite (proj2 (Z.ltb_lt _ _)) by lia.
Qed.

(** The same for a datagram that arrived in a buffer with old contents. *)
Lemma deserialize_datagram m L body b0 :
  wf_message m -> in_u32 L -> (length (header m) + 4 <= length b0)%nat ->
  let '(buffer, received) := recv_into b0 (header m ++ le_bytes 4 L ++ body) in
  let rest := drop (length (header m) + 4) buffer in
  buffer = header m ++ le_bytes 4 L ++ rest /\ length buffer = length b0 /\
  deserialize buffer received =
  if decide (L <= Z.of_nat (length rest)) then Ret (with_payload m (take (Z.to_nat L) rest))
  else Undefined OutOfBounds.
Proof.
  intros Hm HL Hl. unfold recv_into.
  set (h := header m ++ le_bytes 4 L).
  assert (Hh : length h = (length (header m) + 4)%nat) by (unfold h; by rewrite length_app, length_le_bytes).
  set (tail := take (length b0 - length h) body).
  replace (take (length b0) (header m ++ le_bytes 4 L ++ body)) with (h ++ tail); cycle 1.
  { rewrite (app_assoc (header m)). fold h. rewrite take_app, (take_ge h) by lia. done. }
  set (rest := tail ++ drop (length (h ++ tail)) b0).
  replace ((h ++ tail) ++ drop (length (h ++ tail)) b0) with (header m ++ le_bytes 4 L ++ rest)
    by (unfold rest, h; by rewrite <- !app_assoc).
  assert (Erest : drop (length (header m) + 4) (header m ++ le_bytes 4 L ++ rest) = rest).
  { rewrite app_assoc. apply drop_app_length'. by rewrite length_app, length_le_bytes. }
  rewrite Erest.
  split; [done|]. split.
  - rewrite app_assoc. fold h. unfold rest. rewrite !length_app, length_drop, ?length_app.
    assert (length tail <= length b0 - length h)%nat by (unfold tail; rewrite length_take; lia). lia.
  - apply deserialize_buffer; try done. rewrite length_app. lia.
Qed.

(** ** Delivery: lemmas *)

Lemma pop_pending_spec q n res :
  (length res <= n)%nat ->
  pop_pending q n res = (res ++ take (n - length res) q, drop (n - length res) q).
Proof.
  revert res. induction q as [|m q IH]; intros res Hl; cbn [pop_pending].
  { by rewrite take_nil, drop_nil, app_nil_r. }
  case_decide as H.
  - rewrite IH by (rewrite length_app; cbn [length]; lia). rewrite length_app, <- app_assoc. cbn [length].
    replace (n - length res)%nat with (S (n - (length res + 1))) by lia. done.
  - replace (n - length res)%nat with O by lia. by rewrite take_0, drop_0, app_nil_r.
Qed.

Lemma pop_all_nil q : pop_all q = [].
Proof. by induction q. Qed.

(** ** The receive thread: the invariant *)

(** What one channel's state satisfies at every moment: while it is connected,
    or its thread not yet joined, its address is taken by the socket
    [connect] bound, which nobody reads; and nothing was ever received. *)
Definition deaf (cfg : IPCConfig) (s : system) : Prop :=
  config_ (chan s) = cfg /\ messages_received_ (chan s) = 0 /\ message_queue_ (chan s) = [] /\ called s = [] /\
  (forall sock buffer, loop s <> Running sock buffer) /\
  (connected_ (chan s) = false -> closing s = false -> loop s = NoThread) /\
  (closing s = true -> connected_ (chan s) = false) /\
  (connected_ (chan s) = true \/ loop s = Pending ->
   exists e, kern s !! own_addr (chan s) = Some e /\ read_by_loop e = false).

Lemma send_raw_shape size_ok so now dest tpc data c k b c' k' :
  send_raw size_ok so now dest tpc data c k = (b, c', k') ->
  config_ c' = config_ c /\ connected_ c' = connected_ c /\ message_queue_ c' = message_queue_ c /\
  messages_received_ c' = messages_received_ c /\ subscribers_ c' = subscribers_ c /\
  forall addr, keeps_own addr k k'.
Proof.
  unfold send_raw, sys_sendto. intros H.
  assert (R : forall addr, keeps_own addr k k) by (intros addr e He; by exists e).
  destruct (connected_ c) eqn:Ec; cbn [negb] in H; [|by simplify_eq].
  destruct so; cbn [negb] in H; [|by simplify_eq/=].
  destruct (k !! _) as [e|] eqn:Ek; [|by simplify_eq/=].
  destruct (size_ok _); [|by simplify_eq/=].
  rewrite (proj2 (Z.ltb_ge _ _)) in H by lia. simplify_eq/=. repeat split; try done.
  intros addr e' He'. destruct (decide (addr_of (config_ c) dest = addr)) as [<-|Hne].
  - rewrite lookup_insert_eq. simplify_eq. eexists. by split.
  - rewrite lookup_insert_ne by done. by exists e'.
Qed.

Lemma deaf_with_chan cfg s c k :
  deaf cfg s -> config_ c = config_ (chan s) -> connected_ c = connected_ (chan s) ->
  message_queue_ c = [] -> messages_received_ c = messages_received_ (chan s) ->
  keeps_own (own_addr (chan s)) (kern s) k -> deaf cfg (with_chan s c k).
Proof.
  intros (Hg & Hr & Hq & Hc & Hl & Ht & Hj & Hb) Ecfg Ecn Eq Er Hk. unfold deaf, with_chan. cbn.
  rewrite Er, Ecn, Ecfg. repeat split; try done. intros H. apply Hb in H as (e & He & Hf).
  unfold own_addr, own_path in *. rewrite Ecfg. apply Hk in He as (e' & He' & Hf').
  exists e'. split; [done|congruence].
Qed.

Lemma keeps_own_refl addr k : keeps_own addr k k.
Proof. intros e He. by exists e. Qed.

Lemma deaf_initial cfg k : deaf cfg (initial cfg k).
Proof. repeat split; try done. by intros [|]. Qed.

Lemma deaf_connect cfg so bo s : deaf cfg s -> closing s = false -> deaf cfg (connect so bo s).2.
Proof.
  intros Hd Hcl. pose proof Hd as (Hg & Hr & Hq & Hc & Hl & Ht & Hj & Hb). unfold connect.
  destruct (connected_ (chan s)) eqn:Ec; [done|]. destruct (so <? 0); [done|].
  unfold sys_bind. specialize (Ht eq_refl Hcl).
  assert (F : forall k calls, deaf cfg (mkSystem (chan s) k (loop s) (closing s) (called s) calls)).
  { intros k calls. unfold deaf. cbn. rewrite Ec, Ht. repeat split; try done. by intros [|]. }
  destruct bo; [|apply F].
  destruct (sys_unlink _ _ !! own_addr (chan s)); [apply F|].
  repeat split; try done; cbn; [by rewrite Hcl|]. intros _.
  eexists. split; [apply lookup_insert_eq|done].
Qed.

Lemma deaf_loop_start cfg so bo buffer s : deaf cfg s -> loop s = Pending -> deaf cfg (loop_start so bo buffer s).
Proof.
  intros (Hg & Hr & Hq & Hc & Hl & Ht & Hj & Hb) Hp. unfold loop_start.
  destruct (Hb (or_intror Hp)) as (e & He & Hf).
  assert (F : forall calls, deaf cfg (mkSystem (chan s) (kern s) Exited (closing s) (called s) calls)).
  { intros calls. repeat split; try done; cbn; [|by intros _; exists e].
    intros Hcn Hcl. by rewrite Ht in Hp by done. }
  destruct (so <? 0); [apply F|]. unfold sys_bind. rewrite He. destruct bo; apply F.
Qed.

Section Deaf.
Context (size_ok : nat -> bool) (machine : kernel -> kernel -> Prop) (cfg : IPCConfig).
Hypothesis Hown : forall k k', machine k k' -> keeps_own (addr_of cfg (sandbox_id cfg)) k k'.

Lemma deaf_step s s' : deaf cfg s -> step size_ok machine s s' -> deaf cfg s'.
Proof using Hown.
  intros Hd Hs. pose proof Hd as (Hg & Hr & Hq & Hc & Hl & Ht & Hj & Hb).
  destruct Hs as [s so bo Hcl|s Hcl|s Hcl Hex|s so now dest tpc data b c k Hcl E
    |s so now dest tpc data cb b c k Hcl E|s tpc cb Hcl|s tpc Hcl|s n Hcl|s Hcl
    |s so bo buffer Hp|s sock buffer s' Hrun|s sock buffer Hrun|s k Hk].
  - by apply deaf_connect.
  - unfold disconnect_begin. destruct (connected_ (chan s)) eqn:Ec; cbn [negb]; [|done].
    repeat split; try done. cbn. intros _. apply Hb. by left.
  - repeat split; try done; cbn. intros [H|]; [by rewrite Hj in H|done].
  - apply send_raw_shape in E as (E1 & E2 & E3 & E4 & _ & E5).
    apply deaf_with_chan; auto; congruence.
  - unfold request, send in E. cbn [subscribe] in E.
    apply send_raw_shape in E as (E1 & E2 & E3 & E4 & _ & E5).
    apply deaf_with_chan; auto; cbn in *; congruence.
  - by apply deaf_with_chan; auto using keeps_own_refl.
  - by apply deaf_with_chan; auto using keeps_own_refl.
  - unfold get_pending. rewrite Hq. by apply deaf_with_chan; auto using keeps_own_refl.
  - apply deaf_with_chan; auto using keeps_own_refl. apply pop_all_nil.
  - by apply deaf_loop_start.
  - by destruct (Hl sock buffer).
  - by destruct (Hl sock buffer).
  - apply deaf_with_chan; try done. unfold own_addr, own_path. rewrite Hg. by apply Hown.
Qed.

Lemma deaf_reachable s : reachable size_ok machine cfg s -> deaf cfg s.
Proof using Hown.
  intros [k H]. remember (initial cfg k) as s0 eqn:E.
  assert (H0 : deaf cfg s0) by (subst; apply deaf_initial). clear E.
  induction H as [|s1 s2 s3 H12 _ IH]; [done|]. apply IH. by eapply deaf_step.
Qed.

End Deaf.

(** ** Delivery: specification *)

(** Whether a message is for the channel, and the callbacks it reaches. *)
Definition for_me (c : IPCChannel) (m : IPCMessage) : Prop :=
  to m = "" \/ to m = sandbox_id (config_ c).
#[global] Instance for_me_dec c m : Decision (for_me c m) := _.

Definition targets (c : IPCChannel) (m : IPCMessage) : list callback :=
  default [] (subscribers_ c !! topic m) ++ default [] (subscribers_ c !! "*").

Definition enqueue (m : IPCMessage) (c : IPCChannel) : IPCChannel :=
  if Z.of_nat (length (message_queue_ c)) <? queue_size (config_ c)
  then set_queue (message_queue_ c ++ [m]) c else drop_one c.

Lemma notify_exists cbs msg calls :
  notify cbs msg calls =
  if existsb cb_locks cbs then Undefined Relock
  else Ret (calls ++ ((fun cb => (cb_id cb, msg)) <$> cbs)).
Proof.
  revert calls. induction cbs as [|cb cbs IH]; intros calls; cbn; [by rewrite app_nil_r|].
  destruct (cb_locks cb); [done|]. cbn. rewrite IH. by rewrite <- app_assoc.
Qed.

Lemma enqueue_subs m c : subscribers_ (enqueue m c) = subscribers_ c.
Proof. unfold enqueue. by case_match. Qed.

Lemma for_me_test c m :
  negb (bool_decide (to m = "")) && negb (bool_decide (to m = sandbox_id (config_ c))) =
  negb (bool_decide (for_me c m)).
Proof. unfold for_me. repeat case_bool_decide; try done; tauto. Qed.

Lemma handle_message_spec c m :
  handle_message m c =
  if decide (for_me c m) then
    if existsb cb_locks (targets c m) then Undefined Relock
    else Ret ((fun cb => (cb_id cb, m)) <$> targets c m, enqueue m c)
  else Ret ([], c).
Proof.
  unfold handle_message. rewrite for_me_test.
  destruct (decide (for_me c m)); [rewrite bool_decide_true by done|rewrite bool_decide_false by done; done].
  cbn [negb]. fold (enqueue m c). unfold targets. rewrite enqueue_subs, existsb_app, fmap_app.
  destruct (subscribers_ c !! topic m) as [cbs|]; cbn [default from_option id existsb app orb fmap].
  - rewrite notify_exists. destruct (existsb _ cbs); [done|]. cbn [mbind outcome_bind app orb].
    destruct (subscribers_ c !! "*") as [ws|]; cbn [default from_option id existsb].
    + rewrite notify_exists. by destruct (existsb _ ws).
    + cbn. by rewrite app_nil_r.
  - cbn [mbind outcome_bind].
    destruct (subscribers_ c !! "*") as [ws|]; cbn [default from_option id existsb]; [|done].
    rewrite notify_exists. by destruct (existsb _ ws).
Qed.

(** Handling a list of messages, in order. *)
Fixpoint handle_all (ms : list IPCMessage) (c : IPCChannel) : outcome IPCChannel :=
  match ms with
  | [] => Ret c
  | m :: ms => '(_, c) ← handle_message m c; handle_all ms c
  end.

Definition harmless (c : IPCChannel) : Prop :=
  forall t cbs, subscribers_ c !! t = Some cbs -> Forall (fun cb => cb_locks cb = false) cbs.

Lemma harmless_targets c m : harmless c -> existsb cb_locks (targets c m) = false.
Proof.
  intros H. unfold targets. rewrite existsb_app.
  assert (E : forall t, existsb cb_locks (default [] (subscribers_ c !! t)) = false).
  { intros t. destruct (subscribers_ c !! t) as [cbs|] eqn:Et; [|done]. apply H in Et. cbn.
    induction Et as [|cb cbs Hcb _ IH]; [done|]. cbn. by rewrite Hcb, IH. }
  by rewrite !E.
Qed.

Lemma enqueue_config m c : config_ (enqueue m c) = config_ c.
Proof. unfold enqueue. by case_match. Qed.

(** The queue and the drop counter after one message that is for the channel. *)
Lemma enqueue_queue m c :
  let Q := Z.to_nat (queue_size (config_ c)) in
  (length (message_queue_ c) <= Q)%nat -> in_u64 (messages_dropped_ c) ->
  message_queue_ (enqueue m c) = take Q (message_queue_ c ++ [m]) /\
  (length (message_queue_ (enqueue m c)) <= Q)%nat /\
  in_u64 (messages_dropped_ (enqueue m c)) /\
  messages_dropped_ (enqueue m c) =
    u64 (messages_dropped_ c + (Z.of_nat (length (message_queue_ c)) + 1
                                - Z.of_nat (length (message_queue_ (enqueue m c))))).
Proof.
  intros Q HQ Hd. unfold enqueue. destruct (Z.ltb_spec (Z.of_nat (length (message_queue_ c))) (queue_size (config_ c))); cbn.
  - rewrite length_app. cbn. repeat split; try lia.
    + by rewrite take_ge by (rewrite length_app; cbn; lia).
    + apply Hd.
    + apply Hd.
    + rewrite <- (u64_small _ Hd) at 1. f_equal. lia.
  - assert (length (message_queue_ c) = Q) as E by lia. repeat split; try lia; try apply u64_range.
    + by rewrite take_app, E, Nat.sub_diag, take_0, app_nil_r, take_ge by lia.
    + f_equal. lia.
Qed.

Lemma handle_all_queue ms c :
  let Q := Z.to_nat (queue_size (config_ c)) in
  harmless c -> (length (message_queue_ c) <= Q)%nat -> in_u64 (messages_dropped_ c) ->
  exists c', handle_all ms c = Ret c' /\
  message_queue_ c' = take Q (message_queue_ c ++ filter (for_me c) ms) /\
  messages_dropped_ c' =
    u64 (messages_dropped_ c + (Z.of_nat (length (message_queue_ c ++ filter (for_me c) ms))
                                - Z.of_nat (length (message_queue_ c')))).
Proof.
  revert c. induction ms as [|m ms IH]; intros c Q Hh HQ Hd.
  - exists c. cbn [handle_all]. rewrite filter_nil, app_nil_r, take_ge by done. repeat split.
    rewrite Z.sub_diag, Z.add_0_r. symmetry. by apply u64_small.
  - cbn [handle_all]. rewrite handle_message_spec. rewrite filter_cons. case_decide as Hm.
    + rewrite harmless_targets by done. cbn [mbind outcome_bind].
      destruct (enqueue_queue m c HQ Hd) as (E1 & E2 & E3 & E4).
      destruct (IH (enqueue m c)) as (c' & R1 & R2 & R3).
      { intros t cbs. rewrite enqueue_subs. apply Hh. }
      { by rewrite enqueue_config. } { done. }
      exists c'. split; [done|].
      assert (F : forall l : list IPCMessage, filter (for_me (enqueue m c)) l = filter (for_me c) l).
      { intros l. apply list_filter_iff. intros x. unfold for_me. by rewrite enqueue_config. }
      rewrite enqueue_config, F in R2. rewrite F in R3. fold Q in R2. split.
      * rewrite R2, E1. change (m :: filter (for_me c) ms) with ([m] ++ filter (for_me c) ms).
        rewrite (app_assoc (message_queue_ c)). set (a := message_queue_ c ++ [m]).
        rewrite !take_app. rewrite take_take, Nat.min_id, length_take. do 2 f_equal. lia.
      * rewrite R3, E4. unfold u64. rewrite wrap_add_l. f_equal.
        rewrite !length_app. cbn [length]. lia.
    + cbn [mbind outcome_bind]. by apply IH.
Qed.

Lemma broadcast_unbound size_ok so now tpc data c k :
  k !! addr_of (config_ c) "" = None ->
  exists c', broadcast size_ok so now tpc data c k = (false, c', k) /\
             messages_sent_ c' = messages_sent_ c /\
             (connected_ c = true -> so = true -> messages_dropped_ c' = u64 (messages_dropped_ c + 1)).
Proof.
  intros H. unfold broadcast, send, send_raw. destruct (connected_ c); cbn; [|by exists c].
  destruct so; cbn; [|by eexists]. unfold sys_sendto. rewrite H. cbn. by eexists.
Qed.

Lemma broadcast_each_unbound size_ok so now tpc data (chans0 : gmap string IPCChannel) ids chans k :
  Forall (fun '(id, c) => chans0 !! id = Some c /\ k !! addr_of (config_ c) "" = None) ids ->
  (forall id c', chans !! id = Some c' ->
     exists c, chans0 !! id = Some c /\ messages_sent_ c' = messages_sent_ c) ->
  exists chans', broadcast_each size_ok so now tpc data ids chans k = (chans', k) /\
  (forall id c', chans' !! id = Some c' ->
     exists c, chans0 !! id = Some c /\ messages_sent_ c' = messages_sent_ c).
Proof.
  intros H. revert chans. induction H as [|[id c] ids [Hid Hk] _ IH]; intros chans Hc; cbn; [by eexists|].
  destruct (broadcast_unbound size_ok so now tpc data c k Hk) as (c' & E & Es & _). rewrite E.
  apply IH. intros id' c2. rewrite lookup_insert_Some. intros [[<- <-]|[_ H2]]; [by exists c|by apply Hc].
Qed.

(** ** Properties *)

(** C25: what [send_raw] writes, [receive_loop] reads back: a datagram that
    fits the receive buffer and whose text fields hold no NUL is parsed into
    the message that was sent, whatever the buffer held before. *)
Theorem datagram_roundtrip (m : IPCMessage) (b0 : list byte)
    (Hm : wf_message m) (Hp : Z.of_nat (length (payload m)) < 2 ^ 32)
    (Hb : (length (serialize m) <= length b0)%nat) :
  let '(buffer, received) := recv_into b0 (serialize m) in
  received = length (serialize m) /\ deserialize buffer received = Ret m.
Proof.
  unfold serialize in *. set (L := u32 _). rewrite !length_app, length_le_bytes in Hb.
  pose proof (deserialize_datagram m L (payload m) b0 Hm (u32_range _) ltac:(lia)) as H.
  unfold recv_into in *. rewrite take_ge in * by (rewrite !length_app, length_le_bytes; lia).
  destruct H as (E1 & E2 & E3). split; [done|]. rewrite E3.
  assert (EL : L = Z.of_nat (length (payload m))) by (apply u32_small; unfold in_u32; lia).
  set (d := header m ++ le_bytes 4 L ++ payload m).
  assert (Er : drop (length (header m) + 4) (d ++ drop (length d) b0) = payload m ++ drop (length d) b0).
  { unfold d. rewrite !app_assoc, <- (app_assoc _ (payload m)).
    apply drop_app_length'. by rewrite length_app, length_le_bytes. }
  rewrite Er, decide_True by (rewrite length_app; lia).
  rewrite EL, Nat2Z.id, take_app_length. by destruct m.
Qed.

(** The payload length of a datagram is trusted.  A datagram that claims
    [L] bytes but carries only [body] is accepted as long as [L] stays inside
    the 64 KiB buffer, and its payload then ends in bytes left there by
    earlier datagrams; a larger [L] reads past the buffer. *)
Theorem forged_length_leaks (m : IPCMessage) (L : Z) (body b0 : list byte)
    (Hm : wf_message m) (HL : in_u32 L)
    (Hb : (length (header m ++ le_bytes 4 L ++ body) <= length b0)%nat) :
  let n := length (header m ++ le_bytes 4 L ++ body) in
  let '(buffer, received) := recv_into b0 (header m ++ le_bytes 4 L ++ body) in
  deserialize buffer received =
  if decide (L <= Z.of_nat (length b0 - (length (header m) + 4)))
  then Ret (with_payload m (take (Z.to_nat L) (body ++ drop n b0)))
  else Undefined OutOfBounds.
Proof.
  intros n. pose proof Hb as Hb'. rewrite !length_app, length_le_bytes in Hb'.
  pose proof (deserialize_datagram m L body b0 Hm HL ltac:(lia)) as H. unfold recv_into in *.
  rewrite (take_ge (header m ++ le_bytes 4 L ++ body)) in * by done.
  destruct H as (E1 & E2 & E3). rewrite E3.
  assert (Er : drop (length (header m) + 4) ((header m ++ le_bytes 4 L ++ body) ++ drop n b0) = body ++ drop n b0).
  { rewrite !app_assoc, <- (app_assoc _ body).
    apply drop_app_length'. by rewrite length_app, length_le_bytes. }
  assert (El : length (body ++ drop n b0) = (length b0 - (length (header m) + 4))%nat).
  { rewrite length_app, length_drop. unfold n. rewrite !length_app, length_le_bytes. lia. }
  fold n. by rewrite Er, El.
Qed.


(** [handle_message] is exactly this: a message for another sandbox is
    ignored; any other is put at the end of the queue, or counted as dropped
    when the queue is full, and in both cases handed to the callbacks of its
    topic and then to those of ["*"] (so twice to the latter when the topic is
    ["*"]).  A callback that calls an operation of the same channel locks a
    mutex its thread already holds. *)
Theorem handle_message_delivers (c : IPCChannel) (m : IPCMessage) :
  handle_message m c =
  if decide (to m = "" \/ to m = sandbox_id (config_ c)) then
    if existsb cb_locks (targets c m) then Undefined Relock
    else Ret ((fun cb => (cb_id cb, m)) <$> targets c m,
              if Z.of_nat (length (message_queue_ c)) <? queue_size (config_ c)
              then set_queue (message_queue_ c ++ [m]) c else drop_one c)
  else Ret ([], c).
Proof. apply handle_message_spec. Qed.

(** C37: the queue is a bounded FIFO: after any messages, [get_pending] gives
    the first of those addressed to the channel, in the order of arrival, at
    most [max_count] of them and at most [queue_size]; every one that did not
    fit was counted as dropped. *)
Theorem pending_is_bounded_fifo (c : IPCChannel) (ms : list IPCMessage) (max_count : nat)
    (Hh : harmless c) (Hq : message_queue_ c = []) (Hd : messages_dropped_ c = 0) :
  let mine := filter (for_me c) ms in
  let Q := Z.to_nat (queue_size (config_ c)) in
  exists c', handle_all ms c = Ret c' /\
  (get_pending max_count c').1 = take max_count (take Q mine) /\
  message_queue_ (get_pending max_count c').2 = drop max_count (take Q mine) /\
  messages_dropped_ c' = u64 (Z.of_nat (length mine - Q)).
Proof.
  intros mine Q.
  destruct (handle_all_queue ms c Hh) as (c' & E1 & E2 & E3).
  { rewrite Hq. cbn. lia. } { rewrite Hd. by unfold in_u64. }
  exists c'. split; [done|]. unfold get_pending. rewrite Hq in E2, E3. cbn [app] in E2, E3.
  rewrite pop_pending_spec by (cbn; lia). cbn [fst snd app length set_queue message_queue_].
  rewrite E2, Nat.sub_0_r. repeat split.
  rewrite E3, Hd, E2. f_equal. rewrite length_take. fold mine. fold Q. lia.
Qed.

(** Registering an id again, with a channel under it that nobody else holds.  The new
    channel connects and is returned as connected, but the destructor of the
    channel it replaces then unlinks the address the two share. *)
Theorem reregistering_unlinks_new_socket (sock : Z) (id : string) (old : IPCChannel) (m : IPCManager) (k : kernel)
    (Hsock : 0 <= sock)
    (Hold : channels_ m !! id = Some old) (Hc : connected_ old = true)
    (Hcfg : config_ old = config_for (base_config_ m) id)
    (Hlen : (String.length (own_path old) <= 107)%nat) (Hnul : nul_free (own_path old)) :
  exists c m' k' calls, register_sandbox sock true false id m k = (Some c, m', k', calls) /\
  connected_ c = true /\ channels_ m' !! id = Some c /\
  own_addr c = own_path old /\ k' !! own_addr c = None.
Proof.
  assert (Ep : own_path old = path_of (config_for (base_config_ m) id) id)
    by (unfold own_path; by rewrite Hcfg).
  assert (Ec : c_str (own_path old) = own_path old) by by apply c_str_nul_free.
  assert (Ea : sun_path (own_path old) = own_path old).
  { unfold sun_path. rewrite Ec. by apply substring_ge. }
  unfold register_sandbox, connect, initial, own_addr, own_path. cbn. rewrite (proj2 (Z.ltb_ge _ _)) by done.
  rewrite <- Ep, Ea. unfold sys_unlink, sys_bind. rewrite Ec, lookup_delete_eq. cbn. rewrite Hold.
  do 4 eexists. split; [reflexivity|]. cbn. rewrite lookup_insert_eq, <- Ep, Ea. repeat split.
  unfold close_channel. rewrite Hc. unfold disconnect_begin. cbn. rewrite Hc. cbn.
  unfold sys_unlink. fold (own_path old). change (own_path (set_connected false old)) with (own_path old).
  rewrite Ec. apply lookup_delete_eq.
Qed.

(** A thread that binds after its channel's address was unlinked runs its loop
    on the address, and so the channel does receive. *)
Theorem replaced_channel_receives (sock : Z) (buffer d : list byte) (s : system) (Hsock : 0 <= sock)
    (Haddr : kern s !! own_addr (chan s) = None) :
  let s1 := loop_start sock true buffer s in
  loop s1 = Running sock buffer /\
  let s2 := with_chan s1 (chan s1) (sys_sendto (fun _ => true) (own_addr (chan s1)) d (kern s1)).2 in
  forall buffer' calls c, receive_one buffer d (chan s) = Ret (buffer', calls, c) ->
  exists s3, loop_turn sock buffer s2 = Ret s3 /\ chan s3 = c /\ called s3 = called s ++ calls.
Proof.
  unfold loop_start, sys_bind. rewrite (proj2 (Z.ltb_ge _ _)) by done. rewrite Haddr. split; [done|].
  intros buffer' calls c E. cbn [chan kern called]. unfold sys_sendto. rewrite lookup_insert_eq. cbn [read_by_loop waiting app snd].
  unfold loop_turn. cbn [chan kern with_chan]. rewrite lookup_insert_eq, E. cbn [mbind outcome_bind].
  by eexists.
Qed.

(** [broadcast_all] reaches none of the registered sandboxes.  A broadcast
    is sent to the address of the empty id, which no sandbox with another id
    owns: unless something is bound there, the kernel's sockets are left as
    they were and no channel counts a message as sent; the call still
    returns [true]. *)
Theorem broadcast_all_reaches_nobody size_ok so now (tpc data : string) (m : IPCManager) (k : kernel)
    (Hk : forall id c, channels_ m !! id = Some c -> k !! addr_of (config_ c) "" = None) :
  exists m', broadcast_all size_ok so now tpc data m k = (true, m', k) /\
  forall id c', channels_ m' !! id = Some c' ->
    exists c, channels_ m !! id = Some c /\ messages_sent_ c' = messages_sent_ c.
Proof.
  unfold broadcast_all.
  destruct (broadcast_each_unbound size_ok so now tpc data (channels_ m) (map_to_list (channels_ m)) (channels_ m) k)
    as (chans' & -> & H); [| |by eexists].
  - apply list.Forall_forall. intros [id c] Hin%elem_of_map_to_list. eauto.
  - eauto.
Qed.

(** ** Witnesses *)

Definition demo_config (id : string) : IPCConfig := mkConfig id "/tmp/ipc" 65536 1 false.
Definition demo_message : IPCMessage := mkMessage "a" "b" "t" (bytes_of "hello") 12 0.
Definition demo_other : IPCMessage := mkMessage "a" "c" "t" (bytes_of "no") 13 1.
Definition demo_buffer : list byte := replicate 64 (byte_of 83).

Lemma demo_wf : wf_message demo_message.
Proof. by repeat split. Qed.

Lemma datagram_roundtrip_witness :
  let '(buffer, received) := recv_into demo_buffer (serialize demo_message) in
  received = length (serialize demo_message) /\ deserialize buffer received = Ret demo_message.
Proof. apply (datagram_roundtrip demo_message demo_buffer demo_wf); vm_compute; [done|lia]. Defined.

(** The receiver hands out the ["S"]s an earlier datagram left behind. *)
Lemma forged_length_leaks_witness :
  let d := header demo_message ++ le_bytes 4 9 ++ bytes_of "hello" in
  let '(buffer, received) := recv_into demo_buffer d in
  deserialize buffer received = Ret (with_payload demo_message (bytes_of "helloSSSS")).
Proof.
  assert (H : in_u32 9) by by unfold in_u32.
  exact (forged_length_leaks demo_message 9 (bytes_of "hello") demo_buffer demo_wf H
    ltac:(vm_compute; lia)).
Defined.

(** A channel that has connected, whose thread has started, to which a message
    was sent. *)
Definition demo_connected : system := (connect 5 true (initial (demo_config "b") ∅)).2.
Definition demo_started : system := loop_start 6 true demo_buffer demo_connected.
Definition demo_sent : system :=
  let '(_, c, k) := send (fun _ => true) true 12 "b" "t" "hello" (chan demo_started) (kern demo_started) in
  with_chan demo_started c k.

Lemma demo_reachable : reachable (fun _ => true) (keeps_own (addr_of (demo_config "b") "b")) (demo_config "b") demo_sent.
Proof.
  exists ∅. apply rtc_l with demo_connected; [by constructor|].
  apply rtc_l with demo_started; [by apply step_loop_start|].
  apply rtc_once. unfold demo_sent.
  destruct (send (fun _ => true) true 12 "b" "t" "hello" _ _) as [[b c] k] eqn:E.
  eapply step_send; [done|exact E].
Qed.


Lemma pending_is_bounded_fifo_witness :
  exists c', handle_all [demo_message; demo_other; demo_message] (new_channel (demo_config "b")) = Ret c' /\
  (get_pending 100 c').1 = [demo_message] /\ message_queue_ (get_pending 100 c').2 = [] /\
  messages_dropped_ c' = 1.
Proof.
  assert (H : harmless (new_channel (demo_config "b"))).
  { intros t cbs Ht. unfold new_channel in Ht. cbn in Ht. by rewrite lookup_empty in Ht. }
  exact (pending_is_bounded_fifo (new_channel (demo_config "b"))
    [demo_message; demo_other; demo_message] 100 H eq_refl eq_refl).
Defined.

Lemma reregistering_unlinks_new_socket_witness :
  let base := demo_config "" in
  let old := set_connected true (new_channel (config_for base "b")) in
  let m := mkManager base {["b" := old]} in
  exists c m' k' calls, register_sandbox 5 true false "b" m ∅ = (Some c, m', k', calls) /\
  connected_ c = true /\ channels_ m' !! "b" = Some c /\
  own_addr c = own_path old /\ k' !! own_addr c = None.
Proof.
  apply reregistering_unlinks_new_socket; try done; vm_compute; lia.
Defined.

Lemma broadcast_all_reaches_nobody_witness :
  let base := demo_config "" in
  let c := set_connected true (new_channel (config_for base "b")) in
  let m := mkManager base {["b" := c]} in
  let k : kernel := {["/tmp/ipc-b" := mkEndpoint false []]} in
  exists m', broadcast_all (fun _ => true) true 0 "t" "hello" m k = (true, m', k) /\
  forall id c', channels_ m' !! id = Some c' ->
    exists c, channels_ m !! id = Some c /\ messages_sent_ c' = messages_sent_ c.
Proof.
  intros base c m k. apply broadcast_all_reaches_nobody.
  intros id c0 H. cbn in H. apply (lookup_singleton_Some "b" id c c0) in H as [<- <-]. by vm_compute.
Defined.

End IPC.
