(* ===== verification/Supervisor.v ===== *)
(** * Supervised processes: [sandbox/src/process_supervisor.cpp]

    The processes a supervisor starts, the thread that monitors each of them,
    the restart logic, the wait loop of [stop], the watchdog and the
    destructor.  The kernel gives the readings of the clock, the results of
    [fork] and the wait statuses; what the other threads do while one waits is
    an argument.  A [std::unordered_map] is a [gmap].  An operation of one
    thread is one step here; [SupervisorThreads.v] interleaves them.  The data
    races the code has on the fields of an entry are not modelled. *)

From stdpp Require Import base strings gmap list numbers.
From Stdlib Require Import ZArith Lia.
From S2P Require Import Prelude Text.

Module Supervisor.

Inductive RestartPolicy := NEVER | ON_FAILURE | ALWAYS.
#[global] Instance RestartPolicy_eq_dec : EqDecision RestartPolicy.
Proof. solve_decision. Defined.

Record ProcessConfig := mkConfig {
  name : string;
  command : string;
  args : list string;
  working_dir : string;
  environment : gmap string string;
  restart_policy : RestartPolicy;
  max_restarts : Z;               (**r uint32_t *)
  restart_delay_ms : Z;
  memory_limit_bytes : Z;         (**r uint64_t *)
  cpu_percent : Z;                (**r uint32_t; nothing reads it *)
  timeout_seconds : Z;            (**r uint32_t *)
  enable_health_check : bool;     (**r nothing reads these *)
  health_check_interval_ms : Z;
  health_check_command : string
}.

Inductive Status := STOPPED | STARTING | RUNNING | RESTARTING | FAILED.
#[global] Instance Status_eq_dec : EqDecision Status.
Proof. solve_decision. Defined.

Record ProcessState := mkState {
  status : Status;
  pid : Z;
  exit_code : Z;
  start_time : Z;
  restart_count : Z;
  last_error : string;
  cpu_time_ms : Z;                (**r never written *)
  memory_bytes : Z
}.

Definition init_state : ProcessState := mkState STOPPED (-1) 0 0 0 "" 0 0.

Inductive EventType := EvStarted | EvStopped | EvCrashed | EvRestarted | EvHealthCheckFailed.

Record ProcessEvent := mkEvent {
  type : EventType;
  process_name : string;
  event_pid : Z;
  event_exit_code : Z;
  event_timestamp : Z;
  message : string
}.

(** A [std::thread] member: no thread, one that runs, one that has ended but
    was not joined. *)
Inductive thread_state := NoThread | Active | Finished.
#[global] Instance thread_state_eq_dec : EqDecision thread_state.
Proof. solve_decision. Defined.
Definition joinable (t : thread_state) : bool := bool_decide (t <> NoThread).

Record ProcessEntry := mkEntry {
  config : ProcessConfig;
  state : ProcessState;
  monitor_thread : thread_state;
  running : bool;
  logs : list string
}.

(** The event callback: whether its body calls an operation of the supervisor
    that takes [processes_mutex_]. *)
Record callback := mkCallback { cb_locks : bool }.

Inductive signal := SIGTERM | SIGKILL.

(** What the child does between [fork] and its end. *)
Inductive child_op :=
  | Chdir (dir : string)
  | Setenv (key value : string)
  | LimitAS (bytes : Z)
  | LimitNPROC (n : Z)
  | Execvp (file : string) (argv : list string)
  | Exit (code : Z).

Record supervisor := mkSup {
  processes_ : gmap string ProcessEntry;
  event_callback_ : option callback;
  watchdog_running_ : bool;
  events : list ProcessEvent;               (**r handed to the callback *)
  signals : list (Z * signal);              (**r sent *)
  children : list (Z * list child_op);      (**r forked *)
  reads : nat                               (**r readings of the clock *)
}.

Definition new_supervisor : supervisor := mkSup ∅ None false [] [] [] O.

Definition set_processes (m : gmap string ProcessEntry) (s : supervisor) : supervisor :=
  mkSup m (event_callback_ s) (watchdog_running_ s) (events s) (signals s) (children s) (reads s).
Definition set_callback (c : option callback) (s : supervisor) : supervisor :=
  mkSup (processes_ s) c (watchdog_running_ s) (events s) (signals s) (children s) (reads s).
Definition set_watchdog (b : bool) (s : supervisor) : supervisor :=
  mkSup (processes_ s) (event_callback_ s) b (events s) (signals s) (children s) (reads s).
Definition add_event (e : ProcessEvent) (s : supervisor) : supervisor :=
  mkSup (processes_ s) (event_callback_ s) (watchdog_running_ s) (events s ++ [e]) (signals s)
    (children s) (reads s).
Definition kill (p : Z) (sig : signal) (s : supervisor) : supervisor :=
  mkSup (processes_ s) (event_callback_ s) (watchdog_running_ s) (events s) (signals s ++ [(p, sig)])
    (children s) (reads s).
Definition add_child (p : Z) (ops : list child_op) (s : supervisor) : supervisor :=
  mkSup (processes_ s) (event_callback_ s) (watchdog_running_ s) (events s) (signals s)
    (children s ++ [(p, ops)]) (reads s).
Definition tick (s : supervisor) : supervisor :=
  mkSup (processes_ s) (event_callback_ s) (watchdog_running_ s) (events s) (signals s)
    (children s) (S (reads s)).

Definition set_state (f : ProcessState -> ProcessState) (e : ProcessEntry) : ProcessEntry :=
  mkEntry (config e) (f (state e)) (monitor_thread e) (running e) (logs e).
Definition set_running (b : bool) (e : ProcessEntry) : ProcessEntry :=
  mkEntry (config e) (state e) (monitor_thread e) b (logs e).
Definition set_monitor (t : thread_state) (e : ProcessEntry) : ProcessEntry :=
  mkEntry (config e) (state e) t (running e) (logs e).

Definition with_status (st : Status) (p : ProcessState) : ProcessState :=
  mkState st (pid p) (exit_code p) (start_time p) (restart_count p) (last_error p) (cpu_time_ms p) (memory_bytes p).
Definition with_exit (code : Z) (p : ProcessState) : ProcessState :=
  mkState STOPPED (pid p) code (start_time p) (restart_count p) (last_error p) (cpu_time_ms p) (memory_bytes p).
Definition with_restarts (n : Z) (p : ProcessState) : ProcessState :=
  mkState (status p) (pid p) (exit_code p) (start_time p) n (last_error p) (cpu_time_ms p) (memory_bytes p).
Definition with_failure (err : string) (p : ProcessState) : ProcessState :=
  mkState FAILED (pid p) (exit_code p) (start_time p) (restart_count p) err (cpu_time_ms p) (memory_bytes p).
Definition with_start (p : Z) (now : Z) (st : ProcessState) : ProcessState :=
  mkState RUNNING p (exit_code st) now (restart_count st) (last_error st) (cpu_time_ms st) (memory_bytes st).
Definition with_memory (n : Z) (p : ProcessState) : ProcessState :=
  mkState (status p) (pid p) (exit_code p) (start_time p) (restart_count p) (last_error p) (cpu_time_ms p) n.

(** Changing the entry of a process. *)
Definition update (nm : string) (f : ProcessEntry -> ProcessEntry) (s : supervisor) : supervisor :=
  set_processes (alter f nm (processes_ s)) s.

(** [processes_[name]], dereferenced. *)
Definition entry (nm : string) (s : supervisor) : outcome ProcessEntry :=
  match processes_ s !! nm with Some e => Ret e | None => Undefined NullPointer end.

Definition add_process (cfg : ProcessConfig) (s : supervisor) : bool * supervisor :=
  match processes_ s !! name cfg with
  | Some _ => (false, s)
  | None => (true, set_processes (<[name cfg := mkEntry cfg init_state NoThread false []]> (processes_ s)) s)
  end.

(** The branch of the child in [spawn_process]. *)
Definition child (cfg : ProcessConfig) : list child_op :=
  (if bool_decide (working_dir cfg = "") then [] else [Chdir (working_dir cfg)]) ++
  ((fun '(k, v) => Setenv k v) <$> map_to_list (environment cfg)) ++
  [LimitAS (memory_limit_bytes cfg); LimitNPROC 1; Execvp (command cfg) (command cfg :: args cfg); Exit 127].

(** The threads that run the supervisor's code. *)
Inductive thread := Caller | MonitorOf (nm : string) | Watchdog.
#[global] Instance thread_eq_dec : EqDecision thread.
Proof. solve_decision. Defined.

(** What the other threads do: until the monitor of a process ends ([None]:
    it never does), and during the [i]-th sleep of [stop]. *)
Record others := mkOthers {
  until_monitor_ends : string -> supervisor -> option supervisor;
  during_sleep : nat -> supervisor -> supervisor
}.

(** [duration_cast<milliseconds>]. *)
Definition ms (t : Z) : Z := Z.quot t 1000000.

Section Operations.

#[local] Set Default Proof Using "Type".

(** The kernel: the [n]-th reading of the clock in nanoseconds, the [n]-th
    [fork], and the text of its error. *)
Context (clock : nat -> Z) (fork_result : nat -> option Z) (fork_error : string).

(** [held]: the calling thread holds [processes_mutex_]. *)
Definition emit_event (held : bool) (ty : EventType) (nm : string) (p code : Z) (msg : string)
    (s : supervisor) : outcome supervisor :=
  match event_callback_ s with
  | None => Ret s
  | Some cb =>
      let ev := mkEvent ty nm p code (u64 (ms (clock (reads s)))) msg in
      if cb_locks cb && held then Undefined Relock else Ret (add_event ev (tick s))
  end.

(** [if (entry->monitor_thread.joinable()) entry->monitor_thread.join();] *)
Definition join_monitor (w : others) (self : thread) (nm : string) (s : supervisor) : outcome supervisor :=
  e ← entry nm s;
  match monitor_thread e with
  | NoThread => Ret s
  | Finished => Ret (update nm (set_monitor NoThread) s)
  | Active =>
      if decide (self = MonitorOf nm) then Throw SystemError
      else match until_monitor_ends w nm s with
           | None => Undefined Blocked
           | Some s => Ret (update nm (set_monitor NoThread) s)
           end
  end.

(** [spawn_process] up to the start of the monitor thread: the new pid. *)
Definition fork_child (nm : string) (s : supervisor) : outcome (option Z * supervisor) :=
  e ← entry nm s;
  let s := update nm (set_state (fun st => with_restarts 0 (with_status STARTING st))) s in
  match fork_result (length (children s)) with
  | None => Ret (None, update nm (set_state (with_failure fork_error)) s)
  | Some p =>
      let s := add_child p (child (config e)) s in
      let now := ms (clock (reads s)) in
      Ret (Some p, update nm (fun e => set_running true (set_state (with_start p (u64 now)) e)) (tick s))
  end.

(** ... and from there on, the old monitor joined. *)
Definition new_monitor (held : bool) (nm : string) (p : Z) (s : supervisor) : outcome (bool * supervisor) :=
  let s := update nm (set_monitor Active) s in
  s ← emit_event held EvStarted nm p 0 "" s;
  Ret (true, s).

Definition spawn_process (w : others) (self : thread) (held : bool) (nm : string) (s : supervisor)
  : outcome (bool * supervisor) :=
  '(forked, s) ← fork_child nm s;
  match forked with
  | None => Ret (false, s)
  | Some p => s ← join_monitor w self nm s; new_monitor held nm p s
  end.

Definition start (w : others) (held : bool) (nm : string) (s : supervisor) : outcome (bool * supervisor) :=
  if held then Undefined Relock
  else
    match processes_ s !! nm with
    | None => Ret (false, s)
    | Some e =>
        if decide (status (state e) = RUNNING) then Ret (false, s)
        else spawn_process w Caller true nm s
    end.

(** [handle_exit] up to the restart: whether there is one. *)
Definition note_exit (held : bool) (nm : string) (st : Z) (s : supervisor) : outcome (bool * supervisor) :=
  let s := update nm (fun e => set_running false (set_state (with_exit (WEXITSTATUS st)) e)) s in
  e ← entry nm s;
  let success := bool_decide (exit_code (state e) = 0) in
  s ← emit_event held (if success then EvStopped else EvCrashed) nm (pid (state e)) (exit_code (state e)) "" s;
  if negb success && negb (bool_decide (restart_policy (config e) = NEVER)) then
    if restart_count (state e) <? max_restarts (config e) then
      let n := u64 (restart_count (state e) + 1) in
      let s := update nm (set_state (fun st => with_status RESTARTING (with_restarts n st))) s in
      s ← emit_event held EvRestarted nm (-1) 0 ("Restart attempt " +:+ to_string n) s;
      Ret (true, s)
    else
      Ret (false, update nm (set_state (with_failure
             ("Exceeded max restarts (" +:+ to_string (max_restarts (config e)) +:+ ")"))) s)
  else Ret (false, s).

(** [handle_exit], run by the thread [self] with the wait status [st]. *)
Definition handle_exit (w : others) (self : thread) (held : bool) (nm : string) (st : Z)
    (s : supervisor) : outcome supervisor :=
  '(again, s) ← note_exit held nm st s;
  if (again : bool) then '(_, s) ← spawn_process w self held nm s; Ret s else Ret s.

(** The lines of [/proc/<pid>/status]: the last [VmRSS:] one counts. *)
Fixpoint read_rss (lines : list string) (mem : Z) : Z :=
  match lines with
  | [] => mem
  | l :: lines =>
      if bool_decide (String.substring 0 6 l = "VmRSS:")
      then read_rss lines (u64 (extract_into mem (String.substring 6 (String.length l - 6) l) * 1024))
      else read_rss lines mem
  end.

(** The rest of a turn of [monitor_process] in which the process has not
    exited: whether it was killed, and what its status file says if it opens. *)
Definition poll_process (nm : string) (status_file : option (list string)) (s : supervisor)
  : outcome (bool * supervisor) :=
  e ← entry nm s;
  let now := ms (clock (reads s)) in
  let s := tick s in
  let uptime := u64 (now - start_time (state e)) in
  let limit := timeout_seconds (config e) in
  if (0 <? limit) && (u32 (limit * 1000) <? uptime) then Ret (true, kill (pid (state e)) SIGKILL s)
  else
    Ret (false, match status_file with
                | Some lines =>
                    update nm (set_state (fun st => with_memory (read_rss lines (memory_bytes st)) st)) s
                | None => s
                end).

(** One turn of the loop of [monitor_process]: what [waitpid] reports, and the
    lines of the status file. *)
Definition monitor_turn (w : others) (nm : string) (result : option Z) (status_file : option (list string))
    (s : supervisor) : outcome supervisor :=
  e ← entry nm s;
  if negb (running e) then Ret (update nm (set_monitor Finished) s)
  else
    match result with
    | Some st =>
        s ← handle_exit w (MonitorOf nm) false nm st s;
        Ret (update nm (set_monitor Finished) s)
    | None =>
        '(over, s) ← poll_process nm status_file s;
        Ret (if (over : bool) then update nm (set_monitor Finished) s else s)
    end.

(** The wait loop of [stop]. *)
Fixpoint stop_wait (w : others) (fuel i : nat) (nm : string) (start timeout_ms : Z) (s : supervisor)
  : outcome supervisor :=
  match fuel with
  | O => NoFuel
  | S fuel =>
      e ← entry nm s;
      if decide (status (state e) = RUNNING) then
        let elapsed := ms (clock (reads s) - start) in
        let s := tick s in
        if timeout_ms <? elapsed then Ret (kill (pid (state e)) SIGKILL s)
        else stop_wait w fuel (S i) nm start timeout_ms (during_sleep w i s)
      else Ret s
  end.

Definition stop (w : others) (fuel : nat) (held : bool) (nm : string) (timeout_ms : Z) (s : supervisor)
  : outcome (bool * supervisor) :=
  if held then Undefined Relock
  else
    match processes_ s !! nm with
    | None => Ret (false, s)
    | Some e =>
        if negb (bool_decide (status (state e) = RUNNING)) then Ret (false, s)
        else
          let s := kill (pid (state e)) SIGTERM (update nm (set_running false) s) in
          let start := clock (reads s) in
          s ← stop_wait w fuel O nm start timeout_ms (tick s);
          Ret (true, update nm (set_state (with_status STOPPED)) s)
    end.

Definition restart (w : others) (fuel : nat) (held : bool) (nm : string) (s : supervisor)
  : outcome (bool * supervisor) :=
  '(_, s) ← stop w fuel held nm 5000 s;
  start w held nm s.

(** Erasing an entry destroys its [std::thread]. *)
Definition destroy_entry (e : ProcessEntry) : outcome unit :=
  if joinable (monitor_thread e) then Undefined Terminate else Ret tt.

Definition remove_process (w : others) (fuel : nat) (held : bool) (nm : string) (s : supervisor)
  : outcome (bool * supervisor) :=
  if held then Undefined Relock
  else
    match processes_ s !! nm with
    | None => Ret (false, s)
    | Some e =>
        s ← (if decide (status (state e) = RUNNING)
             then '(_, s) ← stop w fuel true nm 5000 s; Ret s else Ret s);
        _ ← destroy_entry e;
        Ret (true, set_processes (delete nm (processes_ s)) s)
    end.

(** The loop of [stop_all], over the entries in any order. *)
Fixpoint stop_each (l : list (string * ProcessEntry)) (s : supervisor) : supervisor :=
  match l with
  | [] => s
  | (nm, e) :: l =>
      stop_each l (if decide (status (state e) = RUNNING)
                   then kill (pid (state e)) SIGTERM (update nm (set_running false) s) else s)
  end.

Definition stop_all (s : supervisor) : bool * supervisor :=
  (true, stop_each (map_to_list (processes_ s)) s).

Definition get_state (nm : string) (s : supervisor) : ProcessState :=
  match processes_ s !! nm with Some e => state e | None => init_state end.

Definition get_all_states (s : supervisor) : list (string * ProcessState) :=
  (fun '(nm, e) => (nm, state e)) <$> map_to_list (processes_ s).

Definition on_event (cb : option callback) (s : supervisor) : supervisor := set_callback cb s.

Record ProcessInfo := mkInfo {
  info_name : string; info_state : ProcessState; info_config : ProcessConfig;
  uptime_ms : Z; recent_logs : list string
}.

Definition get_info (nm : string) (s : supervisor) : option ProcessInfo * supervisor :=
  match processes_ s !! nm with
  | None => (None, s)
  | Some e =>
      let now := ms (clock (reads s)) in
      let up := if 0 <? start_time (state e) then u64 (now - start_time (state e)) else 0 in
      (Some (mkInfo nm (state e) (config e) up (logs e)), tick s)
  end.

(** ** The watchdog *)

Definition start_watchdog (s : supervisor) : bool * supervisor :=
  if watchdog_running_ s then (false, s) else (true, set_watchdog true s).

Definition stop_watchdog (s : supervisor) : bool * supervisor := (true, set_watchdog false s).

(** One pass over the processes, with [processes_mutex_] held; [reaped] is
    what [waitpid] reports of a pid. *)
Fixpoint watchdog_each (w : others) (reaped : Z -> option Z) (names : list string) (s : supervisor)
  : outcome supervisor :=
  match names with
  | [] => Ret s
  | nm :: names =>
      e ← entry nm s;
      s ← (if bool_decide (status (state e) = RUNNING) && (0 <? pid (state e)) then
             match reaped (pid (state e)) with
             | Some st => handle_exit w Watchdog true nm (WEXITSTATUS st) s
             | None => Ret s
             end
           else Ret s);
      watchdog_each w reaped names s
  end.

Definition watchdog_pass (w : others) (reaped : Z -> option Z) (s : supervisor) : outcome supervisor :=
  watchdog_each w reaped (map_to_list (processes_ s)).*1 s.

(** [~ProcessSupervisor()] and the destruction of the members. *)
Definition destroy (s : supervisor) : outcome unit :=
  let '(_, s) := stop_all s in
  let '(_, s) := stop_watchdog s in
  if forallb (fun '(_, e) => negb (joinable (monitor_thread e))) (map_to_list (processes_ s))
  then Ret tt else Undefined Terminate.

(** ** Executions *)

Inductive op :=
  | OpAdd (cfg : ProcessConfig)
  | OpRemove (nm : string)
  | OpStart (nm : string)
  | OpStop (nm : string) (timeout_ms : Z)
  | OpRestart (nm : string)
  | OpStopAll
  | OpOnEvent (cb : option callback)
  | OpStartWatchdog
  | OpStopWatchdog
  | OpGetInfo (nm : string)
  | OpMonitor (nm : string) (result : option Z) (status_file : option (list string))
  | OpWatchdog (reaped : Z -> option Z).

(** One operation of the owner, or one turn of a monitor or of the watchdog. *)
Definition exec (w : others) (fuel : nat) (o : op) (s : supervisor) : outcome supervisor :=
  match o with
  | OpAdd cfg => Ret (add_process cfg s).2
  | OpRemove nm => snd <$> remove_process w fuel false nm s
  | OpStart nm => snd <$> start w false nm s
  | OpStop nm t => snd <$> stop w fuel false nm t s
  | OpRestart nm => snd <$> restart w fuel false nm s
  | OpStopAll => Ret (stop_all s).2
  | OpOnEvent cb => Ret (on_event cb s)
  | OpStartWatchdog => Ret (start_watchdog s).2
  | OpStopWatchdog => Ret (stop_watchdog s).2
  | OpGetInfo nm => Ret (get_info nm s).2
  | OpMonitor nm r f =>
      e ← entry nm s;
      if decide (monitor_thread e = Active) then monitor_turn w nm r f s else Ret s
  | OpWatchdog reaped => watchdog_pass w reaped s
  end.

(** Every sequence of operations that return, where what happens while one of
    them waits is again such a sequence. *)
Inductive runs : supervisor -> supervisor -> Prop :=
  | runs_refl s : runs s s
  | runs_step s w fuel o s1 s2 :
      (forall nm a b, until_monitor_ends w nm a = Some b -> runs a b) ->
      (forall i a, runs a (during_sleep w i a)) ->
      exec w fuel o s = Ret s1 -> runs s1 s2 -> runs s s2.

(** ** The operations in one piece *)

Lemma spawn_process_eq w self held nm s :
  spawn_process w self held nm s =
  (e ← entry nm s;
   let s := update nm (set_state (fun st => with_restarts 0 (with_status STARTING st))) s in
   match fork_result (length (children s)) with
   | None => Ret (false, update nm (set_state (with_failure fork_error)) s)
   | Some p =>
       let s := add_child p (child (config e)) s in
       let now := ms (clock (reads s)) in
       let s := update nm (fun e => set_running true (set_state (with_start p (u64 now)) e)) (tick s) in
       s ← join_monitor w self nm s;
       let s := update nm (set_monitor Active) s in
       s ← emit_event held EvStarted nm p 0 "" s;
       Ret (true, s)
   end).
Proof. unfold spawn_process, fork_child. destruct (entry nm s); try done. cbn. by case_match. Qed.

Lemma handle_exit_eq w self held nm st s :
  handle_exit w self held nm st s =
  (let s := update nm (fun e => set_running false (set_state (with_exit (WEXITSTATUS st)) e)) s in
   e ← entry nm s;
   let success := bool_decide (exit_code (state e) = 0) in
   s ← emit_event held (if success then EvStopped else EvCrashed) nm (pid (state e)) (exit_code (state e)) "" s;
   if negb success && negb (bool_decide (restart_policy (config e) = NEVER)) then
     if restart_count (state e) <? max_restarts (config e) then
       let n := u64 (restart_count (state e) + 1) in
       let s := update nm (set_state (fun st => with_status RESTARTING (with_restarts n st))) s in
       s ← emit_event held EvRestarted nm (-1) 0 ("Restart attempt " +:+ to_string n) s;
       '(_, s) ← spawn_process w self held nm s;
       Ret s
     else
       Ret (update nm (set_state (with_failure
              ("Exceeded max restarts (" +:+ to_string (max_restarts (config e)) +:+ ")"))) s)
   else Ret s).
Proof.
  unfold handle_exit, note_exit. destruct (entry nm _); try done. cbn [mbind outcome_bind].
  destruct (emit_event _ _ _ _ _ _ _); try done. cbn [mbind outcome_bind].
  destruct (negb _ && _); [|done]. destruct (_ <? _); [|done]. by destruct (emit_event _ _ _ _ _ _ _).
Qed.

Lemma poll_process_at nm file s e :
  processes_ s !! nm = Some e ->
  poll_process nm file s =
  (let uptime := u64 (ms (clock (reads s)) - start_time (state e)) in
   let limit := timeout_seconds (config e) in
   if (0 <? limit) && (u32 (limit * 1000) <? uptime) then Ret (true, kill (pid (state e)) SIGKILL (tick s))
   else
     Ret (false, match file with
                 | Some lines =>
                     update nm (set_state (fun st => with_memory (read_rss lines (memory_bytes st)) st)) (tick s)
                 | None => tick s
                 end)).
Proof. intros E. unfold poll_process, entry. by rewrite E. Qed.

(** ** What every execution keeps *)

Definition no_restarts (s : supervisor) : Prop :=
  forall nm e, processes_ s !! nm = Some e -> restart_count (state e) = 0.

(** A process that was started once: its monitor is running or was not joined. *)
Definition started (nm : string) (s : supervisor) : Prop :=
  exists e, processes_ s !! nm = Some e /\ monitor_thread e <> NoThread.

Definition keeps (s s' : supervisor) : Prop :=
  (no_restarts s -> no_restarts s') /\ (forall nm, started nm s -> started nm s').

Lemma keeps_refl s : keeps s s.
Proof. by split. Qed.
Lemma keeps_trans s1 s2 s3 : keeps s1 s2 -> keeps s2 s3 -> keeps s1 s3.
Proof. intros [] []. split; auto. Qed.

Lemma update_update nm f g s : update nm f (update nm g s) = update nm (fun e => f (g e)) s.
Proof.
  unfold update, set_processes. cbn. f_equal. apply map_eq. intros n.
  destruct (decide (nm = n)) as [<-|Hne]; [|by rewrite !lookup_alter_ne].
  rewrite !lookup_alter_eq. by destruct (processes_ s !! nm).
Qed.

Lemma started_update n nm f s :
  (forall e, monitor_thread e <> NoThread -> monitor_thread (f e) <> NoThread) ->
  started n s -> started n (update nm f s).
Proof.
  intros Hm (e & E & He). unfold started, update. cbn. destruct (decide (nm = n)) as [<-|Hne].
  - exists (f e). rewrite lookup_alter_eq, E. auto.
  - exists e. rewrite lookup_alter_ne by done. auto.
Qed.

(** A change of one entry that keeps both. *)
Lemma keeps_update nm f s :
  (forall e, restart_count (state e) = 0 -> restart_count (state (f e)) = 0) ->
  (forall e, monitor_thread e <> NoThread -> monitor_thread (f e) <> NoThread) ->
  keeps s (update nm f s).
Proof.
  intros Hr Hm. split; [|intros n; by apply started_update].
  intros H n e. unfold update. cbn. rewrite lookup_alter_Some.
  intros [(<- & e0 & E & ->)|[_ E]]; eauto.
Qed.

(** Two states with the same processes. *)
Lemma keeps_same s s' : processes_ s' = processes_ s -> keeps s s'.
Proof. intros E. split; [unfold no_restarts|unfold started]; by rewrite E. Qed.

Lemma emit_event_processes held ty nm p code msg s s' :
  emit_event held ty nm p code msg s = Ret s' -> processes_ s' = processes_ s.
Proof. unfold emit_event. repeat case_match; intros; by simplify_eq. Qed.

Definition sound (w : others) : Prop :=
  (forall nm a b, until_monitor_ends w nm a = Some b -> keeps a b) /\
  (forall i a, keeps a (during_sleep w i a)).

(** The process about to be started may have any restart count, and its
    monitor is joined and then replaced: [spawn_process] as a whole keeps both. *)
Definition no_restarts_but (nm : string) (s : supervisor) : Prop :=
  forall n e, n <> nm -> processes_ s !! n = Some e -> restart_count (state e) = 0.

Lemma no_restarts_update_but nm f s :
  no_restarts s -> no_restarts_but nm (update nm f s).
Proof. intros H n e Hne. unfold update. cbn. rewrite lookup_alter_ne by done. apply H. Qed.

Lemma no_restarts_zero nm f s :
  (forall e, restart_count (state (f e)) = 0) -> no_restarts_but nm s -> no_restarts (update nm f s).
Proof.
  intros Hf H n e. unfold update. cbn. rewrite lookup_alter_Some.
  intros [(<- & e0 & E & ->)|[Hne E]]; [done|]. by apply (H n e).
Qed.

Lemma join_keeps w self nm s s' :
  sound w -> join_monitor w self nm s = Ret s' -> keeps s (update nm (set_monitor Active) s').
Proof.
  intros [Hw _] H. unfold join_monitor in H. apply bind_Ret_inv in H as (e & _ & H).
  assert (K : forall a, keeps a (update nm (set_monitor Active) a)) by (intros; by apply keeps_update).
  assert (K2 : forall a, keeps a (update nm (set_monitor Active) (update nm (set_monitor NoThread) a))).
  { intros a. rewrite update_update. apply K. }
  repeat case_match; simplify_eq; [apply K| |apply K2]. eapply keeps_trans; [by eapply Hw|apply K2].
Qed.

Lemma spawn_keeps w self held nm s b s' :
  sound w -> spawn_process w self held nm s = Ret (b, s') ->
  (no_restarts_but nm s -> no_restarts s') /\ (forall n, started n s -> started n s').
Proof.
  intros Hw H. rewrite spawn_process_eq in H; cbv beta iota zeta in H. apply bind_Ret_inv in H as (e0 & E0 & H).
  set (f := set_state (fun st => with_restarts 0 (with_status STARTING st))) in H.
  assert (K1 : forall n, started n s -> started n (update nm f s)) by (apply keeps_update; auto).
  assert (K2 : no_restarts_but nm s -> no_restarts (update nm f s)) by by apply no_restarts_zero.
  destruct (fork_result _) as [p|].
  - apply bind_Ret_inv in H as (s1 & E1 & H). apply bind_Ret_inv in H as (s2 & E2 & H). simplify_eq.
    apply join_keeps in E1; [|done]. apply emit_event_processes in E2.
    set (s0 := update nm (fun _ => _) _) in E1.
    assert (K : keeps (update nm f s) s').
    { apply keeps_trans with s0; [|apply keeps_trans with (2 := keeps_same _ _ E2); exact E1].
      eapply keeps_trans; [|by apply keeps_update]. by apply keeps_same. }
    destruct K. split; auto.
  - simplify_eq. set (g := set_state (with_failure fork_error)).
    destruct (keeps_update nm g (update nm f s)) as [G1 G2]; auto.
Qed.

Lemma entry_update nm f s : entry nm (update nm f s) = f <$> entry nm s.
Proof. unfold entry, update. cbn. rewrite lookup_alter_eq. by destruct (processes_ s !! nm). Qed.

Lemma join_present w self nm s s' :
  sound w -> join_monitor w self nm s = Ret s' -> exists e, processes_ s' !! nm = Some e.
Proof.
  intros [Hw _] H. unfold join_monitor, entry in H.
  destruct (processes_ s !! nm) as [e|] eqn:E; [|done]. cbn [mbind outcome_bind] in H.
  assert (K : forall a e', processes_ a !! nm = Some e' ->
            exists e2, processes_ (update nm (set_monitor NoThread) a) !! nm = Some e2).
  { intros a e' Ha. unfold update. cbn. rewrite lookup_alter_eq, Ha. by eexists. }
  destruct (monitor_thread e) eqn:Em; [| |]; [by simplify_eq; exists e| |simplify_eq; by eapply K].
  case_decide; [done|]. destruct (until_monitor_ends w nm s) as [s2|] eqn:E2; [|done]. simplify_eq.
  apply Hw in E2 as [_ Hs]. destruct (Hs nm) as (e2 & He2 & _); [by exists e; rewrite Em|]. by eapply K.
Qed.

Lemma spawn_started w self held nm s s' :
  sound w -> spawn_process w self held nm s = Ret (true, s') -> started nm s'.
Proof.
  intros Hw H. rewrite spawn_process_eq in H; cbv beta iota zeta in H. apply bind_Ret_inv in H as (e0 & E0 & H).
  destruct (fork_result _) as [p|]; [|done].
  apply bind_Ret_inv in H as (s1 & E1 & H). apply bind_Ret_inv in H as (s2 & E2 & H). simplify_eq.
  apply emit_event_processes in E2. unfold started. rewrite E2. unfold update. cbn. rewrite lookup_alter_eq.
  apply join_present in E1 as [e ->]; [|done]. by exists (set_monitor Active e).
Qed.

Lemma handle_exit_keeps w self held nm st s s' :
  sound w -> handle_exit w self held nm st s = Ret s' -> keeps s s'.
Proof.
  intros Hw H. rewrite handle_exit_eq in H; cbv beta iota zeta in H. set (f := fun _ => set_running _ _) in H.
  assert (K : keeps s (update nm f s)) by (apply keeps_update; auto).
  eapply keeps_trans; [exact K|]. clear K. set (s0 := update nm f s) in *. clearbody s0.
  apply bind_Ret_inv in H as (e & E & H). apply bind_Ret_inv in H as (s1 & E1 & H).
  apply emit_event_processes in E1.
  eapply keeps_trans; [apply keeps_same; exact E1|].
  case_match; [case_match|]; simplify_eq.
  - apply bind_Ret_inv in H as (s2 & E2 & H). apply emit_event_processes in E2.
    apply bind_Ret_inv in H as ([b s3] & E3 & H). simplify_eq. apply spawn_keeps in E3 as [K1 K2]; [|done].
    set (g := set_state _) in E2.
    split.
    + intros Hz. apply K1. intros n e' Hn. rewrite E2. by apply no_restarts_update_but.
    + intros n Hz. apply K2. unfold started. rewrite E2. by apply (started_update n nm g s1).
  - apply keeps_update; auto.
  - apply keeps_refl.
Qed.

Lemma keeps_ticked s : keeps s (tick s).
Proof. by apply keeps_same. Qed.

Lemma poll_keeps nm file s over s' : poll_process nm file s = Ret (over, s') -> keeps s s'.
Proof.
  unfold poll_process. intros H. apply bind_Ret_inv in H as (e & E & H).
  case_match; simplify_eq; [by apply keeps_same|].
  destruct file; [|apply keeps_ticked]. eapply keeps_trans; [apply keeps_ticked|by apply keeps_update].
Qed.

Lemma monitor_turn_keeps w nm r file s s' :
  sound w -> monitor_turn w nm r file s = Ret s' -> keeps s s'.
Proof.
  intros Hw H. unfold monitor_turn in H. apply bind_Ret_inv in H as (e & E & H).
  assert (F : forall a, keeps a (update nm (set_monitor Finished) a)) by (intros; by apply keeps_update).
  destruct (running e); cbn [negb] in H; [|simplify_eq; apply F].
  destruct r as [st|].
  - apply bind_Ret_inv in H as (s1 & E1 & H). simplify_eq.
    eapply keeps_trans; [by eapply handle_exit_keeps|apply F].
  - apply bind_Ret_inv in H as ([over s1] & E1 & H). apply poll_keeps in E1. simplify_eq.
    destruct over; [|done]. eapply keeps_trans; [exact E1|apply F].
Qed.

Lemma stop_wait_keeps w fuel i nm t0 t s s' :
  sound w -> stop_wait w fuel i nm t0 t s = Ret s' -> keeps s s'.
Proof.
  intros [Hw1 Hw]. revert i s. induction fuel as [|fuel IH]; intros i s H; [done|]. cbn [stop_wait] in H.
  apply bind_Ret_inv in H as (e & E & H). case_decide; [case_match|]; simplify_eq.
  - by apply keeps_same.
  - apply IH in H. eapply keeps_trans; [apply keeps_ticked|]. eapply keeps_trans; [apply Hw|exact H].
  - apply keeps_refl.
Qed.

Lemma stop_keeps w fuel held nm t s b s' :
  sound w -> stop w fuel held nm t s = Ret (b, s') -> keeps s s'.
Proof.
  intros Hw H. unfold stop in H. destruct held; [done|].
  destruct (processes_ s !! nm) as [e|]; [|simplify_eq; apply keeps_refl].
  case_match; [simplify_eq; apply keeps_refl|].
  apply bind_Ret_inv in H as (s1 & E1 & H). simplify_eq. apply stop_wait_keeps in E1; [|done].
  eapply keeps_trans; [|by apply keeps_update].
  eapply keeps_trans; [|exact E1].
  eapply keeps_trans; [by apply (keeps_update nm (set_running false))|by apply keeps_same].
Qed.

Lemma start_keeps w held nm s b s' : sound w -> start w held nm s = Ret (b, s') -> keeps s s'.
Proof.
  intros Hw H. unfold start in H. destruct held; [done|].
  destruct (processes_ s !! nm) as [e|]; [|simplify_eq; apply keeps_refl].
  case_decide; [simplify_eq; apply keeps_refl|].
  apply spawn_keeps in H as [K1 K2]; [|done]. split; [|done].
  intros Hz. apply K1. intros n e' _. apply Hz.
Qed.

Lemma remove_keeps w fuel held nm s b s' :
  remove_process w fuel held nm s = Ret (b, s') -> keeps s s'.
Proof.
  intros H. unfold remove_process in H. destruct held; [done|].
  destruct (processes_ s !! nm) as [e|] eqn:E; [|simplify_eq; apply keeps_refl].
  apply bind_Ret_inv in H as (s1 & E1 & H). case_decide; [done|]. simplify_eq.
  apply bind_Ret_inv in H as ([] & Ed & H). simplify_eq. split.
  - intros Hz n e'. cbn. rewrite lookup_delete_Some. intros [_ He]. eauto.
  - intros n (e' & He' & Hm). destruct (decide (nm = n)) as [<-|Hne].
    + rewrite E in He'. simplify_eq. unfold destroy_entry, joinable in Ed.
      by rewrite bool_decide_true in Ed.
    + exists e'. cbn. by rewrite lookup_delete_ne.
Qed.

Lemma stop_each_keeps l s : keeps s (stop_each l s).
Proof.
  revert s. induction l as [|[nm e] l IH]; intros s; cbn [stop_each]; [apply keeps_refl|].
  eapply keeps_trans; [|apply IH]. case_decide; [|apply keeps_refl].
  eapply keeps_trans; [by apply (keeps_update nm (set_running false))|by apply keeps_same].
Qed.

Lemma watchdog_keeps w reaped names s s' :
  sound w -> watchdog_each w reaped names s = Ret s' -> keeps s s'.
Proof.
  intros Hw. revert s. induction names as [|nm names IH]; intros s H; cbn [watchdog_each] in H.
  { simplify_eq. apply keeps_refl. }
  apply bind_Ret_inv in H as (e & E & H). apply bind_Ret_inv in H as (s1 & E1 & H).
  apply IH in H. eapply keeps_trans; [|exact H].
  repeat case_match; simplify_eq; try apply keeps_refl. by eapply handle_exit_keeps.
Qed.

Lemma fmap_Ret_inv {A B} (f : A -> B) (m : outcome A) b : f <$> m = Ret b -> exists a, m = Ret a /\ f a = b.
Proof. destruct m; cbn; intros; by simplify_eq; eauto. Qed.

Lemma exec_keeps w fuel o s s' : sound w -> exec w fuel o s = Ret s' -> keeps s s'.
Proof.
  intros Hw H. destruct o; cbn [exec] in H;
    try (apply fmap_Ret_inv in H as ([b s1] & H & <-); cbn [snd]).
  - simplify_eq. unfold add_process. destruct (processes_ s !! name cfg) eqn:E; [apply keeps_refl|].
    split.
    + intros Hz n e. cbn. rewrite lookup_insert_Some. intros [[<- <-]|[_ He]]; [done|eauto].
    + intros n (e & He & Hm). exists e. cbn. rewrite lookup_insert_ne by congruence. done.
  - by eapply remove_keeps.
  - by eapply start_keeps.
  - by eapply stop_keeps.
  - apply bind_Ret_inv in H as ([b1 s2] & E1 & H).
    eapply keeps_trans; [by eapply stop_keeps|by eapply start_keeps].
  - simplify_eq. apply stop_each_keeps.
  - simplify_eq. by apply keeps_same.
  - simplify_eq. unfold start_watchdog. case_match; by apply keeps_same.
  - simplify_eq. by apply keeps_same.
  - simplify_eq. unfold get_info. case_match; by apply keeps_same.
  - apply bind_Ret_inv in H as (e & E & H). case_decide; [by eapply monitor_turn_keeps|].
    simplify_eq. apply keeps_refl.
  - by eapply watchdog_keeps.
Qed.

Lemma runs_keeps s s' : runs s s' -> keeps s s'.
Proof.
  induction 1 as [s|s w fuel o s1 s2 _ H1 _ H2 H _ IH]; [apply keeps_refl|].
  eapply keeps_trans; [|exact IH]. eapply exec_keeps; [|exact H]. split; auto.
Qed.

Lemma runs_sound w :
  (forall nm a b, until_monitor_ends w nm a = Some b -> runs a b) ->
  (forall i a, runs a (during_sleep w i a)) -> sound w.
Proof. intros H1 H2. split; intros; apply runs_keeps; eauto. Qed.

(** Without the mutex, an event is always delivered. *)
Lemma emit_unheld ty nm p code msg s :
  exists s', emit_event false ty nm p code msg s = Ret s' /\ processes_ s' = processes_ s /\
             children s' = children s.
Proof. unfold emit_event. destruct (event_callback_ s) as [cb|]; rewrite ?andb_false_r; by eexists. Qed.

(** ** Waiting in [stop] *)

(** Another thread's work as [stop] relies on it: time goes on, the entry
    stays, and no signal is taken back. *)
Definition progress (nm : string) (a b : supervisor) : Prop :=
  (reads a <= reads b)%nat /\ (exists e, processes_ b !! nm = Some e) /\ signals a `prefix_of` signals b.

(** A clock of which a reading is a millisecond after the one before. *)
Lemma clock_grows i j :
  (forall i, clock i + 1000000 <= clock (S i)) -> (i <= j)%nat -> Z.of_nat (j - i) <= ms (clock j - clock i).
Proof.
  intros Hc H. assert (Hg : 1000000 * Z.of_nat (j - i) <= clock j - clock i).
  { induction H as [|j H IH]; [lia|]. specialize (Hc j). replace (S j - i)%nat with (S (j - i)) by lia. lia. }
  unfold ms. rewrite Z.quot_div_nonneg by lia. apply Z.div_le_lower_bound; lia.
Qed.

Lemma stop_wait_returns w fuel i nm i0 t s :
  (forall i, clock i + 1000000 <= clock (S i)) -> (forall i a, (exists e, processes_ a !! nm = Some e) -> progress nm a (during_sleep w i a)) ->
  0 <= t -> (i0 < reads s)%nat -> (Z.to_nat t + i0 + 2 <= fuel + reads s)%nat -> (0 < fuel)%nat ->
  (exists e, processes_ s !! nm = Some e) ->
  exists s', stop_wait w fuel i nm (clock i0) t s = Ret s' /\ (exists e, processes_ s' !! nm = Some e) /\
             signals s `prefix_of` signals s'.
Proof.
  intros Hc Hp Ht. revert i s. induction fuel as [|fuel IH]; intros i s Hr Hf H0 [e He]; [lia|].
  cbn [stop_wait]. unfold entry. rewrite He. cbn [mbind outcome_bind].
  case_decide as Hrun; [|exists s; by eauto].
  destruct (Z.ltb_spec t (ms (clock (reads s) - clock i0))) as [Hlt|Hge].
  - eexists. split; [done|]. split; [by exists e|]. by apply prefix_app_r.
  - pose proof (clock_grows i0 (reads s) Hc ltac:(lia)).
    destruct (Hp i (tick s)) as (P1 & P2 & P3); [by exists e|]. cbn [tick reads signals] in P1, P3.
    destruct (IH (S i) (during_sleep w i (tick s))) as (s' & E1 & E2 & E3); [lia|lia|lia|done|].
    exists s'. split; [done|]. split; [done|]. by etrans.
Qed.

(** ** The watchdog's pass *)

(** The entry of a process the watchdog has reaped. *)
Definition watchdog_entry (reaped : Z -> option Z) (e : ProcessEntry) : ProcessEntry :=
  if bool_decide (status (state e) = RUNNING) && (0 <? pid (state e)) &&
     bool_decide (is_Some (reaped (pid (state e))))
  then set_running false (set_state (with_exit 0) e) else e.

(** Exit code 0, however the process ended, is never followed by a restart. *)
Lemma handle_exit_success w self held nm st s e :
  processes_ s !! nm = Some e -> WEXITSTATUS st = 0 ->
  handle_exit w self held nm st s =
  emit_event held EvStopped nm (pid (state e)) 0 ""
    (update nm (fun e => set_running false (set_state (with_exit 0) e)) s).
Proof.
  intros He Hst. rewrite handle_exit_eq; cbv beta iota zeta. rewrite Hst.
  replace (entry nm _) with (Ret (set_running false (set_state (with_exit 0) e))); cycle 1.
  { rewrite entry_update. unfold entry. by rewrite He. }
  cbn. by destruct (emit_event _ _ _ _ _ _ _).
Qed.

Lemma watchdog_each_spec w reaped names s :
  NoDup names -> (forall nm, nm ∈ names -> is_Some (processes_ s !! nm)) -> event_callback_ s = None ->
  exists s', watchdog_each w reaped names s = Ret s' /\ children s' = children s /\
  forall nm, processes_ s' !! nm =
    (if decide (nm ∈ names) then watchdog_entry reaped <$> processes_ s !! nm else processes_ s !! nm).
Proof.
  intros Hd. revert s. induction Hd as [|nm names Hn Hd IH]; intros s Hin Hcb.
  { exists s. split; [done|]. split; [done|]. intros nm. by rewrite decide_False by apply not_elem_of_nil. }
  cbn [watchdog_each]. destruct (Hin nm) as [e He]; [left|]. unfold entry at 1. rewrite He.
  cbn [mbind outcome_bind].
  set (m := if bool_decide _ && _ then _ else _).
  assert (Hm : exists s1, m = Ret s1 /\ s1 = update nm (watchdog_entry reaped) s).
  { unfold m. eexists. split; [|reflexivity].
    assert (E : watchdog_entry reaped e = e -> update nm (watchdog_entry reaped) s = s).
    { intros E. unfold update. rewrite alter_id; [by destruct s|]. intros x Hx. by simplify_eq. }
    destruct (bool_decide _ && _) eqn:Eb; [|by rewrite E by (unfold watchdog_entry; by rewrite Eb)].
    destruct (reaped _) as [st|] eqn:Er; [|by rewrite E by (unfold watchdog_entry; by rewrite Eb, Er)].
    clear E.
    rewrite (handle_exit_success _ _ _ _ _ _ e He) by apply WEXITSTATUS_small, WEXITSTATUS_range.
    unfold emit_event. cbn [event_callback_ update set_processes]. rewrite Hcb. f_equal.
    unfold update. f_equal. apply alter_ext. intros x Hx. simplify_eq.
    unfold watchdog_entry. by rewrite Eb, Er. }
  destruct Hm as (s1 & -> & ->). cbn [mbind outcome_bind].
  destruct (IH (update nm (watchdog_entry reaped) s)) as (s' & E1 & E2 & E3); [|done|].
  { intros n Hin'. unfold update. cbn. rewrite lookup_alter_ne by set_solver. apply Hin. by right. }
  exists s'. split; [done|]. split; [done|]. intros n. rewrite E3. unfold update. cbn.
  destruct (decide (n = nm)) as [->|Hne].
  - rewrite decide_False, decide_True by set_solver. by rewrite lookup_alter_eq.
  - rewrite lookup_alter_ne by done. destruct (decide (n ∈ names)), (decide (n ∈ nm :: names)) as [X|X]; try done;
      rewrite elem_of_cons in X; tauto.
Qed.

(** ** Properties *)


(** C35: the restart a crash calls for ends the supervisor.  When the monitor of
    a process sees it exit with a failure that the policy wants restarted,
    and [fork] succeeds, [spawn_process] (run by the monitor itself) joins its
    own thread: [std::system_error] leaves the thread's function. *)
Theorem crash_restart_joins_itself w (nm : string) (st : Z) file (e : ProcessEntry) (p : Z) (s : supervisor)
    (He : processes_ s !! nm = Some e) (Hm : monitor_thread e = Active) (Hr : running e = true)
    (Hst : WEXITSTATUS st <> 0) (Hpol : restart_policy (config e) <> NEVER)
    (Hmax : restart_count (state e) < max_restarts (config e))
    (Hfork : fork_result (length (children s)) = Some p) :
  monitor_turn w nm (Some st) file s = Throw SystemError.
Proof.
  unfold monitor_turn. unfold entry at 1. rewrite He. cbn [mbind outcome_bind]. rewrite Hr. cbn [negb].
  assert (X : handle_exit w (MonitorOf nm) false nm st s = Throw SystemError); [|by rewrite X].
  assert (T : forall a f, processes_ a = processes_ (update nm f s) -> monitor_thread (f e) = Active ->
            children a = children s ->
            spawn_process w (MonitorOf nm) false nm a = Throw SystemError).
  { intros a f Ea Ef Ec. rewrite spawn_process_eq; cbv beta iota zeta.
    assert (Eal : processes_ a !! nm = Some (f e)).
    { rewrite Ea. unfold update. cbn. by rewrite lookup_alter_eq, He. }
    unfold entry at 1. rewrite Eal. cbn [mbind outcome_bind].
    change (children (update nm _ a)) with (children a). rewrite Ec, Hfork.
    unfold join_monitor. rewrite entry_update. unfold entry. cbn.
    rewrite lookup_alter_eq, Eal. cbn. rewrite Ef. by rewrite decide_True. }
  rewrite handle_exit_eq; cbv beta iota zeta. set (f := fun e0 : ProcessEntry => set_running false _).
  rewrite entry_update. unfold entry at 1. rewrite He. cbn [fmap outcome_fmap mbind outcome_bind].
  cbn [f state set_running set_state exit_code with_exit config restart_count].
  rewrite bool_decide_false by done. rewrite bool_decide_false by done.
  destruct (emit_unheld EvCrashed nm (pid (state e)) (WEXITSTATUS st) "" (update nm f s)) as (s1 & E1 & P1 & C1).
  cbn [pid state f set_running set_state with_exit]. rewrite E1. cbn [mbind outcome_bind negb andb].
  rewrite (proj2 (Z.ltb_lt _ _)) by done.
  set (g := set_state (fun st0 => with_status RESTARTING _)). set (msg := _ +:+ _).
  destruct (emit_unheld EvRestarted nm (-1) 0 msg (update nm g s1)) as (s2 & E2 & P2 & C2).
  rewrite E2. cbn [mbind outcome_bind]. rewrite (T s2 (fun e0 => g (f e0))); [done| |done|].
  - rewrite P2. cbn [update set_processes processes_]. rewrite P1.
    exact (f_equal processes_ (update_update nm g f s)).
  - rewrite C2. exact C1.
Qed.

(** The limit on restarts is never reached.  [spawn_process] resets the
    count a restart has just increased, so in every state an execution
    reaches every process's count is 0: a failure that the policy wants
    restarted takes the restarting branch, not the [FAILED] one, whenever
    [max_restarts] is not 0. *)
Theorem restart_limit_never_reached (s : supervisor) (nm : string) (e : ProcessEntry)
    (Hs : runs new_supervisor s) (He : processes_ s !! nm = Some e) :
  restart_count (state e) = 0 /\
  forall w self held st s',
    event_callback_ s = None -> WEXITSTATUS st <> 0 -> restart_policy (config e) <> NEVER ->
    0 < max_restarts (config e) ->
    handle_exit w self held nm st s = Ret s' ->
    exists b, spawn_process w self held nm
      (update nm (fun e => set_running false (set_state (fun st0 =>
         with_status RESTARTING (with_restarts 1 (with_exit (WEXITSTATUS st) st0))) e)) s) = Ret (b, s').
Proof.
  apply runs_keeps in Hs as [Hz _].
  assert (H0 : restart_count (state e) = 0) by (eapply Hz; [|exact He]; intros n x; cbn; by rewrite lookup_empty).
  split; [done|]. intros w self held st s' Hcb Hst Hpol Hmax H. rewrite handle_exit_eq in H; cbv beta iota zeta in H.
  rewrite entry_update in H. unfold entry at 1 in H. rewrite He in H. cbn [fmap outcome_fmap mbind outcome_bind] in H.
  cbn [state set_running set_state exit_code with_exit config restart_count] in H.
  rewrite !bool_decide_false in H by done. unfold emit_event in H.
  cbn [event_callback_ update set_processes] in H. rewrite Hcb in H. cbn [mbind outcome_bind negb andb] in H.
  rewrite H0, (proj2 (Z.ltb_lt _ _)) in H by done.
  cbn [event_callback_ update set_processes] in H. rewrite Hcb in H. cbn [mbind outcome_bind] in H.
  apply bind_Ret_inv in H as ([b s1] & H & E). simplify_eq. exists b.
  rewrite <- H. by rewrite update_update.
Qed.

(** A process that was started once can never be removed, and its
    supervisor never be destroyed.  The monitor's [std::thread] stays joinable
    for good (only another start joins it), so erasing the entry ends the
    program; and while the process is running, [remove_process] calls [stop]
    with the mutex held and deadlocks. *)
Theorem started_process_cannot_be_removed w (nm : string) (s0 s1 s : supervisor)
    (Hw : sound w) (Hs1 : start w false nm s0 = Ret (true, s1)) (Hs : runs s1 s) :
  (exists e, processes_ s !! nm = Some e /\
   forall w fuel, remove_process w fuel false nm s =
     if decide (status (state e) = RUNNING) then Undefined Relock else Undefined Terminate) /\
  destroy s = Undefined Terminate.
Proof.
  assert (Hst : started nm s1).
  { unfold start in Hs1. destruct (processes_ s0 !! nm) as [e|]; [|done]. case_decide; [done|].
    by eapply spawn_started. }
  apply runs_keeps in Hs as [_ Hk]. apply Hk in Hst. pose proof Hst as (e & He & Hm). split.
  - exists e. split; [done|]. intros w' fuel'. unfold remove_process. rewrite He.
    case_decide; [done|]. cbn [mbind outcome_bind]. unfold destroy_entry, joinable.
    by rewrite bool_decide_true.
  - unfold destroy, stop_all, stop_watchdog.
    assert (K : started nm (set_watchdog false (stop_each (map_to_list (processes_ s)) s)))
      by (apply stop_each_keeps; done).
    destruct K as (e' & He' & Hm'). destruct (forallb _ _) eqn:Ef; [|done].
    rewrite forallb_forall in Ef. specialize (Ef (nm, e')). cbn in Ef.
    unfold joinable in Ef. rewrite bool_decide_true in Ef by done.
    cbn in Ef. enough (false = true) by done. apply Ef.
    apply list_elem_of_In. by apply elem_of_map_to_list.
Qed.

(** Every exit the watchdog notices counts as a success.  It hands
    [WEXITSTATUS(status)] to [handle_exit], which takes [WEXITSTATUS] of it
    again: whatever the statuses, the processes it reaps are [STOPPED] with
    exit code 0, none is restarted, and the others are left alone. *)
Theorem watchdog_sees_only_success w (reaped : Z -> option Z) (s : supervisor)
    (Hcb : event_callback_ s = None) :
  exists s', watchdog_pass w reaped s = Ret s' /\ children s' = children s /\
  forall nm, processes_ s' !! nm =
    (fun e => if bool_decide (status (state e) = RUNNING) && (0 <? pid (state e)) &&
                 bool_decide (is_Some (reaped (pid (state e))))
              then set_running false (set_state (with_exit 0) e) else e) <$> processes_ s !! nm.
Proof.
  destruct (watchdog_each_spec w reaped (map_to_list (processes_ s)).*1 s) as (s' & E1 & E2 & E3);
    [apply NoDup_fst_map_to_list| |done|].
  { intros nm Hin. apply list_elem_of_fmap in Hin as ([n e] & -> & Hin).
    apply elem_of_map_to_list in Hin. by exists e. }
  exists s'. split; [exact E1|]. split; [done|]. intros nm. rewrite E3.
  case_decide as Hin; [done|]. destruct (processes_ s !! nm) as [e|] eqn:He; [|done].
  destruct Hin. apply list_elem_of_fmap. exists (nm, e). split; [done|]. by apply elem_of_map_to_list.
Qed.

(** The time limit of [monitor_process] is [timeout_seconds * 1000] in 32
    bits.  A running process that has not exited is killed exactly when its
    uptime exceeds that product modulo 2^32 milliseconds (and the limit is not
    0); its monitor then ends, and the process is never reaped by it: its
    state still says [RUNNING]. *)
Theorem monitor_timeout_wraps w (nm : string) file (e : ProcessEntry) (s : supervisor)
    (He : processes_ s !! nm = Some e) (Hr : running e = true) :
  let uptime := u64 (ms (clock (reads s)) - start_time (state e)) in
  let limit := (timeout_seconds (config e) * 1000) mod 2 ^ 32 in
  exists s', monitor_turn w nm None file s = Ret s' /\
  if decide (0 < timeout_seconds (config e) /\ limit < uptime) then
    signals s' = signals s ++ [(pid (state e), SIGKILL)] /\
    processes_ s' !! nm = Some (set_monitor Finished e)
  else
    signals s' = signals s /\
    exists mem, processes_ s' !! nm = Some (set_state (with_memory mem) e).
Proof.
  intros uptime limit. unfold monitor_turn. rewrite (poll_process_at _ _ _ _ He). unfold entry.
  rewrite He. cbn [mbind outcome_bind]. rewrite Hr. cbn [negb].
  fold uptime. change (u32 _) with limit.
  case_decide as Hd.
  - destruct Hd. rewrite !(proj2 (Z.ltb_lt _ _)) by done. cbn [andb].
    eexists. split; [done|]. split; [done|]. unfold update. cbn. by rewrite lookup_alter_eq, He.
  - replace ((0 <? timeout_seconds (config e)) && (limit <? uptime)) with false; cycle 1.
    { destruct (Z.ltb_spec 0 (timeout_seconds (config e))), (Z.ltb_spec limit uptime); done || tauto. }
    eexists. split; [done|]. destruct file as [lines|].
    + split; [done|]. exists (read_rss lines (memory_bytes (state e))). unfold update. cbn.
      by rewrite lookup_alter_eq, He.
    + split; [done|]. exists (memory_bytes (state e)). cbn. rewrite He. by destruct e as [? [] ? ? ?].
Qed.

(** A process ended by a signal has succeeded.  [WEXITSTATUS] of the
    status of a killed process is 0, so its monitor records exit code 0, emits
    [STOPPED] and does not restart it; nor, under [ALWAYS], is a process that
    exits with status 0 restarted. *)
Theorem killed_process_not_restarted w (nm : string) (sig : Z) file (e : ProcessEntry) (s : supervisor)
    (He : processes_ s !! nm = Some e) (Hr : running e = true) (Hsig : 0 <= sig < 128) :
  exists s', monitor_turn w nm (Some (signaled sig)) file s = Ret s' /\ children s' = children s /\
  processes_ s' !! nm = Some (set_monitor Finished (set_running false (set_state (with_exit 0) e))) /\
  monitor_turn w nm (Some (exited 0)) file s = Ret s' /\
  match event_callback_ s with
  | None => events s' = events s
  | Some _ => events s' = events s ++ [mkEvent EvStopped nm (pid (state e)) 0 (u64 (ms (clock (reads s)))) ""]
  end.
Proof.
  unfold monitor_turn, entry. rewrite He. cbn [mbind outcome_bind]. rewrite Hr. cbn [negb].
  rewrite !(handle_exit_success _ _ _ _ _ _ e He); [|done|unfold signaled; apply WEXITSTATUS_small; lia].
  unfold emit_event. cbn [event_callback_ update set_processes].
  destruct (event_callback_ s) as [cb|]; rewrite ?andb_false_r; cbn [mbind outcome_bind];
    (eexists; split; [done|]; split; [done|]; split; [|done]);
    unfold update; cbn; by rewrite !lookup_alter_eq, He.
Qed.


End Operations.

(** ** Witnesses *)

Definition demo_clock (i : nat) : Z := 1000000000 * Z.of_nat i.
Definition demo_fork (n : nat) : option Z := Some (100 + Z.of_nat n).
Definition demo_config (policy : RestartPolicy) (timeout : Z) : ProcessConfig :=
  mkConfig "web" "/bin/web" ["-p"] "/" ∅ policy 3 1000 (256 * 1024 * 1024) 50 timeout false 5000 "".
Definition demo_others : others := mkOthers (fun _ _ => None) (fun _ s => s).

Definition demo_added (policy : RestartPolicy) (timeout : Z) : supervisor :=
  (add_process (demo_config policy timeout) new_supervisor).2.
Definition demo_running (policy : RestartPolicy) (timeout : Z) : supervisor :=
  match start demo_clock demo_fork "" demo_others false "web" (demo_added policy timeout) with
  | Ret (_, s) => s
  | _ => new_supervisor
  end.

Definition demo_entry (policy : RestartPolicy) (timeout : Z) : ProcessEntry :=
  mkEntry (demo_config policy timeout) (mkState RUNNING 100 0 0 0 "" 0 0) Active true [].

Lemma demo_running_entry policy timeout :
  processes_ (demo_running policy timeout) !! "web" = Some (demo_entry policy timeout).
Proof. reflexivity. Qed.


Lemma crash_restart_joins_itself_witness :
  monitor_turn demo_clock demo_fork "" demo_others "web" (Some (exited 1)) None (demo_running ON_FAILURE 300) =
  Throw SystemError.
Proof.
  exact (crash_restart_joins_itself demo_clock demo_fork "" demo_others "web" (exited 1) None
    (demo_entry ON_FAILURE 300) 101 (demo_running ON_FAILURE 300) (demo_running_entry _ _) eq_refl eq_refl
    ltac:(vm_compute; discriminate) ltac:(discriminate) ltac:(vm_compute; done) eq_refl).
Defined.

Lemma demo_runs : runs demo_clock demo_fork "" new_supervisor (demo_running ON_FAILURE 300).
Proof.
  apply (runs_step _ _ _ new_supervisor demo_others O (OpAdd (demo_config ON_FAILURE 300))
    (demo_added ON_FAILURE 300)); [done|intros; apply runs_refl|reflexivity|].
  apply (runs_step _ _ _ _ demo_others O (OpStart "web") (demo_running ON_FAILURE 300));
    [done|intros; apply runs_refl|reflexivity|apply runs_refl].
Qed.

Lemma restart_limit_never_reached_witness :
  restart_count (state (demo_entry ON_FAILURE 300)) = 0.
Proof.
  exact (proj1 (restart_limit_never_reached demo_clock demo_fork "" (demo_running ON_FAILURE 300) "web"
    (demo_entry ON_FAILURE 300) demo_runs (demo_running_entry _ _))).
Defined.

Lemma demo_sound : sound demo_others.
Proof. split; [done|]. intros i a. apply keeps_refl. Qed.

Lemma started_process_cannot_be_removed_witness :
  destroy (demo_running NEVER 300) = Undefined Terminate.
Proof.
  exact (proj2 (started_process_cannot_be_removed demo_clock demo_fork "" demo_others "web"
    (demo_added NEVER 300) (demo_running NEVER 300) (demo_running NEVER 300) demo_sound eq_refl
    (runs_refl _ _ _ _))).
Defined.

Lemma watchdog_sees_only_success_witness :
  exists s', watchdog_pass demo_clock demo_fork "" demo_others (fun _ => Some (exited 1))
               (demo_running ALWAYS 300) = Ret s' /\
  exit_code (get_state "web" s') = 0 /\ status (get_state "web" s') = STOPPED.
Proof.
  destruct (watchdog_sees_only_success demo_clock demo_fork "" demo_others (fun _ => Some (exited 1))
    (demo_running ALWAYS 300) eq_refl) as (s' & E & _ & H).
  exists s'. split; [exact E|]. specialize (H "web"). rewrite demo_running_entry in H.
  unfold get_state. rewrite H. split; reflexivity.
Defined.

(** 4294968 seconds (49 days) are 704 milliseconds. *)
Lemma monitor_timeout_wraps_witness :
  exists s', monitor_turn demo_clock demo_fork "" demo_others "web" None None (demo_running ALWAYS 4294968) = Ret s' /\
  signals s' = [(100, SIGKILL)].
Proof.
  destruct (monitor_timeout_wraps demo_clock demo_fork "" demo_others "web" None (demo_entry ALWAYS 4294968)
    (demo_running ALWAYS 4294968) (demo_running_entry _ _) eq_refl) as (s' & E & H).
  exists s'. split; [exact E|]. rewrite decide_True in H by (vm_compute; done). exact (proj1 H).
Defined.

Lemma killed_process_not_restarted_witness :
  exists s', monitor_turn demo_clock demo_fork "" demo_others "web" (Some (signaled 9)) None
               (demo_running ALWAYS 300) = Ret s' /\ children s' = children (demo_running ALWAYS 300).
Proof.
  destruct (killed_process_not_restarted demo_clock demo_fork "" demo_others "web" 9 None
    (demo_entry ALWAYS 300) (demo_running ALWAYS 300) (demo_running_entry _ _) eq_refl
    ltac:(lia)) as (s' & E & H & _).
  by exists s'.
Defined.


End Supervisor.
