(* ===== verification/SupervisorThreads.v ===== *)
(** * The supervisor's threads: [sandbox/src/process_supervisor.cpp]

    The same operations as in [Supervisor.v], cut where another thread can
    come in between: the monitors of the processes, the thread that holds
    [processes_mutex_] (the owner in [start], [stop] and the rest, or the
    watchdog), and the kernel's table of children, which answers [waitpid].
    A monitor takes no lock, so its steps fall anywhere between those of the
    others.  A turn of its loop has four steps: the test of [running], the
    call of [waitpid], and either the poll with its sleep or the recording of
    the exit, which a restart and its delay can follow. *)

From stdpp Require Import base strings gmap list numbers relations.
From Stdlib Require Import ZArith Lia.
From S2P Require Import Prelude Text Supervisor.

Module Threads.
Import Supervisor.

(** A child of the supervisor: running, ended but not waited for, waited for. *)
Inductive kid := Alive | Zombie (st : Z) | Reaped.
#[global] Instance kid_eq_dec : EqDecision kid.
Proof. solve_decision. Defined.

(** Where a monitor thread stands: before the test of its loop (at first, or
    asleep), before [waitpid], after it found nothing, after it found the
    status [st], and asleep before the [spawn_process] of a restart. *)
Inductive monitor_at := AtTest | AtWait | AtPoll | AtExit (st : Z) | AtRestart.
#[global] Instance monitor_at_eq_dec : EqDecision monitor_at.
Proof. solve_decision. Defined.

(** Who holds the mutex: nobody, [stop] in its wait loop, [start] waiting for
    the old monitor to end, the watchdog with the names left to visit. *)
Inductive caller_at :=
  | Idle
  | Stopping (nm : string) (start timeout_ms : Z)
  | Joining (nm : string) (p : Z)
  | Watching (names : list string).

Record system := mkSystem {
  sup : supervisor;
  kids : gmap Z kid;
  monitors : gmap string monitor_at;      (**r the monitor threads that have not ended *)
  caller : caller_at;
  watching : bool                         (**r the watchdog's thread exists *)
}.

Definition initial : system := mkSystem new_supervisor ∅ ∅ Idle false.

(** [waitpid(p, &status, WNOHANG)]. *)
Definition waitpid (p : Z) (ks : gmap Z kid) : option Z * gmap Z kid :=
  match ks !! p with Some (Zombie st) => (Some st, <[p := Reaped]> ks) | _ => (None, ks) end.

(** A child that was not waited for: its pid is not free. *)
Definition unreaped (k : option kid) : Prop :=
  match k with Some Alive | Some (Zombie _) => True | _ => False end.

Section Threads.

#[local] Set Default Proof Using "Type".

Context (clock : nat -> Z) (fork_result : nat -> option Z) (fork_error : string).

(** The monitor of [nm] returns, in the supervisor [s]. *)
Definition monitor_over (nm : string) (s : supervisor) (x : system) : system :=
  mkSystem (update nm (set_monitor Finished) s) (kids x) (delete nm (monitors x)) (caller x) (watching x).

(** The monitor of [nm] goes on at [m]. *)
Definition monitor_goes (nm : string) (m : monitor_at) (s : supervisor) (x : system) : system :=
  mkSystem s (kids x) (<[nm := m]> (monitors x)) (caller x) (watching x).

(** The steps of the thread in [monitor_process(nm)]. *)
Inductive monitor_step (nm : string) (x : system) : system -> Prop :=
  | test_ends e :
      monitors x !! nm = Some AtTest -> processes_ (sup x) !! nm = Some e -> running e = false ->
      monitor_step nm x (monitor_over nm (sup x) x)
  | test_passes e :
      monitors x !! nm = Some AtTest -> processes_ (sup x) !! nm = Some e -> running e = true ->
      monitor_step nm x (monitor_goes nm AtWait (sup x) x)
  | wait_reaps e st ks :
      monitors x !! nm = Some AtWait -> processes_ (sup x) !! nm = Some e ->
      waitpid (pid (state e)) (kids x) = (Some st, ks) ->
      monitor_step nm x (mkSystem (sup x) ks (<[nm := AtExit st]> (monitors x)) (caller x) (watching x))
  | wait_finds_nothing e :
      monitors x !! nm = Some AtWait -> processes_ (sup x) !! nm = Some e ->
      (waitpid (pid (state e)) (kids x)).1 = None ->
      monitor_step nm x (monitor_goes nm AtPoll (sup x) x)
  | poll_kills file s :
      monitors x !! nm = Some AtPoll -> poll_process clock nm file (sup x) = Ret (true, s) ->
      monitor_step nm x (monitor_over nm s x)
  | poll_sleeps file s :
      monitors x !! nm = Some AtPoll -> poll_process clock nm file (sup x) = Ret (false, s) ->
      monitor_step nm x (monitor_goes nm AtTest s x)
  | exit_final st s :
      monitors x !! nm = Some (AtExit st) -> note_exit clock false nm st (sup x) = Ret (false, s) ->
      monitor_step nm x (monitor_over nm s x)
  | exit_again st s :
      monitors x !! nm = Some (AtExit st) -> note_exit clock false nm st (sup x) = Ret (true, s) ->
      monitor_step nm x (monitor_goes nm AtRestart s x)
  | restart_fails s :
      monitors x !! nm = Some AtRestart ->
      fork_child clock fork_result fork_error nm (sup x) = Ret (None, s) ->
      monitor_step nm x (monitor_over nm s x).

(** [stop(nm, timeout_ms)] before its loop. *)
Definition stop_begins (nm : string) (timeout_ms : Z) (e : ProcessEntry) (x : system) : system :=
  let s := kill (pid (state e)) SIGTERM (update nm (set_running false) (sup x)) in
  mkSystem (tick s) (kids x) (monitors x) (Stopping nm (clock (reads s)) timeout_ms) (watching x).

(** ... and after it. *)
Definition stop_ends (nm : string) (s : supervisor) (x : system) : system :=
  mkSystem (update nm (set_state (with_status STOPPED)) s) (kids x) (monitors x) Idle (watching x).

Definition with_sup (s : supervisor) (x : system) : system := mkSystem s (kids x) (monitors x) (caller x) (watching x).
Definition with_caller (c : caller_at) (x : system) : system := mkSystem (sup x) (kids x) (monitors x) c (watching x).

(** The steps of the threads that take [processes_mutex_]. *)
Inductive caller_step (x : system) : system -> Prop :=
  | call_add cfg :
      caller x = Idle -> caller_step x (with_sup (add_process cfg (sup x)).2 x)
  | call_remove nm e :
      caller x = Idle -> processes_ (sup x) !! nm = Some e -> status (state e) <> RUNNING ->
      destroy_entry e = Ret tt ->
      caller_step x (with_sup (set_processes (delete nm (processes_ (sup x))) (sup x)) x)
  | call_start nm e p s :
      caller x = Idle -> processes_ (sup x) !! nm = Some e -> status (state e) <> RUNNING ->
      fork_child clock fork_result fork_error nm (sup x) = Ret (Some p, s) -> ~ unreaped (kids x !! p) ->
      caller_step x (mkSystem s (<[p := Alive]> (kids x)) (monitors x) (Joining nm p) (watching x))
  | call_start_fails nm e s :
      caller x = Idle -> processes_ (sup x) !! nm = Some e -> status (state e) <> RUNNING ->
      fork_child clock fork_result fork_error nm (sup x) = Ret (None, s) ->
      caller_step x (with_sup s x)
  | call_joined nm p b s :
      caller x = Joining nm p -> monitors x !! nm = None ->
      new_monitor clock true nm p (sup x) = Ret (b, s) ->
      caller_step x (mkSystem s (kids x) (<[nm := AtTest]> (monitors x)) Idle (watching x))
  | call_stop nm timeout_ms e :
      caller x = Idle -> processes_ (sup x) !! nm = Some e -> status (state e) = RUNNING ->
      caller_step x (stop_begins nm timeout_ms e x)
  | call_stop_waits nm start timeout_ms e :
      caller x = Stopping nm start timeout_ms -> processes_ (sup x) !! nm = Some e ->
      status (state e) = RUNNING -> ms (clock (reads (sup x)) - start) <= timeout_ms ->
      caller_step x (with_sup (tick (sup x)) x)
  | call_stop_kills nm start timeout_ms e :
      caller x = Stopping nm start timeout_ms -> processes_ (sup x) !! nm = Some e ->
      status (state e) = RUNNING -> timeout_ms < ms (clock (reads (sup x)) - start) ->
      caller_step x (stop_ends nm (kill (pid (state e)) SIGKILL (tick (sup x))) x)
  | call_stop_sees nm start timeout_ms e :
      caller x = Stopping nm start timeout_ms -> processes_ (sup x) !! nm = Some e ->
      status (state e) <> RUNNING ->
      caller_step x (stop_ends nm (sup x) x)
  | call_stop_all :
      caller x = Idle -> caller_step x (with_sup (stop_all (sup x)).2 x)
  | call_info nm :
      caller x = Idle -> caller_step x (with_sup (get_info clock nm (sup x)).2 x)
  | watch_begins :
      caller x = Idle -> watching x = true ->
      caller_step x (with_caller (Watching (map_to_list (processes_ (sup x))).*1) x)
  | watch_skips nm names e :
      caller x = Watching (nm :: names) -> processes_ (sup x) !! nm = Some e ->
      status (state e) <> RUNNING \/ pid (state e) <= 0 \/ (waitpid (pid (state e)) (kids x)).1 = None ->
      caller_step x (with_caller (Watching names) x)
  | watch_reaps nm names e st ks s :
      caller x = Watching (nm :: names) -> processes_ (sup x) !! nm = Some e ->
      status (state e) = RUNNING -> 0 < pid (state e) ->
      waitpid (pid (state e)) (kids x) = (Some st, ks) ->
      note_exit clock true nm (WEXITSTATUS st) (sup x) = Ret (false, s) ->
      caller_step x (mkSystem s ks (monitors x) (Watching names) (watching x))
  | watch_ends :
      caller x = Watching [] -> caller_step x (with_caller Idle x).

Definition with_watching (b : bool) (x : system) : system := mkSystem (sup x) (kids x) (monitors x) (caller x) b.

(** The operations without a lock, the end of the watchdog's thread and the
    end of a child.  [stop_watchdog] clears the flag and joins the thread,
    which looks at the flag only between two passes: one more pass can begin
    after the flag was cleared. *)
Inductive free_step (x : system) : system -> Prop :=
  | free_on_event cb : free_step x (with_sup (on_event cb (sup x)) x)
  | free_start_watchdog :
      watching x = false -> free_step x (with_watching true (with_sup (start_watchdog (sup x)).2 x))
  | free_stop_watchdog : free_step x (with_sup (stop_watchdog (sup x)).2 x)
  | free_watchdog_ends :
      watchdog_running_ (sup x) = false -> (forall names, caller x <> Watching names) ->
      free_step x (with_watching false x)
  | free_exit p st :
      kids x !! p = Some Alive ->
      free_step x (mkSystem (sup x) (<[p := Zombie st]> (kids x)) (monitors x) (caller x) (watching x)).

Inductive step (x y : system) : Prop :=
  | by_monitor nm : monitor_step nm x y -> step x y
  | by_caller : caller_step x y -> step x y
  | by_none : free_step x y -> step x y.

(** The states in which the next step of a thread ends the program: the
    restart joins its own thread, a removal erases a thread that was not
    joined or calls [stop] with the mutex held, a callback takes the mutex, a
    watchdog is started over one that has not been joined. *)
Inductive dies (x : system) : Prop :=
  | dies_joining_itself nm e p s :
      monitors x !! nm = Some AtRestart -> processes_ (sup x) !! nm = Some e -> monitor_thread e <> NoThread ->
      fork_child clock fork_result fork_error nm (sup x) = Ret (Some p, s) -> dies x
  | dies_removing nm e :
      caller x = Idle -> processes_ (sup x) !! nm = Some e ->
      status (state e) = RUNNING \/ joinable (monitor_thread e) = true -> dies x
  | dies_in_start nm p f :
      caller x = Joining nm p -> monitors x !! nm = None ->
      new_monitor clock true nm p (sup x) = Undefined f -> dies x
  | dies_in_watchdog nm names e st ks f :
      caller x = Watching (nm :: names) -> processes_ (sup x) !! nm = Some e ->
      status (state e) = RUNNING -> 0 < pid (state e) ->
      waitpid (pid (state e)) (kids x) = (Some st, ks) ->
      note_exit clock true nm (WEXITSTATUS st) (sup x) = Undefined f -> dies x
  | dies_starting_watchdog :
      watching x = true -> watchdog_running_ (sup x) = false -> dies x.

Definition reachable (x : system) : Prop := rtc step initial x.

(** ** What the pieces change: one entry *)

(** [s'] is [s] with the entry of [nm] changed from [e] to [e'], which has the
    same configuration and the same thread. *)
Record rewrites (nm : string) (e e' : ProcessEntry) (s s' : supervisor) : Prop := {
  rw_from : processes_ s !! nm = Some e;
  rw_to : processes_ s' = <[nm := e']> (processes_ s);
  rw_config : config e' = config e;
  rw_thread : monitor_thread e' = monitor_thread e
}.

Lemma alter_insert (m : gmap string ProcessEntry) nm f e :
  m !! nm = Some e -> alter f nm m = <[nm := f e]> m.
Proof.
  intros E. apply map_eq. intros n. destruct (decide (nm = n)) as [<-|Hn].
  - by rewrite lookup_alter_eq, lookup_insert_eq, E.
  - by rewrite lookup_alter_ne, lookup_insert_ne.
Qed.

Lemma alter_twice (m : gmap string ProcessEntry) nm f g e :
  m !! nm = Some e -> alter g nm (alter f nm m) = <[nm := g (f e)]> m.
Proof.
  intros E. rewrite (alter_insert _ _ _ _ E), (alter_insert _ nm g (f e)) by apply lookup_insert_eq.
  by rewrite insert_insert_eq.
Qed.

Lemma emit_event_inv held ty nm p code msg s s' :
  emit_event clock held ty nm p code msg s = Ret s' ->
  processes_ s' = processes_ s /\ signals s' = signals s /\ children s' = children s.
Proof. unfold emit_event. intros H. repeat case_match; by simplify_eq. Qed.

Lemma entry_inv nm s e : entry nm s = Ret e -> processes_ s !! nm = Some e.
Proof. unfold entry. by destruct (_ !! _); intros; simplify_eq. Qed.

Lemma fork_child_spec nm s r s' :
  fork_child clock fork_result fork_error nm s = Ret (r, s') ->
  exists e e', rewrites nm e e' s s' /\ r = fork_result (length (children s)) /\
    signals s' = signals s /\ restart_count (state e') = 0 /\
    match r with
    | Some p => pid (state e') = p /\ status (state e') = RUNNING /\ running e' = true /\
                children s' = children s ++ [(p, child (config e))]
    | None => pid (state e') = pid (state e) /\ status (state e') = FAILED /\ running e' = running e /\
              children s' = children s
    end.
Proof.
  unfold fork_child. intros H. apply bind_Ret_inv in H as (e & E & H). apply entry_inv in E.
  cbv beta iota zeta in H. destruct (fork_result (length (children (update _ _ _)))) as [p|] eqn:F; simplify_eq.
  all: eexists e, _; split; [split; [exact E|cbn; apply (alter_twice _ _ _ _ _ E)| |]|]; try done.
Qed.

Lemma note_exit_spec held nm st s b s' :
  note_exit clock held nm st s = Ret (b, s') ->
  exists e e', rewrites nm e e' s s' /\
    signals s' = signals s /\ children s' = children s /\
    pid (state e') = pid (state e) /\ running e' = false /\ status (state e') <> RUNNING /\
    (b = false -> restart_count (state e') = restart_count (state e)).
Proof.
  unfold note_exit. intros H. rewrite entry_update in H. unfold entry in H.
  destruct (processes_ s !! nm) as [e|] eqn:E; [|done]. cbn [fmap outcome_fmap mbind outcome_bind] in H.
  apply bind_Ret_inv in H as (s1 & E1 & H). apply emit_event_inv in E1 as (P1 & S1 & C1).
  case_match; [case_match|]; [apply bind_Ret_inv in H as (s2 & E2 & H); apply emit_event_inv in E2 as (P2 & S2 & C2)| |];
    simplify_eq; eexists e, _.
  all: split; [split; [exact E| | |]|].
  1: rewrite P2; cbn; rewrite P1; cbn; apply (alter_twice _ _ _ _ _ E).
  4: cbn; rewrite P1; cbn; apply (alter_twice _ _ _ _ _ E).
  7: rewrite P1; cbn; apply (alter_insert _ _ _ _ E).
  all: try done.
  all: repeat split; try done.
  all: by etrans; [eassumption|].
Qed.

Lemma poll_spec nm file s over s' :
  poll_process clock nm file s = Ret (over, s') ->
  exists e e', rewrites nm e e' s s' /\ children s' = children s /\
    signals s' = (if over : bool then signals s ++ [(pid (state e), SIGKILL)] else signals s) /\
    running e' = running e /\ pid (state e') = pid (state e) /\ status (state e') = status (state e) /\
    exit_code (state e') = exit_code (state e) /\ restart_count (state e') = restart_count (state e).
Proof.
  intros H. assert (He : exists e, processes_ s !! nm = Some e).
  { unfold poll_process in H. apply bind_Ret_inv in H as (e & E & _). apply entry_inv in E. by exists e. }
  destruct He as [e E]. rewrite (poll_process_at _ _ _ _ _ E) in H. cbv zeta in H.
  case_match; [|destruct file as [lines|]]; simplify_eq.
  1, 3: exists e, e; (split; [split; cbn; try done; symmetry; by apply insert_id|by repeat split]).
  eexists e, _. split; [split; [exact E|cbn; apply (alter_insert _ _ _ _ E)| |]|]; by repeat split.
Qed.

(** Entries whose [running] flag may have been cleared, all else equal. *)
Definition quieted (s s' : supervisor) : Prop :=
  forall nm, processes_ s' !! nm = processes_ s !! nm \/ processes_ s' !! nm = set_running false <$> processes_ s !! nm.

Lemma stop_each_quiets l s :
  quieted s (stop_each l s) /\ children (stop_each l s) = children s /\
  event_callback_ (stop_each l s) = event_callback_ s.
Proof.
  revert s. induction l as [|[nm e] l IH]; intros s; [by split; [by left|]|].
  cbn [stop_each]. case_decide; [|apply IH]. set (s1 := kill _ _ _). destruct (IH s1) as (Q & C & B).
  split; [|by rewrite C, B]. intros n. specialize (Q n). unfold s1 in Q at 2 4. cbn in Q.
  destruct (decide (nm = n)) as [<-|Hn]; [|by rewrite !lookup_alter_ne in Q].
  rewrite !lookup_alter_eq in Q. right. destruct Q as [->| ->]; by destruct (processes_ s !! nm).
Qed.

(** ** Every state a supervisor reaches *)

(** A monitor thread exists exactly where the entry says [Active], always for
    an entry that exists, and a restart count is never above 0 but for a
    process about to be restarted. *)
Record consistent (x : system) : Prop := {
  c_thread nm e : processes_ (sup x) !! nm = Some e -> monitor_thread e = Active <-> is_Some (monitors x !! nm);
  c_entry nm : is_Some (monitors x !! nm) -> is_Some (processes_ (sup x) !! nm);
  c_restarts nm e : processes_ (sup x) !! nm = Some e -> monitors x !! nm <> Some AtRestart ->
    restart_count (state e) = 0
}.

Lemma consistent_same x y :
  consistent x -> processes_ (sup y) = processes_ (sup x) -> monitors y = monitors x -> consistent y.
Proof. intros [H1 H2 H3] Ep Em. split; intros nm; rewrite Ep, Em; [apply H1|apply H2|apply H3]. Qed.

(** One entry and its monitor change. *)
Lemma consistent_one nm e e' x y :
  consistent x -> processes_ (sup x) !! nm = Some e -> processes_ (sup y) = <[nm := e']> (processes_ (sup x)) ->
  (forall n, n <> nm -> monitors y !! n = monitors x !! n) ->
  (monitor_thread e' = Active <-> is_Some (monitors y !! nm)) ->
  (monitors y !! nm <> Some AtRestart -> restart_count (state e') = 0) ->
  consistent y.
Proof.
  intros [H1 H2 H3] He E Hm Ht Hr. split; intros n; rewrite E; destruct (decide (n = nm)) as [->|Hn];
    rewrite ?lookup_insert_eq, ?lookup_insert_ne, ?Hm by done.
  - intros e0 ?. by simplify_eq.
  - apply H1.
  - by eexists.
  - apply H2.
  - intros e0 ?. by simplify_eq.
  - apply H3.
Qed.

Lemma monitor_over_entry nm e e' s x :
  rewrites nm e e' (sup x) s ->
  processes_ (sup (monitor_over nm s x)) = <[nm := set_monitor Finished e']> (processes_ (sup x)).
Proof.
  intros [He E _ _]. cbn. rewrite E. rewrite (alter_insert _ nm _ e') by apply lookup_insert_eq.
  apply insert_insert_eq.
Qed.

Lemma rewrites_refl nm e s : processes_ s !! nm = Some e -> rewrites nm e e s s.
Proof. intros E. split; [done| |done|done]. symmetry. by apply insert_id. Qed.

(** A monitor ends, its entry left with no restart counted. *)
Lemma over_consistent nm e e' s x :
  consistent x -> rewrites nm e e' (sup x) s -> restart_count (state e') = 0 -> consistent (monitor_over nm s x).
Proof.
  intros C W R. eapply (consistent_one nm e _ x); [done|apply W|by eapply monitor_over_entry| | |done]; cbn.
  - intros n Hn. by apply lookup_delete_ne.
  - rewrite lookup_delete_eq. by split; [|intros []].
Qed.

(** A monitor goes on. *)
Lemma goes_consistent nm m e e' ks s c b x :
  consistent x -> is_Some (monitors x !! nm) -> rewrites nm e e' (sup x) s ->
  (m <> AtRestart -> restart_count (state e') = 0) ->
  consistent (mkSystem s ks (<[nm := m]> (monitors x)) c b).
Proof.
  intros C Hm W R. pose proof (c_thread _ C nm e (rw_from _ _ _ _ _ W)) as T.
  eapply (consistent_one nm e e' x); [done|apply W|apply W| | |]; cbn.
  - intros n Hn. by apply lookup_insert_ne.
  - rewrite (rw_thread _ _ _ _ _ W), lookup_insert_eq, T. split; eauto.
  - rewrite lookup_insert_eq. intros Hr. apply R. congruence.
Qed.

Lemma monitor_step_consistent nm x y :
  consistent x -> monitor_step nm x y -> consistent y.
Proof.
  intros C H. pose proof (c_restarts _ C nm) as R.
  destruct H as [e Hm He Hr|e Hm He Hr|e st ks Hm He Hw|e Hm He Hw|file s Hm Hp|file s Hm Hp|st s Hm Hp|st s Hm Hp|s Hm Hp].
  all: try (apply poll_spec in Hp as (e & e' & W & _ & _ & _ & _ & _ & _ & Rc)).
  all: try (apply note_exit_spec in Hp as (e & e' & W & _ & _ & _ & _ & _ & Rc)).
  all: try (apply fork_child_spec in Hp as (e & e' & W & _ & _ & Rc & _)).
  all: try (pose proof (rw_from _ _ _ _ _ W) as He).
  all: try (pose proof (rewrites_refl _ _ _ He) as W).
  all: try (first [eapply over_consistent|eapply goes_consistent]; [exact C| |..]); eauto.
  all: intros; try done; rewrite ?Rc by done; try done; apply (R _ He); by rewrite Hm.
Qed.

Lemma quieted_consistent x y :
  consistent x -> quieted (sup x) (sup y) -> monitors y = monitors x -> consistent y.
Proof.
  intros [H1 H2 H3] Q Em.
  assert (B : forall nm e, processes_ (sup y) !! nm = Some e -> exists e0, processes_ (sup x) !! nm = Some e0 /\
            monitor_thread e = monitor_thread e0 /\ state e = state e0).
  { intros nm e. destruct (Q nm) as [->| ->]; [by eexists|]. destruct (processes_ (sup x) !! nm) as [e0|]; [|done].
    intros ?. simplify_eq/=. by eexists. }
  split; intros nm; rewrite Em.
  - intros e (e0 & E0 & -> & _)%B. by apply H1.
  - intros (e0 & E0)%H2. destruct (Q nm) as [E|E]; rewrite E, E0; by eexists.
  - intros e (e0 & E0 & _ & ->)%B. by apply H3.
Qed.

(** Adding a process whose name is new. *)
Lemma add_process_cases cfg s :
  (add_process cfg s).2 = s \/
  processes_ s !! name cfg = None /\ children (add_process cfg s).2 = children s /\
  processes_ (add_process cfg s).2 = <[name cfg := mkEntry cfg init_state NoThread false []]> (processes_ s).
Proof. unfold add_process. destruct (processes_ s !! name cfg) eqn:E; [by left|by right]. Qed.

Lemma stop_entry nm e f s : processes_ s !! nm = Some e -> processes_ (update nm f s) = <[nm := f e]> (processes_ s).
Proof. intros E. cbn. by apply alter_insert. Qed.

(** The state of one entry changes, its thread does not. *)
Lemma state_consistent nm e e' x y :
  consistent x -> processes_ (sup x) !! nm = Some e -> processes_ (sup y) = <[nm := e']> (processes_ (sup x)) ->
  monitor_thread e' = monitor_thread e ->
  restart_count (state e') = restart_count (state e) \/ restart_count (state e') = 0 ->
  monitors y = monitors x -> consistent y.
Proof.
  intros C He E T R M. apply (consistent_one nm e e' x); try done; rewrite ?M; try done.
  - rewrite T. by apply (c_thread _ C).
  - intros Hm. destruct R as [->|R]; [|done]. by apply (c_restarts _ C nm).
Qed.

(** The process the caller works on is there. *)
Definition caller_known (x : system) : Prop :=
  match caller x with
  | Stopping nm _ _ | Joining nm _ => is_Some (processes_ (sup x) !! nm)
  | _ => True
  end.

Definition well (x : system) : Prop := consistent x /\ caller_known x.

Lemma insert_known nm n e (m : gmap string ProcessEntry) : is_Some (m !! n) -> is_Some (<[nm := e]> m !! n).
Proof. intros. destruct (decide (nm = n)) as [<-|]; [rewrite lookup_insert_eq|rewrite lookup_insert_ne by done]; eauto. Qed.

Lemma caller_known_same x y :
  caller_known x -> (forall nm, is_Some (processes_ (sup x) !! nm) -> is_Some (processes_ (sup y) !! nm)) ->
  caller y = caller x -> caller_known y.
Proof. unfold caller_known. intros K Hn ->. destruct (caller x); auto. Qed.

Lemma monitor_step_caller nm x y : monitor_step nm x y -> caller y = caller x.
Proof. by intros []. Qed.

(** The entry a monitor's step changes. *)
Lemma monitor_step_entry nm x y :
  monitor_step nm x y -> exists e e', processes_ (sup x) !! nm = Some e /\
    processes_ (sup y) = <[nm := e']> (processes_ (sup x)) /\
    children (sup y) = children (sup x) /\ pid (state e') = pid (state e) /\ config e' = config e.
Proof.
  intros [e Hm He Hr|e Hm He Hr|e st ks Hm He Hw|e Hm He Hw|file s Hm Hp|file s Hm Hp|st s Hm Hp|st s Hm Hp|s Hm Hp].
  all: try (apply poll_spec in Hp as (e & e' & W & C & _ & _ & P & _)).
  all: try (apply note_exit_spec in Hp as (e & e' & W & _ & C & P & _)).
  all: try (apply fork_child_spec in Hp as (e & e' & W & _ & _ & _ & P & _ & _ & C)).
  all: try (pose proof (rewrites_refl _ _ _ He) as W).
  all: exists e; first [ eexists; split; [apply W|]; split; [by eapply monitor_over_entry|by split_and!; try apply W]
                       | eexists; split; [apply W|]; split; [apply W|by split_and!; try apply W] ].
Qed.

Lemma monitor_step_well nm x y : well x -> monitor_step nm x y -> well y.
Proof.
  intros [C K] H. split; [by eapply monitor_step_consistent|].
  pose proof (monitor_step_caller _ _ _ H). apply monitor_step_entry in H as (e & e' & He & E & _).
  apply (caller_known_same x); [done| |done]. intros n. rewrite E. apply insert_known.
Qed.

Lemma free_step_well x y : well x -> free_step x y -> well y.
Proof.
  intros [C K] H. assert (E : processes_ (sup y) = processes_ (sup x) /\ monitors y = monitors x /\ caller y = caller x).
  { destruct H; try done. cbn. unfold start_watchdog. by destruct (watchdog_running_ _). }
  destruct E as (E1 & E2 & E3). split; [by eapply consistent_same|].
  apply (caller_known_same x); [done| |done]. by rewrite E1.
Qed.

Lemma new_monitor_spec held nm p s b s' e :
  new_monitor clock held nm p s = Ret (b, s') -> processes_ s !! nm = Some e ->
  b = true /\ processes_ s' = <[nm := set_monitor Active e]> (processes_ s) /\ signals s' = signals s /\
  children s' = children s.
Proof.
  unfold new_monitor. cbv zeta. intros H He. apply bind_Ret_inv in H as (s1 & E & H). simplify_eq.
  apply emit_event_inv in E as (-> & -> & ->). split_and!; try done. by apply stop_entry.
Qed.

Lemma add_well cfg x : well x -> caller x = Idle -> well (with_sup (add_process cfg (sup x)).2 x).
Proof.
  intros [C K] Hc.
  destruct (add_process_cases cfg (sup x)) as [E|(E1 & _ & E2)].
  { rewrite E. split; [by eapply consistent_same|]. unfold caller_known. cbn. by rewrite Hc. }
  split; [|unfold caller_known; cbn; by rewrite Hc].
  assert (Hm : monitors x !! name cfg = None).
  { apply eq_None_not_Some. intros M. apply (c_entry _ C) in M as [e M]. congruence. }
  destruct C as [C1 C2 C3]. split; intros nm; cbn; rewrite E2; destruct (decide (nm = name cfg)) as [->|Hn];
    rewrite ?lookup_insert_eq, ?lookup_insert_ne by done; eauto.
  + intros e ?. simplify_eq. rewrite Hm. cbn. by split; [|intros []].
  + by intros e ?; simplify_eq.
Qed.

Lemma remove_well nm e x :
  well x -> caller x = Idle -> processes_ (sup x) !! nm = Some e -> destroy_entry e = Ret tt ->
  well (with_sup (set_processes (delete nm (processes_ (sup x))) (sup x)) x).
Proof.
  intros [C K] Hc He Hd.
  split; [|unfold caller_known; cbn; by rewrite Hc].
  assert (Ht : monitor_thread e = NoThread) by (unfold destroy_entry, joinable in Hd; by destruct (monitor_thread e)).
  assert (Hm : monitors x !! nm = None).
  { apply eq_None_not_Some. intros M. apply (c_thread _ C nm e He) in M. congruence. }
  destruct C as [C1 C2 C3]. split; intros n; cbn; destruct (decide (n = nm)) as [->|Hn];
    rewrite ?lookup_delete_eq, ?lookup_delete_ne by done; eauto; try done. rewrite Hm. by intros [].
Qed.

Lemma caller_step_well x y : well x -> caller_step x y -> well y.
Proof.
  intros Hx H. pose proof Hx as [C K].
  destruct H as [cfg Hc|nm e Hc He Hs Hd|nm e p s Hc He Hs Hf Hk|nm e s Hc He Hs Hf|nm p b s Hc Hm Hn
    |nm t e Hc He Hs|nm t0 t e Hc He Hs Ht|nm t0 t e Hc He Hs Ht|nm t0 t e Hc He Hs|Hc|nm Hc|Hc Hw
    |nm names e Hc He Hr|nm names e st ks s Hc He Hs Hp Hr Hn|Hc].
  - by apply add_well.
  - by eapply remove_well.
  - apply fork_child_spec in Hf as (e0 & e' & W & _ & _ & R & _). split.
    + apply (state_consistent nm e0 e' x); try apply W; try done. by right.
    + unfold caller_known. cbn. rewrite (rw_to _ _ _ _ _ W), lookup_insert_eq. by eexists.
  - apply fork_child_spec in Hf as (e0 & e' & W & _ & _ & R & _). split.
    + apply (state_consistent nm e0 e' x); try apply W; try done. by right.
    + unfold caller_known. cbn. by rewrite Hc.
  - unfold caller_known in K. rewrite Hc in K. destruct K as [e He].
    apply (new_monitor_spec _ _ _ _ _ _ e) in Hn as (_ & E & _); [|done]. split; [|done].
    apply (consistent_one nm e (set_monitor Active e) x); try done; cbn.
    + intros n Hn. by apply lookup_insert_ne.
    + rewrite lookup_insert_eq. by split; eauto.
    + intros _. apply (c_restarts _ C nm); [done|]. by rewrite Hm.
  - split; [|unfold caller_known; cbn; rewrite lookup_alter_eq, He; by eexists].
    apply (state_consistent nm e (set_running false e) x); try done; [by apply stop_entry|by left].
  - split; [by eapply consistent_same|by apply (caller_known_same x)].
  - split; [|done]. apply (state_consistent nm e (set_state (with_status STOPPED) e) x); try done; [|by left].
    cbn. by apply alter_insert.
  - split; [|done]. apply (state_consistent nm e (set_state (with_status STOPPED) e) x); try done; [|by left].
    cbn. by apply alter_insert.
  - split; [|unfold caller_known; cbn; by rewrite Hc].
    apply (quieted_consistent x); [done| |done]. apply stop_each_quiets.
  - split; [|unfold caller_known; cbn; by rewrite Hc]. apply (consistent_same x); [done| |done].
    cbn. unfold get_info. by destruct (processes_ (sup x) !! nm).
  - split; [by apply (consistent_same x)|done].
  - split; [by apply (consistent_same x)|done].
  - apply note_exit_spec in Hn as (e0 & e' & W & _ & _ & _ & _ & _ & R). split; [|done].
    apply (state_consistent nm e0 e' x); try apply W; try done. left. by apply R.
  - split; [by apply (consistent_same x)|done].
Qed.

Lemma reachable_well x : reachable x -> well x.
Proof.
  intros H. refine (rtc_ind_r (R := step) (fun x => well x) initial _ _ x H).
  - split; [split; intros nm; cbn; rewrite ?lookup_empty; by try intros []|done].
  - intros a b _ [nm S|S|S] W; [by eapply monitor_step_well|by eapply caller_step_well|by eapply free_step_well].
Qed.

(** *** Pids

    [fork] gives a positive pid that no child in the kernel's table has
    ([call_start]); it can be one of a child that was waited for before. *)

Definition positive_pids : Prop := forall i p, fork_result i = Some p -> 0 < p.

(** So far [p] was given to one child only. *)
Definition handed_once (p : Z) (x : system) : Prop :=
  forall i j, (children (sup x)).*1 !! i = Some p -> (children (sup x)).*1 !! j = Some p -> i = j.

(** The kernel's table holds the pids handed out; and as far as pids have not
    come back, two entries never share a pid, and a process that is [RUNNING]
    was not waited for, unless its monitor is about to record the exit. *)
Record known (x : system) : Prop := {
  k_handed p : is_Some (kids x !! p) -> 0 < p /\ p ∈ (children (sup x)).*1;
  k_pid nm e : processes_ (sup x) !! nm = Some e -> pid (state e) = -1 \/ is_Some (kids x !! pid (state e));
  k_apart n1 n2 e1 e2 : n1 <> n2 -> processes_ (sup x) !! n1 = Some e1 -> processes_ (sup x) !! n2 = Some e2 ->
    pid (state e1) = pid (state e2) -> pid (state e1) = -1 \/ ~ handed_once (pid (state e1)) x;
  k_running nm e : processes_ (sup x) !! nm = Some e -> status (state e) = RUNNING ->
    (exists st, monitors x !! nm = Some (AtExit st)) \/ unreaped (kids x !! pid (state e)) \/
    ~ handed_once (pid (state e)) x
}.

Lemma handed_same p x y : children (sup y) = children (sup x) -> handed_once p y <-> handed_once p x.
Proof. unfold handed_once. by intros ->. Qed.

Lemma unreaped_some k : unreaped k -> is_Some k.
Proof. destruct k; [by eexists|done]. Qed.

Lemma k_positive x p : known x -> is_Some (kids x !! p) -> 0 < p.
Proof. intros K Hp. by apply (k_handed _ K). Qed.

(** One entry changes but for its pid; of the children, at most the one of
    this entry is waited for. *)
Lemma known_one nm e e' x y :
  known x ->
  processes_ (sup x) !! nm = Some e -> processes_ (sup y) = <[nm := e']> (processes_ (sup x)) ->
  pid (state e') = pid (state e) -> children (sup y) = children (sup x) ->
  (forall p, is_Some (kids y !! p) <-> is_Some (kids x !! p)) ->
  (forall p, p <> pid (state e) -> unreaped (kids x !! p) -> unreaped (kids y !! p)) ->
  (forall n, n <> nm -> monitors y !! n = monitors x !! n) ->
  (status (state e') = RUNNING ->
   (exists st, monitors y !! nm = Some (AtExit st)) \/ unreaped (kids y !! pid (state e)) \/
   ~ handed_once (pid (state e)) x) ->
  known y.
Proof.
  intros K He E P C Hs Hu Hm Hr. pose proof (fun q => handed_same q x y C) as Ho.
  assert (B : forall n e0, processes_ (sup y) !! n = Some e0 ->
            exists e1, processes_ (sup x) !! n = Some e1 /\ pid (state e0) = pid (state e1)).
  { intros n e0. rewrite E. destruct (decide (nm = n)) as [<-|Hn].
    - rewrite lookup_insert_eq. intros ?. simplify_eq. eauto.
    - rewrite lookup_insert_ne by done. eauto. }
  split.
  - intros p. rewrite Hs, C. apply (k_handed _ K).
  - intros n e0 (e1 & E1 & ->)%B. rewrite Hs. by eapply k_pid.
  - intros n1 n2 a b Hn (a1 & A1 & ->)%B (b1 & B1 & ->)%B. rewrite Ho. by eapply (k_apart _ K n1 n2).
  - intros n e0. rewrite E, Ho. destruct (decide (nm = n)) as [<-|Hn].
    { rewrite lookup_insert_eq. intros ?. simplify_eq. rewrite P. apply Hr. }
    rewrite lookup_insert_ne, Hm by done. intros E0 Hst.
    destruct (k_running _ K n e0 E0 Hst) as [?|[Hk|?]]; [by left| |by right; right].
    destruct (decide (pid (state e0) = pid (state e))) as [Ep|Ep]; [|by right; left; apply Hu].
    apply unreaped_some, (k_positive _ _ K) in Hk.
    destruct (k_apart _ K n nm e0 e) as [|?]; [done|done|done|done|lia|by right; right].
Qed.

Lemma waitpid_reaps p ks st ks' :
  waitpid p ks = (Some st, ks') -> ks !! p = Some (Zombie st) /\ ks' = <[p := Reaped]> ks.
Proof. unfold waitpid. intros H. by repeat case_match; simplify_eq. Qed.

Lemma reaped_known p ks st ks' :
  waitpid p ks = (Some st, ks') ->
  (forall q, is_Some (ks' !! q) <-> is_Some (ks !! q)) /\
  (forall q, q <> p -> unreaped (ks !! q) -> unreaped (ks' !! q)).
Proof.
  intros [E ->]%waitpid_reaps. split; intros q.
  - destruct (decide (q = p)) as [->|Hq]; [rewrite lookup_insert_eq, E; by split; eexists|by rewrite lookup_insert_ne].
  - intros Hq. by rewrite lookup_insert_ne.
Qed.

(** An entry that is not [RUNNING] afterwards, or was and is with its child
    as before. *)
Lemma known_entry nm e e' x y :
  known x ->
  processes_ (sup x) !! nm = Some e -> processes_ (sup y) = <[nm := e']> (processes_ (sup x)) ->
  pid (state e') = pid (state e) -> children (sup y) = children (sup x) -> kids y = kids x ->
  (forall n, n <> nm -> monitors y !! n = monitors x !! n) ->
  (status (state e') = RUNNING -> status (state e) = RUNNING) ->
  (forall st, monitors x !! nm = Some (AtExit st) -> status (state e') <> RUNNING \/ monitors y !! nm = monitors x !! nm) ->
  known y.
Proof.
  intros K He E P C Ek Hm Hr Hx. eapply (known_one nm e e' x); rewrite ?Ek; try done.
  intros Hs. destruct (k_running _ K nm e He (Hr Hs)) as [[st Hst]|?]; [left|by right].
  destruct (Hx st Hst) as [?|Ex]; [done|]. rewrite Ex. by eexists.
Qed.

Lemma monitor_step_known nm x y : known x -> monitor_step nm x y -> known y.
Proof.
  intros K H.
  assert (Hd : forall s n, n <> nm -> monitors (monitor_over nm s x) !! n = monitors x !! n)
    by (intros; by apply lookup_delete_ne).
  assert (Hg : forall m s n, n <> nm -> monitors (monitor_goes nm m s x) !! n = monitors x !! n)
    by (intros; by apply lookup_insert_ne).
  destruct H as [e Hm He Hr|e Hm He Hr|e st ks Hm He Hw|e Hm He Hw|file s Hm Hp|file s Hm Hp|st s Hm Hp|st s Hm Hp|s Hm Hp].
  3: { pose proof (reaped_known _ _ _ _ Hw) as [A B].
       apply (known_one nm e e x); try done; [symmetry; by apply insert_id| |].
       - intros n Hn. by apply lookup_insert_ne.
       - intros _. left. exists st. apply lookup_insert_eq. }
  all: try (apply poll_spec in Hp as (e & e' & W & C & _ & _ & P & S & _)).
  all: try (apply note_exit_spec in Hp as (e & e' & W & _ & C & P & _ & S & _)).
  all: try (apply fork_child_spec in Hp as (e & e' & W & _ & _ & _ & P & S & _ & C)).
  all: try (pose proof (rewrites_refl _ _ _ He) as W).
  all: first [ eapply (known_entry nm e _ x); [done|apply W|by eapply monitor_over_entry|..]
             | eapply (known_entry nm e _ x); [done|apply W|apply W|..] ].
  all: try first [done|by apply Hd|by apply Hg|by cbn; rewrite S].
  all: intros st0 Hst0; first [congruence|by left].
Qed.

Lemma free_step_known x y : known x -> free_step x y -> known y.
Proof.
  intros K H. assert (Hp : processes_ (sup y) = processes_ (sup x) /\ children (sup y) = children (sup x) /\
    monitors y = monitors x /\ (forall p, is_Some (kids y !! p) <-> is_Some (kids x !! p)) /\
    (forall p, unreaped (kids x !! p) -> unreaped (kids y !! p))).
  { destruct H as [cb|Hw| |Hw Hc|p st Hp]; try done; [cbn; unfold start_watchdog; by destruct (watchdog_running_ _)|].
    split_and!; try done; intros q; cbn; destruct (decide (p = q)) as [->|Hn];
      rewrite ?lookup_insert_eq, ?lookup_insert_ne by done; done. }
  destruct Hp as (P & C & M & A & B). destruct K as [K1 K2 K3 K4]. split.
  - intros p. rewrite A, C. apply K1.
  - intros nm e. rewrite P, A. apply K2.
  - intros n1 n2 e1 e2. rewrite P, (handed_same _ x y C). apply K3.
  - intros nm e. rewrite P, M, (handed_same _ x y C). intros E S. destruct (K4 nm e E S) as [?|[?|?]]; auto.
Qed.

(** Processes, children and kids as before. *)
Lemma known_same x y :
  known x -> processes_ (sup y) = processes_ (sup x) -> children (sup y) = children (sup x) ->
  kids y = kids x -> monitors y = monitors x -> known y.
Proof.
  intros [K1 K2 K3 K4] P C Ek M. pose proof (fun p => handed_same p x y C) as Ho.
  split; rewrite ?P, ?C, ?Ek, ?M; auto; setoid_rewrite Ho; auto.
Qed.

Lemma add_known cfg x : known x -> known (with_sup (add_process cfg (sup x)).2 x).
Proof.
  intros K. destruct (add_process_cases cfg (sup x)) as [->|(E1 & C & E)]; [by apply (known_same x)|].
  assert (B : forall n e0, processes_ (add_process cfg (sup x)).2 !! n = Some e0 ->
            e0 = mkEntry cfg init_state NoThread false [] \/ processes_ (sup x) !! n = Some e0 /\ n <> name cfg).
  { intros n e0. rewrite E. destruct (decide (name cfg = n)) as [<-|Hn].
    - rewrite lookup_insert_eq. intros ?. simplify_eq. by left.
    - rewrite lookup_insert_ne by done. auto. }
  pose proof (fun p => handed_same p x (with_sup (add_process cfg (sup x)).2 x) C) as Ho.
  destruct K as [K1 K2 K3 K4]. split; try setoid_rewrite Ho; cbn [sup with_sup kids monitors]; rewrite ?C; auto.
  - intros n e0 [->|[E0 _]]%B; [by left|by eapply K2].
  - intros n1 n2 a b Hn A0 B0. pose proof (B _ _ A0) as [->|[A1 _]]; [by left|].
    pose proof (B _ _ B0) as [->|[B1 _]]; [by left|]. by apply (K3 n1 n2).
  - intros n e0 [->|[E0 _]]%B S; [done|by apply K4].
Qed.

Lemma remove_known nm x :
  known x -> known (with_sup (set_processes (delete nm (processes_ (sup x))) (sup x)) x).
Proof.
  intros [K1 K2 K3 K4]. split; cbn; [done| | |].
  - intros n e [_ E]%lookup_delete_Some. by eapply K2.
  - intros n1 n2 a b Hn [_ A]%lookup_delete_Some [_ B]%lookup_delete_Some. by apply (K3 n1 n2).
  - intros n e [_ E]%lookup_delete_Some. by apply K4.
Qed.

Lemma start_known nm p s x :
  positive_pids -> known x -> fork_child clock fork_result fork_error nm (sup x) = Ret (Some p, s) ->
  known (mkSystem s (<[p := Alive]> (kids x)) (monitors x) (Joining nm p) (watching x)).
Proof.
  intros Hpos K Hf. apply fork_child_spec in Hf as (e & e' & W & Ep & _ & _ & P & S & _ & C). symmetry in Ep.
  set (y := mkSystem _ _ _ _ _). assert (Ec : (children (sup y)).*1 = (children (sup x)).*1 ++ [p])
    by (cbn; by rewrite C, fmap_app).
  assert (Hless : forall q, handed_once q y -> handed_once q x).
  { intros q Hq i j Hi Hj. apply Hq; rewrite Ec; by apply lookup_app_l_Some. }
  assert (Hagain : forall n e0, processes_ (sup x) !! n = Some e0 -> pid (state e0) = p -> ~ handed_once p y).
  { intros n e0 E0 <- Ho. destruct (k_pid _ K n e0 E0) as [E1|E1]; [apply Hpos in Ep; lia|].
    apply (k_handed _ K) in E1 as [_ [i Hi]%list_elem_of_lookup]. pose proof (lookup_lt_Some _ _ _ Hi) as Hlt.
    assert (i = length (children (sup x)).*1); [|lia]. apply Ho; rewrite Ec; [by apply lookup_app_l_Some|].
    by rewrite lookup_app_r, Nat.sub_diag by lia. }
  assert (B : forall n e0, processes_ s !! n = Some e0 ->
            n = nm /\ pid (state e0) = p \/ n <> nm /\ processes_ (sup x) !! n = Some e0).
  { intros n e0. rewrite (rw_to _ _ _ _ _ W). destruct (decide (nm = n)) as [<-|Hn].
    - rewrite lookup_insert_eq. intros ?. simplify_eq. by left.
    - rewrite lookup_insert_ne by done. intros E0. by right. }
  pose proof K as [K1 K2 K3 K4]. split.
  - intros q. rewrite Ec. cbn. destruct (decide (p = q)) as [<-|Hq].
    + intros _. split; [by eapply Hpos|]. apply elem_of_app. right. by left.
    + rewrite lookup_insert_ne by done. intros [? ?]%K1. split; [done|]. apply elem_of_app. by left.
  - intros n e0 E. cbn in E. cbn. destruct (decide (pid (state e0) = p)) as [->|Hn].
    { right. rewrite lookup_insert_eq. by eexists. }
    rewrite lookup_insert_ne by done. apply B in E as [[_ ?]|(_ & E0)]; [done|]. by eapply K2.
  - intros n1 n2 a b Hn Ea Eb. cbn in Ea, Eb. apply B in Ea as [[-> Ea]|(Na & A)], Eb as [[-> Eb]|(Nb & B0)]; try done.
    + intros Eq. right. rewrite Ea. apply (Hagain n2 b B0). congruence.
    + intros Eq. right. rewrite Eq, Eb. apply (Hagain n1 a A). congruence.
    + intros Eq. destruct (K3 n1 n2 a b Hn A B0 Eq) as [?|Ho]; [by left|right; intros Hy; by apply Ho, Hless].
  - intros n e0 E Hst. cbn in E. cbn. destruct (decide (pid (state e0) = p)) as [->|Hn].
    { right. left. by rewrite lookup_insert_eq. }
    rewrite lookup_insert_ne by done. apply B in E as [[_ ?]|(_ & E0)]; [done|].
    destruct (K4 n e0 E0 Hst) as [?|[?|Ho]]; [by left|by right; left|right; right; intros Hy; by apply Ho, Hless].
Qed.

Lemma quieted_known x y :
  known x -> quieted (sup x) (sup y) -> children (sup y) = children (sup x) -> kids y = kids x ->
  monitors y = monitors x -> known y.
Proof.
  intros [K1 K2 K3 K4] Q C Ek M. pose proof (fun p => handed_same p x y C) as Ho.
  assert (B : forall nm e, processes_ (sup y) !! nm = Some e ->
            exists e0, processes_ (sup x) !! nm = Some e0 /\ state e = state e0).
  { intros nm e. destruct (Q nm) as [->| ->]; [by eexists|]. destruct (processes_ (sup x) !! nm) as [e0|]; [|done].
    intros ?. simplify_eq/=. by eexists. }
  split; rewrite ?C, ?Ek, ?M; [done| | |].
  - intros n e (e0 & E0 & ->)%B. by eapply K2.
  - intros n1 n2 a b Hn (a1 & A1 & ->)%B (b1 & B1 & ->)%B. rewrite Ho. by apply (K3 n1 n2).
  - intros n e (e0 & E0 & ->)%B. rewrite Ho. by apply K4.
Qed.

Lemma caller_step_known x y : positive_pids -> well x -> known x -> caller_step x y -> known y.
Proof.
  intros F Hx K H. pose proof Hx as [_ Kc].
  destruct H as [cfg Hc|nm e Hc He Hs Hd|nm e p s Hc He Hs Hf Hk|nm e s Hc He Hs Hf|nm p b s Hc Hm Hn
    |nm t e Hc He Hs|nm t0 t e Hc He Hs Ht|nm t0 t e Hc He Hs Ht|nm t0 t e Hc He Hs|Hc|nm Hc|Hc Hw
    |nm names e Hc He Hr|nm names e st ks s Hc He Hs Hp Hr Hn|Hc].
  - by apply add_known.
  - by apply remove_known.
  - by eapply start_known.
  - apply fork_child_spec in Hf as (e0 & e' & W & _ & _ & _ & P & S & _ & C).
    apply (known_entry nm e0 e' x); try apply W; try done; [by rewrite S|]. intros st _. by right.
  - unfold caller_known in Kc. rewrite Hc in Kc. destruct Kc as [e He].
    pose proof (new_monitor_spec _ _ _ _ _ _ e Hn He) as (_ & E & _ & C).
    apply (known_entry nm e (set_monitor Active e) x); try done; [|intros; congruence].
    intros n Hne. by apply lookup_insert_ne.
  - apply (known_entry nm e (set_running false e) x); try done; [by apply stop_entry|]. intros st _. by right.
  - by apply (known_same x).
  - apply (known_entry nm e (set_state (with_status STOPPED) e) x); try done; [cbn; by apply alter_insert|].
    intros st _. by right.
  - apply (known_entry nm e (set_state (with_status STOPPED) e) x); try done; [cbn; by apply alter_insert|].
    intros st _. by right.
  - pose proof (stop_each_quiets (map_to_list (processes_ (sup x))) (sup x)) as (Q & C & _).
    by apply (quieted_known x).
  - apply (known_same x); try done; cbn; unfold get_info; by destruct (processes_ (sup x) !! nm).
  - by apply (known_same x).
  - by apply (known_same x).
  - apply note_exit_spec in Hn as (e0 & e' & W & _ & C & P & _ & S & _).
    pose proof (rw_from _ _ _ _ _ W) as He0. assert (e0 = e) as -> by congruence.
    pose proof (reaped_known _ _ _ _ Hr) as [A B].
    apply (known_one nm e e' x); try done. apply W.
  - by apply (known_same x).
Qed.

Lemma reachable_known x : positive_pids -> reachable x -> known x.
Proof.
  intros F H. assert (G : well x /\ known x); [|apply G].
  refine (rtc_ind_r (R := step) (fun x => well x /\ known x) initial _ _ x H).
  - split; [by apply reachable_well, rtc_refl|]. split; cbn.
    + intros p. rewrite lookup_empty. by intros [].
    + intros nm e. by rewrite lookup_empty.
    + intros n1 n2 e1 e2 _. by rewrite lookup_empty.
    + intros nm e. by rewrite lookup_empty.
  - intros a b _ [nm S|S|S] [W K]; split.
    + by eapply monitor_step_well.
    + by eapply monitor_step_known.
    + by eapply caller_step_well.
    + by eapply caller_step_known.
    + by eapply free_step_well.
    + by eapply free_step_known.
Qed.

(** ** Waiting while monitors run *)

(** What a monitor's step leaves alone. *)
Lemma monitor_step_effect nm x y :
  monitor_step nm x y ->
  (forall n, n <> nm -> monitors y !! n = monitors x !! n) /\
  (exists l, signals (sup y) = signals (sup x) ++ l) /\
  (forall p, (forall e, processes_ (sup x) !! nm = Some e -> pid (state e) <> p) -> kids y !! p = kids x !! p).
Proof.
  intros [e Hm He Hr|e Hm He Hr|e st ks Hm He Hw|e Hm He Hw|file s Hm Hp|file s Hm Hp|st s Hm Hp|st s Hm Hp|s Hm Hp].
  all: try (apply poll_spec in Hp as (e & e' & W & C & Sg & _)).
  all: try (apply note_exit_spec in Hp as (e & e' & W & Sg & _)).
  all: try (apply fork_child_spec in Hp as (e & e' & W & _ & Sg & _)).
  all: split; [intros n Hn; first [by apply lookup_delete_ne|by apply lookup_insert_ne]|].
  all: split; [|try done].
  all: try (exists []; rewrite app_nil_r; first [done|exact Sg]).
  - apply waitpid_reaps in Hw as [_ ->]. intros p Hp. cbn. apply lookup_insert_ne. by apply Hp.
  - exists [(pid (state e), SIGKILL)]. exact Sg.
Qed.

Lemma free_step_effect x y :
  free_step x y ->
  processes_ (sup y) = processes_ (sup x) /\ monitors y = monitors x /\ caller y = caller x /\
  signals (sup y) = signals (sup x) /\
  forall p, (unreaped (kids x !! p) -> unreaped (kids y !! p)) /\
            (kids x !! p = Some Reaped -> kids y !! p = Some Reaped).
Proof.
  intros [cb|Hw| |Hw Hc|p st Hp]; try done; [cbn; unfold start_watchdog; by destruct (watchdog_running_ _)|].
  split_and!; try done. intros q. cbn. destruct (decide (p = q)) as [<-|Hn];
    rewrite ?lookup_insert_eq, ?lookup_insert_ne by done; [|done]. split; [done|congruence].
Qed.

(** The clock is only read, never turned back. *)
Lemma emit_event_reads held ty nm p code msg s s' :
  emit_event clock held ty nm p code msg s = Ret s' -> (reads s <= reads s')%nat.
Proof. unfold emit_event. intros H. repeat case_match; simplify_eq; cbn; lia. Qed.

Lemma note_exit_reads held nm st s b s' : note_exit clock held nm st s = Ret (b, s') -> (reads s <= reads s')%nat.
Proof.
  unfold note_exit. intros H. apply bind_Ret_inv in H as (e & _ & H). apply bind_Ret_inv in H as (s1 & E1 & H).
  apply emit_event_reads in E1. cbn in E1.
  case_match; [case_match|]; [apply bind_Ret_inv in H as (s2 & E2 & H); apply emit_event_reads in E2|..];
    simplify_eq; cbn in *; lia.
Qed.

Lemma new_monitor_reads held nm p s b s' : new_monitor clock held nm p s = Ret (b, s') -> (reads s <= reads s')%nat.
Proof.
  unfold new_monitor. cbv zeta. intros H. apply bind_Ret_inv in H as (s1 & E & H). apply emit_event_reads in E. by simplify_eq.
Qed.

Lemma poll_over nm file s over s' e :
  poll_process clock nm file s = Ret (over, s') -> processes_ s !! nm = Some e ->
  reads s' = S (reads s) /\
  (exists e', processes_ s' !! nm = Some e' /\ start_time (state e') = start_time (state e)) /\
  (over = true -> 0 < timeout_seconds (config e) /\
     u32 (timeout_seconds (config e) * 1000) < u64 (ms (clock (reads s)) - start_time (state e))).
Proof.
  intros H E. rewrite (poll_process_at _ _ _ _ _ E) in H. cbv zeta in H.
  case_match eqn:Eb; [|destruct file as [lines|]]; simplify_eq; (split; [done|split; [|try done]]).
  - by exists e.
  - intros _. apply andb_prop in Eb as [?%Z.ltb_lt ?%Z.ltb_lt]. done.
  - eexists. cbn. rewrite lookup_alter_eq, E. by split.
  - by exists e.
Qed.

Lemma fork_child_reads nm s r s' :
  fork_child clock fork_result fork_error nm s = Ret (r, s') ->
  (reads s <= reads s')%nat.
Proof.
  unfold fork_child. intros H. apply bind_Ret_inv in H as (e & E & H). apply entry_inv in E.
  cbv beta iota zeta in H. case_match; simplify_eq; cbn; lia.
Qed.

Lemma fork_child_start nm s p s' :
  fork_child clock fork_result fork_error nm s = Ret (Some p, s') ->
  reads s' = S (reads s) /\
  forall e, processes_ s' !! nm = Some e -> start_time (state e) = u64 (ms (clock (reads s))).
Proof.
  unfold fork_child. intros H. apply bind_Ret_inv in H as (e & E & H). apply entry_inv in E.
  cbv beta iota zeta in H. case_match; simplify_eq; cbn. split; [done|].
  intros e0. rewrite !lookup_alter_eq, E. cbn. by intros [= <-].
Qed.

Lemma monitor_step_reads nm x y : monitor_step nm x y -> (reads (sup x) <= reads (sup y))%nat.
Proof.
  intros [e Hm He Hr|e Hm He Hr|e st ks Hm He Hw|e Hm He Hw|file s Hm Hp|file s Hm Hp|st s Hm Hp|st s Hm Hp|s Hm Hp]; try done.
  1, 2: pose proof (poll_spec _ _ _ _ _ Hp) as (e & e' & W & _);
    destruct (poll_over _ _ _ _ _ e Hp (rw_from _ _ _ _ _ W)) as [Hr _]; cbn; lia.
  1, 2: by apply note_exit_reads in Hp.
  by apply fork_child_reads in Hp.
Qed.

Lemma free_step_reads x y : free_step x y -> reads (sup y) = reads (sup x).
Proof. intros [cb|Hw| |Hw Hc|p st Hp]; try done. cbn. unfold start_watchdog. by destruct (watchdog_running_ _). Qed.

(** No entry but the one of [nm] has the pid [p]. *)
Definition apart (nm : string) (p : Z) (x : system) : Prop :=
  forall n e, n <> nm -> processes_ (sup x) !! n = Some e -> pid (state e) <> p.

Lemma apart_same nm p x y : apart nm p x -> processes_ (sup y) = processes_ (sup x) -> apart nm p y.
Proof. unfold apart. by intros A ->. Qed.

Lemma monitor_step_apart nm p n x y : apart nm p x -> monitor_step n x y -> apart nm p y.
Proof.
  intros A (e & e' & He & E & _ & P & _)%monitor_step_entry n0 e0 Hn. rewrite E.
  destruct (decide (n = n0)) as [<-|Hne]; [rewrite lookup_insert_eq|rewrite lookup_insert_ne by done; by apply A].
  intros ?. simplify_eq. rewrite P. by apply (A n).
Qed.

(** A step of another process's monitor. *)
Lemma other_monitor_step nm p n x y :
  n <> nm -> apart nm p x -> monitor_step n x y ->
  processes_ (sup y) !! nm = processes_ (sup x) !! nm /\ monitors y !! nm = monitors x !! nm /\
  caller y = caller x /\ kids y !! p = kids x !! p /\ apart nm p y /\
  exists l, signals (sup y) = signals (sup x) ++ l.
Proof.
  intros Hn A H. pose proof (monitor_step_effect _ _ _ H) as (M & Sg & Kd).
  pose proof (monitor_step_caller _ _ _ H). pose proof (monitor_step_apart nm p _ _ _ A H).
  apply monitor_step_entry in H as (e & e' & He & E & _).
  split_and!; try done.
  - rewrite E. by apply lookup_insert_ne.
  - by apply M.
  - apply Kd. intros e0 He0. by apply (A n).
Qed.

(** *** [stop] *)

Definition while_stopping (nm : string) (x y : system) : Prop :=
  (exists start timeout_ms, caller x = Stopping nm start timeout_ms) /\ step x y.

(** [stop] waits for a process whose monitor has ended or will find [running]
    cleared: [e0] is the entry at the call, [r0] the number of the reading with
    which the wait begins. *)
Record blind (nm : string) (e0 : ProcessEntry) (r0 : nat) (timeout_ms : Z) (x : system) : Prop := {
  b_entry : exists e, processes_ (sup x) !! nm = Some e /\ status (state e) = RUNNING /\ running e = false /\
    pid (state e) = pid (state e0) /\ exit_code (state e) = exit_code (state e0);
  b_monitor : monitors x !! nm = None \/ monitors x !! nm = Some AtTest;
  b_kid : unreaped (kids x !! pid (state e0));
  b_apart : apart nm (pid (state e0)) x;
  b_term : (pid (state e0), SIGTERM) ∈ signals (sup x);
  b_caller : caller x = Stopping nm (clock r0) timeout_ms;
  b_reads : (r0 < reads (sup x))%nat
}.

(** ... and what it leaves when it returns. *)
Record gave_up (nm : string) (e0 : ProcessEntry) (r0 : nat) (timeout_ms : Z) (x : system) : Prop := {
  g_entry : exists e, processes_ (sup x) !! nm = Some e /\ status (state e) = STOPPED /\
    exit_code (state e) = exit_code (state e0);
  g_kid : unreaped (kids x !! pid (state e0));
  g_signals : exists l, signals (sup x) = l ++ [(pid (state e0), SIGKILL)] /\ (pid (state e0), SIGTERM) ∈ l;
  g_time : exists n, (r0 < n < reads (sup x))%nat /\ timeout_ms < ms (clock n - clock r0);
  g_caller : caller x = Idle
}.

Lemma blind_monitor_step nm e0 r0 t n x y : blind nm e0 r0 t x -> monitor_step n x y -> blind nm e0 r0 t y.
Proof.
  intros [(e & He & Hs & Hr & Hp & Hx) Bm Bk Ba Bt Bc Br] H. pose proof (monitor_step_reads _ _ _ H) as Hreads.
  destruct (decide (n = nm)) as [->|Hn].
  - pose proof (monitor_step_apart _ _ _ _ _ Ba H).
    inversion H; subst; destruct Bm; simplify_eq; try congruence.
    split; cbn; [|left; apply lookup_delete_eq|done|done|done|done|done].
    exists (set_monitor Finished e). split; [by rewrite lookup_alter_eq, He|by split_and!].
  - destruct (other_monitor_step nm (pid (state e0)) n x y) as (E & M & C & Kd & A & l & Sg); try done.
    split; [|by rewrite M|by rewrite Kd|done|rewrite Sg; set_solver|by rewrite C|lia].
    exists e. by rewrite E.
Qed.

Lemma blind_caller_step nm e0 r0 t x y : blind nm e0 r0 t x -> caller_step x y -> blind nm e0 r0 t y \/ gave_up nm e0 r0 t y.
Proof.
  intros [(e & He & Hs & Hr & Hp & Hx) Bm Bk Ba Bt Bc Br] H.
  inversion H; try congruence; rewrite Bc in *; simplify_eq.
  - left. split; try done; [by exists e|cbn; lia].
  - right. split; cbn; try done.
    + exists (set_state (with_status STOPPED) e). by rewrite lookup_alter_eq, He.
    + exists (signals (sup x)). by rewrite Hp.
    + exists (reads (sup x)). split; [lia|done].
Qed.

Lemma blind_free_step nm e0 r0 t x y : blind nm e0 r0 t x -> free_step x y -> blind nm e0 r0 t y.
Proof.
  intros [Be Bm Bk Ba Bt Bc Br] H. pose proof (free_step_reads _ _ H) as Hreads.
  apply free_step_effect in H as (E & M & C & Sg & Kd).
  split; rewrite ?E, ?M, ?C, ?Sg, ?Hreads; try done; [by apply Kd|by eapply apart_same].
Qed.

Lemma stop_blind_run nm e0 r0 t x y :
  rtc (while_stopping nm) x y -> blind nm e0 r0 t x -> blind nm e0 r0 t y \/ gave_up nm e0 r0 t y.
Proof.
  induction 1 as [x|x z y [Hw S] R IH]; [by left|]. intros B.
  assert (B' : blind nm e0 r0 t z \/ gave_up nm e0 r0 t z).
  { destruct S as [n S|S|S]; [left; by eapply blind_monitor_step|by apply (blind_caller_step _ _ _ _ x)|
      left; by eapply blind_free_step]. }
  destruct B' as [B'|G]; [by apply IH|right]. destruct R as [z|z v y [(s & t' & E) _] _]; [done|].
  rewrite (g_caller _ _ _ _ _ G) in E. done.
Qed.

(** *** [start] *)

Definition while_joining (nm : string) (x y : system) : Prop :=
  (exists p, caller x = Joining nm p) /\ step x y.

(** The process [p] has ended and its monitor has recorded it. *)
Definition recorded (e : ProcessEntry) (p : Z) (x : system) : Prop :=
  kids x !! p = Some Reaped /\ running e = false /\ status (state e) <> RUNNING.

(** The process [p], configured as [cfg] and forked at the reading [r0], was
    killed once a reading was past its time limit. *)
Definition killed_late (cfg : ProcessConfig) (p : Z) (r0 : nat) (x : system) : Prop :=
  0 < timeout_seconds cfg /\ (p, SIGKILL) ∈ signals (sup x) /\
  exists n, (r0 <= n < reads (sup x))%nat /\
    u32 (timeout_seconds cfg * 1000) < u64 (ms (clock n) - u64 (ms (clock r0))).

(** [start] has forked [p] and waits for the old monitor, which has taken
    over the new process: where that monitor stands. *)
Definition old_monitor (nm : string) (e : ProcessEntry) (p : Z) (r0 : nat) (x : system) : Prop :=
  match monitors x !! nm with
  | Some AtTest | Some AtWait | Some AtPoll => running e = true /\ start_time (state e) = u64 (ms (clock r0))
  | Some (AtExit _) => kids x !! p = Some Reaped
  | Some AtRestart => recorded e p x
  | None => recorded e p x \/ killed_late (config e) p r0 x
  end.

Record adopted (nm : string) (cfg : ProcessConfig) (p : Z) (r0 : nat) (x : system) : Prop := {
  a_entry : exists e, processes_ (sup x) !! nm = Some e /\ config e = cfg /\ pid (state e) = p /\ old_monitor nm e p r0 x;
  a_apart : apart nm p x;
  a_caller : caller x = Joining nm p;
  a_reads : (r0 < reads (sup x))%nat
}.

Lemma killed_later cfg p r0 x y l :
  signals (sup y) = signals (sup x) ++ l -> (reads (sup x) <= reads (sup y))%nat ->
  killed_late cfg p r0 x -> killed_late cfg p r0 y.
Proof.
  intros Sg Hr (H1 & H2 & n & Hn & H3). split; [done|]. split; [rewrite Sg; apply elem_of_app; by left|]. exists n. split; [lia|done].
Qed.

(** What the monitor does with the process it has taken over. *)
Lemma adopted_own_step nm cfg p r0 x y : adopted nm cfg p r0 x -> monitor_step nm x y -> adopted nm cfg p r0 y.
Proof.
  intros [(e & He & Hcfg & Hp & Ho) A C Hr] H. pose proof (monitor_step_reads _ _ _ H) as Hreads.
  split; [|by eapply monitor_step_apart|by rewrite (monitor_step_caller _ _ _ H)|lia]. clear Hreads.
  unfold old_monitor in Ho.
  destruct H as [e1 Hm He1 Hrun|e1 Hm He1 Hrun|e1 st ks Hm He1 Hw|e1 Hm He1 Hw|file s Hm Hq|file s Hm Hq|st s Hm Hq
    |st s Hm Hq|s Hm Hq]; rewrite Hm in Ho.
  1: destruct Ho; congruence.
  1, 3: exists e; unfold old_monitor; cbn; rewrite lookup_insert_eq; destruct Ho; by split_and!.
  1: { assert (e1 = e) as -> by congruence. apply waitpid_reaps in Hw as [_ ->]. exists e. unfold old_monitor. cbn.
       rewrite !lookup_insert_eq, Hp, lookup_insert_eq. by split_and!. }
  1, 2: destruct (poll_over _ _ _ _ _ e Hq He) as (Hread & (e2 & He2 & Hstart) & Hover).
  all: try (apply poll_spec in Hq as (e1 & e' & W & _ & Sg & Er & Ep & _)).
  all: try (apply note_exit_spec in Hq as (e1 & e' & W & _ & _ & Ep & Er & Es & _)).
  all: try (apply fork_child_spec in Hq as (e1 & e' & W & _ & _ & _ & Ep & Es & Er & _)).
  all: assert (e1 = e) as -> by (apply (rw_from _ _ _ _ _) in W; congruence).
  all: pose proof (rw_config _ _ _ _ _ W) as Ecfg.
  all: first [ exists (set_monitor Finished e'); split; [rewrite (monitor_over_entry _ _ _ _ _ W); by rewrite lookup_insert_eq|]
             | exists e'; split; [cbn; rewrite (rw_to _ _ _ _ _ W); by rewrite lookup_insert_eq|] ].
  all: split; [cbn; congruence|]; split; [cbn; congruence|]; unfold old_monitor, recorded in *; cbn;
    rewrite ?lookup_delete_eq, ?lookup_insert_eq.
  - right. destruct Ho as [_ Ho], (Hover eq_refl) as [H1 H2]. rewrite Ecfg. split; [done|].
    split; [cbn; rewrite Sg, <- Hp; set_solver|]. exists (reads (sup x)). cbn. split; [lia|]. by rewrite <- Ho.
  - assert (e2 = e') as -> by (rewrite (rw_to _ _ _ _ _ W), lookup_insert_eq in He2; congruence).
    destruct Ho as [Ho1 Ho2]. split; congruence.
  - by left.
  - by split_and!.
  - left. destruct Ho as (? & ? & _). rewrite Er, Es. by split_and!.
Qed.

Lemma adopted_step nm cfg p r0 x y :
  adopted nm cfg p r0 x -> step x y -> adopted nm cfg p r0 y \/
  (caller y = Idle /\ exists e, processes_ (sup y) !! nm = Some e /\ (recorded e p y \/ killed_late cfg p r0 y)).
Proof.
  intros Ha H. pose proof Ha as [(e & He & Hcfg & Hp & Ho) A C Hr]. destruct H as [n H|H|H].
  - left. destruct (decide (n = nm)) as [->|Hn]; [by eapply adopted_own_step|].
    pose proof (monitor_step_reads _ _ _ H) as Hreads.
    destruct (other_monitor_step nm p n x y) as (E & M & Cy & Kd & Ay & l & Sg); try done.
    split; [|done|by rewrite Cy|lia]. exists e. rewrite E. split_and!; try done.
    unfold old_monitor, recorded in *. rewrite M, Kd. repeat case_match; try done.
    destruct Ho as [Ho|Ho]; [by left|right; by eapply killed_later].
  - right. inversion H; try congruence. rewrite C in *. simplify_eq.
    match goal with Hn : new_monitor _ _ _ _ _ = Ret _ |- _ =>
      pose proof (new_monitor_spec _ _ _ _ _ _ e Hn He) as (_ & E & Sg & _); pose proof (new_monitor_reads _ _ _ _ _ _ Hn) end.
    split; [done|]. exists (set_monitor Active e). cbn. rewrite E, lookup_insert_eq. split; [done|].
    unfold old_monitor in Ho. match goal with Hm : monitors x !! _ = None |- _ => rewrite Hm in Ho end.
    destruct Ho as [Ho|Ho]; [by left|right]. apply (killed_later _ _ _ x _ []); cbn; [by rewrite app_nil_r|done|done].
  - left. pose proof (free_step_reads _ _ H) as Hreads.
    apply free_step_effect in H as (E & M & Cy & Sg & Kd). destruct (Kd p) as [_ Kr].
    split; [|by eapply apart_same|by rewrite Cy|lia]. exists e. rewrite E. split_and!; try done.
    unfold old_monitor, recorded in *. rewrite M. repeat case_match; try done; try naive_solver.
    destruct Ho as [Ho|Ho]; [left; naive_solver|right]. apply (killed_later _ _ _ x _ []); [by rewrite app_nil_r, Sg|lia|done].
Qed.

(** ** Properties *)


(** C21: [stop] does not notice that the process ends.  Take a running process
    whose child was not waited for, and whose monitor has ended or is between
    two turns of its loop; and no other entry has its pid.  [stop] clears
    [running], which ends the monitor, and nobody else calls [waitpid] for the
    process while the mutex is held.  So whatever the other threads do, and if
    the process exits at [SIGTERM] at once, [stop] returns only after a reading
    of the clock that is more than [timeout_ms] milliseconds after the one with
    which its wait began, with [SIGKILL] sent to the pid last; the exit code is
    not recorded, and the child is never waited for, a zombie at best, under an
    entry that says [STOPPED]. *)
Theorem stop_never_sees_exit x (nm : string) (timeout_ms : Z) (e : ProcessEntry) y
    (Hidle : caller x = Idle)
    (He : processes_ (sup x) !! nm = Some e) (Hrun : status (state e) = RUNNING)
    (Hkid : unreaped (kids x !! pid (state e))) (Hpid : apart nm (pid (state e)) x)
    (Hm : monitors x !! nm = None \/ monitors x !! nm = Some AtTest)
    (Hsteps : rtc (while_stopping nm) (stop_begins nm timeout_ms e x) y) (Hret : caller y = Idle) :
  (exists n, (reads (sup x) < n < reads (sup y))%nat /\ timeout_ms < ms (clock n - clock (reads (sup x)))) /\
  (exists l, signals (sup y) = l ++ [(pid (state e), SIGKILL)] /\ (pid (state e), SIGTERM) ∈ l) /\
  (exists e', processes_ (sup y) !! nm = Some e' /\ status (state e') = STOPPED /\
     exit_code (state e') = exit_code (state e)) /\
  unreaped (kids y !! pid (state e)).
Proof.
  destruct (stop_blind_run _ e (reads (sup x)) timeout_ms _ _ Hsteps) as [B|[]];
    [|by pose proof (b_caller _ _ _ _ _ B); congruence|done].
  split; cbn; try done.
  - exists (set_running false e). by rewrite lookup_alter_eq, He.
  - intros n e0 Hn. cbn. rewrite lookup_alter_ne by done. by apply Hpid.
  - set_solver.
  - lia.
Qed.

(** C22: [start] can return [true] for a process that has ended.  Take a process
    that was stopped or has exited and whose old monitor is still asleep, and
    a fork whose pid no other entry has.  [start] sets [running] and only then
    joins the old monitor, which now goes on with the new process.  So
    [start], and with the mutex held every other operation, waits for as long
    as the new process lives: when it returns, the process was waited for and
    its exit recorded; or it has a time limit, it was sent [SIGKILL], and a
    reading of the clock since the fork (at most as late as the return) was
    past the limit. *)
Theorem start_waits_for_its_process x (nm : string) (e : ProcessEntry) (p : Z) s y
    (Hidle : caller x = Idle)
    (He : processes_ (sup x) !! nm = Some e) (Hstopped : status (state e) <> RUNNING)
    (Hm : monitors x !! nm = Some AtTest)
    (Hfork : fork_child clock fork_result fork_error nm (sup x) = Ret (Some p, s))
    (Hpid : apart nm p x)
    (Hsteps : rtc (while_joining nm) (mkSystem s (<[p := Alive]> (kids x)) (monitors x) (Joining nm p) (watching x)) y)
    (Hret : caller y = Idle) :
  exists e', processes_ (sup y) !! nm = Some e' /\
  (kids y !! p = Some Reaped /\ running e' = false /\ status (state e') <> RUNNING \/
   0 < timeout_seconds (config e) /\ (p, SIGKILL) ∈ signals (sup y) /\
   exists n, (reads (sup x) <= n < reads (sup y))%nat /\
     u32 (timeout_seconds (config e) * 1000) < u64 (ms (clock n) - u64 (ms (clock (reads (sup x)))))).
Proof.
  assert (Ha : adopted nm (config e) p (reads (sup x))
                 (mkSystem s (<[p := Alive]> (kids x)) (monitors x) (Joining nm p) (watching x))).
  { pose proof (fork_child_spec _ _ _ _ Hfork) as (e1 & e' & W & _ & _ & _ & P & _ & R & _).
    pose proof (fork_child_start _ _ _ _ Hfork) as [Hr Ht].
    assert (e1 = e) as -> by (apply (rw_from _ _ _ _ _) in W; congruence).
    assert (He' : processes_ s !! nm = Some e') by (rewrite (rw_to _ _ _ _ _ W); apply lookup_insert_eq).
    split; [|intros n e0 Hn; cbn; rewrite (rw_to _ _ _ _ _ W), lookup_insert_ne by done; by apply Hpid|done|cbn; lia].
    exists e'. unfold old_monitor. cbn. rewrite Hm. split_and!; [done|apply W|done|done|]. by apply Ht. }
  revert Hret. clear Hfork. revert Ha. induction Hsteps as [x0|x0 x1 y [Hw S] R IH]; intros Ha Hret.
  { by rewrite (a_caller _ _ _ _ _ Ha) in Hret. }
  destruct (adopted_step _ _ _ _ _ _ Ha S) as [Ha'|[Hi E]]; [by apply IH|].
  destruct R as [|x1 x2 y [[q Hq] _] _]; [exact E|congruence].
Qed.

(** ** The operations of [Supervisor.v] are executions *)

(** No monitor is inside a turn. *)
Definition resting (x : system) : Prop := forall nm m, monitors x !! nm = Some m -> m = AtTest.

(** From [x], the threads bring the supervisor to [s], with the mutex as at
    [c] and no monitor inside a turn. *)
Definition leads_to (c : caller_at) (s : supervisor) (x : system) : Prop :=
  exists y, rtc step x y /\ sup y = s /\ caller y = c /\ resting y.

Lemma leads_here x : resting x -> leads_to (caller x) (sup x) x.
Proof. intros R. exists x. by split_and!. Qed.

Lemma leads_step c s x y : step x y -> leads_to c s y -> leads_to c s x.
Proof. intros S (z & R & ?). exists z. split; [by eapply rtc_l|done]. Qed.

Lemma leads_caller c s x y : caller_step x y -> leads_to c s y -> leads_to c s x.
Proof. intros S. apply leads_step, by_caller, S. Qed.

Lemma resting_goes nm s ks c b x : resting x -> resting (mkSystem s ks (<[nm := AtTest]> (monitors x)) c b).
Proof.
  intros R n m. cbn. destruct (decide (nm = n)) as [<-|Hn].
  - rewrite lookup_insert_eq. congruence.
  - rewrite lookup_insert_ne by done. apply R.
Qed.

(** What the other threads do during a wait is an execution. *)
Record carried_out (w : others) : Prop := {
  sleep_runs i x : well x -> resting x -> leads_to (caller x) (during_sleep w i (sup x)) x;
  end_runs nm x s : well x -> resting x -> until_monitor_ends w nm (sup x) = Some s ->
    exists y, rtc step x y /\ sup y = s /\ caller y = caller x /\ resting y /\ monitors y !! nm = None
}.

Lemma rtc_well x y : rtc step x y -> well x -> well y.
Proof.
  induction 1 as [|x z y [n S|S|S] _ IH]; [done| | |]; intros W; apply IH;
    [by eapply monitor_step_well|by eapply caller_step_well|by eapply free_step_well].
Qed.

(** A monitor cannot spawn but by failing to fork: it would join itself. *)
Lemma self_spawn w held nm s b s' e :
  processes_ s !! nm = Some e -> monitor_thread e = Active ->
  spawn_process clock fork_result fork_error w (MonitorOf nm) held nm s = Ret (b, s') ->
  fork_child clock fork_result fork_error nm s = Ret (None, s').
Proof.
  intros He Ht H. unfold spawn_process in H. apply bind_Ret_inv in H as ([r s1] & Hf & H). rewrite Hf.
  destruct r as [p|]; [|by simplify_eq].
  apply fork_child_spec in Hf as (e1 & e' & W & _). exfalso.
  assert (e1 = e) as -> by (apply (rw_from _ _ _ _ _) in W; congruence).
  unfold join_monitor, entry in H. rewrite (rw_to _ _ _ _ _ W), lookup_insert_eq in H. cbn in H.
  by rewrite (rw_thread _ _ _ _ _ W), Ht, decide_True in H.
Qed.

Lemma resting_over nm ks m s c b x :
  resting x -> resting (mkSystem s ks (delete nm (<[nm := m]> (monitors x))) c b).
Proof.
  intros R n a. cbn. destruct (decide (nm = n)) as [<-|Hn]; [by rewrite lookup_delete_eq|].
  rewrite lookup_delete_ne, lookup_insert_ne by done. apply R.
Qed.

(** The recording of an exit, from [AtExit]. *)
Lemma exit_leads w nm st ks s x :
  well x -> resting x -> is_Some (monitors x !! nm) ->
  handle_exit clock fork_result fork_error w (MonitorOf nm) false nm st (sup x) = Ret s ->
  leads_to (caller x) (update nm (set_monitor Finished) s)
    (mkSystem (sup x) ks (<[nm := AtExit st]> (monitors x)) (caller x) (watching x)).
Proof.
  intros [C _] R Hm H. set (x1 := mkSystem _ _ _ _ _).
  assert (M1 : monitors x1 !! nm = Some (AtExit st)) by apply lookup_insert_eq.
  unfold handle_exit in H. apply bind_Ret_inv in H as ([again s1] & Hn & H). destruct again; simplify_eq.
  - apply bind_Ret_inv in H as ([b s2] & Hs & H). simplify_eq.
    pose proof (note_exit_spec _ _ _ _ _ _ Hn) as (e & e' & W & _).
    apply (self_spawn _ _ _ _ _ _ e') in Hs; [|rewrite (rw_to _ _ _ _ _ W); apply lookup_insert_eq|].
    + eapply leads_step; [eapply by_monitor; by eapply (exit_again _ x1)|].
      eapply leads_step; [eapply by_monitor; eapply restart_fails; [apply lookup_insert_eq|exact Hs]|].
      eexists. split; [apply rtc_refl|]. split_and!; [done|done|].
      unfold x1, monitor_over, monitor_goes. cbn. rewrite insert_insert_eq. by apply resting_over.
    + rewrite (rw_thread _ _ _ _ _ W). by apply (c_thread _ C nm e (rw_from _ _ _ _ _ W)).
  - eapply leads_step; [eapply by_monitor; by eapply (exit_final _ x1)|].
    eexists. split; [apply rtc_refl|]. split_and!; [done|done|]. by apply (resting_over nm ks (AtExit st)).
Qed.

Lemma turn_leads w nm file e s x :
  well x -> resting x -> processes_ (sup x) !! nm = Some e -> monitor_thread e = Active ->
  monitor_turn clock fork_result fork_error w nm (waitpid (pid (state e)) (kids x)).1 file (sup x) = Ret s ->
  leads_to (caller x) s x.
Proof.
  intros Hw R He Ht H. pose proof Hw as [C _].
  pose proof (proj1 (c_thread _ C nm e He) Ht) as [m Hm]. assert (m = AtTest) as -> by by apply (R nm).
  unfold monitor_turn in H. unfold entry in H. rewrite He in H. cbn [mbind outcome_bind] in H.
  destruct (running e) eqn:Hr; cbn [negb] in H.
  2: { simplify_eq. eapply leads_step; [eapply by_monitor; by eapply test_ends|].
       eexists. split; [apply rtc_refl|]. split_and!; [done|done|]. intros n a. cbn.
       destruct (decide (nm = n)) as [<-|Hn]; [by rewrite lookup_delete_eq|]. rewrite lookup_delete_ne by done.
       apply R. }
  eapply leads_step; [eapply by_monitor; by eapply test_passes|]. set (x1 := monitor_goes _ _ _ _).
  assert (M1 : monitors x1 !! nm = Some AtWait) by apply lookup_insert_eq.
  destruct (waitpid (pid (state e)) (kids x)) as [[st|] ks] eqn:Ek; cbn [fst] in H.
  - apply bind_Ret_inv in H as (s1 & Hh & H). simplify_eq.
    eapply leads_step; [eapply by_monitor; by eapply (wait_reaps nm x1 e st ks)|].
    unfold x1. cbn. rewrite insert_insert_eq. by eapply exit_leads.
  - apply bind_Ret_inv in H as ([over s1] & Hp & H).
    eapply leads_step; [eapply by_monitor; eapply (wait_finds_nothing nm x1 e); [done|done|by cbn; rewrite Ek]|].
    set (x2 := monitor_goes _ _ _ _). assert (M2 : monitors x2 !! nm = Some AtPoll) by apply lookup_insert_eq.
    destruct over; simplify_eq.
    + eapply leads_step; [eapply by_monitor; by eapply (poll_kills nm x2)|].
      eexists. split; [apply rtc_refl|]. split_and!; [done|done|].
      unfold x2, x1, monitor_over, monitor_goes. cbn. rewrite insert_insert_eq. by apply (resting_over nm (kids x)).
    + eapply leads_step; [eapply by_monitor; by eapply (poll_sleeps nm x2)|].
      eexists. split; [apply rtc_refl|]. split_and!; [done|done|].
      unfold x2, x1, monitor_over, monitor_goes. cbn. rewrite !insert_insert_eq. by apply (resting_goes nm s (kids x)).
Qed.

Lemma leads_runs c s x y : rtc step x y -> leads_to c s y -> leads_to c s x.
Proof. intros S (z & R & ?). exists z. split; [by etrans|done]. Qed.

Lemma stop_wait_leads w fuel i nm t0 t s x :
  carried_out w -> well x -> resting x -> caller x = Stopping nm t0 t ->
  stop_wait clock w fuel i nm t0 t (sup x) = Ret s ->
  leads_to Idle (update nm (set_state (with_status STOPPED)) s) x.
Proof.
  intros Hw. revert i x. induction fuel as [|fuel IH]; intros i x W R C H; [done|]. cbn [stop_wait] in H.
  apply bind_Ret_inv in H as (e & He & H). apply entry_inv in He. cbv beta iota zeta in H.
  assert (Hend : forall s, leads_to Idle (update nm (set_state (with_status STOPPED)) s) (stop_ends nm s x))
    by (intros s0; by apply (leads_here (stop_ends nm s0 x))).
  case_decide as Hs.
  - destruct (Z.ltb_spec t (ms (clock (reads (sup x)) - t0))); simplify_eq.
    + eapply leads_caller; [by eapply call_stop_kills|]. apply Hend.
    + eapply leads_caller; [by eapply call_stop_waits|]. set (x1 := with_sup _ _).
      assert (W1 : well x1) by (eapply caller_step_well; [exact W|by eapply call_stop_waits]).
      destruct (sleep_runs _ Hw i x1) as (y & Sy & E & Cy & Ry); [done|done|].
      apply (leads_runs _ _ _ _ Sy). apply (IH (S i)); [by eapply rtc_well|done|by rewrite Cy|].
      rewrite E. exact H.
  - simplify_eq. eapply leads_caller; [by eapply call_stop_sees|]. apply Hend.
Qed.

Lemma stop_leads w fuel nm t b s x :
  carried_out w -> well x -> resting x -> caller x = Idle ->
  stop clock w fuel false nm t (sup x) = Ret (b, s) -> leads_to Idle s x.
Proof.
  intros Hw W R C H. unfold stop in H. destruct (processes_ (sup x) !! nm) as [e|] eqn:He.
  2: { simplify_eq. rewrite <- C. by apply leads_here. }
  case_bool_decide as Hs; cbn [negb] in H.
  2: { simplify_eq. rewrite <- C. by apply leads_here. }
  apply bind_Ret_inv in H as (s1 & H & E). simplify_eq.
  assert (S : caller_step x (stop_begins nm t e x)) by by apply call_stop.
  eapply leads_caller; [exact S|]. eapply stop_wait_leads; [done|by eapply caller_step_well|done|done|exact H].
Qed.

(** [fork] does not give the pid of a child in the kernel's table that was not
    waited for. *)
Definition forks_anew (x : system) : Prop :=
  forall p, fork_result (length (children (sup x))) = Some p -> ~ unreaped (kids x !! p).

Lemma start_leads w nm b s x :
  forks_anew x -> carried_out w -> well x -> resting x -> caller x = Idle ->
  start clock fork_result fork_error w false nm (sup x) = Ret (b, s) -> leads_to Idle s x.
Proof.
  intros F Hw W R C H. unfold start in H. destruct (processes_ (sup x) !! nm) as [e|] eqn:He.
  2: { simplify_eq. rewrite <- C. by apply leads_here. }
  case_decide as Hs. { simplify_eq. rewrite <- C. by apply leads_here. }
  unfold spawn_process in H. apply bind_Ret_inv in H as ([r s1] & Hf & H). destruct r as [p|].
  2: { simplify_eq. eapply leads_caller; [by eapply call_start_fails|].
       exists (with_sup s x). by split_and!; [apply rtc_refl| | |]. }
  assert (Hp : ~ unreaped (kids x !! p)).
  { apply F. by apply fork_child_spec in Hf as (_ & _ & _ & E & _). }
  set (x1 := mkSystem s1 (<[p := Alive]> (kids x)) (monitors x) (Joining nm p) (watching x)).
  assert (S : caller_step x x1) by by eapply call_start.
  eapply leads_caller; [exact S|]. assert (W1 : well x1) by by eapply caller_step_well.
  apply bind_Ret_inv in H as (s2 & Hj & H). unfold join_monitor in Hj.
  apply bind_Ret_inv in Hj as (e1 & He1 & Hj). apply entry_inv in He1.
  pose proof (c_thread _ (proj1 W1) nm e1 He1) as T.
  assert (Hend : forall y sn, rtc step x1 y -> caller y = Joining nm p -> resting y -> monitors y !! nm = None ->
    sup y = sn -> new_monitor clock true nm p sn = Ret (b, s) -> leads_to Idle s x1).
  { intros y sn Sy Cy Ry My <- Hn. apply (leads_runs _ _ _ _ Sy).
    eapply leads_caller; [by eapply call_joined|]. eexists. split; [apply rtc_refl|]. split_and!; [done|done|].
    by apply resting_goes. }
  assert (Hn : forall a, new_monitor clock true nm p (update nm (set_monitor NoThread) a) = new_monitor clock true nm p a)
    by (intros a; unfold new_monitor; by rewrite update_update).
  assert (Hq : monitor_thread e1 <> Active -> monitors x1 !! nm = None)
    by (intros Ha; apply eq_None_not_Some; tauto).
  destruct (monitor_thread e1); [simplify_eq; apply (Hend x1 s2); try done; by apply Hq| |].
  - rewrite decide_False in Hj by done. destruct (until_monitor_ends w nm s1) as [sn|] eqn:Eu; [|done]. simplify_eq.
    destruct (end_runs _ Hw nm x1 sn) as (y & Sy & Ey & Cy & Ry & My); [done|done|done|].
    apply (Hend y sn); try done. by rewrite <- Hn.
  - simplify_eq. apply (Hend x1 s1); try done; [by apply Hq|by rewrite <- Hn].
Qed.

(** *** The watchdog's pass *)

(** What [waitpid] reports to the pass, process by process: [reaped] of those
    that are running, in the supervisor [s]. *)
Fixpoint watched (reaped : Z -> option Z) (names : list string) (s : supervisor) (ks : gmap Z kid) : Prop :=
  match names with
  | [] => True
  | nm :: names =>
      match processes_ s !! nm with
      | Some e =>
          if decide (status (state e) = RUNNING /\ 0 < pid (state e))
          then (waitpid (pid (state e)) ks).1 = reaped (pid (state e)) /\
               watched reaped names s (waitpid (pid (state e)) ks).2
          else watched reaped names s ks
      | None => True
      end
  end.

(** The exit code the watchdog records is 0: there is no restart. *)
Lemma watchdog_note nm st s again s' :
  note_exit clock true nm (WEXITSTATUS st) s = Ret (again, s') -> again = false.
Proof.
  unfold note_exit. rewrite entry_update. unfold entry. destruct (processes_ s !! nm) as [e|]; [|done].
  cbn [fmap outcome_fmap mbind outcome_bind].
  change (exit_code (state _)) with (WEXITSTATUS (WEXITSTATUS st)).
  rewrite WEXITSTATUS_small by apply WEXITSTATUS_range.
  rewrite (bool_decide_eq_true_2 (0 = 0)) by done. cbn [negb andb].
  intros H. apply bind_Ret_inv in H as (s1 & _ & H). by simplify_eq.
Qed.

Lemma waitpid_none p ks : (waitpid p ks).1 = None -> (waitpid p ks).2 = ks.
Proof. unfold waitpid. by repeat case_match. Qed.

Lemma watch_leads w reaped names s0 s : forall x,
  NoDup names -> (forall n, n ∈ names -> processes_ (sup x) !! n = processes_ s0 !! n) ->
  watched reaped names s0 (kids x) -> resting x -> caller x = Watching names ->
  watchdog_each clock fork_result fork_error w reaped names (sup x) = Ret s -> leads_to Idle s x.
Proof.
  induction names as [|nm names IH]; intros x Hd Hin Hk R C H.
  { cbn in H. simplify_eq. eapply leads_caller; [by apply watch_ends|]. by apply (leads_here (with_caller Idle x)). }
  pose proof (NoDup_cons_1_1 _ _ Hd) as Hn. apply NoDup_cons_1_2 in Hd.
  cbn [watchdog_each] in H. apply bind_Ret_inv in H as (e & He & H). apply entry_inv in He.
  cbn [watched] in Hk. rewrite <- (Hin nm), He in Hk by left.
  apply bind_Ret_inv in H as (s1 & Hone & H).
  assert (Hrest : forall n, n ∈ names -> processes_ (sup x) !! n = processes_ s0 !! n) by (intros; apply Hin; by right).
  assert (Hskip : (status (state e) <> RUNNING \/ pid (state e) <= 0 \/ (waitpid (pid (state e)) (kids x)).1 = None) ->
            s1 = sup x -> watched reaped names s0 (kids x) -> leads_to Idle s x).
  { intros Hs -> Hk'. eapply leads_caller; [by apply (watch_skips _ nm names e)|]. by apply IH. }
  destruct (bool_decide (status (state e) = RUNNING) && (0 <? pid (state e))) eqn:Eb.
  - apply andb_prop in Eb as [Es%bool_decide_eq_true Ep%Z.ltb_lt]. rewrite decide_True in Hk by done.
    destruct Hk as [Er Hk]. rewrite <- Er in Hone.
    destruct (waitpid (pid (state e)) (kids x)) as [[st|] ks] eqn:Ew; cbn [fst snd] in *.
    + unfold handle_exit in Hone. apply bind_Ret_inv in Hone as ([again s2] & Hnote & Hone).
      pose proof (watchdog_note _ _ _ _ _ Hnote) as ->. simplify_eq.
      eapply leads_caller; [by eapply (watch_reaps x nm names e st ks s1)|]. apply IH; try done.
      intros n Hi. cbn. apply note_exit_spec in Hnote as (e1 & e' & W & _). rewrite (rw_to _ _ _ _ _ W).
      rewrite lookup_insert_ne by (intros ->; done). by apply Hrest.
    + simplify_eq. apply Hskip; [by right; right|done|].
      pose proof (waitpid_none (pid (state e)) (kids x)) as E. rewrite Ew in E. by rewrite <- (E eq_refl).
  - simplify_eq. rewrite decide_False in Hk; [|intros [E1 E2]; by rewrite bool_decide_true, (proj2 (Z.ltb_lt _ _) E2) in Eb].
    apply Hskip; [|done|done]. destruct (decide (status (state e) = RUNNING)) as [E1|E1]; [|by left].
    rewrite bool_decide_true in Eb by done. apply Z.ltb_ge in Eb. by right; left.
Qed.

(** The kernel and the watchdog's thread are as the operation takes them:
    [waitpid] answers a monitor and the watchdog what the kernel's table says,
    [fork] gives an unused pid, a watchdog is started when none is left, and
    passes when there is one. *)
Definition answered (o : op) (x : system) : Prop :=
  match o with
  | OpStart _ => forks_anew x
  | OpRestart _ => forall y, rtc step x y -> forks_anew y
  | OpMonitor nm r _ => forall e, processes_ (sup x) !! nm = Some e -> (waitpid (pid (state e)) (kids x)).1 = r
  | OpStartWatchdog => watching x = watchdog_running_ (sup x)
  | OpWatchdog reaped => watching x = true /\ watched reaped (map_to_list (processes_ (sup x))).*1 (sup x) (kids x)
  | _ => True
  end.


End Threads.

(** ** Witnesses *)

Lemma demo_positive : positive_pids demo_fork.
Proof. intros i p. unfold demo_fork. intros [= <-]. lia. Qed.

(** The process is running under its monitor. *)
Definition demo_up : system :=
  mkSystem (demo_running ALWAYS 300) {[100 := Alive]} {["web" := AtTest]} Idle false.

Definition demo_step := step demo_clock demo_fork "".

Lemma demo_up_reachable : reachable demo_clock demo_fork "" demo_up.
Proof.
  eapply rtc_l; [apply by_caller; by apply (call_add _ _ _ _ (demo_config ALWAYS 300))|].
  eapply rtc_l; [apply by_caller; eapply (call_start _ _ _ _ "web"); [done|reflexivity|done|reflexivity|by intros []]|].
  eapply rtc_l; [apply by_caller; eapply (call_joined _ _ _ _ "web"); [done|reflexivity|reflexivity]|].
  by apply rtc_refl.
Qed.


Lemma only_web {A} (m : gmap string A) n a : (map_to_list m).*1 = ["web"] -> m !! n = Some a -> n = "web".
Proof.
  intros Hm Hn%elem_of_map_to_list.
  assert (Hi : n ∈ (map_to_list m).*1) by (apply list_elem_of_fmap; by exists (n, a)).
  rewrite Hm in Hi. by apply list_elem_of_singleton in Hi.
Qed.

Lemma demo_apart : apart "web" 100 demo_up.
Proof. intros n e Hn He. destruct Hn. by apply (only_web (processes_ (sup demo_up)) n e eq_refl). Qed.

(** [stop] with a limit of 1.5 seconds; the process exits at [SIGTERM], and
    [stop] reads the clock three times. *)
Lemma stop_never_sees_exit_witness :
  exists y, rtc (while_stopping demo_clock demo_fork "" "web")
              (stop_begins demo_clock "web" 1500 (demo_entry ALWAYS 300) demo_up) y /\
  caller y = Idle /\ unreaped (kids y !! 100).
Proof.
  set (x := stop_begins _ _ _ _ _).
  assert (H : exists y, rtc (while_stopping demo_clock demo_fork "" "web") x y /\ caller y = Idle).
  { eexists. split.
    - eapply rtc_l; [split; [by eexists _, _|apply by_none; by apply (free_exit _ 100 (exited 0))]|].
      eapply rtc_l; [split; [by eexists _, _|apply (by_monitor _ _ _ _ _ "web"); eapply test_ends; by vm_compute]|].
      eapply rtc_l; [split; [by eexists _, _|apply by_caller; eapply call_stop_waits; [vm_compute; reflexivity..|by vm_compute]]|].
      eapply rtc_l; [split; [by eexists _, _|apply by_caller; eapply call_stop_kills; [vm_compute; reflexivity..|by vm_compute]]|].
      apply rtc_refl.
    - done. }
  destruct H as (y & S & C). exists y. split_and!; [done|done|].
  exact (proj2 (proj2 (proj2 (stop_never_sees_exit demo_clock demo_fork "" demo_up "web" 1500 (demo_entry ALWAYS 300) y
    eq_refl (demo_running_entry _ _) eq_refl Logic.I demo_apart (or_intror eq_refl) S C)))).
Defined.

(** After a [stop] that took less than the monitor's sleep. *)
Definition demo_down : system :=
  let x := stop_begins demo_clock "web" 0 (demo_entry ALWAYS 300) demo_up in
  stop_ends "web" (kill 100 SIGKILL (tick (sup x))) x.

Lemma demo_down_apart : apart "web" 101 demo_down.
Proof. intros n e Hn He. destruct Hn. by apply (only_web (processes_ (sup demo_down)) n e eq_refl). Qed.

(** A second [start]: the old monitor wakes up, watches the new process until
    it exits with status 0, and ends; then [start] returns. *)
Lemma start_waits_for_its_process_witness :
  exists y e', caller y = Idle /\ processes_ (sup y) !! "web" = Some e' /\
  kids y !! 101 = Some Reaped /\ running e' = false /\ status (state e') <> RUNNING.
Proof.
  destruct (fork_child demo_clock demo_fork "" "web" (sup demo_down)) as [[[p|] s]| | |] eqn:F;
    try (vm_compute in F; discriminate).
  assert (p = 101) as -> by (vm_compute in F; congruence).
  set (x := mkSystem s (<[101 := Alive]> (kids demo_down)) (monitors demo_down) (Joining "web" 101) false).
  assert (H : exists y, rtc (while_joining demo_clock demo_fork "" "web") x y /\ caller y = Idle /\
                        signals (sup y) = [(100, SIGTERM); (100, SIGKILL)]).
  { vm_compute in F. injection F as <-. eexists. split.
    - eapply rtc_l; [split; [by eexists|apply (by_monitor _ _ _ _ _ "web"); eapply test_passes; by vm_compute]|].
      eapply rtc_l; [split; [by eexists|apply by_none; by apply (free_exit _ 101 (exited 0))]|].
      eapply rtc_l; [split; [by eexists|apply (by_monitor _ _ _ _ _ "web"); eapply wait_reaps; by vm_compute]|].
      eapply rtc_l; [split; [by eexists|apply (by_monitor _ _ _ _ _ "web"); eapply exit_final; by vm_compute]|].
      eapply rtc_l; [split; [by eexists|apply by_caller; eapply (call_joined _ _ _ _ "web"); by vm_compute]|].
      apply rtc_refl.
    - by split. }
  destruct H as (y & S & C & K). exists y.
  destruct (start_waits_for_its_process demo_clock demo_fork "" demo_down "web"
    (set_state (with_status STOPPED) (set_running false (demo_entry ALWAYS 300))) 101 s y
    eq_refl eq_refl ltac:(discriminate) eq_refl F demo_down_apart S C) as (e' & E1 & [E2|(_ & E2 & _)]).
  - by exists e'.
  - rewrite K in E2. set_solver.
Defined.

Lemma demo_carried_out : carried_out demo_clock demo_fork "" demo_others.
Proof. split; [|done]. intros i x _ R. by apply leads_here. Qed.


End Threads.
