(* ===== verification/Health.v ===== *)
(** * Health checks: [sandbox/src/health_monitor.cpp]

    The registered checks and their last statuses, and the loop of the
    monitor's thread with the mutex it takes.  A [std::map] is a [gmap]; where
    the code walks one it does so in the order of the keys. *)

From stdpp Require Import base strings gmap list numbers sorting.
From Stdlib Require Import ZArith Lia.
From S2P Require Import Prelude Text.

Module Health.

Record HealthStatus := mkStatus {
  id : string;
  healthy : bool;
  message : string;
  last_check : Z
}.

(** A check: what it answers and the message it sets, the [n]-th time it is
    called, and whether it calls an operation of the monitor that locks. *)
Record HealthCheckFn := mkCheck { answer : nat -> bool * string; check_locks : bool }.

(** [mutex_owned]: the monitor's thread owns [mutex_]. *)
Record HealthMonitor := mkMonitor {
  checks_ : gmap string HealthCheckFn;
  statuses_ : gmap string HealthStatus;
  interval_ms_ : Z;               (**r uint32_t *)
  running_ : bool;
  mutex_owned : bool
}.

Definition new_monitor : HealthMonitor := mkMonitor ∅ ∅ 5000 false false.

Definition set_statuses (st : gmap string HealthStatus) (m : HealthMonitor) : HealthMonitor :=
  mkMonitor (checks_ m) st (interval_ms_ m) (running_ m) (mutex_owned m).
Definition set_running (b : bool) (m : HealthMonitor) : HealthMonitor :=
  mkMonitor (checks_ m) (statuses_ m) (interval_ms_ m) b (mutex_owned m).
Definition set_owned (b : bool) (m : HealthMonitor) : HealthMonitor :=
  mkMonitor (checks_ m) (statuses_ m) (interval_ms_ m) (running_ m) b.

Definition register_check (nm : string) (fn : HealthCheckFn) (now : Z) (m : HealthMonitor) : HealthMonitor :=
  mkMonitor (<[nm := fn]> (checks_ m)) (<[nm := mkStatus nm true "pending" now]> (statuses_ m))
    (interval_ms_ m) (running_ m) (mutex_owned m).

Definition set_interval_ms (ms : Z) (m : HealthMonitor) : HealthMonitor :=
  mkMonitor (checks_ m) (statuses_ m) ms (running_ m) (mutex_owned m).

(** [start]: whether a thread is created. *)
Definition start (m : HealthMonitor) : bool * HealthMonitor :=
  if running_ m then (false, m) else (true, set_running true m).

Definition stop (m : HealthMonitor) : HealthMonitor := set_running false m.

Definition get_all (m : HealthMonitor) : list HealthStatus :=
  omap (fun nm => statuses_ m !! nm) (sorted_keys (statuses_ m)).

Definition is_healthy (nm : string) (m : HealthMonitor) : bool :=
  match statuses_ m !! nm with Some st => healthy st | None => false end.

Fixpoint count_unhealthy (l : list (string * HealthStatus)) (count : Z) : Z :=
  match l with
  | [] => count
  | (_, st) :: l => count_unhealthy l (if healthy st then count else count + 1)
  end.

Definition unhealthy_count (m : HealthMonitor) : Z := count_unhealthy (map_to_list (statuses_ m)) 0.

(** [std::mutex]. *)
Definition lock (m : HealthMonitor) : outcome HealthMonitor :=
  if mutex_owned m then Undefined Relock else Ret (set_owned true m).
Definition unlock (m : HealthMonitor) : outcome HealthMonitor :=
  if mutex_owned m then Ret (set_owned false m) else Undefined UnlockNotOwned.

(** What a check's answer is recorded as. *)
Definition status_of (nm : string) (r : bool * string) (now : Z) : HealthStatus :=
  let '(ok, msg) := r in
  mkStatus nm ok (if bool_decide (msg = "") then (if ok then "ok" else "unhealthy") else msg) now.

(** The checks of the [turn]-th turn, in the order of the map. *)
Fixpoint run_checks (turn : nat) (now : Z) (names : list string) (m : HealthMonitor) : outcome HealthMonitor :=
  match names with
  | [] => Ret m
  | nm :: names =>
      match checks_ m !! nm with
      | None => run_checks turn now names m
      | Some fn =>
          if check_locks fn && mutex_owned m then Undefined Relock
          else run_checks turn now names
                 (set_statuses (<[nm := status_of nm (answer fn turn) now]> (statuses_ m)) m)
      end
  end.

(** One turn of [monitor_loop]; [sleep] is what other threads do meanwhile.
    The [lock_guard] is destroyed twice: explicitly, and at the end of the
    loop's body. *)
Definition loop_turn (turn : nat) (now : Z) (sleep : HealthMonitor -> HealthMonitor) (m : HealthMonitor)
  : outcome HealthMonitor :=
  m ← lock m;
  m ← run_checks turn now (sorted_keys (checks_ m)) m;
  m ← unlock m;
  unlock (sleep m).

Fixpoint monitor_loop (fuel turn : nat) (clock : nat -> Z) (sleep : HealthMonitor -> HealthMonitor)
    (m : HealthMonitor) : outcome HealthMonitor :=
  match fuel with
  | O => NoFuel
  | S fuel =>
      if running_ m then
        m ← loop_turn turn (clock turn) sleep m;
        monitor_loop fuel (S turn) clock sleep m
      else Ret m
  end.

(** ** Lemmas *)

(** No check locks the monitor. *)
Definition no_locking (m : HealthMonitor) : Prop :=
  forall nm fn, checks_ m !! nm = Some fn -> check_locks fn = false.

Lemma run_checks_spec turn now names m :
  no_locking m ->
  exists m', run_checks turn now names m = Ret m' /\
  checks_ m' = checks_ m /\ mutex_owned m' = mutex_owned m /\ running_ m' = running_ m /\
  interval_ms_ m' = interval_ms_ m /\
  forall nm, statuses_ m' !! nm =
    match checks_ m !! nm with
    | Some fn => if decide (nm ∈ names) then Some (status_of nm (answer fn turn) now) else statuses_ m !! nm
    | None => statuses_ m !! nm
    end.
Proof.
  intros Hl. revert m Hl. induction names as [|n names IH]; intros m Hl; cbn [run_checks].
  - exists m. repeat split. intros nm. destruct (checks_ m !! nm); [|done].
    by rewrite decide_False by apply not_elem_of_nil.
  - destruct (checks_ m !! n) as [fn|] eqn:En.
    + rewrite (Hl _ _ En). cbn [andb].
      edestruct (IH (set_statuses (<[n := status_of n (answer fn turn) now]> (statuses_ m)) m))
        as (m' & E & E1 & E2 & E3 & E4 & E5); [exact Hl|].
      exists m'. repeat split; try done. intros nm. rewrite E5. cbn [checks_ set_statuses statuses_].
      destruct (decide (nm = n)) as [->|Hne].
      * rewrite En. rewrite (decide_True (P := n ∈ n :: names)) by by left.
        case_decide; [done|]. by rewrite lookup_insert_eq.
      * rewrite lookup_insert_ne by done. destruct (checks_ m !! nm); [|done].
        destruct (decide (nm ∈ names)), (decide (nm ∈ n :: names)) as [X|X]; try done;
          rewrite elem_of_cons in X; tauto.
    + destruct (IH m Hl) as (m' & E & E1 & E2 & E3 & E4 & E5). exists m'. repeat split; try done.
      intros nm. rewrite E5. destruct (checks_ m !! nm) as [fn|] eqn:Enm; [|done].
      assert (nm <> n) by congruence.
      destruct (decide (nm ∈ names)), (decide (nm ∈ n :: names)) as [X|X]; try done;
        rewrite elem_of_cons in X; tauto.
Qed.

Lemma run_checks_owned turn now names m :
  run_checks turn now names m = Undefined Relock \/
  exists m', run_checks turn now names m = Ret m' /\ mutex_owned m' = mutex_owned m.
Proof.
  revert m. induction names as [|n names IH]; intros m; cbn [run_checks]; [right; by exists m|].
  destruct (checks_ m !! n) as [fn|]; [|apply IH]. destruct (check_locks fn && mutex_owned m); [by left|].
  apply (IH (set_statuses _ m)).
Qed.

(** [get_all] lists the statuses of the sorted keys. *)
Lemma omap_ids (st : gmap string HealthStatus) (names : list string) :
  (forall nm s, st !! nm = Some s -> id s = nm) -> (forall nm, nm ∈ names -> is_Some (st !! nm)) ->
  id <$> omap (fun nm => st !! nm) names = names.
Proof.
  intros Hid. induction names as [|nm names IH]; intros H; [done|]. cbn.
  destruct (H nm) as [s Hs]; [left|]. rewrite Hs. cbn. rewrite (Hid _ _ Hs). f_equal.
  apply IH. intros n Hn. apply H. by right.
Qed.

Lemma omap_map_to_list (st : gmap string HealthStatus) (l : list (string * HealthStatus)) :
  (forall p, p ∈ l -> st !! p.1 = Some p.2) -> omap (fun nm => st !! nm) l.*1 = l.*2.
Proof.
  induction l as [|[nm s] l IH]; intros H; [done|]. cbn.
  pose proof (H (nm, s) ltac:(left)) as E. cbn in E. rewrite E. cbn. f_equal. apply IH. intros p Hp. apply H. by right.
Qed.

Lemma get_all_perm m : get_all m ≡ₚ (map_to_list (statuses_ m)).*2.
Proof.
  unfold get_all, sorted_keys. rewrite merge_sort_Permutation. rewrite omap_map_to_list; [done|].
  intros [nm s] Hp. by apply elem_of_map_to_list in Hp.
Qed.

Lemma count_unhealthy_spec (l : list (string * HealthStatus)) n :
  count_unhealthy l n = n + Z.of_nat (length (filter (fun st => healthy st = false) l.*2)).
Proof.
  revert n. induction l as [|[nm st] l IH]; intros n; [cbn; lia|]. cbn [count_unhealthy fmap list_fmap].
  rewrite IH, filter_cons. cbn [snd]. destruct (healthy st).
  - by rewrite decide_False.
  - rewrite decide_True by done. cbn [length]. lia.
Qed.

(** ** Properties *)

(** One pass over the checks.  After it every registered check has a
    status made of its answer (["ok"] or ["unhealthy"] when it left no
    message) and the time of the pass; statuses of unregistered ids and
    everything else are unchanged. *)
Theorem check_pass_correct (turn : nat) (now : Z) (m : HealthMonitor) (Hl : no_locking m) :
  exists m', run_checks turn now (sorted_keys (checks_ m)) m = Ret m' /\
  checks_ m' = checks_ m /\ mutex_owned m' = mutex_owned m /\ running_ m' = running_ m /\
  forall nm, statuses_ m' !! nm =
    match checks_ m !! nm with
    | Some fn =>
        let '(ok, msg) := answer fn turn in
        Some (mkStatus nm ok (if decide (msg = "") then (if ok then "ok" else "unhealthy") else msg) now)
    | None => statuses_ m !! nm
    end.
Proof.
  destruct (run_checks_spec turn now (sorted_keys (checks_ m)) m Hl) as (m' & E & E1 & E2 & E3 & _ & E5).
  exists m'. repeat split; try done. intros nm. rewrite E5.
  destruct (checks_ m !! nm) as [fn|] eqn:En; [|done].
  rewrite decide_True by (apply sorted_keys_elem; by exists fn).
  unfold status_of. destruct (answer fn turn) as [ok msg]. repeat case_decide; by case_bool_decide.
Qed.

(** The health monitor's thread never survives its first turn.
    [monitor_loop] destroys its [lock_guard] by hand before sleeping and again
    at the end of the body, so the first turn unlocks a mutex that is not
    locked (or, when a check queries the monitor, deadlocks before that). *)
Theorem monitor_loop_double_unlock (fuel : nat) clock sleep (m : HealthMonitor)
    (Hr : running_ m = true) (Ho : mutex_owned m = false)
    (Hsleep : forall m, mutex_owned (sleep m) = mutex_owned m) :
  exists f, monitor_loop (S fuel) 0 clock sleep m = Undefined f /\
            (f = UnlockNotOwned \/ f = Relock) /\ (no_locking m -> f = UnlockNotOwned).
Proof.
  cbn [monitor_loop]. rewrite Hr. unfold loop_turn, lock. rewrite Ho. cbn [mbind outcome_bind].
  set (r := run_checks _ _ _ _).
  assert (U : forall m', mutex_owned m' = true ->
    (unlock m' ≫= fun m'' => unlock (sleep m'')) = Undefined UnlockNotOwned).
  { intros m' H. unfold unlock. rewrite H. cbn [mbind outcome_bind]. by rewrite Hsleep. }
  destruct (run_checks_owned 0 (clock 0%nat) (sorted_keys (checks_ (set_owned true m))) (set_owned true m))
    as [E|(m' & E & Em)]; fold r in E; rewrite E; cbn [mbind outcome_bind].
  - exists Relock. split; [done|]. split; [by right|]. intros Hl.
    destruct (run_checks_spec 0 (clock 0%nat) (sorted_keys (checks_ m)) (set_owned true m) Hl) as (m' & E' & _).
    change (r = Ret m') in E'. congruence.
  - exists UnlockNotOwned. cbn in U. rewrite (U m' Em). cbn. split; [done|]. split; [by left|done].
Qed.

(** What the queries answer.  [get_all] lists every status once, in the
    order of the ids; [is_healthy] and [unhealthy_count] agree with it. *)
Theorem queries_agree (m : HealthMonitor)
    (Hid : forall nm st, statuses_ m !! nm = Some st -> id st = nm) :
  Sorted String.le (id <$> get_all m) /\ NoDup (id <$> get_all m) /\
  (forall st, st ∈ get_all m <-> statuses_ m !! id st = Some st) /\
  (forall nm, is_healthy nm m = true <-> exists st, st ∈ get_all m /\ id st = nm /\ healthy st = true) /\
  unhealthy_count m = Z.of_nat (length (filter (fun st => healthy st = false) (get_all m))).
Proof.
  assert (E : id <$> get_all m = sorted_keys (statuses_ m)).
  { apply omap_ids; [exact Hid|]. intros nm. by apply sorted_keys_elem. }
  assert (Hin : forall st, st ∈ get_all m <-> statuses_ m !! id st = Some st).
  { intros st. rewrite get_all_perm, list_elem_of_fmap. split.
    - intros ([nm s] & -> & H). apply elem_of_map_to_list in H. cbn. by rewrite (Hid _ _ H).
    - intros H. exists (id st, st). split; [done|]. by apply elem_of_map_to_list. }
  rewrite E. split; [apply (Sorted_merge_sort String.le)|]. split; [apply NoDup_sorted_keys|].
  split; [exact Hin|]. split.
  - intros nm. unfold is_healthy. split.
    + destruct (statuses_ m !! nm) as [st|] eqn:En; [|done]. intros Hh. exists st.
      rewrite Hin, (Hid _ _ En). done.
    + intros (st & Hst & <- & Hh). apply Hin in Hst. by rewrite Hst.
  - unfold unhealthy_count. rewrite count_unhealthy_spec, Z.add_0_l. f_equal. apply Permutation_length.
    by rewrite <- get_all_perm.
Qed.

(** ** Witnesses *)

Definition demo_check (ok : bool) (msg : string) : HealthCheckFn := mkCheck (fun _ => (ok, msg)) false.
Definition demo_monitor : HealthMonitor :=
  (start (register_check "redis" (demo_check true "") 1
         (register_check "disk" (demo_check false "full") 2 new_monitor))).2.

Lemma demo_no_locking : no_locking demo_monitor.
Proof.
  intros nm fn H. unfold demo_monitor, new_monitor in H. cbn in H.
  rewrite !lookup_insert_Some, lookup_empty in H.
  repeat (destruct H as [[<- <-]|[_ H]]; [done|]). done.
Qed.

Lemma check_pass_correct_witness :
  exists m', run_checks 0 7 (sorted_keys (checks_ demo_monitor)) demo_monitor = Ret m' /\
  statuses_ m' !! "redis" = Some (mkStatus "redis" true "ok" 7) /\
  statuses_ m' !! "disk" = Some (mkStatus "disk" false "full" 7).
Proof.
  destruct (check_pass_correct 0 7 demo_monitor demo_no_locking) as (m' & E & _ & _ & _ & H).
  exists m'. split; [exact E|]. rewrite !H. split; reflexivity.
Defined.

Lemma monitor_loop_double_unlock_witness :
  exists f, monitor_loop 1 0 (fun _ => 7) (fun m => m) demo_monitor = Undefined f /\ f = UnlockNotOwned.
Proof.
  destruct (monitor_loop_double_unlock 0 (fun _ => 7) (fun m => m) demo_monitor eq_refl eq_refl
    ltac:(reflexivity)) as (f & E & _ & H).
  exists f. split; [exact E|]. exact (H demo_no_locking).
Defined.

Lemma queries_agree_witness :
  id <$> get_all demo_monitor = ["disk"; "redis"] /\
  unhealthy_count demo_monitor = Z.of_nat (length (filter (fun st => healthy st = false) (get_all demo_monitor))).
Proof.
  split; [vm_compute; reflexivity|].
  apply queries_agree. intros nm st H. unfold demo_monitor, new_monitor in H. cbn in H.
  rewrite !lookup_insert_Some, lookup_empty in H.
  repeat (destruct H as [[<- <-]|[_ H]]; [done|]). done.
Defined.

End Health.
