(* ===== verification/Resource.v ===== *)
(** * Resource usage and limits: [sandbox/src/resource_monitor.cpp]

    Reading a process's usage from [/proc], the alerts, the bounded history
    and the manager.  The files of [/proc] are given as their lines ([None]:
    the file does not open); IEEE doubles are the Standard Library's
    [SpecFloat] (the uptime, which no operation looks at, is taken as read).
    Not modelled: the monitor thread's sleeps, the previous disk and network
    readings the class declares and never uses. *)

From stdpp Require Import base strings gmap list numbers.
From Stdlib Require Import ZArith Lia SpecFloat.
From S2P Require Import Prelude Text Bounded.

Module Resource.

Record ResourceLimits := mkLimits {
  limit_memory_bytes : Z;          (**r uint64_t *)
  limit_cpu_percent : Z;           (**r uint32_t *)
  limit_pids_max : Z;              (**r uint32_t *)
  limit_disk_bytes : Z;            (**r uint64_t, as below: nothing reads them *)
  limit_network_rx_bps : Z;
  limit_network_tx_bps : Z
}.

Record ResourceUsage := mkUsage {
  memory_bytes : Z;
  cpu_percent : Z;
  pids_current : Z;
  disk_read_bytes : Z;
  disk_write_bytes : Z;
  network_rx_bytes : Z;
  network_tx_bytes : Z;
  uptime_seconds : spec_float
}.

Definition no_usage : ResourceUsage := mkUsage 0 0 0 0 0 0 0 (S754_zero false).

Definition set_memory (n : Z) (u : ResourceUsage) : ResourceUsage :=
  mkUsage n (cpu_percent u) (pids_current u) (disk_read_bytes u) (disk_write_bytes u)
    (network_rx_bytes u) (network_tx_bytes u) (uptime_seconds u).
Definition set_cpu (n : Z) (u : ResourceUsage) : ResourceUsage :=
  mkUsage (memory_bytes u) n (pids_current u) (disk_read_bytes u) (disk_write_bytes u)
    (network_rx_bytes u) (network_tx_bytes u) (uptime_seconds u).
Definition set_pids (n : Z) (u : ResourceUsage) : ResourceUsage :=
  mkUsage (memory_bytes u) (cpu_percent u) n (disk_read_bytes u) (disk_write_bytes u)
    (network_rx_bytes u) (network_tx_bytes u) (uptime_seconds u).
Definition set_disk_read (n : Z) (u : ResourceUsage) : ResourceUsage :=
  mkUsage (memory_bytes u) (cpu_percent u) (pids_current u) n (disk_write_bytes u)
    (network_rx_bytes u) (network_tx_bytes u) (uptime_seconds u).
Definition set_disk_write (n : Z) (u : ResourceUsage) : ResourceUsage :=
  mkUsage (memory_bytes u) (cpu_percent u) (pids_current u) (disk_read_bytes u) n
    (network_rx_bytes u) (network_tx_bytes u) (uptime_seconds u).
Definition set_rest (up : option spec_float) (u : ResourceUsage) : ResourceUsage :=
  mkUsage (memory_bytes u) (cpu_percent u) (pids_current u) (disk_read_bytes u) (disk_write_bytes u) 0 0
    (default (uptime_seconds u) up).

Inductive Level := INFO | WARNING | CRITICAL.
#[global] Instance Level_eq_dec : EqDecision Level.
Proof. solve_decision. Defined.

(** A double. *)
Abbreviation double := spec_float.
Definition prec : Z := 53.
Definition emax : Z := 1024.

(** [static_cast<double>(n)], rounding to nearest. *)
Definition double_of (n : Z) : double := binary_normalize prec emax n 0 false.
Definition div (x y : double) : double := SFdiv prec emax x y.
(** [x > y]. *)
Definition gt (x y : double) : bool := SFltb y x.

(** The doubles nearest 0.9 and 0.75. *)
Definition d0_9 : double := S754_finite false 8106479329266893 (-53).
Definition d0_75 : double := S754_finite false 6755399441055744 (-53).

Record ResourceAlert := mkAlert {
  level : Level;
  resource : string;
  message : string;
  current_value : double;
  limit_value : double;
  timestamp : Z
}.

(** The files [read_usage] reads of a process. *)
Record proc_files := mkProc {
  status_file : option (list string);
  stat_file : option (list string);
  io_file : option (list string);
  uptime_file : option spec_float     (**r the number [>>] reads *)
}.

Record HistoryEntry := mkEntry { usage : ResourceUsage; at_ms : double }.

Record ResourceMonitor := mkMonitor {
  target_pid_ : Z;
  limits_ : ResourceLimits;
  running_ : bool;
  history_ : list HistoryEntry;
  alert_callback_ : bool;          (**r set *)
  prev_cpu_time_ : Z
}.

Definition new_monitor (pid : Z) (limits : ResourceLimits) : ResourceMonitor :=
  mkMonitor pid limits false [] false 0.

Definition set_prev (n : Z) (m : ResourceMonitor) : ResourceMonitor :=
  mkMonitor (target_pid_ m) (limits_ m) (running_ m) (history_ m) (alert_callback_ m) n.
Definition set_history (h : list HistoryEntry) (m : ResourceMonitor) : ResourceMonitor :=
  mkMonitor (target_pid_ m) (limits_ m) (running_ m) h (alert_callback_ m) (prev_cpu_time_ m).
Definition set_running (b : bool) (m : ResourceMonitor) : ResourceMonitor :=
  mkMonitor (target_pid_ m) (limits_ m) b (history_ m) (alert_callback_ m) (prev_cpu_time_ m).

(** [start]: false when it runs already. *)
Definition start (m : ResourceMonitor) : bool * ResourceMonitor :=
  if running_ m then (false, m) else (true, set_running true m).
Definition stop (m : ResourceMonitor) : bool * ResourceMonitor := (true, set_running false m).

Definition on_alert (m : ResourceMonitor) : ResourceMonitor :=
  mkMonitor (target_pid_ m) (limits_ m) (running_ m) (history_ m) true (prev_cpu_time_ m).

Definition set_limit (l : ResourceLimits) (m : ResourceMonitor) : bool * ResourceMonitor :=
  (true, mkMonitor (target_pid_ m) l (running_ m) (history_ m) (alert_callback_ m) (prev_cpu_time_ m)).

(** ** Reading [/proc] *)

(** [std::istringstream(s) >> n] for a [uint32_t n]. *)
Definition extract_u32 (old : Z) (s : string) : Z :=
  match skip_space s with
  | EmptyString => old
  | s =>
      let '(neg, s1) := read_sign s in
      if starts_with_digit s1 then
        let '(v, _) := read_digits 0 s1 in
        if decide (2 ^ 32 <= v) then 2 ^ 32 - 1 else if neg then u32 (- v) else v
      else 0
  end.

(** [line.substr(0, n) == pat] and [line.substr(n)]. *)
Definition has_prefix (n : nat) (pat line : string) : bool := bool_decide (String.substring 0 n line = pat).
Definition after (n : nat) (line : string) : string := String.substring n (String.length line - n) line.

Fixpoint read_status (lines : list string) (u : ResourceUsage) : ResourceUsage :=
  match lines with
  | [] => u
  | l :: lines =>
      if has_prefix 6 "VmRSS:" l then
        read_status lines (set_memory (u64 (extract_into (memory_bytes u) (after 6 l) * 1024)) u)
      else if has_prefix 4 "Threads:" l then
        read_status lines (set_pids (extract_u32 (pids_current u) (after 4 l)) u)
      else read_status lines u
  end.

Fixpoint read_io (lines : list string) (u : ResourceUsage) : ResourceUsage :=
  match lines with
  | [] => u
  | l :: lines =>
      if has_prefix 11 "read_bytes:" l then
        read_io lines (set_disk_read (extract_into (disk_read_bytes u) (after 11 l)) u)
      else if has_prefix 12 "write_bytes:" l then
        read_io lines (set_disk_write (extract_into (disk_write_bytes u) (after 12 l)) u)
      else read_io lines u
  end.

(** [iss >> token]: what is left, [None] once the stream has failed. *)
Fixpoint skip_word (s : string) : string :=
  match s with
  | String c s' => if is_space c then s else skip_word s'
  | EmptyString => s
  end.

Definition skip_token (s : option string) : option string :=
  match s with
  | Some s => match skip_space s with EmptyString => None | s' => Some (skip_word s') end
  | None => None
  end.

Fixpoint skip_tokens (n : nat) (s : option string) : option string :=
  match n with O => s | S n => skip_tokens n (skip_token s) end.

(** [iss >> n]: nothing is stored when the stream has failed before. *)
Definition extract_next (s : option string) (n : Z) : Z * option string :=
  match s with Some s => extract_u64 s | None => (n, None) end.

(** [utime + stime] of the line of [/proc/<pid>/stat]. *)
Definition total_time (line : string) : Z :=
  let s := skip_tokens 13 (Some line) in
  let '(utime, s) := extract_next s 0 in
  let '(stime, _) := extract_next s 0 in
  u64 (utime + stime).

Section Monitor.

(** [sysconf(_SC_CLK_TCK)]. *)
Context (clk_tck : Z).

(** [read_usage]: [prev_cpu_time_] is [mutable] and changes. *)
Definition read_usage (p : proc_files) (m : ResourceMonitor) : ResourceUsage * ResourceMonitor :=
  let u := match status_file p with Some lines => read_status lines no_usage | None => no_usage end in
  let '(u, m) :=
    match stat_file p with
    | Some lines =>
        let total := total_time (default "" (head lines)) in
        let delta := u64 (total - prev_cpu_time_ m) in
        (set_cpu (u32 (u64 (delta * 100) / clk_tck)) u, set_prev total m)
    | None => (u, m)
    end in
  let u := match io_file p with Some lines => read_io lines u | None => u end in
  (set_rest (uptime_file p) u, m).

Definition get_usage (p : proc_files) (m : ResourceMonitor) : ResourceUsage * ResourceMonitor :=
  read_usage p m.

(** [check_alerts]: the alerts handed to the callback. *)
Definition check_alerts (now : Z) (u : ResourceUsage) (m : ResourceMonitor) : list ResourceAlert :=
  let emit lv res msg cur lim :=
    if alert_callback_ m then [mkAlert lv res msg (double_of cur) (double_of lim) (u64 now)] else [] in
  let l := limits_ m in
  let mem_ratio := div (double_of (memory_bytes u)) (double_of (limit_memory_bytes l)) in
  (if gt mem_ratio d0_9 then
     emit CRITICAL "memory" "Memory usage critical" (memory_bytes u) (limit_memory_bytes l)
   else if gt mem_ratio d0_75 then
     emit WARNING "memory" "Memory usage high" (memory_bytes u) (limit_memory_bytes l)
   else []) ++
  (if limit_cpu_percent l <? cpu_percent u then
     emit WARNING "cpu" "CPU usage exceeded" (cpu_percent u) (limit_cpu_percent l) else []) ++
  (if limit_pids_max l <? pids_current u then
     emit CRITICAL "pids" "Process limit exceeded" (pids_current u) (limit_pids_max l) else []).

(** One turn of [monitor_loop]. *)
Definition monitor_turn (p : proc_files) (now : Z) (m : ResourceMonitor) : list ResourceAlert * ResourceMonitor :=
  let '(u, m) := read_usage p m in
  let h := history_ m ++ [mkEntry u (double_of now)] in
  let h := if decide (1000 < length h)%nat then tail h else h in
  let m := set_history h m in
  (check_alerts now u m, m).

Fixpoint monitor_turns (samples : list (proc_files * Z)) (m : ResourceMonitor) : ResourceMonitor :=
  match samples with
  | [] => m
  | (p, now) :: samples => monitor_turns samples (monitor_turn p now m).2
  end.

Definition get_history (last_n : nat) (m : ResourceMonitor) : list HistoryEntry :=
  let h := history_ m in
  copy_from (length h) (if decide (last_n < length h)%nat then (length h - last_n)%nat else O) h.

Definition is_over_limit (p : proc_files) (m : ResourceMonitor) : bool * ResourceMonitor :=
  let '(u, m) := read_usage p m in
  let l := limits_ m in
  ((limit_memory_bytes l <? memory_bytes u) || (limit_cpu_percent l <? cpu_percent u) ||
   (limit_pids_max l <? pids_current u), m).

Definition get_violations (p : proc_files) (m : ResourceMonitor) : list ResourceAlert * ResourceMonitor :=
  let '(u, m) := read_usage p m in
  let l := limits_ m in
  ((if limit_memory_bytes l <? memory_bytes u then
      [mkAlert CRITICAL "memory" "Memory limit exceeded" (double_of (memory_bytes u))
         (double_of (limit_memory_bytes l)) 0] else []) ++
   (if limit_cpu_percent l <? cpu_percent u then
      [mkAlert WARNING "cpu" "CPU limit exceeded" (double_of (cpu_percent u))
         (double_of (limit_cpu_percent l)) 0] else []), m).

(** ** The manager *)

Record ResourceManager := mkManager {
  monitors_ : gmap string ResourceMonitor;
  global_alert_callback_ : bool       (**r set *)
}.

Definition set_monitors (ms : gmap string ResourceMonitor) (r : ResourceManager) : ResourceManager :=
  mkManager ms (global_alert_callback_ r).

(** [ResourceManager::on_alert]. *)
Definition on_global_alert (r : ResourceManager) : ResourceManager := mkManager (monitors_ r) true.

(** The callback [add_monitor] gives a monitor: what reaches the global one. *)
Definition forward_alert (id : string) (a : ResourceAlert) (r : ResourceManager) : option (string * ResourceAlert) :=
  if global_alert_callback_ r then Some (id, a) else None.

(** [add_monitor]: a monitor already there is replaced (and stopped). *)
Definition add_monitor (id : string) (pid : Z) (limits : ResourceLimits) (r : ResourceManager)
  : bool * ResourceManager :=
  let '(ok, m) := start (on_alert (new_monitor pid limits)) in
  (ok, set_monitors (<[id := m]> (monitors_ r)) r).

Definition remove_monitor (id : string) (r : ResourceManager) : bool * ResourceManager :=
  match monitors_ r !! id with
  | None => (false, r)
  | Some _ => (true, set_monitors (delete id (monitors_ r)) r)
  end.

Definition get_monitor (id : string) (r : ResourceManager) : option ResourceMonitor := monitors_ r !! id.

Record SandboxUsage := mkSandboxUsage { sandbox_id : string; sandbox_usage : ResourceUsage; over_limit : bool }.

(** What [get_all_usage] and [get_global_stats] do with each monitor:
    [get_usage] and then [is_over_limit], which reads [/proc] again. *)
Definition usage_of (p1 p2 : proc_files) (id : string) (m : ResourceMonitor) : SandboxUsage * ResourceMonitor :=
  let '(u, m) := get_usage p1 m in
  let '(over, m) := is_over_limit p2 m in
  (mkSandboxUsage id u over, m).

(** The walk over the monitors, in any order; [proc1] and [proc2] are what
    [/proc] holds of a pid at the first and the second reading. *)
Fixpoint usage_each (proc1 proc2 : Z -> proc_files) (l : list (string * ResourceMonitor))
    (ms : gmap string ResourceMonitor) : list SandboxUsage * gmap string ResourceMonitor :=
  match l with
  | [] => ([], ms)
  | (id, m) :: l =>
      let '(su, m') := usage_of (proc1 (target_pid_ m)) (proc2 (target_pid_ m)) id m in
      let '(rest, ms) := usage_each proc1 proc2 l (<[id := m']> ms) in
      (su :: rest, ms)
  end.

Definition get_all_usage (proc1 proc2 : Z -> proc_files) (r : ResourceManager)
  : list SandboxUsage * ResourceManager :=
  let '(l, ms) := usage_each proc1 proc2 (map_to_list (monitors_ r)) (monitors_ r) in (l, set_monitors ms r).

Record GlobalStats := mkGlobal {
  total_memory_used : Z; total_cpu_percent : Z; total_pids : Z;
  total_sandboxes : Z; sandboxes_over_limit : Z
}.

Definition add_stats (g : GlobalStats) (su : SandboxUsage) : GlobalStats :=
  let u := sandbox_usage su in
  mkGlobal (u64 (total_memory_used g + memory_bytes u)) (u32 (total_cpu_percent g + cpu_percent u))
    (u32 (total_pids g + pids_current u)) (u64 (total_sandboxes g + 1))
    (if over_limit su then u64 (sandboxes_over_limit g + 1) else sandboxes_over_limit g).

Definition get_global_stats (proc1 proc2 : Z -> proc_files) (r : ResourceManager)
  : GlobalStats * ResourceManager :=
  let '(l, ms) := usage_each proc1 proc2 (map_to_list (monitors_ r)) (monitors_ r) in
  (foldl add_stats (mkGlobal 0 0 0 0 0) l, set_monitors ms r).

End Monitor.

(** ** Lemmas *)

(** Four characters are not ["Threads:"]. *)
Lemma threads_never_matches l : has_prefix 4 "Threads:" l = false.
Proof.
  unfold has_prefix. apply bool_decide_false. intros E.
  pose proof (length_substring_le 4 l) as H. rewrite E in H. cbn in H. lia.
Qed.

Lemma read_status_pids lines u : pids_current (read_status lines u) = pids_current u.
Proof.
  revert u. induction lines as [|l lines IH]; intros u; cbn [read_status]; [done|].
  rewrite threads_never_matches. destruct (has_prefix 6 _ l); by rewrite IH.
Qed.

Lemma read_io_keeps lines u :
  pids_current (read_io lines u) = pids_current u /\ memory_bytes (read_io lines u) = memory_bytes u /\
  cpu_percent (read_io lines u) = cpu_percent u.
Proof.
  revert u. induction lines as [|l lines IH]; intros u; cbn [read_io]; [done|].
  destruct (has_prefix 11 _ l); [exact (IH (set_disk_read _ u))|].
  destruct (has_prefix 12 _ l); [exact (IH (set_disk_write _ u))|exact (IH u)].
Qed.

Lemma read_io_pids lines u : pids_current (read_io lines u) = pids_current u.
Proof. apply read_io_keeps. Qed.
Lemma read_io_memory lines u : memory_bytes (read_io lines u) = memory_bytes u.
Proof. apply read_io_keeps. Qed.
Lemma read_io_cpu lines u : cpu_percent (read_io lines u) = cpu_percent u.
Proof. apply read_io_keeps. Qed.

Lemma read_usage_pids clk_tck p m : pids_current (read_usage clk_tck p m).1 = 0.
Proof.
  unfold read_usage.
  assert (E : pids_current (match status_file p with Some lines => read_status lines no_usage | None => no_usage end) = 0).
  { destruct (status_file p); [apply read_status_pids|done]. }
  destruct (stat_file p); destruct (io_file p); cbn; rewrite ?read_io_pids; exact E.
Qed.

(** Reading changes nothing but [prev_cpu_time_]. *)

Lemma read_usage_state clk_tck p m :
  limits_ (read_usage clk_tck p m).2 = limits_ m /\ history_ (read_usage clk_tck p m).2 = history_ m /\
  prev_cpu_time_ (read_usage clk_tck p m).2 =
    match stat_file p with Some lines => total_time (default "" (head lines)) | None => prev_cpu_time_ m end.
Proof. unfold read_usage. by destruct (stat_file p). Qed.

Lemma read_usage_memory clk_tck p m m' :
  memory_bytes (read_usage clk_tck p m).1 = memory_bytes (read_usage clk_tck p m').1.
Proof.
  unfold read_usage. destruct (stat_file p), (io_file p); cbn;
    by rewrite ?read_io_memory.
Qed.

(** The CPU time used since the previous reading: none when it has not moved. *)
Lemma read_usage_no_delta clk_tck p m :
  match stat_file p with
  | Some lines => prev_cpu_time_ m = total_time (default "" (head lines))
  | None => True
  end -> cpu_percent (read_usage clk_tck p m).1 = 0.
Proof.
  intros H. unfold read_usage.
  assert (E : forall s, cpu_percent (match s with Some lines => read_status lines no_usage | None => no_usage end) = 0).
  { intros [lines|]; [|done].
    assert (G : forall u, cpu_percent (read_status lines u) = cpu_percent u); [|by rewrite G].
    induction lines as [|l lines IH]; intros u; cbn [read_status]; [done|].
    destruct (has_prefix 6 _ l); [by rewrite IH|]. destruct (has_prefix 4 _ l); by rewrite IH. }
  destruct (stat_file p) as [lines|]; destruct (io_file p); cbn [fst set_rest cpu_percent];
    rewrite ?read_io_cpu; [| |apply E|apply E]; cbn [cpu_percent set_cpu].
  all: rewrite H, Z.sub_diag; change (u64 0) with 0; rewrite Z.mul_0_l; change (u64 0) with 0;
    by rewrite Zdiv_0_l.
Qed.

Lemma drop_one_lastn (h : list HistoryEntry) x :
  (length h <= 1000)%nat ->
  (if decide (1000 < length (h ++ [x]))%nat then tail (h ++ [x]) else h ++ [x]) = lastn 1000 (h ++ [x]).
Proof.
  intros H. case_decide as Hl; rewrite length_app in Hl; cbn [length] in Hl.
  - unfold lastn. rewrite length_app. cbn [length]. replace (length h + 1 - 1000)%nat with 1%nat by lia.
    by destruct (h ++ [x]).
  - by rewrite lastn_all by (rewrite length_app; cbn [length]; lia).
Qed.

Lemma monitor_turn_kept clk_tck (r : proc_files * Z) m :
  (length (history_ m) <= 1000)%nat ->
  history_ (monitor_turn clk_tck r.1 r.2 m).2 =
  lastn 1000 (history_ m ++ [mkEntry (read_usage clk_tck r.1 m).1 (double_of r.2)]).
Proof.
  intros Hl. pose proof (read_usage_state clk_tck r.1 m) as (_ & Eh & _). unfold monitor_turn.
  destruct (read_usage clk_tck r.1 m) as [u m'] eqn:E. cbn [fst snd] in *. rewrite Eh.
  by apply drop_one_lastn.
Qed.

(** The history as a bounded log of the readings of the monitor's thread. *)
#[global] Instance history_bounded clk_tck : BoundedLog ResourceMonitor (proc_files * Z) HistoryEntry := {
  perform r m := (monitor_turn clk_tck r.1 r.2 m).2;
  kept := history_;
  bound _ := 1000%nat;
  logged r m := [mkEntry (read_usage clk_tck r.1 m).1 (double_of r.2)];
  recent := get_history;
  perform_kept := monitor_turn_kept clk_tck;
  perform_bound _ _ := eq_refl;
  recent_kept n m := copy_tail_lastn n (history_ m)
}.

(** The entries the thread records for its readings. *)
Definition samples_taken (clk_tck : Z) (samples : list (proc_files * Z)) (m : ResourceMonitor) : list HistoryEntry :=
  all_logged (H := history_bounded clk_tck) samples m.

Lemma monitor_turns_performs clk_tck samples m :
  monitor_turns clk_tck samples m = performs (H := history_bounded clk_tck) samples m.
Proof. revert m. induction samples as [|[p now] samples IH]; intros m; [done|]. apply IH. Qed.

(** ** Properties *)

(** The process limit is never enforced.  [read_usage] compares the first
    four characters of a line with the eight of ["Threads:"], so whatever
    [/proc] says the number of processes is 0: no alert about it is ever
    raised, and it never puts a sandbox over its limit. *)
Theorem process_limit_never_enforced clk_tck p now (m : ResourceMonitor)
    (Hl : 0 <= limit_pids_max (limits_ m)) :
  let u := (read_usage clk_tck p m).1 in
  pids_current u = 0 /\
  (forall a, a ∈ check_alerts now u m -> resource a <> "pids") /\
  (is_over_limit clk_tck p m).1 =
    (limit_memory_bytes (limits_ m) <? memory_bytes u) || (limit_cpu_percent (limits_ m) <? cpu_percent u).
Proof.
  intros u. assert (Hp : pids_current u = 0) by apply read_usage_pids. split; [done|]. split.
  - intros a. unfold check_alerts. rewrite Hp, (proj2 (Z.ltb_ge _ _) Hl). rewrite app_nil_r, elem_of_app.
    intros [H|H]; repeat case_match; rewrite ?elem_of_nil, ?list_elem_of_singleton in H; try done; by subst.
  - unfold is_over_limit. pose proof (read_usage_state clk_tck p m) as (El & _).
    destruct (read_usage clk_tck p m) as [u' m'] eqn:E. cbn [fst snd] in *. unfold u in *. cbn in Hp.
    rewrite El, Hp, (proj2 (Z.ltb_ge _ _) Hl). by rewrite orb_false_r.
Qed.

(** The summaries of the manager never see a CPU limit exceeded.
    [get_all_usage] and [get_global_stats] call [get_usage] and then
    [is_over_limit], which reads [/proc] again and finds that no CPU time has
    passed since: when nothing has changed between the two readings, being
    over the limit depends on the memory alone. *)
Theorem over_limit_ignores_cpu clk_tck p (id : string) (m : ResourceMonitor)
    (Hc : 0 <= limit_cpu_percent (limits_ m)) (Hp : 0 <= limit_pids_max (limits_ m)) :
  let '(su, _) := usage_of clk_tck p p id m in
  sandbox_usage su = (read_usage clk_tck p m).1 /\
  over_limit su = (limit_memory_bytes (limits_ m) <? memory_bytes (sandbox_usage su)).
Proof.
  unfold usage_of, get_usage, is_over_limit.
  pose proof (read_usage_state clk_tck p m) as (El & _ & Ep).
  destruct (read_usage clk_tck p m) as [u1 m1] eqn:E1. cbn [fst snd] in *.
  pose proof (read_usage_state clk_tck p m1) as (El2 & _).
  pose proof (read_usage_pids clk_tck p m1) as Hpids.
  pose proof (read_usage_memory clk_tck p m1 m) as Hmem.
  assert (Hcpu : cpu_percent (read_usage clk_tck p m1).1 = 0).
  { apply read_usage_no_delta. by destruct (stat_file p). }
  destruct (read_usage clk_tck p m1) as [u2 m2] eqn:E2. rewrite E1 in Hmem. cbn [fst snd] in *.
  split; [done|]. cbn [over_limit sandbox_usage].
  rewrite El2, El, Hpids, Hcpu, (proj2 (Z.ltb_ge _ _) Hc), (proj2 (Z.ltb_ge _ _) Hp). by rewrite Hmem, !orb_false_r.
Qed.

(** The history holds the last 1000 readings in order, and [get_history n]
    gives the last [n] of those. *)
Theorem history_keeps_last clk_tck (samples : list (proc_files * Z)) (n : nat) (m : ResourceMonitor)
    (Hh : history_ m = []) :
  let m' := monitor_turns clk_tck samples m in
  (length (history_ m') <= 1000)%nat /\
  get_history n m' = lastn n (lastn 1000 (samples_taken clk_tck samples m)).
Proof.
  intros m'. assert (Hl : (length (history_ m) <= 1000)%nat) by (rewrite Hh; cbn; lia).
  unfold m'. rewrite monitor_turns_performs. split.
  - exact (performs_bounded (H := history_bounded clk_tck) samples m Hl).
  - pose proof (recent_performs (H := history_bounded clk_tck) n samples m Hl) as E.
    cbn [recent kept bound history_bounded] in E. by rewrite Hh in E.
Qed.

(** ** Witnesses *)

Definition demo_proc : proc_files :=
  mkProc (Some ["Name: sh"; "VmRSS:     1000 kB"; "Threads:   99"])
         (Some ["7 (sh) S 1 7 7 0 -1 0 0 0 0 0 300 200 0 0"])
         (Some ["read_bytes: 12"; "write_bytes: 34"]) (Some (S754_zero false)).
Definition demo_limits : ResourceLimits := mkLimits 2000000 50 64 1073741824 10485760 10485760.
Definition demo_monitor : ResourceMonitor := (start (on_alert (new_monitor 7 demo_limits))).2.

Lemma process_limit_never_enforced_witness :
  let u := (read_usage 100 demo_proc demo_monitor).1 in
  pids_current u = 0 /\ cpu_percent u = 500 /\ (is_over_limit 100 demo_proc demo_monitor).1 = true.
Proof.
  destruct (process_limit_never_enforced 100 demo_proc 1 demo_monitor ltac:(vm_compute; discriminate))
    as (E1 & _ & E3).
  split; [exact E1|]. split; [vm_compute; reflexivity|]. rewrite E3. vm_compute; reflexivity.
Defined.

(** 500% CPU against a limit of 50%: not over the limit. *)
Lemma over_limit_ignores_cpu_witness :
  let '(su, _) := usage_of 100 demo_proc demo_proc "a" demo_monitor in
  cpu_percent (sandbox_usage su) = 500 /\ over_limit su = false.
Proof.
  pose proof (over_limit_ignores_cpu 100 demo_proc "a" demo_monitor
    ltac:(vm_compute; discriminate) ltac:(vm_compute; discriminate)) as H.
  destruct (usage_of 100 demo_proc demo_proc "a" demo_monitor) as [su m'].
  destruct H as [-> ->]. split; vm_compute; reflexivity.
Defined.

Lemma history_keeps_last_witness :
  let m' := monitor_turns 100 [(demo_proc, 1); (demo_proc, 2)] demo_monitor in
  (length (history_ m') <= 1000)%nat /\
  get_history 1 m' = lastn 1 (lastn 1000 (samples_taken 100 [(demo_proc, 1); (demo_proc, 2)] demo_monitor)).
Proof. exact (history_keeps_last 100 [(demo_proc, 1); (demo_proc, 2)] 1 demo_monitor eq_refl). Defined.

(** A process named ["a b"] shifts the fields of [/proc/<pid>/stat]: the
    [cmajflt] counter is read as [utime]. *)
Example stat_name_with_space :
  total_time "7 (sh) S 1 7 7 0 -1 0 1 2 3 4 300 200 0 0" = 500 /\
  total_time "7 (s h) S 1 7 7 0 -1 0 1 2 3 4 300 200 0 0" = 304.
Proof. split; vm_compute; reflexivity. Qed.

End Resource.
