(* ===== verification/NetNS.v ===== *)
(** * Network namespaces: [sandbox/src/netns.cpp] (the Linux half)

    A namespace is set up by running [ip] commands; the model records the
    commands and takes the shell's verdicts as an argument, which may depend
    on what was run before.  Messages on [std::cerr] are left out. *)

From stdpp Require Import base strings gmap list numbers.
From Stdlib Require Import ZArith Lia.
From S2P Require Import Prelude Text.

Module NetNS.

Record NetnsConfig := mkConfig {
  name : string;
  bridge : string;
  subnet : string;
  next_ip : Z;              (**r uint32_t *)
  enable_loopback : bool;   (**r nothing reads these *)
  enable_dns : bool;
  dns_servers : list string
}.

Record NetnsState := mkState {
  state_name : string;
  veth_host : string;
  veth_ns : string;
  ip_addr : string;
  bridge_port : string;     (**r never written *)
  active : bool
}.

Record NetworkNamespace := mkNs { config_ : NetnsConfig; state_ : NetnsState }.

Definition new_namespace (c : NetnsConfig) : NetworkNamespace :=
  mkNs c (mkState (name c) ("veth-" +:+ name c +:+ "-h") ("veth-" +:+ name c +:+ "-ns") "" "" false).

Definition set_active (b : bool) (ip : string) (ns : NetworkNamespace) : NetworkNamespace :=
  let st := state_ ns in
  mkNs (config_ ns) (mkState (state_name st) (veth_host st) (veth_ns st) ip (bridge_port st) b).

(** [s.substr(0, s.find(c))] and [s.substr(0, s.rfind(c))]: all of [s] when
    [c] does not occur. *)
Fixpoint before_first (c : byte) (s : string) : string :=
  match s with
  | EmptyString => EmptyString
  | String a s => if decide (a = c) then EmptyString else String a (before_first c s)
  end.

Definition has_char (c : byte) (s : string) : bool := negb (all_chars (fun a => negb (bool_decide (a = c))) s).

Fixpoint before_last (c : byte) (s : string) : string :=
  match s with
  | EmptyString => EmptyString
  | String a s' =>
      if has_char c s' then String a (before_last c s')
      else if decide (a = c) then EmptyString else s
  end.

Definition SLASH : byte := byte_of 47.
Definition DOT : byte := byte_of 46.

(** The commands run so far, the last first. *)
Abbreviation history := (list string).

Section Shell.

#[local] Set Default Proof Using "Type".

(** Whether [system(cmd)] is 0, and what [popen(cmd)] prints, after the
    commands run before. *)
Context (succeeds : history -> string -> bool) (output : history -> string -> string).

Definition run_cmd_ok (cmd : string) (h : history) : bool * history := (succeeds h cmd, cmd :: h).
Definition run_cmd (cmd : string) (h : history) : string * history := (output h cmd, cmd :: h).

(** Commands whose result is not looked at. *)
Definition run_all (cmds : list string) (h : history) : history := reverse cmds ++ h.

Definition in_ns (ns : string) (cmd : string) : string := "ip netns exec " +:+ ns +:+ " " +:+ cmd.

(** The six commands of [create] that may fail unnoticed. *)
Definition configure_cmds (ns : NetworkNamespace) : list string :=
  let c := config_ ns in
  let st := state_ ns in
  [ in_ns (state_name st) ("ip addr add " +:+ before_first SLASH (subnet c) +:+ "/24 dev " +:+ veth_ns st);
    in_ns (state_name st) ("ip link set " +:+ veth_ns st +:+ " up");
    in_ns (state_name st) "ip link set lo up";
    in_ns (state_name st) ("ip route add default via " +:+ before_last DOT (subnet c) +:+ ".1");
    "ip link set " +:+ veth_host st +:+ " master " +:+ bridge c;
    "ip link set " +:+ veth_host st +:+ " up" ].

Definition create (ns : NetworkNamespace) (h : history) : bool * NetworkNamespace * history :=
  let c := config_ ns in
  let st := state_ ns in
  let '(ok, h) := run_cmd_ok ("ip netns add " +:+ state_name st) h in
  if negb ok then (false, ns, h)
  else
    let '(ok, h) := run_cmd_ok ("ip link add " +:+ veth_host st +:+ " type veth peer name " +:+ veth_ns st) h in
    if negb ok then (false, ns, h)
    else
      let '(ok, h) := run_cmd_ok ("ip link set " +:+ veth_ns st +:+ " netns " +:+ state_name st) h in
      if negb ok then (false, ns, h)
      else
        let h := run_all (configure_cmds ns) h in
        let ip := before_first SLASH (subnet c) in
        let ip := before_last DOT ip +:+ "." +:+ to_string (next_ip c) in
        (true, set_active true ip ns, h).

Definition destroy (ns : NetworkNamespace) (h : history) : bool * NetworkNamespace * history :=
  let st := state_ ns in
  if negb (active st) then (true, ns, h)
  else
    let h := run_all ["ip link set " +:+ veth_host st +:+ " nomaster";
                      "ip link delete " +:+ veth_host st;
                      "ip netns delete " +:+ state_name st] h in
    (true, set_active false (ip_addr st) ns, h).

(** The destructor; [netns_fd_] is never opened. *)
Definition destroy_namespace (ns : NetworkNamespace) (h : history) : history :=
  if active (state_ ns) then (destroy ns h).2 else h.

Definition guarded (ns : NetworkNamespace) (cmd : string) (h : history) : bool * history :=
  if negb (active (state_ ns)) then (false, h) else run_cmd_ok (in_ns (state_name (state_ ns)) cmd) h.

Definition assign_pid (pid : Z) (ns : NetworkNamespace) (h : history) : bool * history :=
  guarded ns ("nsenter -t " +:+ to_string pid +:+ " -n true") h.
Definition add_iptables_rule (rule : string) (ns : NetworkNamespace) (h : history) : bool * history :=
  guarded ns ("iptables " +:+ rule) h.
Definition flush_iptables (ns : NetworkNamespace) (h : history) : bool * history :=
  guarded ns "iptables -F" h.
Definition enable_network_for_pid (pid : Z) (ns : NetworkNamespace) (h : history) : bool * history :=
  assign_pid pid ns h.
Definition disable_network_for_pid (pid : Z) (ns : NetworkNamespace) (h : history) : bool * history :=
  run_cmd_ok ("nsenter -t " +:+ to_string pid +:+ " -n ip link set lo down") h.

(** ** Statistics *)

Record NetStats := mkStats {
  rx_bytes : Z; tx_bytes : Z; rx_packets : Z; tx_packets : Z; rx_errors : Z; tx_errors : Z
}.

(** [files]: the contents of a file, if it can be opened. *)
Definition read_stat (files : string -> option string) (path : string) : Z :=
  match files path with Some s => extract_into 0 s | None => 0 end.

(** [get_stats]: the file names start with the text of a command. *)
Definition get_stats (files : string -> option string) (ns : NetworkNamespace) : option NetStats :=
  let st := state_ ns in
  if negb (active st) then None
  else
    let cmd := in_ns (state_name st) ("cat /sys/class/net/" +:+ veth_ns st +:+ "/statistics/") in
    let read_stat nm := read_stat files (cmd +:+ nm) in
    Some (mkStats (read_stat "rx_bytes") (read_stat "tx_bytes") (read_stat "rx_packets")
            (read_stat "tx_packets") (read_stat "rx_errors") (read_stat "tx_errors")).

(** ** The manager *)

Record NetworkManager := mkManager {
  base_config_ : NetnsConfig;
  namespaces_ : gmap string NetworkNamespace;
  next_ip_ : Z              (**r std::atomic<uint32_t> *)
}.

Definition new_manager (c : NetnsConfig) : NetworkManager := mkManager c ∅ 2.

Definition init (m : NetworkManager) (h : history) : bool * history :=
  let c := base_config_ m in
  let '(out, h) := run_cmd ("ip link show " +:+ bridge c +:+ " 2>/dev/null") h in
  let '(ok, h) := if decide (out = "") then run_cmd_ok ("ip link add " +:+ bridge c +:+ " type bridge") h
                  else (true, h) in
  if negb ok then (false, h)
  else
    let gateway := before_last DOT (subnet c) +:+ ".1/24" in
    (true, run_all ["ip addr add " +:+ gateway +:+ " dev " +:+ bridge c +:+ " 2>/dev/null";
                    "ip link set " +:+ bridge c +:+ " up";
                    "sysctl -w net.ipv4.ip_forward=1";
                    "iptables -t nat -A POSTROUTING -s " +:+ subnet c +:+ " -o eth0 -j MASQUERADE"] h).

Definition config_for (id : string) (m : NetworkManager) : NetnsConfig :=
  let c := base_config_ m in mkConfig ("ns-" +:+ id) (bridge c) (subnet c) (next_ip_ m)
    (enable_loopback c) (enable_dns c) (dns_servers c).

(** [create_namespace]; a namespace already stored under the id is replaced,
    and destroyed unless somebody else holds it ([held]). *)
Definition create_namespace (held : bool) (id : string) (m : NetworkManager) (h : history)
  : option NetworkNamespace * NetworkManager * history :=
  let c := config_for id m in
  let m := mkManager (base_config_ m) (namespaces_ m) (u32 (next_ip_ m + 1)) in
  let '(ok, ns, h) := create (new_namespace c) h in
  if negb ok then (None, m, h)
  else
    let h := match namespaces_ m !! id with
             | Some old => if held then h else (destroy old h).2
             | None => h
             end in
    (Some ns, mkManager (base_config_ m) (<[id := ns]> (namespaces_ m)) (next_ip_ m), h).

Definition remove_namespace (id : string) (m : NetworkManager) (h : history)
  : bool * NetworkManager * history :=
  match namespaces_ m !! id with
  | None => (false, m, h)
  | Some ns => (true, mkManager (base_config_ m) (delete id (namespaces_ m)) (next_ip_ m), (destroy ns h).2)
  end.

Record GlobalStats := mkGlobal {
  total_namespaces : Z; active_namespaces : Z; total_rx_bytes : Z; total_tx_bytes : Z
}.

Definition add_stats (files : string -> option string) (g : GlobalStats) (ns : NetworkNamespace) : GlobalStats :=
  if active (state_ ns) then
    match get_stats files ns with
    | Some s => mkGlobal (total_namespaces g) (u64 (active_namespaces g + 1))
                  (u64 (total_rx_bytes g + rx_bytes s)) (u64 (total_tx_bytes g + tx_bytes s))
    | None => mkGlobal (total_namespaces g) (u64 (active_namespaces g + 1)) (total_rx_bytes g) (total_tx_bytes g)
    end
  else g.

Definition get_global_stats (files : string -> option string) (m : NetworkManager) : GlobalStats :=
  foldl (add_stats files) (mkGlobal (u64 (Z.of_nat (size (namespaces_ m)))) 0 0 0)
    (map_to_list (namespaces_ m)).*2.

(** The destructor of the manager destroys every namespace it holds. *)
Definition destroy_manager (m : NetworkManager) (h : history) : history :=
  foldl (fun h ns => (destroy ns h).2) h (map_to_list (namespaces_ m)).*2.

(** Creating namespaces one after the other. *)
Fixpoint create_many (ids : list string) (m : NetworkManager) (h : history)
  : list (option NetworkNamespace) * NetworkManager * history :=
  match ids with
  | [] => ([], m, h)
  | id :: ids =>
      let '(r, m, h) := create_namespace true id m h in
      let '(rs, m, h) := create_many ids m h in
      (r :: rs, m, h)
  end.

(** ** Lemmas *)

Lemma create_cases ns h :
  let st := state_ ns in
  let c1 := "ip netns add " +:+ state_name st in
  let c2 := "ip link add " +:+ veth_host st +:+ " type veth peer name " +:+ veth_ns st in
  let c3 := "ip link set " +:+ veth_ns st +:+ " netns " +:+ state_name st in
  let ip := before_last DOT (before_first SLASH (subnet (config_ ns))) +:+ "." +:+ to_string (next_ip (config_ ns)) in
  create ns h =
  if succeeds h c1 then
    if succeeds (c1 :: h) c2 then
      if succeeds (c2 :: c1 :: h) c3
      then (true, set_active true ip ns, reverse (configure_cmds ns) ++ [c3; c2; c1] ++ h)
      else (false, ns, [c3; c2; c1] ++ h)
    else (false, ns, [c2; c1] ++ h)
  else (false, ns, c1 :: h).
Proof.
  intros st c1 c2 c3 ip. unfold create, run_cmd_ok. fold st c1 c2 c3.
  destruct (succeeds h c1); [|done]. destruct (succeeds (c1 :: h) c2); [|done]. cbn [negb].
  by destruct (succeeds (c2 :: c1 :: h) c3).
Qed.

(** What a creation gives, whatever the shell says. *)
Lemma create_result ns h b ns' h' :
  create ns h = (b, ns', h') ->
  config_ ns' = config_ ns /\
  ip_addr (state_ ns') = (if b then before_last DOT (before_first SLASH (subnet (config_ ns))) +:+ "." +:+
                                    to_string (next_ip (config_ ns)) else ip_addr (state_ ns)) /\
  active (state_ ns') = (if b then true else active (state_ ns)).
Proof. rewrite create_cases. intros H. repeat case_match; by simplify_eq. Qed.

(** Namespace number [k] is configured with the address number [n + k]. *)
Lemma create_many_ips ids n m h :
  next_ip_ m = u32 n ->
  forall k r, (create_many ids m h).1.1 !! k = Some r ->
  forall ns, r = Some ns ->
    next_ip (config_ ns) = u32 (n + Z.of_nat k) /\ subnet (config_ ns) = subnet (base_config_ m) /\
    active (state_ ns) = true /\
    ip_addr (state_ ns) = before_last DOT (before_first SLASH (subnet (base_config_ m))) +:+ "." +:+
                          to_string (u32 (n + Z.of_nat k)).
Proof.
  revert n m h. induction ids as [|id ids IH]; intros n m h Hn k r Hk ns ->; cbn [create_many] in Hk; [done|].
  destruct (create_namespace true id m h) as [[r0 m0] h0] eqn:E0.
  destruct (create_many ids m0 h0) as [[rs m1] h1] eqn:E1. cbn [fst snd] in Hk.
  unfold create_namespace in E0.
  destruct (create (new_namespace (config_for id m)) h) as [[b ns0] h2] eqn:Ec.
  apply create_result in Ec as (Ec1 & Ec2 & Ec3).
  assert (Em : next_ip_ m0 = u32 (n + 1) /\ base_config_ m0 = base_config_ m /\ r0 = if b then Some ns0 else None).
  { assert (u32 (next_ip_ m + 1) = u32 (n + 1)) by (rewrite Hn; apply wrap_add_l).
    destruct b; cbn [negb] in E0; by simplify_eq. }
  destruct Em as (Em1 & Em2 & ->). destruct k as [|k]; cbn [lookup list_lookup] in Hk.
  - destruct b; [|done]. simplify_eq. rewrite Ec1, Ec2, Ec3. cbn. rewrite Hn, Z.add_0_r. done.
  - specialize (IH (n + 1) m0 h0 Em1 k (Some ns)). rewrite E1 in IH. specialize (IH Hk ns eq_refl).
    rewrite Em2 in IH. replace (n + Z.of_nat (S k)) with (n + 1 + Z.of_nat k) by lia. exact IH.
Qed.

(** The command that gives a namespace its address. *)
Definition address_cmd (ns : NetworkNamespace) : string :=
  in_ns (state_name (state_ ns))
    ("ip addr add " +:+ before_first SLASH (subnet (config_ ns)) +:+ "/24 dev " +:+ veth_ns (state_ ns)).

Lemma create_runs_address_cmd ns h b ns' h' :
  create ns h = (b, ns', h') ->
  state_name (state_ ns') = state_name (state_ ns) /\ veth_ns (state_ ns') = veth_ns (state_ ns) /\
  h `suffix_of` h' /\ (b = true -> address_cmd ns' ∈ h').
Proof.
  rewrite create_cases. intros H.
  repeat case_match; simplify_eq; (split; [done|]; split; [done|]; split; [|try done]);
    try by repeat apply suffix_cons_r.
  intros _. rewrite elem_of_app. left. apply elem_of_reverse. by left.
Qed.

Lemma create_namespace_history id m h r m' h' :
  create_namespace true id m h = (r, m', h') ->
  h `suffix_of` h' /\ forall ns, r = Some ns -> state_name (state_ ns) = "ns-" +:+ id /\ address_cmd ns ∈ h'.
Proof.
  unfold create_namespace. destruct (create _ h) as [[b ns0] h0] eqn:E.
  apply create_runs_address_cmd in E as (E1 & _ & E2 & E3). intros H.
  destruct b; cbn [negb] in H; [|by simplify_eq].
  assert (h' = h0) as -> by (repeat case_match; by simplify_eq). split; [done|].
  intros ns ->. injection H as <- _ _. split; [exact E1|by apply E3].
Qed.

Lemma create_many_history ids m h :
  h `suffix_of` (create_many ids m h).2 /\
  forall k ns, (create_many ids m h).1.1 !! k = Some (Some ns) ->
    (exists id, ids !! k = Some id /\ state_name (state_ ns) = "ns-" +:+ id) /\
    address_cmd ns ∈ (create_many ids m h).2.
Proof.
  revert m h. induction ids as [|id ids IH]; intros m h; cbn [create_many]; [by split|].
  destruct (create_namespace true id m h) as [[r0 m0] h0] eqn:E0.
  apply create_namespace_history in E0 as [S0 H0]. specialize (IH m0 h0) as [S1 H1].
  destruct (create_many ids m0 h0) as [[rs m1] h1]. cbn [fst snd] in *. split; [by etrans|].
  intros [|k] ns; cbn [lookup list_lookup].
  - intros [= ->]. destruct (H0 ns eq_refl) as [-> Hin]. split; [by exists id|].
    destruct S1 as [l ->]. apply elem_of_app. by right.
  - intros Hk. by apply H1.
Qed.

(** ** Properties *)

(** [create], by the shell's verdicts on its first three commands.  When
    they succeed the namespace is active and its six configuration commands
    have been run, whether or not they worked.  When one fails, creation
    stops there and what was set up stays: the object is inactive, so that
    [destroy] (and the destructor) run nothing. *)
Theorem create_has_no_rollback (ns : NetworkNamespace) (h : history)
    (Hi : active (state_ ns) = false) :
  let c1 := "ip netns add " +:+ state_name (state_ ns) in
  let c2 := "ip link add " +:+ veth_host (state_ ns) +:+ " type veth peer name " +:+ veth_ns (state_ ns) in
  let c3 := "ip link set " +:+ veth_ns (state_ ns) +:+ " netns " +:+ state_name (state_ ns) in
  let '(ok, ns', h') := create ns h in
  ok = (succeeds h c1 && succeeds (c1 :: h) c2 && succeeds (c2 :: c1 :: h) c3) /\
  active (state_ ns') = ok /\
  (ok = true -> h' = reverse (configure_cmds ns) ++ [c3; c2; c1] ++ h) /\
  (ok = false -> (h' = c1 :: h \/ h' = c2 :: c1 :: h \/ h' = c3 :: c2 :: c1 :: h) /\
                 destroy ns' h' = (true, ns', h')).
Proof.
  clear output. intros c1 c2 c3. rewrite create_cases. fold c1 c2 c3.
  destruct (succeeds h c1); cycle 1.
  { unfold destroy. rewrite Hi. naive_solver. }
  destruct (succeeds (c1 :: h) c2); cycle 1.
  { unfold destroy. rewrite Hi. naive_solver. }
  destruct (succeeds (c2 :: c1 :: h) c3); [done|].
  unfold destroy. rewrite Hi. naive_solver.
Qed.

(** The addresses the manager hands out are not the addresses the
    namespaces get.  The [k]-th namespace created records the address ending
    in [2 + k] (beyond 255 too, and an address is used up by a failed
    creation), but the command run for it, as for every other namespace,
    assigns the base address of the subnet. *)
Theorem allocated_address_not_assigned (c : NetnsConfig) (ids : list string) (k : nat)
    (ns : NetworkNamespace) (h : history)
    (Hk : (create_many ids (new_manager c) h).1.1 !! k = Some (Some ns)) :
  ip_addr (state_ ns) = before_last DOT (before_first SLASH (subnet c)) +:+ "." +:+ to_string (u32 (2 + Z.of_nat k)) /\
  in_ns (state_name (state_ ns)) ("ip addr add " +:+ before_first SLASH (subnet c) +:+ "/24 dev " +:+ veth_ns (state_ ns))
    ∈ (create_many ids (new_manager c) h).2.
Proof.
  destruct (create_many_ips ids 2 (new_manager c) h eq_refl k (Some ns) Hk ns eq_refl) as (_ & Es & _ & Eip).
  split; [exact Eip|]. destruct (create_many_history ids (new_manager c) h) as [_ H].
  apply H in Hk as [_ Hin]. unfold address_cmd in Hin. by rewrite Es in Hin.
Qed.

(** The statistics of an active namespace are all zero.  [get_stats] opens
    files whose names are the text of a command; unless such files exist,
    every counter reads 0. *)
Theorem stats_always_zero (files : string -> option string) (ns : NetworkNamespace)
    (Ha : active (state_ ns) = true)
    (Hf : forall f, starts_with f "ip netns exec " = true -> files f = None) :
  get_stats files ns = Some (mkStats 0 0 0 0 0 0).
Proof.
  unfold get_stats. rewrite Ha. cbn [negb]. unfold read_stat, in_ns.
  rewrite <- !string_app_assoc. by rewrite !Hf by apply prefix_app.
Qed.

End Shell.

(** ** Witnesses *)

Definition demo_config : NetnsConfig := mkConfig "sandbox-netns" "sandbox-br0" "10.100.0.0/24" 2 true true ["8.8.8.8"; "8.8.4.4"].
Definition demo_shell (h : history) (cmd : string) : bool := true.

(** The link cannot be created: the namespace stays. *)
Lemma create_has_no_rollback_witness :
  let sh (h : history) cmd := negb (starts_with cmd "ip link add") in
  let '(ok, ns', h') := create sh (new_namespace demo_config) [] in
  ok = false /\ destroy ns' h' = (true, ns', h').
Proof.
  pose proof (create_has_no_rollback (fun h cmd => negb (starts_with cmd "ip link add"))
    (new_namespace demo_config) [] eq_refl) as H. cbv zeta in *.
  destruct (create _ _ _) as [[ok ns'] h'] eqn:E. destruct H as (E1 & _ & _ & H2).
  assert (ok = false) as -> by (rewrite E1; vm_compute; reflexivity).
  split; [reflexivity|]. exact (proj2 (H2 eq_refl)).
Defined.

Lemma allocated_address_not_assigned_witness :
  exists ns, (create_many demo_shell ["a"; "b"] (new_manager demo_config) []).1.1 !! 1%nat = Some (Some ns) /\
  ip_addr (state_ ns) = "10.100.0.3" /\
  "ip netns exec ns-b ip addr add 10.100.0.0/24 dev veth-ns-b-ns"
    ∈ (create_many demo_shell ["a"; "b"] (new_manager demo_config) []).2.
Proof.
  eexists. split; [vm_compute; reflexivity|].
  exact (allocated_address_not_assigned demo_shell demo_config ["a"; "b"] 1 _ [] eq_refl).
Defined.

Lemma stats_always_zero_witness :
  get_stats (fun f => if starts_with f "/" then Some "5" else None)
    (set_active true "10.100.0.2" (new_namespace demo_config)) = Some (mkStats 0 0 0 0 0 0).
Proof.
  apply stats_always_zero; [reflexivity|]. intros f H. unfold starts_with in *.
  destruct f as [|a f]; [reflexivity|]. cbn [String.prefix] in *.
  destruct (Ascii.ascii_dec _ a) as [<-|]; [reflexivity|discriminate].
Defined.

End NetNS.
