(* ===== verification/Metrics.v ===== *)
(** * Metrics: [sandbox/src/metrics.cpp]

    The recorded samples, their two renderings, the HTTP replies and the life
    of the listening socket.  How a [double] prints is an argument; a
    [std::map] of labels is a [gmap] walked in the order of its keys. *)

From stdpp Require Import base strings gmap list numbers sorting.
From Stdlib Require Import ZArith Lia.
From S2P Require Import Prelude Descriptors Text.

Module Metrics.

Inductive MetricType := Counter | Gauge | Histogram.

Section Exporter.

(** Doubles, as [operator<<] and as [std::format] print them. *)
Context {V : Type} (print_value format_value : V -> string).

Record Metric := mkMetric {
  name : string;
  type : MetricType;
  value : V;
  labels : gmap string string
}.

(** [metrics_], the only state of a [MetricsExporter]. *)
Abbreviation exporter := (list Metric).

Definition counter (nm : string) (v : V) (ls : gmap string string) (metrics_ : exporter) : exporter :=
  metrics_ ++ [mkMetric nm Counter v ls].
Definition gauge (nm : string) (v : V) (ls : gmap string string) (metrics_ : exporter) : exporter :=
  metrics_ ++ [mkMetric nm Gauge v ls].
Definition histogram (nm : string) (v : V) (ls : gmap string string) (metrics_ : exporter) : exporter :=
  metrics_ ++ [mkMetric nm Histogram v ls].

(** The loop of [render_labels]. *)
Fixpoint label_items (ls : gmap string string) (keys : list string) (first : bool) : string :=
  match keys with
  | [] => ""
  | k :: keys =>
      (if first then "" else ",") +:+ k +:+ "=" +:+ DQ +:+ default "" (ls !! k) +:+ DQ +:+
      label_items ls keys false
  end.

Definition render_labels (ls : gmap string string) : string :=
  if decide (ls = ∅) then "" else "{" +:+ label_items ls (sorted_keys ls) true +:+ "}".

Definition type_str (t : MetricType) : string :=
  match t with Counter => "counter" | Gauge => "gauge" | Histogram => "histogram" end.

(** [grouped[m.name].push_back(&m)] for every sample. *)
Fixpoint group (ms : list Metric) (grouped : gmap string (list Metric)) : gmap string (list Metric) :=
  match ms with
  | [] => grouped
  | m :: ms => group ms (<[name m := default [] (grouped !! name m) ++ [m]]> grouped)
  end.

Definition sample (m : Metric) : string :=
  name m +:+ render_labels (labels m) +:+ " " +:+ print_value (value m) +:+ NL.

Fixpoint concat_all (l : list string) : string :=
  match l with [] => "" | s :: l => s +:+ concat_all l end.

Definition header (nm : string) (ms : list Metric) : string :=
  match ms with
  | [] => ""
  | m :: _ => "# HELP " +:+ nm +:+ " redisops metric" +:+ NL +:+
              "# TYPE " +:+ nm +:+ " " +:+ type_str (type m) +:+ NL
  end.

Definition render_block (nm : string) (ms : list Metric) : string :=
  header nm ms +:+ concat_all (sample <$> ms) +:+ NL.

Definition render_prometheus (metrics_ : exporter) : string :=
  let grouped := group metrics_ ∅ in
  concat_all ((fun nm => render_block nm (default [] (grouped !! nm))) <$> sorted_keys grouped).

Fixpoint json_items (ms : list Metric) (first : bool) : string :=
  match ms with
  | [] => ""
  | m :: ms =>
      (if first then "" else ",") +:+
      ("{" +:+ DQ +:+ "name" +:+ DQ +:+ ":" +:+ DQ +:+ name m +:+ DQ +:+ "," +:+
       DQ +:+ "value" +:+ DQ +:+ ":" +:+ format_value (value m) +:+ "}") +:+
      json_items ms false
  end.

Definition render_json (metrics_ : exporter) : string := "[" +:+ json_items metrics_ true +:+ "]".

(** ** The HTTP endpoint *)

Definition build_response (body : string) (code : Z) : string :=
  let status := if code =? 200 then "OK" else "Not Found" in
  "HTTP/1.1 " +:+ to_string code +:+ " " +:+ status +:+ CRLF +:+
  "Content-Type: text/plain; version=0.0.4; charset=utf-8" +:+ CRLF +:+
  "Content-Length: " +:+ to_string (Z.of_nat (String.length body)) +:+ CRLF +:+
  "Connection: close" +:+ CRLF +:+
  CRLF +:+ body.

(** What [handle_client] answers to what [recv] gave (at most 4095 bytes; the
    text stops at a NUL), and [None] when it gave nothing.  The descriptor is
    closed in every case. *)
Definition handle_client (exporter_ : option exporter) (received : option (list byte)) : option string :=
  match received with
  | None | Some [] => None
  | Some bytes =>
      let request := c_str (string_of (take 4095 bytes)) in
      let '(body, code) :=
        match exporter_ with
        | Some e =>
            if contains request "GET /metrics" then (render_prometheus e, 200)
            else if contains request "GET /health" then ("ok" +:+ NL, 200) else ("", 404)
        | None => if contains request "GET /health" then ("ok" +:+ NL, 200) else ("", 404)
        end in
      Some (build_response body code)
  end.

End Exporter.

(** ** The listening socket *)

Record MetricsServer := mkServer { server_fd_ : Z; running_ : bool }.
Definition new_server : MetricsServer := mkServer (-1) false.

(** [start]: the descriptor [socket] gives, and whether [bind] and [listen]
    succeed.  The last result is what happened to descriptors. *)
Definition start (fd : Z) (bind_ok listen_ok : bool) (s : MetricsServer) : bool * MetricsServer * list fd_call :=
  if fd <? 0 then (false, mkServer fd (running_ s), [])
  else if negb bind_ok then (false, mkServer (-1) (running_ s), [Opened fd; Closed fd])
  else if negb listen_ok then (false, mkServer (-1) (running_ s), [Opened fd; Closed fd])
  else (true, mkServer fd true, [Opened fd]).

Definition stop (s : MetricsServer) : MetricsServer * list fd_call :=
  if 0 <=? server_fd_ s then (mkServer (-1) false, [Closed (server_fd_ s)])
  else (mkServer (server_fd_ s) false, []).

(** ** Lemmas *)

Section Lemmas.
Context {V : Type} (print_value format_value : V -> string).

Lemma group_lookup (ms : list (Metric (V:=V))) g nm :
  default [] (group ms g !! nm) = default [] (g !! nm) ++ filter (fun m => name m = nm) ms.
Proof.
  revert g. induction ms as [|m ms IH]; intros g; cbn [group]; [by rewrite app_nil_r|].
  rewrite IH, filter_cons. destruct (decide (name m = nm)) as [<-|Hne].
  - rewrite lookup_insert_eq. cbn. by rewrite <- app_assoc.
  - by rewrite lookup_insert_ne.
Qed.

Lemma group_keys (ms : list (Metric (V:=V))) g nm :
  is_Some (group ms g !! nm) <-> is_Some (g !! nm) \/ nm ∈ (name <$> ms).
Proof.
  revert g. induction ms as [|m ms IH]; intros g; cbn [group fmap list_fmap].
  { rewrite elem_of_nil. tauto. }
  rewrite IH, lookup_insert_is_Some', elem_of_cons.
  assert (name m = nm <-> nm = name m) by (split; congruence). tauto.
Qed.

Lemma build_response_eq (body : string) (code : Z) :
  code = 200 \/ code = 404 ->
  build_response body code =
  "HTTP/1.1 " +:+ (if decide (code = 200) then "200 OK" else "404 Not Found") +:+ CRLF +:+
  "Content-Type: text/plain; version=0.0.4; charset=utf-8" +:+ CRLF +:+
  "Content-Length: " +:+ to_string (Z.of_nat (String.length body)) +:+ CRLF +:+
  "Connection: close" +:+ CRLF +:+ CRLF +:+ body.
Proof. intros [->| ->]; reflexivity. Qed.

(** ** Properties *)


(** Counters are not added up.  Counting the same series [n] times gives
    [n] lines for it, one per call with the increment of that call, where
    the exposition format allows one sample per series. *)
Theorem counters_not_accumulated (nm : string) (ls : gmap string string) (vs : list V) (v : V) :
  let ms := foldl (fun e v => counter nm v ls e) [] (v :: vs) in
  render_prometheus print_value ms =
  header nm [mkMetric nm Counter v ls] +:+
  concat_all ((fun v => nm +:+ render_labels ls +:+ " " +:+ print_value v +:+ NL) <$> v :: vs) +:+ NL.
Proof.
  intros ms.
  assert (E : forall (l : list V) (e : list Metric), foldl (fun e v => counter nm v ls e) e l = e ++ ((fun v => mkMetric nm Counter v ls) <$> l)).
  { induction l as [|x l IH]; intros e; cbn; [by rewrite app_nil_r|]. rewrite IH. unfold counter. by rewrite <- app_assoc. }
  assert (Ems : ms = (fun v => mkMetric nm Counter v ls) <$> v :: vs) by (unfold ms; by rewrite E).
  assert (K : sorted_keys (group ms ∅) = [nm]).
  { apply Permutation_singleton_r. apply NoDup_Permutation; [apply NoDup_sorted_keys|apply NoDup_singleton|].
    intros x. rewrite sorted_keys_elem, group_keys, lookup_empty, Ems, list_elem_of_singleton. split.
    - intros [[? ?]|H]; [done|]. apply list_elem_of_fmap in H as (m & -> & Hm).
      by apply list_elem_of_fmap in Hm as (y & -> & _).
    - intros ->. right. by left. }
  unfold render_prometheus. rewrite K. cbn [fmap list_fmap concat_all]. rewrite group_lookup, lookup_empty.
  cbn [default from_option app]. 
  assert (F : filter (fun m => name m = nm) ms = ms).
  { rewrite Ems. generalize (v :: vs). intros l. induction l as [|x l IH]; [done|]. cbn [fmap list_fmap].
    rewrite filter_cons, decide_True by done. by rewrite IH. }
  rewrite F, Ems. unfold render_block. cbn [id]. rewrite string_app_nil. f_equal. f_equal. f_equal.
  rewrite <- list_fmap_compose. done.
Qed.

(** The endpoint's answers.  Every request that was read is answered by one
    complete HTTP response, whose [Content-Length] is the length of its body:
    the metrics for a text containing ["GET /metrics"] (anywhere, and when an
    exporter is set), ["ok"] for one containing ["GET /health"], 404 otherwise. *)
Theorem handle_client_answers (e : option (list (Metric (V:=V)))) (bytes : list byte)
    (Hb : bytes <> []) (Hl : (length bytes <= 4095)%nat) (Hn : nul_free (string_of bytes)) :
  exists body code,
    handle_client print_value e (Some bytes) =
    Some ("HTTP/1.1 " +:+ (if decide (code = 200) then "200 OK" else "404 Not Found") +:+ CRLF +:+
          "Content-Type: text/plain; version=0.0.4; charset=utf-8" +:+ CRLF +:+
          "Content-Length: " +:+ to_string (Z.of_nat (String.length body)) +:+ CRLF +:+
          "Connection: close" +:+ CRLF +:+ CRLF +:+ body) /\
    (code = 200 \/ code = 404) /\
    match e with
    | Some ms => if contains (string_of bytes) "GET /metrics"
                 then code = 200 /\ body = render_prometheus print_value ms
                 else if contains (string_of bytes) "GET /health" then code = 200 /\ body = "ok" +:+ NL
                 else code = 404 /\ body = ""
    | None => if contains (string_of bytes) "GET /health" then code = 200 /\ body = "ok" +:+ NL
              else code = 404 /\ body = ""
    end.
Proof.
  unfold handle_client. destruct bytes as [|b bytes]; [done|]. rewrite take_ge by done.
  rewrite c_str_nul_free by done.
  destruct e as [ms|]; repeat case_match; simplify_eq; do 2 eexists;
    (split; [f_equal; apply build_response_eq; auto|auto]).
Qed.

End Lemmas.

(** Starting the server twice loses its first socket.  The second [start]
    overwrites [server_fd_] whether or not it succeeds, and [stop] closes
    only the descriptor stored last: the first one stays open. *)
Theorem start_twice_leaks_socket (fd1 fd2 : Z) (bind_ok listen_ok : bool)
    (H1 : 0 <= fd1) (H2 : 0 <= fd2) (Hne : fd1 <> fd2) :
  let '(ok, s1, calls1) := start fd1 true true new_server in
  ok = true /\ held [] (calls1 ++ (stop s1).2) = Some [] /\
  let '(_, s2, calls2) := start fd2 bind_ok listen_ok s1 in
  held [] (calls1 ++ calls2 ++ (stop s2).2) = Some [fd1].
Proof.
  unfold start. rewrite !(proj2 (Z.ltb_ge _ _)) by done. cbn [negb]. split; [done|]. split.
  - unfold stop. cbn [server_fd_ snd app]. rewrite (proj2 (Z.leb_le _ _)) by done. cbn. by rewrite decide_True.
  - destruct bind_ok; [destruct listen_ok|]; cbn [negb]; unfold stop; cbn [server_fd_ snd app];
      rewrite ?(proj2 (Z.leb_le _ _) H2); cbn; by rewrite decide_True.
Qed.

(** ** Witnesses *)

Lemma handle_client_answers_witness :
  handle_client (fun _ : unit => "") None (Some (bytes_of "GET /health HTTP/1.1")) =
  Some ("HTTP/1.1 200 OK" +:+ CRLF +:+
        "Content-Type: text/plain; version=0.0.4; charset=utf-8" +:+ CRLF +:+
        "Content-Length: 3" +:+ CRLF +:+ "Connection: close" +:+ CRLF +:+ CRLF +:+ "ok" +:+ NL).
Proof.
  destruct (handle_client_answers (fun _ : unit => "") None (bytes_of "GET /health HTTP/1.1")
    ltac:(discriminate) ltac:(vm_compute; lia) ltac:(reflexivity)) as (body & code & -> & _ & H).
  change (contains _ _) with true in H. destruct H as [-> ->]. reflexivity.
Defined.

Lemma start_twice_leaks_socket_witness :
  let '(_, s1, calls1) := start 4 true true new_server in
  let '(_, s2, calls2) := start 5 false true s1 in held [] (calls1 ++ calls2 ++ (stop s2).2) = Some [4].
Proof.
  exact (proj2 (proj2 (start_twice_leaks_socket 4 5 false true ltac:(lia) ltac:(lia) ltac:(lia)))).
Defined.

(** Labels are not escaped: two different sets of labels render alike. *)
Example labels_not_escaped :
  let q := "1" +:+ DQ +:+ ",b=" +:+ DQ +:+ "2" in
  render_labels {["a" := q]} = render_labels {["a" := "1"; "b" := "2"]} /\
  ({["a" := q]} : gmap string string) <> {["a" := "1"; "b" := "2"]}.
Proof.
  intros q. split; [vm_compute; reflexivity|]. intros H.
  assert (E : ({["a" := q]} : gmap string string) !! "b" = Some "2") by (rewrite H; reflexivity).
  vm_compute in E. discriminate.
Qed.

End Metrics.
