(* ===== verification/Sandbox.v ===== *)
(** * Running a command: [sandbox/src/sandbox.cpp], [seccomp.cpp] and [cgroup.cpp]

    The control group of the class [Cgroup], the system-call filter, the child
    of [Sandbox::run] and [run] itself with the descriptors it opens and
    closes.  What the kernel answers is an argument; the calls made are a
    trace. *)

From stdpp Require Import base strings gmap list numbers.
From Stdlib Require Import ZArith Lia.
From S2P Require Import Prelude Text.

(** Calls on the control-group file system. *)
Inductive fs_op :=
  | Mkdir (path : string)
  | Write (path text : string)
  | Rmdir (path : string).

Definition CGROUP_ROOT : string := "/sys/fs/cgroup".

(** [if ((f = fopen(path, "w"))) { fprintf(f, text); fclose(f); }]. *)
Definition write_file (can_open : string -> bool) (path text : string) : list fs_op :=
  if can_open path then [Write path text] else [].

Module Cgroup.

Record CgroupConfig := mkConfig {
  path : string;
  memory_limit_bytes : Z;
  cpu_quota_us : Z;
  cpu_period_us : Z;
  pids_limit : Z
}.

Record Cgroup := mkCgroup { config_ : CgroupConfig; created_ : bool }.

Definition base (c : Cgroup) : string := CGROUP_ROOT +:+ path (config_ c).
Definition set_created (b : bool) (c : Cgroup) : Cgroup := mkCgroup (config_ c) b.

(** [mkdir_ok]: the directory was made, or existed. *)
Definition create (mkdir_ok : bool) (can_open : string -> bool) (c : Cgroup) : bool * Cgroup * list fs_op :=
  let cfg := config_ c in
  let made := Mkdir (base c) in
  if negb mkdir_ok then (false, c, [made])
  else
    (true, set_created true c,
     [made] ++
     write_file can_open (base c +:+ "/memory.max") (to_string (memory_limit_bytes cfg)) ++
     write_file can_open (base c +:+ "/cpu.max")
       (to_string (cpu_quota_us cfg) +:+ " " +:+ to_string (cpu_period_us cfg)) ++
     write_file can_open (base c +:+ "/pids.max") (to_string (pids_limit cfg))).

Definition add_pid (can_open : string -> bool) (pid : Z) (c : Cgroup) : bool * list fs_op :=
  if negb (created_ c) then (false, [])
  else
    let p := base c +:+ "/cgroup.procs" in
    if can_open p then (true, [Write p (to_string pid)]) else (false, []).

Definition destroy (c : Cgroup) : bool * Cgroup * list fs_op :=
  if negb (created_ c) then (true, c, []) else (true, set_created false c, [Rmdir (base c)]).

End Cgroup.

Module Seccomp.

(** A filter: the calls it allows; any other kills the process
    ([SCMP_ACT_KILL]). *)
Abbreviation filter := (list string).

Definition default_filter : filter :=
  [ "read"; "write"; "exit"; "exit_group"; "brk"; "mmap"; "munmap"; "close"; "fstat"; "clock_gettime";
    "rt_sigaction"; "rt_sigprocmask"; "clone"; "execve"; "wait4"; "dup2"; "fcntl" ].

(** [install_default_filter]: whether [seccomp_init] and [seccomp_load]
    succeed; the filters in force afterwards. *)
Definition install_default_filter (init_ok load_ok : bool) (installed : list filter) : bool * list filter :=
  if negb init_ok then (false, installed)
  else if load_ok then (true, default_filter :: installed) else (false, installed).

(** Whether a process under the filters survives a call. *)
Definition allowed (installed : list filter) (call : string) : bool :=
  forallb (fun f => bool_decide (call ∈ f)) installed.

End Seccomp.

Module Sandbox.

Record SandboxConfig := mkConfig {
  id : string;
  rootfs : string;
  memory_limit_bytes : Z;          (**r uint64_t *)
  cpu_quota_us : Z;                (**r uint32_t, as below *)
  cpu_period_us : Z;
  pids_limit : Z;
  enable_network : bool;
  enable_seccomp : bool
}.

(** [SandboxConfig cfg;] with its id. *)
Definition default_config (i : string) : SandboxConfig :=
  mkConfig i "/" (256 * 1024 * 1024) 100000 100000 64 false true.

Record ExecResult := mkResult {
  exit_code : Z;
  duration_ms : Z;
  stdout : string;
  stderr : string
}.

Record Sandbox := mkSandbox {
  config_ : SandboxConfig;
  cgroup_path_ : string;
  child_pid_ : Z;
  pipe_fd_ : Z * Z
}.

Definition new_sandbox (cfg : SandboxConfig) : Sandbox := mkSandbox cfg "" (-1) (-1, -1).

(** ** The child *)

(** What the child does, up to its [execve]. *)
Inductive child_op :=
  | Fs (op : fs_op)
  | LoadFilter (f : Seccomp.filter)
  | Dup2 (from to : Z)
  | Close (fd : Z)
  | Exec (file : string) (argv : list string)
  | Exit (code : Z).

Record ChildArgs := mkArgs { args_config : SandboxConfig; args_cgroup_path : string; args_pipe_fd : Z }.

(** [child_entry]; [my_pid] is the child's [getpid()], [init_ok] whether
    [seccomp_init] gives a context.  Whether a file opens, whether [mkdir],
    [dup2] or the filter work is not looked at. *)
Definition child_entry (can_open : string -> bool) (my_pid : Z) (init_ok : bool) (args : ChildArgs)
  : list child_op :=
  let cfg := args_config args in
  let cg_base := CGROUP_ROOT +:+ args_cgroup_path args in
  let write nm text := Fs <$> write_file can_open (cg_base +:+ nm) text in
  [Fs (Mkdir cg_base)] ++
  write "/memory.max" (to_string (memory_limit_bytes cfg)) ++
  write "/cpu.max" (to_string (cpu_quota_us cfg) +:+ " " +:+ to_string (cpu_period_us cfg)) ++
  write "/pids.max" (to_string (pids_limit cfg)) ++
  write "/cgroup.procs" (to_string my_pid) ++
  (if enable_seccomp cfg && init_ok then [LoadFilter Seccomp.default_filter] else []) ++
  [Dup2 (args_pipe_fd args) 1; Dup2 (args_pipe_fd args) 2; Close (args_pipe_fd args);
   Exec "/bin/sh" ["sh"; "-c"; c_str (rootfs cfg)]; Exit 127].

(** ** [run] *)

(** What the parent does. *)
Inductive sys_op :=
  | Pipe (r w : Z)
  | Clone (newpid newnet : bool) (child : list child_op)
  | CloseFd (fd : Z)
  | Waitpid (pid : Z)
  | RmdirCgroup (path : string).

(** What the kernel answers: the pipe, whether [malloc] gives the stack, the
    result of [clone] and its error, what each [read] of the pipe gives until
    the first that gives nothing, the child's wait status, the clock. *)
Record kernel := mkKernel {
  pipe_result : option (Z * Z);
  malloc_ok : bool;
  clone_result : Z;
  clone_error : string;
  chunks : list (list byte);
  wait_status : Z;
  time_start : Z;
  time_end : Z;
  child_can_open : string -> bool;
  child_pid : Z;
  seccomp_init_ok : bool
}.

Definition setup_cgroup (s : Sandbox) : bool * Sandbox :=
  (true, mkSandbox (config_ s) ("/devops-" +:+ id (config_ s)) (child_pid_ s) (pipe_fd_ s)).

(** [cleanup], also the destructor. *)
Definition cleanup (s : Sandbox) : Sandbox * list sys_op :=
  let '(r, w) := pipe_fd_ s in
  (mkSandbox (config_ s) (cgroup_path_ s) (child_pid_ s) (-1, -1),
   (if decide (1 < String.length (cgroup_path_ s))%nat then [RmdirCgroup (CGROUP_ROOT +:+ cgroup_path_ s)] else []) ++
   (if 0 <=? r then [CloseFd r] else []) ++ (if 0 <=? w then [CloseFd w] else [])).

Definition with_rootfs (cmd : string) (c : SandboxConfig) : SandboxConfig :=
  mkConfig (id c) cmd (memory_limit_bytes c) (cpu_quota_us c) (cpu_period_us c) (pids_limit c)
    (enable_network c) (enable_seccomp c).

(** The read loop: the calls of [output_fn] and the output. *)
Fixpoint read_output (chunks : list (list byte)) (calls : list string) (out : string) : list string * string :=
  match chunks with
  | [] => (calls, out)
  | [] :: _ => (calls, out)
  | buf :: chunks => read_output chunks (calls ++ [string_of buf]) (out +:+ string_of buf)
  end.

Definition decode_status (st : Z) : Z :=
  if WIFEXITED st then WEXITSTATUS st else if WIFSIGNALED st then 128 + WTERMSIG st else -1.

(** [run]: the result, the calls of [output_fn], the object and the trace. *)
Definition run (k : kernel) (command : string) (s : Sandbox)
  : outcome (ExecResult * list string * Sandbox * list sys_op) :=
  let '(_, s) := setup_cgroup s in
  match pipe_result k with
  | None => Ret (mkResult (-1) 0 "" "pipe() failed", [], s, [])
  | Some (r, w) =>
      let s := mkSandbox (config_ s) (cgroup_path_ s) (child_pid_ s) (r, w) in
      let args := mkArgs (with_rootfs command (config_ s)) (cgroup_path_ s) w in
      (* without a stack, clone() fails and free() is handed nullptr - 4096 *)
      if negb (malloc_ok k) then Undefined BadFree
      else if clone_result k <? 0 then
        let '(s, tr) := cleanup (mkSandbox (config_ s) (cgroup_path_ s) (clone_result k) (pipe_fd_ s)) in
        Ret (mkResult (-1) 0 "" ("clone() failed: " +:+ clone_error k), [], s, [Pipe r w] ++ tr)
      else
        let child := child_entry (child_can_open k) (child_pid k) (seccomp_init_ok k) args in
        let s := mkSandbox (config_ s) (cgroup_path_ s) (clone_result k) (r, -1) in
        let '(calls, out) := read_output (chunks k) [] "" in
        let '(s', tr) := cleanup s in
        Ret (mkResult (decode_status (wait_status k)) (time_end k - time_start k) out "", calls, s',
             [Pipe r w; Clone true (negb (enable_network (config_ s))) child; CloseFd w;
              Waitpid (clone_result k)] ++ tr)
  end.

(** [run] where there is no [__linux__]: no call of [output_fn]. *)
Definition run_unsupported (command : string) : ExecResult * list string :=
  (mkResult (-1) 0 "" "sandbox only supported on Linux (use Docker or VM for macOS)", []).

(** ** Lemmas *)

Fixpoint concat_all (l : list string) : string :=
  match l with [] => "" | s :: l => s +:+ concat_all l end.

Lemma read_output_spec chunks calls out :
  Forall (fun c => c <> []) chunks ->
  read_output chunks calls out = (calls ++ (string_of <$> chunks), out +:+ concat_all (string_of <$> chunks)).
Proof.
  intros H. revert calls out. induction H as [|c chunks Hc _ IH]; intros calls out; cbn [read_output fmap list_fmap].
  - by rewrite app_nil_r, string_app_nil.
  - destruct c as [|b c]; [done|]. rewrite IH, <- app_assoc. cbn [concat_all app].
    by rewrite string_app_assoc.
Qed.

Lemma devops_path_long i : (1 < String.length ("/devops-" +:+ i))%nat.
Proof. change (1 < 8 + String.length i)%nat. lia. Qed.

(** An exit code is -1, that of the child, or 128 plus a signal. *)
Lemma decode_status_range st : -1 <= decode_status st <= 255.
Proof.
  unfold decode_status. pose proof (WEXITSTATUS_range st).
  assert (0 <= WTERMSIG st < 128) by (rewrite WTERMSIG_mod; apply Z.mod_pos_bound; lia).
  repeat case_match; lia.
Qed.

Lemma run_exit_code k command s res lines s' trace :
  run k command s = Ret (res, lines, s', trace) -> -1 <= exit_code res <= 255.
Proof.
  unfold run. destruct (setup_cgroup s) as [b s0]. destruct (pipe_result k) as [[r w]|];
    [|intros [= <- <- <- <-]; cbn; lia].
  destruct (malloc_ok k); cbn [negb]; [|done]. destruct (clone_result k <? 0).
  - destruct (cleanup _) as [s1 tr]. intros [= <- <- <- <-]. cbn. lia.
  - destruct (read_output _ _ _) as [calls out]. destruct (cleanup _) as [s1 tr].
    intros [= <- <- <- <-]. cbn [exit_code]. apply decode_status_range.
Qed.

(** The calls [child_entry] still makes once its filter is loaded. *)
Definition calls_after_filter : list string := ["dup2"; "dup2"; "close"; "execve"; "exit_group"].

(** How often a descriptor is closed. *)
Fixpoint closes (fd : Z) (tr : list sys_op) : nat :=
  match tr with
  | [] => O
  | CloseFd f :: tr => if decide (f = fd) then S (closes fd tr) else closes fd tr
  | _ :: tr => closes fd tr
  end.

(** ** Properties *)

(** C12: a run that gets its pipe and its child.  [output_fn] is called once
    for every piece [read] returns (at most 4096 bytes, wherever it ends), in
    order, and not once for each line, as sandbox.hpp says; the result's
    output is the concatenation of the pieces; its exit code is the child's,
    or 128 plus the signal that ended it; standard error stays empty (the
    child writes both streams to the one pipe).  Both ends of the pipe are
    closed exactly once, and the child, cloned into a PID namespace of its own
    and, unless the network is enabled, a network namespace, runs the command
    given. *)
Theorem run_reports_child (k : kernel) (command : string) (cfg : SandboxConfig) (r w : Z)
    (Hpipe : pipe_result k = Some (r, w)) (Hr : 0 <= r) (Hw : 0 <= w) (Hne : r <> w)
    (Hm : malloc_ok k = true) (Hc : 0 <= clone_result k) (Hch : Forall (fun c => c <> []) (chunks k)) :
  exists res calls s' tr, run k command (new_sandbox cfg) = Ret (res, calls, s', tr) /\
  calls = string_of <$> chunks k /\ stdout res = concat_all calls /\ stderr res = "" /\
  (forall c, 0 <= c < 256 -> wait_status k = exited c -> exit_code res = c) /\
  (forall sig, 0 < sig < 127 -> wait_status k = signaled sig -> exit_code res = 128 + sig) /\
  pipe_fd_ s' = (-1, -1) /\ closes r tr = 1%nat /\ closes w tr = 1%nat /\
  exists child, Clone true (negb (enable_network cfg)) child ∈ tr /\
                Exec "/bin/sh" ["sh"; "-c"; c_str command] ∈ child.
Proof.
  unfold run, setup_cgroup, new_sandbox. cbn [config_ cgroup_path_ child_pid_]. rewrite Hpipe, Hm. cbn [negb].
  rewrite (proj2 (Z.ltb_ge _ _)) by done. rewrite read_output_spec by done. unfold cleanup. cbn [pipe_fd_ cgroup_path_].
  rewrite (proj2 (Z.leb_le 0 r)) by done.
  rewrite decide_True by apply devops_path_long.
  do 4 eexists. split; [reflexivity|]. split; [done|]. cbn [stdout stderr exit_code app]. split; [done|].
  split; [done|]. split.
  { intros c Hc' ->. destruct (wait_exited c Hc') as [E1 E2]. unfold decode_status. by rewrite E1. }
  split.
  { intros sig Hs ->. destruct (wait_signaled sig Hs) as (E1 & E2 & E3). unfold decode_status.
    by rewrite E1, E2, E3. }
  split; [done|]. change (0 <=? -1) with false. cbn [closes app].
  split; [by rewrite decide_False, decide_True by congruence|].
  split; [by rewrite decide_True, decide_False by congruence|]. eexists. split; [right; left|].
  unfold child_entry. rewrite !elem_of_app. cbn. set_solver.
Qed.

(** A run that fails before its child exists.  Without a pipe or without a
    child the exit code is -1, no output is reported and no descriptor stays
    open; but when [malloc] has no memory for the child's stack, the error
    path frees a pointer that [malloc] never returned. *)
Theorem run_errors (k : kernel) (command : string) (cfg : SandboxConfig) (r w : Z)
    (Hr : 0 <= r) (Hw : 0 <= w) (Hne : r <> w) :
  (pipe_result k = None ->
   exists s', run k command (new_sandbox cfg) = Ret (mkResult (-1) 0 "" "pipe() failed", [], s', []) /\
              pipe_fd_ s' = (-1, -1)) /\
  (pipe_result k = Some (r, w) -> malloc_ok k = false -> run k command (new_sandbox cfg) = Undefined BadFree) /\
  (pipe_result k = Some (r, w) -> malloc_ok k = true -> clone_result k < 0 ->
   exists res s' tr, run k command (new_sandbox cfg) = Ret (res, [], s', tr) /\
   exit_code res = -1 /\ stdout res = "" /\ pipe_fd_ s' = (-1, -1) /\
   closes r tr = 1%nat /\ closes w tr = 1%nat).
Proof.
  unfold run, setup_cgroup, new_sandbox. cbn [config_ cgroup_path_ child_pid_ pipe_fd_]. split; [|split].
  - intros ->. by eexists.
  - intros -> ->. done.
  - intros -> -> Hc. cbn [negb]. rewrite (proj2 (Z.ltb_lt _ _)) by done. unfold cleanup. cbn [pipe_fd_ cgroup_path_].
    rewrite (proj2 (Z.leb_le 0 r)), (proj2 (Z.leb_le 0 w)) by done. rewrite decide_True by apply devops_path_long.
    do 3 eexists. split; [reflexivity|]. cbn [app closes exit_code stdout pipe_fd_].
    do 3 (split; [done|]).
    split; [by rewrite decide_True, decide_False by congruence|by rewrite decide_False, decide_True by congruence].
Qed.

(** The limits fail open.  Whatever can be written to the control group and
    whether or not a filter can be made, the child goes on to run the command;
    when no file of the group opens it does so with no limit at all, and when
    [seccomp_init] fails with no filter.  The filter, when there is one, is
    loaded before the descriptors are redirected, and allows the calls the
    child still makes (not [openat]). *)
Theorem limits_fail_open can_open my_pid init_ok (args : ChildArgs) :
  let ops := child_entry can_open my_pid init_ok args in
  let cfg := args_config args in
  (exists limits,
     ops = limits ++ (if enable_seccomp cfg && init_ok then [LoadFilter Seccomp.default_filter] else []) ++
           [Dup2 (args_pipe_fd args) 1; Dup2 (args_pipe_fd args) 2; Close (args_pipe_fd args);
            Exec "/bin/sh" ["sh"; "-c"; c_str (rootfs cfg)]; Exit 127] /\
     ((forall p, can_open p = false) -> limits = [Fs (Mkdir (CGROUP_ROOT +:+ args_cgroup_path args))])) /\
  Forall (fun c => Seccomp.allowed [Seccomp.default_filter] c = true) calls_after_filter /\
  Seccomp.allowed [Seccomp.default_filter] "openat" = false.
Proof.
  intros ops cfg. split; [|split; [repeat constructor|reflexivity]].
  unfold ops, child_entry. fold cfg.
  set (wr := fun nm text => Fs <$> write_file can_open (CGROUP_ROOT +:+ args_cgroup_path args +:+ nm) text).
  exists ([Fs (Mkdir (CGROUP_ROOT +:+ args_cgroup_path args))] ++
     wr "/memory.max" (to_string (memory_limit_bytes cfg)) ++
     wr "/cpu.max" (to_string (cpu_quota_us cfg) +:+ " " +:+ to_string (cpu_period_us cfg)) ++
     wr "/pids.max" (to_string (pids_limit cfg)) ++ wr "/cgroup.procs" (to_string my_pid)).
  split; [by rewrite <- !app_assoc|]. intros H. unfold wr, write_file. by rewrite !H.
Qed.

(** ** Witnesses *)

Definition demo_kernel (malloc : bool) (clone st : Z) : kernel :=
  mkKernel (Some (3, 4)) malloc clone "" [bytes_of "hello "; bytes_of "world"] st 10 12 (fun _ => true) 1 true.

Lemma run_reports_child_witness :
  exists res calls s' tr,
    run (demo_kernel true 42 (signaled 31)) "echo hello world" (new_sandbox (default_config "j")) =
    Ret (res, calls, s', tr) /\
  stdout res = "hello world" /\ exit_code res = 159 /\ closes 3 tr = 1%nat.
Proof.
  destruct (run_reports_child (demo_kernel true 42 (signaled 31)) "echo hello world" (default_config "j") 3 4
    eq_refl ltac:(lia) ltac:(lia) ltac:(lia) eq_refl ltac:(vm_compute; discriminate)
    ltac:(repeat constructor; discriminate))
    as (res & calls & s' & tr & E & Ec & Eo & _ & _ & Es & _ & Er & _).
  exists res, calls, s', tr. split; [exact E|]. split; [rewrite Eo, Ec; reflexivity|].
  split; [exact (Es 31 ltac:(lia) eq_refl)|exact Er].
Defined.

Lemma run_errors_witness :
  run (demo_kernel false 42 0) "true" (new_sandbox (default_config "j")) = Undefined BadFree.
Proof.
  exact (proj1 (proj2 (run_errors (demo_kernel false 42 0) "true" (default_config "j") 3 4
    ltac:(lia) ltac:(lia) ltac:(lia))) eq_refl eq_refl).
Defined.

End Sandbox.

(** ** The control group's life *)

(** Nothing is joined or removed before [create]; after it, [destroy] removes
    the directory once. *)
Lemma cgroup_life (can_open : string -> bool) (pid : Z) (c c' : Cgroup.Cgroup) tr :
  Cgroup.create true can_open c = (true, c', tr) ->
  Cgroup.created_ c' = true /\ Mkdir (Cgroup.base c) ∈ tr /\
  (Cgroup.add_pid can_open pid c').1 = can_open (Cgroup.base c +:+ "/cgroup.procs") /\
  let '(_, c'', tr') := Cgroup.destroy c' in
  tr' = [Rmdir (Cgroup.base c)] /\ Cgroup.destroy c'' = (true, c'', []) /\
  Cgroup.add_pid can_open pid c'' = (false, []).
Proof.
  intros H. unfold Cgroup.create in H. cbn [negb] in H. simplify_eq. split; [done|]. split; [by left|].
  split; [|done]. unfold Cgroup.add_pid. cbn. by destruct (can_open _).
Qed.
