(* ===== verification/FileWatcher.v ===== *)
(** * File events: [sandbox/src/file_watcher.cpp]

    The watches, the inotify descriptor and the decoding of the event buffer
    by [poll_loop].  The kernel's side of the buffer (an event is its fixed
    part and its NUL-padded name) is written out to state the round trip. *)

From stdpp Require Import base strings gmap list numbers.
From Stdlib Require Import ZArith Lia.
From S2P Require Import Prelude Descriptors Text.

Module FileWatcher.

Record FileEvent := mkEvent { path : string; mask : Z }.

Record FileWatcher := mkWatcher {
  inotify_fd_ : Z;
  watch_fds_ : list Z;
  callback_ : bool;               (**r set *)
  running_ : bool
}.

Definition new_watcher : FileWatcher := mkWatcher (-1) [] false false.

(** Calls on the inotify instance. *)
Inductive inotify_op := InitFd (fd : Z) | AddWatch (fd : Z) (p : string) (m : Z) | RmWatch (fd wd : Z) | CloseFd (fd : Z).

(** [watch]: [init_fd] is what [inotify_init1] gives, [wd] the new watch. *)
Definition watch (init_fd wd : Z) (p : string) (m : Z) (w : FileWatcher) : bool * FileWatcher * list inotify_op :=
  let '(fd, init) := if inotify_fd_ w <? 0 then (init_fd, [InitFd init_fd]) else (inotify_fd_ w, []) in
  let w := mkWatcher fd (watch_fds_ w) (callback_ w) (running_ w) in
  if fd <? 0 then (false, w, init)
  else if wd <? 0 then (false, w, init ++ [AddWatch fd (c_str p) m])
  else (true, mkWatcher fd (watch_fds_ w ++ [wd]) (callback_ w) (running_ w), init ++ [AddWatch fd (c_str p) m]).

(** What the calls do to descriptors. *)
Fixpoint fd_calls (ops : list inotify_op) : list fd_call :=
  match ops with
  | [] => []
  | InitFd fd :: ops => opens fd ++ fd_calls ops
  | CloseFd fd :: ops => Closed fd :: fd_calls ops
  | _ :: ops => fd_calls ops
  end.

Definition on_change (w : FileWatcher) : FileWatcher := mkWatcher (inotify_fd_ w) (watch_fds_ w) true (running_ w).

(** [start]: whether a thread is created. *)
Definition start (w : FileWatcher) : bool * FileWatcher :=
  if running_ w then (false, w) else (true, mkWatcher (inotify_fd_ w) (watch_fds_ w) (callback_ w) true).

Definition stop (w : FileWatcher) : FileWatcher * list inotify_op :=
  if 0 <=? inotify_fd_ w then
    (mkWatcher (-1) (watch_fds_ w) (callback_ w) false,
     (RmWatch (inotify_fd_ w) <$> watch_fds_ w) ++ [CloseFd (inotify_fd_ w)])
  else (mkWatcher (inotify_fd_ w) (watch_fds_ w) (callback_ w) false, []).

(** ** The event buffer *)

(** [sizeof(inotify_event)], the size of the buffer. *)
Definition EVENT_SIZE : nat := 16.
Definition BUF_LEN : nat := 1024 * (EVENT_SIZE + 16).

(** [n] bytes of [buf] at [pos]; past its end the access is undefined. *)
Definition read_at (buf : list byte) (pos n : nat) : outcome (list byte) :=
  if decide (pos + n <= length buf)%nat then Ret (take n (drop pos buf)) else Undefined OutOfBounds.

(** A C string at [pos]: up to the first NUL. *)
Fixpoint c_string (bytes : list byte) : outcome (list byte) :=
  match bytes with
  | [] => Undefined OutOfBounds
  | b :: bytes => if decide (b = byte_of 0) then Ret [] else s ← c_string bytes; Ret (b :: s)
  end.

(** [while (ptr < buf + len)]: the events handed to the callback. *)
Fixpoint parse_loop (fuel : nat) (buf : list byte) (len ptr : nat) (cb : bool) (events : list FileEvent)
  : outcome (list FileEvent) :=
  match fuel with
  | O => NoFuel
  | S fuel =>
      if decide (ptr < len)%nat then
        fixed ← read_at buf ptr EVENT_SIZE;
        let event_mask := le_val (take 4 (drop 4 fixed)) in
        let event_len := le_val (take 4 (drop 12 fixed)) in
        events ← (if cb then
                    p ← (if 0 <? event_len then c_string (drop (ptr + EVENT_SIZE) buf) else Ret []);
                    Ret (events ++ [mkEvent (string_of p) event_mask])
                  else Ret events);
        parse_loop fuel buf len (ptr + (EVENT_SIZE + Z.to_nat event_len)) cb events
      else Ret events
  end.

(** One turn of [poll_loop]: [read] puts [data] at the front of the buffer. *)
Definition poll_turn (buf data : list byte) (w : FileWatcher) : outcome (list byte * list FileEvent) :=
  let d := take BUF_LEN data in
  let buf := d ++ drop (length d) buf in
  if decide (length d = O) then Ret (buf, [])
  else
    events ← parse_loop (S (length d)) buf (length d) 0 (callback_ w) [];
    Ret (buf, events).

(** ** The kernel's side *)

Record kernel_event := mkKEvent { kwd : Z; kmask : Z; kcookie : Z; kname : string; kpad : nat }.

Definition name_field (e : kernel_event) : list byte :=
  if decide (kname e = "") then [] else bytes_of (kname e) ++ replicate (S (kpad e)) (byte_of 0).

Definition encode_event (e : kernel_event) : list byte :=
  le_bytes 4 (kwd e) ++ le_bytes 4 (kmask e) ++ le_bytes 4 (kcookie e) ++
  le_bytes 4 (Z.of_nat (length (name_field e))) ++ name_field e.

Fixpoint encode_events (es : list kernel_event) : list byte :=
  match es with [] => [] | e :: es => encode_event e ++ encode_events es end.

Definition wf_event (e : kernel_event) : Prop :=
  in_u32 (kmask e) /\ nul_free (kname e) /\ Z.of_nat (length (name_field e)) < 2 ^ 32.

(** ** Lemmas *)

Lemma length_encode_event e : length (encode_event e) = (EVENT_SIZE + length (name_field e))%nat.
Proof. unfold encode_event. rewrite !length_app, !length_le_bytes. done. Qed.

Lemma read_at_mid pre mid post n :
  n = length mid -> read_at (pre ++ mid ++ post) (length pre) n = Ret mid.
Proof.
  intros ->. unfold read_at. rewrite decide_True by (rewrite !length_app; lia).
  by rewrite drop_app_length, take_app_length.
Qed.

Lemma c_string_nul_free bs post :
  Forall (fun b => b <> byte_of 0) bs -> c_string (bs ++ byte_of 0 :: post) = Ret bs.
Proof.
  induction 1 as [|b bs Hb _ IH]; cbn [c_string app]; [by rewrite decide_True|].
  rewrite decide_False by done. by rewrite IH.
Qed.

Definition event_of (e : kernel_event) : FileEvent := mkEvent (kname e) (kmask e).

(** One event at the position the loop has reached. *)
Lemma parse_one fuel pre e post len cb events :
  wf_event e -> (length pre < len)%nat ->
  parse_loop (S fuel) (pre ++ encode_event e ++ post) len (length pre) cb events =
  parse_loop fuel (pre ++ encode_event e ++ post) len (length (pre ++ encode_event e)) cb
    (if cb then events ++ [event_of e] else events).
Proof.
  intros (Hm & Hn & Hl) Hlt. cbn [parse_loop]. rewrite decide_True by done.
  set (f1 := le_bytes 4 (kwd e)). set (f2 := le_bytes 4 (kmask e)). set (f3 := le_bytes 4 (kcookie e)).
  set (f4 := le_bytes 4 (Z.of_nat (length (name_field e)))).
  set (buf := pre ++ encode_event e ++ post).
  assert (Eb : buf = pre ++ (f1 ++ f2 ++ f3 ++ f4) ++ (name_field e ++ post)).
  { unfold buf, encode_event. by rewrite <- !app_assoc. }
  assert (Ef : read_at buf (length pre) EVENT_SIZE = Ret (f1 ++ f2 ++ f3 ++ f4)).
  { rewrite Eb. apply read_at_mid. unfold f1, f2, f3, f4. rewrite !length_app, !length_le_bytes. done. }
  rewrite Ef. cbn [mbind outcome_bind].
  replace (take 4 (drop 4 (f1 ++ f2 ++ f3 ++ f4))) with f2; cycle 1.
  { rewrite (drop_app_length' f1) by (symmetry; apply length_le_bytes).
    by rewrite take_app_length' by (symmetry; apply length_le_bytes). }
  replace (take 4 (drop 12 (f1 ++ f2 ++ f3 ++ f4))) with f4; cycle 1.
  { rewrite !app_assoc. rewrite drop_app_length' by (unfold f1, f2, f3; rewrite !length_app, !length_le_bytes; done).
    symmetry. apply take_ge. unfold f4. by rewrite length_le_bytes. }
  unfold f2, f4. rewrite !le_val_bytes, !wrap_small by (unfold in_u32 in *; change (2 ^ (8 * Z.of_nat 4)) with (2 ^ 32); lia).
  rewrite Nat2Z.id. rewrite length_app, length_encode_event.
  destruct cb; cbn [mbind outcome_bind]; [|done].
  replace (if 0 <? _ then _ else _) with (Ret (bytes_of (kname e))); cycle 1.
  { replace (drop (length pre + EVENT_SIZE) buf) with (name_field e ++ post); cycle 1.
    { rewrite Eb, app_assoc. symmetry. apply drop_app_length'.
      unfold f1, f2, f3, f4. rewrite !length_app, !length_le_bytes. done. }
    unfold name_field. destruct (decide (kname e = "")) as [->|Hne]; [done|].
    rewrite (proj2 (Z.ltb_lt _ _)) by (rewrite length_app; cbn; lia).
    cbn [replicate]. rewrite <- app_assoc. cbn [app]. symmetry. apply c_string_nul_free. by apply nul_free_bytes. }
  cbn [mbind outcome_bind]. by rewrite string_of_bytes.
Qed.

Lemma parse_all es fuel pre post cb events :
  Forall wf_event es -> (length es < fuel)%nat ->
  parse_loop fuel (pre ++ encode_events es ++ post) (length (pre ++ encode_events es)) (length pre) cb events =
  Ret (if cb then events ++ (event_of <$> es) else events).
Proof.
  intros H. revert fuel pre events. induction H as [|e es He _ IH]; intros fuel pre events Hf;
    (destruct fuel as [|fuel]; [cbn in Hf; lia|]); cbn [encode_events].
  - cbn [parse_loop fmap list_fmap]. rewrite !app_nil_r. rewrite decide_False by lia. by destruct cb.
  - rewrite <- app_assoc. rewrite parse_one; [|done|rewrite !length_app, length_encode_event; cbn; lia].
    rewrite (app_assoc pre (encode_event e)), (app_assoc pre (encode_event e)).
    rewrite IH by (cbn in Hf; lia). cbn [fmap list_fmap]. destruct cb; [|done]. by rewrite <- app_assoc.
Qed.

(** The fuel of [poll_turn] is enough for any bytes. *)
Lemma c_string_fuel bytes : c_string bytes <> NoFuel.
Proof.
  induction bytes as [|b bytes IH]; simpl; [done|]. case_decide; [done|].
  by destruct (c_string bytes).
Qed.

Lemma parse_loop_fuel fuel buf len ptr cb events :
  (len - ptr < fuel)%nat -> parse_loop fuel buf len ptr cb events <> NoFuel.
Proof.
  revert ptr events. induction fuel as [|fuel IH]; intros ptr events Hf; [lia|]. simpl.
  case_decide; [|done]. unfold read_at. case_decide; simpl; [|done].
  destruct cb; simpl; [|apply IH; unfold EVENT_SIZE; lia].
  case_match; simpl; [|apply IH; unfold EVENT_SIZE; lia].
  pose proof (c_string_fuel (drop (ptr + EVENT_SIZE) buf)).
  destruct (c_string _); simpl; [apply IH; unfold EVENT_SIZE; lia|done..].
Qed.

Lemma poll_turn_fuel buf data w : poll_turn buf data w <> NoFuel.
Proof.
  unfold poll_turn. case_decide; [done|].
  match goal with |- context [parse_loop ?f ?b ?l ?p ?c ?e] =>
    pose proof (parse_loop_fuel f b l p c e) as Hp; destruct (parse_loop f b l p c e) end; simpl; [done..|].
  exfalso. apply Hp; [lia|done].
Qed.

Lemma length_encode_events es : (length es <= length (encode_events es))%nat.
Proof.
  induction es as [|e es IH]; cbn [encode_events length]; [lia|].
  rewrite length_app, length_encode_event. unfold EVENT_SIZE. lia.
Qed.

(** ** Properties *)

(** C38: [poll_loop] delivers the events the kernel wrote, all of them, in order
    and with the names and masks they were written with, whatever the buffer
    held before; it ends, and stays inside the buffer. *)
Theorem events_roundtrip (es : list kernel_event) (buf : list byte) (w : FileWatcher)
    (Hes : Forall wf_event es) (Hne : es <> []) (Hfit : (length (encode_events es) <= BUF_LEN)%nat) :
  exists buf', poll_turn buf (encode_events es) w =
  Ret (buf', if callback_ w then event_of <$> es else []).
Proof.
  unfold poll_turn. rewrite take_ge by done.
  pose proof (length_encode_events es) as Hl.
  assert (0 < length es)%nat by (destruct es; [done|cbn; lia]).
  rewrite decide_False by lia.
  pose proof (parse_all es (S (length (encode_events es))) [] (drop (length (encode_events es)) buf) (callback_ w) []
    Hes ltac:(lia)) as E.
  cbn [app length] in E. rewrite E. cbn [mbind outcome_bind]. by eexists.
Qed.

(** Stopping does not forget the watches: a watcher that is used again and
    stopped removes the old instance's watches from the new one. *)
Lemma stop_keeps_watches wd1 wd2 p m :
  0 <= wd1 -> 0 <= wd2 ->
  let w1 := (watch 5 wd1 p m new_watcher).1.2 in
  let w2 := (watch 6 wd2 p m (stop w1).1).1.2 in
  (stop w2).2 = [RmWatch 6 wd1; RmWatch 6 wd2; CloseFd 6].
Proof.
  intros H1 H2. unfold watch, new_watcher. cbn. rewrite (proj2 (Z.ltb_ge wd1 0)) by done. cbn.
  rewrite (proj2 (Z.ltb_ge wd2 0)) by done. done.
Qed.

(** ** Witnesses *)

Lemma events_roundtrip_witness :
  exists buf', poll_turn [] (encode_events [mkKEvent 1 256 0 "a.txt" 10; mkKEvent 1 2 0 "" 0])
                 (on_change new_watcher) =
  Ret (buf', [mkEvent "a.txt" 256; mkEvent "" 2]).
Proof.
  apply (events_roundtrip [mkKEvent 1 256 0 "a.txt" 10; mkKEvent 1 2 0 "" 0] [] (on_change new_watcher)).
  - repeat constructor; vm_compute; try discriminate; reflexivity.
  - discriminate.
  - apply Nat.leb_le. vm_compute. reflexivity.
Defined.

End FileWatcher.
