(* ===== verification/Snapshot.v ===== *)
(** * Snapshots: [sandbox/src/snapshot.cpp]

    The metadata file a snapshot is described by (written as JSON text, read
    back by searching it), and the operations on the directory of snapshots.
    Of the contents of a snapshot only what a later operation looks at is
    kept: the metadata text, the saved pids and which parts exist; its size
    and its checksum (a pipeline of shell commands) are arguments.  The
    contents themselves are in [SnapshotFiles.v]. *)

From stdpp Require Import base strings gmap list numbers sorting.
From Stdlib Require Import ZArith Lia.
From S2P Require Import Prelude Text Sandbox.

Module Snapshot.

Record SnapshotConfig := mkConfig {
  config_sandbox_id : string;
  snapshot_dir : string;
  include_memory : bool;
  include_network : bool;
  include_processes : bool;
  compress : bool              (**r nothing reads it *)
}.

(** [None]: a member the code has not assigned. *)
Record SnapshotMeta := mkMeta {
  id : string;
  sandbox_id : string;
  timestamp : option Z;
  size_bytes : option Z;
  checksum : string;
  description : string;
  included_components : list string
}.

(** One directory of [snapshots_dir_]. *)
Record snapdir := mkDir {
  meta_json : option string;
  pids_txt : option (list string);
  has_proc : bool;
  has_memory : bool;
  has_network : bool
}.
Definition empty_dir : snapdir := mkDir None None false false false.
Abbreviation directory := (gmap string snapdir).

(** ** The metadata text *)

Definition NL : string := String (byte_of 10) "".
Definition IND : string := NL +:+ "        ".
Definition quoted_text (s : string) : string := DQ +:+ s +:+ DQ.

Definition meta_text (m : SnapshotMeta) : string :=
  "{" +:+ IND +:+ DQ +:+ "id" +:+ DQ +:+ ": " +:+ DQ +:+ id m +:+ DQ +:+ ("," +:+ IND) +:+
  DQ +:+ "sandbox_id" +:+ DQ +:+ ": " +:+ DQ +:+ sandbox_id m +:+ DQ +:+ ("," +:+ IND) +:+
  DQ +:+ "timestamp" +:+ DQ +:+ (": " +:+ to_string (default 0 (timestamp m)) +:+ "," +:+ IND) +:+
  DQ +:+ "size_bytes" +:+ DQ +:+ (": " +:+ to_string (default 0 (size_bytes m)) +:+ "," +:+ IND) +:+
  DQ +:+ "checksum" +:+ DQ +:+ ": " +:+ DQ +:+ checksum m +:+ DQ +:+ ("," +:+ IND) +:+
  DQ +:+ "description" +:+ DQ +:+ ": " +:+ DQ +:+ description m +:+ DQ +:+ NL +:+ "    }".

Definition key (kw : string) : string := DQ +:+ (kw +:+ DQ +:+ ":").

(** [if ((pos = content.find(key)) != npos) m = std::stoull(content.substr(pos + 13));] *)
Definition read_number (content kw : string) : outcome (option Z) :=
  match find content (key kw) 0 with
  | None => Ret None
  | Some pos => s ← substr_from content (pos + 13); n ← stoull s; Ret (Some n)
  end.

(** [npos] is the greatest [size_t]: [npos + 1] is 0. *)
Definition after_npos (p : option nat) : nat := match p with Some p => S p | None => O end.

Definition read_checksum (content : string) : outcome string :=
  match find content (key "checksum") 0 with
  | None => Ret ""
  | Some pos =>
      let start := after_npos (find content DQ (pos + 12)) in
      match find content DQ start with
      | Some e => substr content start (e - start)
      | None => substr_from content start
      end
  end.

(** The file as [get_meta] reads it, and as [list] does. *)
Definition parse_meta (sid nm content : string) : outcome SnapshotMeta :=
  ts ← read_number content "timestamp";
  sz ← read_number content "size_bytes";
  Ret (mkMeta nm sid ts sz "" "" []).

Definition parse_entry (sid nm content : string) : outcome SnapshotMeta :=
  m ← parse_meta sid nm content;
  ck ← read_checksum content;
  Ret (mkMeta nm sid (timestamp m) (size_bytes m) ck "" []).

(** ** Operations *)

(** [pid_t pid = std::stoi(line)] for every line. *)
Fixpoint parse_pids (lines : list string) : outcome (list Z) :=
  match lines with
  | [] => Ret []
  | l :: lines => p ← stoi l; ps ← parse_pids lines; Ret (p :: ps)
  end.

(** The file [create] reads the processes of a sandbox from. *)
Definition cgroup_procs (sid : string) : string := "/sys/fs/cgroup/sandbox-" +:+ sid +:+ "/cgroup.procs".

(** [create]: the time in milliseconds, the files that open with their lines,
    the total size and the checksum of what was saved. *)
Definition create (cfg : SnapshotConfig) (desc : string) (now : Z) (files : string -> option (list string))
    (total_size : Z) (sum : string) (d : directory) : outcome (SnapshotMeta * directory) :=
  let snap_id := "snap-" +:+ to_string now in
  let dir := default empty_dir (d !! snap_id) in
  '(dir, comps) ← (if include_processes cfg then
    match files (cgroup_procs (config_sandbox_id cfg)) with
    | Some lines =>
        pids ← parse_pids lines;
        let proc := has_proc dir || negb (bool_decide (pids = [])) in
        Ret (mkDir (meta_json dir) (Some (to_string <$> pids)) proc (has_memory dir) (has_network dir),
             ["processes"])
    | None => Ret (dir, [])
    end else Ret (dir, []));
  let '(dir, comps) :=
    if include_memory cfg
    then (mkDir (meta_json dir) (pids_txt dir) (has_proc dir) true (has_network dir), comps ++ ["memory"])
    else (dir, comps) in
  let '(dir, comps) :=
    if include_network cfg
    then (mkDir (meta_json dir) (pids_txt dir) (has_proc dir) (has_memory dir) true, comps ++ ["network"])
    else (dir, comps) in
  let m := mkMeta snap_id (config_sandbox_id cfg) (Some now) (Some total_size) sum desc comps in
  Ret (m, <[snap_id := mkDir (Some (meta_text m)) (pids_txt dir) (has_proc dir) (has_memory dir) (has_network dir)]> d).

(** [restore]: the shell commands it runs.  The loops over the saved pids and
    maps only parse them. *)
Definition restore (dir_path : string) (rules_exist : bool) (nm : string) (d : directory)
  : outcome (bool * list string) :=
  match d !! nm with
  | None => Ret (false, [])
  | Some dir =>
      let net := dir_path +:+ "/" +:+ nm +:+ "/network" in
      let cmds := if has_network dir && rules_exist
                  then ["iptables-restore < " +:+ net +:+ "/iptables.rules 2>/dev/null"] else [] in
      _ ← (if has_proc dir then
             match pids_txt dir with Some lines => parse_pids lines | None => Ret [] end
           else Ret []);
      Ret (true, cmds)
  end.

(** The entries [list] pushes, over the directory in the order [names]. *)
Fixpoint read_entries (sid : string) (names : list string) (d : directory) : outcome (list SnapshotMeta) :=
  match names with
  | [] => Ret []
  | nm :: names =>
      match (d !! nm) ≫= meta_json with
      | Some content =>
          m ← parse_entry sid nm content; ms ← read_entries sid names d; Ret (m :: ms)
      | None => read_entries sid names d
      end
  end.

(** [a.timestamp > b.timestamp], or equal: the order of the result. *)
Definition newer (a b : SnapshotMeta) : Prop := default 0 (timestamp b) <= default 0 (timestamp a).
#[global] Instance newer_dec : RelDecision newer.
Proof. intros a b. unfold newer. apply _. Defined.
#[global] Instance newer_total : Total newer.
Proof. intros a b. unfold newer. lia. Qed.
#[global] Instance newer_trans : Transitive newer.
Proof. intros a b c. unfold newer. lia. Qed.

(** [list]; comparing an unassigned timestamp reads an indeterminate value. *)
Definition list_snapshots (sid : string) (names : list string) (d : directory) : outcome (list SnapshotMeta) :=
  ms ← read_entries sid names d;
  if decide (2 <= length ms)%nat then
    if forallb (fun m => bool_decide (is_Some (timestamp m))) ms then Ret (merge_sort newer ms)
    else Undefined Indeterminate
  else Ret ms.

Definition remove (nm : string) (d : directory) : bool * directory :=
  match d !! nm with Some _ => (true, delete nm d) | None => (false, d) end.

Definition get_meta (sid nm : string) (d : directory) : outcome (option SnapshotMeta) :=
  match (d !! nm) ≫= meta_json with
  | Some content => m ← parse_meta sid nm content; Ret (Some m)
  | None => Ret None
  end.

(** [export_to]: the command, and whether it succeeds. *)
Definition export_to (dir_path : string) (succeeds : string -> bool) (nm file : string) (d : directory)
  : bool * list string :=
  match d !! nm with
  | None => (false, [])
  | Some _ =>
      let cmd := "tar -czf " +:+ file +:+ " -C " +:+ dir_path +:+ " " +:+ nm in (succeeds cmd, [cmd])
  end.

(** The first directory with a metadata file, in the order of the iterator. *)
Fixpoint first_with_meta (names : list string) (d : directory) : option string :=
  match names with
  | [] => None
  | nm :: names => match (d !! nm) ≫= meta_json with Some _ => Some nm | None => first_with_meta names d end
  end.

(** [import_from]: [extracted] is the directory once [tar] has run ([None]: no
    such file, or it failed), [names] the order of the iterator. *)
Definition import_from (sid : string) (extracted : option directory) (names : list string)
  : outcome (option SnapshotMeta) :=
  match extracted with
  | None => Ret None
  | Some d => match first_with_meta names d with Some nm => get_meta sid nm d | None => Ret None end
  end.

Lemma create_lists_memory cfg desc now files total sum d m d' :
  include_memory cfg = true -> create cfg desc now files total sum d = Ret (m, d') ->
  "memory" ∈ included_components m.
Proof.
  intros Hm. unfold create. rewrite Hm.
  destruct (if include_processes cfg then _ else _) as [[dir comps]| | |]; cbn [mbind outcome_bind]; try done.
  destruct (include_network cfg); intros [= <- _]; cbn; set_solver.
Qed.

(** ** Reading the metadata back: lemmas *)

Lemma quoted_app P last : quoted P last = quoted P "" +:+ last.
Proof.
  induction P as [|s P IH]; [done|]. cbn [quoted]. rewrite IH.
  by rewrite <- !string_app_assoc.
Qed.

Lemma length_quoted P : P <> [] -> (0 < String.length (quoted P ""))%nat.
Proof. destruct P as [|s P]; [done|]. intros _. cbn [quoted]. rewrite !string_length_app. cbn. lia. Qed.

Lemma substr_from_skip s t k : (k <= String.length t)%nat -> substr_from (s +:+ t) (String.length s + k) = substr_from t k.
Proof.
  intros Hk. unfold substr_from, substr. rewrite string_length_app. rewrite !decide_False by lia.
  replace (String.length s + String.length t - (String.length s + k))%nat with (String.length t - k)%nat by lia.
  f_equal. clear Hk. induction s as [|c s IH]; [done|]. exact IH.
Qed.

Lemma find_from_skip s t pat k : find (s +:+ t) pat (String.length s + k) = (fun n => (String.length s + n)%nat) <$> find t pat k.
Proof.
  unfold find. induction s as [|c s IH].
  { change (String.index k pat t = (fun n => (0 + n)%nat) <$> String.index k pat t). by destruct (String.index k pat t). }
  change (match String.index (String.length s + k) pat (s +:+ t) with Some n => Some (S n) | None => None end =
          (fun n => (S (String.length s) + n)%nat) <$> String.index k pat t).
  rewrite IH. by destruct (String.index k pat t).
Qed.

(** The number after a key of ten or nine characters. *)
Lemma read_number_found kw P R :
  quote_free kw -> starts_with kw ":" = false -> Forall quote_free P -> no_key kw (tail P) = true -> P <> [] ->
  (12 <= String.length (kw +:+ DQ +:+ ":" +:+ R))%nat ->
  read_number (quoted P (kw +:+ DQ +:+ ":" +:+ R)) kw =
  (s ← substr_from (kw +:+ DQ +:+ ":" +:+ R) 12; n ← stoull s; Ret (Some n)).
Proof.
  intros Hk Hc HP Hn Hne Hl. unfold read_number, key. rewrite find_key by done.
  pose proof (length_quoted P Hne). rewrite (quoted_app P (kw +:+ _)).
  replace (String.length (quoted P "") - 1 + 13)%nat with (String.length (quoted P "") + 12)%nat by lia.
  by rewrite substr_from_skip.
Qed.

Lemma quote_free_app s t : quote_free s -> quote_free t -> quote_free (s +:+ t).
Proof. unfold quote_free. rewrite all_chars_app. by intros -> ->. Qed.

Lemma quote_free_number z : 0 <= z -> quote_free (to_string z).
Proof.
  intros Hz. eapply all_chars_impl; [|by apply to_string_digits].
  intros c Hc. apply negb_true_iff, bool_decide_eq_false. intros ->. by vm_compute in Hc.
Qed.

(** The pieces of the metadata before each key. *)
Definition pieces_ts (m : SnapshotMeta) : list string :=
  ["{" +:+ IND; "id"; ": "; id m; "," +:+ IND; "sandbox_id"; ": "; sandbox_id m; "," +:+ IND].
Definition pieces_sz (m : SnapshotMeta) (ts : Z) : list string :=
  pieces_ts m ++ ["timestamp"; ": " +:+ to_string ts +:+ "," +:+ IND].
Definition pieces_ck (m : SnapshotMeta) (ts sz : Z) : list string :=
  pieces_sz m ts ++ ["size_bytes"; ": " +:+ to_string sz +:+ "," +:+ IND].

(** And what follows its value. *)
Definition rest_ck (m : SnapshotMeta) : string :=
  DQ +:+ ("," +:+ IND) +:+ DQ +:+ "description" +:+ DQ +:+ ": " +:+ DQ +:+ description m +:+ DQ +:+ NL +:+ "    }".
Definition rest_sz (m : SnapshotMeta) : string :=
  IND +:+ DQ +:+ "checksum" +:+ DQ +:+ ": " +:+ DQ +:+ checksum m +:+ rest_ck m.
Definition rest_ts (m : SnapshotMeta) (sz : Z) : string :=
  IND +:+ DQ +:+ "size_bytes" +:+ DQ +:+ ": " +:+ to_string sz +:+ "," +:+ rest_sz m.

Lemma meta_text_pieces m ts sz :
  timestamp m = Some ts -> size_bytes m = Some sz ->
  meta_text m = quoted (pieces_ts m) ("timestamp" +:+ DQ +:+ ": " +:+ to_string ts +:+ "," +:+ rest_ts m sz) /\
  meta_text m = quoted (pieces_sz m ts) ("size_bytes" +:+ DQ +:+ ": " +:+ to_string sz +:+ "," +:+ rest_sz m) /\
  meta_text m = quoted (pieces_ck m ts sz) ("checksum" +:+ DQ +:+ ": " +:+ DQ +:+ checksum m +:+ rest_ck m).
Proof.
  intros E1 E2. unfold meta_text, pieces_ck, pieces_sz, pieces_ts, rest_ts, rest_sz, rest_ck. rewrite E1, E2.
  cbn [quoted app default from_option id]. rewrite <- !string_app_assoc. done.
Qed.

(** [": "] is a colon and a space. *)
Lemma colon_space (s : string) : ": " +:+ s = ":" +:+ (" " +:+ s).
Proof. reflexivity. Qed.

(** The side conditions: no piece holds a quote, none is the key. *)
Ltac no_key_tac :=
  repeat (apply andb_true_iff; split); try reflexivity;
  apply negb_true_iff, andb_false_iff; first [left; reflexivity | right; reflexivity].

Definition clean (m : SnapshotMeta) : Prop := quote_free (id m) /\ quote_free (sandbox_id m) /\ quote_free (checksum m).

Lemma pieces_ts_clean m : clean m -> Forall quote_free (pieces_ts m).
Proof. intros (H1 & H2 & _). repeat (constructor; [by try done|]). constructor. Qed.

Lemma number_piece_clean z : 0 <= z -> quote_free (": " +:+ to_string z +:+ "," +:+ IND).
Proof. intros H. apply quote_free_app; [done|]. by apply quote_free_app; [apply quote_free_number|]. Qed.

Lemma pieces_sz_clean m ts : clean m -> 0 <= ts -> Forall quote_free (pieces_sz m ts).
Proof.
  intros Hm Ht. apply Forall_app. split; [by apply pieces_ts_clean|].
  constructor; [done|]. constructor; [by apply number_piece_clean|]. constructor.
Qed.

Lemma pieces_ck_clean m ts sz : clean m -> 0 <= ts -> 0 <= sz -> Forall quote_free (pieces_ck m ts sz).
Proof.
  intros Hm Ht Hs. apply Forall_app. split; [by apply pieces_sz_clean|].
  constructor; [done|]. constructor; [by apply number_piece_clean|]. constructor.
Qed.

Lemma read_timestamp m ts sz :
  clean m -> timestamp m = Some ts -> size_bytes m = Some sz -> in_u64 ts ->
  read_number (meta_text m) "timestamp" = Ret (Some ts).
Proof.
  intros Hm E1 E2 Ht. destruct (meta_text_pieces m ts sz E1 E2) as (-> & _ & _). rewrite colon_space.
  rewrite read_number_found; [|done|done|by apply pieces_ts_clean|no_key_tac|done|rewrite !string_length_app; cbn; lia].
  change 12%nat with (String.length ("timestamp" +:+ DQ +:+ ":" +:+ " ")).
  replace ("timestamp" +:+ _) with (("timestamp" +:+ DQ +:+ ":" +:+ " ") +:+ (to_string ts +:+ "," +:+ rest_ts m sz))
    by (by rewrite <- !string_app_assoc).
  rewrite substr_from_app. cbn [mbind outcome_bind]. by rewrite stoull_to_string.
Qed.

Lemma stoull_space s : stoull (" " +:+ s) = stoull s.
Proof. unfold stoull. change (" " +:+ s) with (String (byte_of 32) s). by rewrite convert_space. Qed.

Lemma read_size m ts sz :
  clean m -> timestamp m = Some ts -> size_bytes m = Some sz -> in_u64 ts -> in_u64 sz ->
  read_number (meta_text m) "size_bytes" = Ret (Some sz).
Proof.
  intros Hm E1 E2 Ht Hs. destruct (meta_text_pieces m ts sz E1 E2) as (_ & -> & _). rewrite colon_space.
  rewrite read_number_found; [|done|done|by apply pieces_sz_clean; [|apply Ht]|no_key_tac|done
    |rewrite !string_length_app; cbn; lia].
  change 12%nat with (String.length ("size_bytes" +:+ DQ +:+ ":")).
  replace ("size_bytes" +:+ _) with (("size_bytes" +:+ DQ +:+ ":") +:+ (" " +:+ to_string sz +:+ "," +:+ rest_sz m))
    by (by rewrite <- !string_app_assoc).
  rewrite substr_from_app. cbn [mbind outcome_bind]. rewrite stoull_space. by rewrite stoull_to_string.
Qed.

Lemma read_sum m ts sz :
  clean m -> timestamp m = Some ts -> size_bytes m = Some sz -> in_u64 ts -> in_u64 sz ->
  read_checksum (meta_text m) = Ret (checksum m).
Proof.
  intros Hm E1 E2 Ht Hs. destruct (meta_text_pieces m ts sz E1 E2) as (_ & _ & ->).
  assert (HP : Forall quote_free (pieces_ck m ts sz)) by (apply pieces_ck_clean; [done|apply Ht|apply Hs]).
  set (P := pieces_ck m ts sz) in *. assert (Hne : P <> []) by done.
  assert (Hn : no_key "checksum" (tail P) = true) by (unfold P; no_key_tac). clearbody P.
  unfold read_checksum, key.
  replace ("checksum" +:+ DQ +:+ ": " +:+ DQ +:+ checksum m +:+ rest_ck m)
    with ("checksum" +:+ DQ +:+ ":" +:+ (" " +:+ DQ +:+ checksum m +:+ rest_ck m)) by by rewrite <- colon_space.
  rewrite find_key by done. rewrite quoted_app.
  pose proof (length_quoted P Hne) as Hl.
  set (U := quoted P "") in *. set (K := "checksum" +:+ DQ +:+ ":" +:+ " ").
  set (V := ("," +:+ IND) +:+ DQ +:+ "description" +:+ DQ +:+ ": " +:+ DQ +:+ description m +:+ DQ +:+ NL +:+ "    }").
  replace (U +:+ _) with ((U +:+ K) +:+ (DQ +:+ (checksum m +:+ (DQ +:+ V))))
    by (unfold K, rest_ck, V; by rewrite <- !string_app_assoc).
  assert (EK : String.length (U +:+ K) = (String.length U + 11)%nat) by (by rewrite string_length_app).
  replace (String.length U - 1 + 12)%nat with (String.length (U +:+ K) + 0)%nat by lia.
  rewrite find_from_skip, find_quote_here. cbn [fmap option_fmap option_map after_npos].
  replace (S (String.length (U +:+ K) + 0)) with (String.length ((U +:+ K) +:+ DQ) + 0)%nat
    by (rewrite (string_length_app _ DQ); cbn; lia).
  rewrite (string_app_assoc (U +:+ K)). rewrite find_from_skip.
  rewrite find_quote by apply Hm. cbn [fmap option_fmap option_map].
  unfold substr. set (W := (U +:+ K) +:+ DQ).
  rewrite decide_False by (rewrite (string_length_app W); lia).
  rewrite Nat.add_0_r, substring_app.
  replace (String.length W + String.length (checksum m) - String.length W)%nat with (String.length (checksum m)) by lia.
  by rewrite substring_prefix.
Qed.

(** ** Properties *)

(** C40: the metadata a snapshot is saved with is read back.  For a sandbox id,
    a snapshot id and a checksum without quotes (the checksum is hexadecimal),
    [get_meta] finds the id, the time and the size that [create] recorded,
    and [list] also the checksum, whatever the description contains; the
    description and the components are not read back. *)
Theorem metadata_roundtrip (cfg : SnapshotConfig) (desc : string) (now size : Z) (sum : string) files
    (d d' : directory) (m : SnapshotMeta)
    (Hc : create cfg desc now files size sum d = Ret (m, d'))
    (Hsid : quote_free (config_sandbox_id cfg)) (Hsum : quote_free sum)
    (Hnow : in_u64 now) (Hsize : in_u64 size) :
  let m' := mkMeta (id m) (config_sandbox_id cfg) (Some now) (Some size) "" "" [] in
  get_meta (config_sandbox_id cfg) (id m) d' = Ret (Some m') /\
  read_entries (config_sandbox_id cfg) [id m] d' =
    Ret [mkMeta (id m) (config_sandbox_id cfg) (Some now) (Some size) sum "" []].
Proof.
  assert (E : exists dir comps, m = mkMeta ("snap-" +:+ to_string now) (config_sandbox_id cfg) (Some now) (Some size) sum desc comps
              /\ d' !! id m = Some dir /\ meta_json dir = Some (meta_text m)).
  { unfold create in Hc. apply bind_Ret_inv in Hc as ([dir comps] & _ & Hc).
    destruct (include_memory cfg), (include_network cfg); simplify_eq; do 2 eexists;
      (split; [reflexivity|]; split; [apply lookup_insert_eq|reflexivity]). }
  destruct E as (dir & comps & Em & Ed & Ej). set (M := m). 
  assert (Hclean : clean m).
  { rewrite Em. split; [|by split]. cbn. apply quote_free_app; [done|]. apply quote_free_number, Hnow. }
  assert (Et : timestamp m = Some now) by by rewrite Em. assert (Es : size_bytes m = Some size) by by rewrite Em.
  assert (Ek : checksum m = sum) by by rewrite Em.
  pose proof (read_timestamp m now size Hclean Et Es Hnow) as R1.
  pose proof (read_size m now size Hclean Et Es Hnow Hsize) as R2.
  pose proof (read_sum m now size Hclean Et Es Hnow Hsize) as R3. unfold M.
  unfold get_meta. cbn [read_entries]. rewrite Ed. cbn [mbind option_bind]. rewrite Ej. unfold parse_entry, parse_meta.
  rewrite R1. cbn [mbind outcome_bind]. rewrite R2. cbn [mbind outcome_bind]. rewrite R3, Ek. done.
Qed.

(** [list].  When every metadata file in the directory has been read, the
    result is a permutation of what they say, the latest first; but one file
    that cannot be parsed makes the whole call throw. *)
Theorem list_latest_first (sid : string) (names : list string) (d : directory) (ms : list SnapshotMeta)
    (Hr : read_entries sid names d = Ret ms) (Ht : Forall (fun m => is_Some (timestamp m)) ms) :
  (exists l, list_snapshots sid names d = Ret l /\ l ≡ₚ ms /\ Sorted newer l) /\
  (forall bad content e, d !! bad ≫= meta_json = Some content -> parse_entry sid bad content = Throw e ->
     list_snapshots sid (names ++ [bad]) d = Throw e).
Proof.
  split.
  - unfold list_snapshots. rewrite Hr. cbn [mbind outcome_bind]. case_decide as Hl.
    + replace (forallb _ ms) with true; cycle 1.
      { symmetry. apply forallb_forall. intros m Hm. rewrite List.Forall_forall in Ht.
        by rewrite bool_decide_true by auto. }
      exists (merge_sort newer ms). split; [done|]. split; [apply merge_sort_Permutation|].
      apply (Sorted_merge_sort newer).
    + exists ms. split; [done|]. split; [done|].
      destruct ms as [|m [|m' ms]]; [constructor|by repeat constructor|cbn in Hl; lia].
  - intros bad content e Hb He. unfold list_snapshots.
    assert (E : read_entries sid (names ++ [bad]) d = Throw e); [|by rewrite E].
    clear Ht. revert ms Hr. induction names as [|x names IH]; intros ms Hr; cbn [app read_entries] in *.
    + by rewrite Hb, He.
    + destruct (d !! x ≫= meta_json); [|by eapply IH].
      apply bind_Ret_inv in Hr as (m & -> & Hr). apply bind_Ret_inv in Hr as (ms' & Hr & _).
      cbn [mbind outcome_bind]. by rewrite (IH _ Hr).
Qed.

(** [import_from] may describe another snapshot.  It returns the metadata
    of the first directory the iterator meets that has some, imported or not. *)
Theorem import_returns_first_found (sid : string) (other : string) (names : list string) (d : directory)
    (content : string) (Ho : d !! other ≫= meta_json = Some content) :
  import_from sid (Some d) (other :: names) = get_meta sid other d.
Proof. unfold import_from. cbn [first_with_meta]. by rewrite Ho. Qed.

(** The group [Sandbox::run] puts a child in is not the one [create] looks at. *)
Lemma cgroup_paths_differ (sid i : string) :
  cgroup_procs sid <> CGROUP_ROOT +:+ ("/devops-" +:+ i) +:+ "/cgroup.procs".
Proof. unfold cgroup_procs, CGROUP_ROOT. intros H. cbn in H. discriminate. Qed.

(** A snapshot never includes the processes of a sandbox.  [create] reads
    the pids from the control group [/sandbox-<id>], but [Sandbox::run] puts
    its child in [/devops-<id>]: when the only groups that exist are those of
    sandboxes, no process is saved. *)
Theorem snapshot_misses_processes (cfg : SnapshotConfig) desc now size sum (files : string -> option (list string))
    (d d' : directory) (m : SnapshotMeta)
    (Hf : forall f lines, files f = Some lines -> exists sb : Sandbox.SandboxConfig,
       f = CGROUP_ROOT +:+ Sandbox.cgroup_path_ (Sandbox.setup_cgroup (Sandbox.new_sandbox sb)).2 +:+ "/cgroup.procs")
    (Hc : create cfg desc now files size sum d = Ret (m, d')) :
  "processes" ∉ included_components m.
Proof.
  assert (Hn : files (cgroup_procs (config_sandbox_id cfg)) = None).
  { destruct (files _) as [lines|] eqn:E; [|done]. apply Hf in E as [sb E]. by apply cgroup_paths_differ in E. }
  unfold create in Hc. rewrite Hn in Hc.
  destruct (include_processes cfg), (include_memory cfg), (include_network cfg); cbn in Hc; simplify_eq; cbn;
    rewrite ?not_elem_of_cons; repeat split; try done; apply not_elem_of_nil.
Qed.

(** ** Witnesses *)

Definition demo_config : SnapshotConfig := mkConfig "box" "/var/lib/sandbox/snapshots" true true true true.
Definition demo_files (f : string) : option (list string) :=
  if decide (f = CGROUP_ROOT +:+ "/devops-box/cgroup.procs") then Some ["12"] else None.
Definition demo_created : outcome (SnapshotMeta * directory) :=
  create demo_config ("a " +:+ quoted_text "quoted" +:+ " one") 1700 demo_files 9 "abc" ∅.

Definition demo_meta : SnapshotMeta :=
  mkMeta "snap-1700" "box" (Some 1700) (Some 9) "abc" ("a " +:+ quoted_text "quoted" +:+ " one") ["memory"; "network"].
Definition demo_directory : directory :=
  {["snap-1700" := mkDir (Some (meta_text demo_meta)) None false true true]}.

Lemma demo_created_eq : demo_created = Ret (demo_meta, demo_directory).
Proof. vm_compute. reflexivity. Qed.

Lemma metadata_roundtrip_witness :
  get_meta "box" "snap-1700" demo_directory = Ret (Some (mkMeta "snap-1700" "box" (Some 1700) (Some 9) "" "" [])).
Proof.
  exact (proj1 (metadata_roundtrip demo_config _ 1700 9 "abc" demo_files ∅ demo_directory demo_meta
    demo_created_eq eq_refl eq_refl ltac:(done) ltac:(done))).
Defined.

Lemma list_latest_first_witness :
  exists l, list_snapshots "box" ["snap-1700"] demo_directory = Ret l /\
            l ≡ₚ [mkMeta "snap-1700" "box" (Some 1700) (Some 9) "abc" "" []].
Proof.
  destruct (proj1 (list_latest_first "box" ["snap-1700"] demo_directory
    [mkMeta "snap-1700" "box" (Some 1700) (Some 9) "abc" "" []] ltac:(vm_compute; reflexivity)
    ltac:(repeat constructor; by eexists))) as (l & E & Hp & _).
  by exists l.
Defined.

Lemma snapshot_misses_processes_witness : "processes" ∉ included_components demo_meta.
Proof.
  apply (snapshot_misses_processes demo_config ("a " +:+ quoted_text "quoted" +:+ " one") 1700 9 "abc"
    demo_files ∅ demo_directory demo_meta); [|exact demo_created_eq].
  intros f lines H. unfold demo_files in H. destruct (decide _) as [->|]; [|discriminate].
  exists (Sandbox.default_config "box"). reflexivity.
Defined.

End Snapshot.
