(* ===== verification/SnapshotFiles.v ===== *)
(** * What a snapshot contains: [sandbox/src/snapshot.cpp]

    The files [create] writes below the directory of a snapshot: copies of
    [/proc] files, the dump of a process's memory made from its maps, the
    output of network commands; and what [restore] does with them.  The rest
    of [create] is [Snapshot.create], which is given the lines of the files
    that open, the total size and the checksum computed here. *)

From stdpp Require Import base strings gmap list numbers.
From Stdlib Require Import ZArith Lia.
From S2P Require Import Prelude Text Snapshot.

Module SnapshotFiles.

(** The regular files and the directories, by path. *)
Record tree := mkTree { regular : gmap string (list byte); dirs : gset string }.

Definition write (path : string) (bytes : list byte) (t : tree) : tree :=
  mkTree (<[path := bytes]> (regular t)) (dirs t).
Definition mkdir (path : string) (t : tree) : tree := mkTree (regular t) ({[path]} ∪ dirs t).

Record SandboxSnapshot := mkSnapshot { config_ : Snapshot.SnapshotConfig; snapshots_dir_ : string }.

(** The constructor makes the directory of the sandbox's snapshots. *)
Definition new_snapshot (cfg : Snapshot.SnapshotConfig) (t : tree) : SandboxSnapshot * tree :=
  let dir := Snapshot.snapshot_dir cfg +:+ "/" +:+ Snapshot.config_sandbox_id cfg in
  (mkSnapshot cfg dir, mkdir dir t).

(** What the machine gives: the files outside the snapshot, whether the memory
    of a process opens and what reading [n] bytes at an address of it yields,
    what the allocator serves, the output of a shell command, and what the
    commands of a pipeline print given the files. *)
Record machine := mkMachine {
  file_at : string -> option (list byte);
  mem_opens : Z -> bool;
  mem_at : Z -> Z -> nat -> list byte;
  alloc_ok : Z -> bool;
  shell_output : string -> list byte;
  popen_output : tree -> string -> option string
}.

(** ** Text *)

(** [std::getline] until it fails: the lines, and the last one if it is not
    empty. *)
Fixpoint getlines_from (acc : list byte) (bytes : list byte) : list string :=
  match bytes with
  | [] => match acc with [] => [] | _ => [string_of acc] end
  | b :: bytes =>
      if decide (b = byte_of 10) then string_of acc :: getlines_from [] bytes
      else getlines_from (acc ++ [b]) bytes
  end.
Definition getlines (bytes : list byte) : list string := getlines_from [] bytes.

(** A hexadecimal digit. *)
Definition hex_val (c : byte) : option Z :=
  let v := byte_val c in
  if (48 <=? v) && (v <=? 57) then Some (v - 48)
  else if (97 <=? v) && (v <=? 102) then Some (v - 87)
  else if (65 <=? v) && (v <=? 70) then Some (v - 55)
  else None.

Fixpoint read_hex (acc : Z) (s : string) : Z * string :=
  match s with
  | EmptyString => (acc, s)
  | String c s' => match hex_val c with Some d => read_hex (16 * acc + d) s' | None => (acc, s) end
  end.

(** The prefix [0x]. *)
Definition skip_0x (s : string) : string :=
  match s with
  | String a (String b s') =>
      if (byte_val a =? 48) && ((byte_val b =? 120) || (byte_val b =? 88)) then s' else s
  | _ => s
  end.

(** The conversion [%llx]: values past 64 bits are cut to the greatest, a
    minus negates modulo 2^64. *)
Definition scan_llx (s : string) : option (Z * string) :=
  let '(neg, s) := read_sign (skip_space s) in
  match skip_0x s with
  | String c s' =>
      match hex_val c with
      | Some d =>
          let '(v, rest) := read_hex d s' in
          let v := Z.min v (2 ^ 64 - 1) in
          Some (if neg && bool_decide (v < 2 ^ 64 - 1) then u64 (- v) else v, rest)
      | None => None
      end
  | EmptyString => None
  end.

(** [sscanf(line.c_str(), "%llx-%llx", &start, &end) == 2]. *)
Definition scan_region (line : string) : option (Z * Z) :=
  match scan_llx (c_str line) with
  | Some (start, String c rest) =>
      if byte_val c =? 45 then
        match scan_llx rest with Some (e, _) => Some (start, e) | None => None end
      else None
  | _ => None
  end.

(** ** Saving *)

(** [if (fs::exists(src)) fs::copy_file(src, dst, overwrite_existing)]. *)
Definition copy_if (m : machine) (src dst : string) (t : tree) : tree :=
  match file_at m src with Some bytes => write dst bytes t | None => t end.

(** The buffer of [n] bytes after [seekg(start)] and [read]: zeros where
    nothing was read; an address past [off_t] cannot be sought. *)
Definition region (m : machine) (pid start : Z) (n : nat) : list byte :=
  let got := if start <? 2 ^ 63 then take n (mem_at m pid start n) else [] in
  got ++ replicate (n - length got) (byte_of 0).

(** The loop over the lines of the maps: what is written to [mem_dump].
    [end - start] is a [uint64_t]; a [std::vector] of more than [2 ^ 63 - 1]
    bytes is refused. *)
Fixpoint dump (m : machine) (pid : Z) (lines : list string) : outcome (list byte) :=
  match lines with
  | [] => Ret []
  | l :: lines =>
      match scan_region l with
      | Some (start, e) =>
          if mem_opens m pid then
            let n := u64 (e - start) in
            if (2 ^ 63 - 1 <? n) || negb (alloc_ok m n) then Throw BadAlloc
            else
              rest ← dump m pid lines;
              Ret (region m pid start (Z.to_nat n) ++ rest)
          else dump m pid lines
      | None => dump m pid lines
      end
  end.

Definition save_process_state (m : machine) (snap_path : string) (pid : Z) (t : tree) : outcome (bool * tree) :=
  let proc_dir := snap_path +:+ "/proc/" +:+ to_string pid in
  let src := "/proc/" +:+ to_string pid in
  let t := mkdir proc_dir (mkdir (snap_path +:+ "/proc") t) in
  let t := copy_if m (src +:+ "/status") (proc_dir +:+ "/status") t in
  let t := copy_if m (src +:+ "/maps") (proc_dir +:+ "/maps") t in
  match file_at m (src +:+ "/maps") with
  | None => Ret (true, t)
  | Some maps => d ← dump m pid (getlines maps); Ret (true, write (proc_dir +:+ "/mem_dump") d t)
  end.

Definition save_memory_state (m : machine) (snap_path : string) (pid : Z) (t : tree) : bool * tree :=
  let mem_path := snap_path +:+ "/memory" in
  let t := mkdir mem_path t in
  let src := "/proc/" +:+ to_string pid in
  let t := copy_if m (src +:+ "/maps") (mem_path +:+ "/maps") t in
  (true, copy_if m (src +:+ "/smaps") (mem_path +:+ "/smaps") t).

(** A command whose output the shell writes to a file. *)
Definition redirect (m : machine) (cmd file : string) (t : tree) : tree :=
  write file (shell_output m (cmd +:+ " > " +:+ file +:+ " 2>/dev/null")) t.

Definition save_network_state (m : machine) (snap_path : string) (t : tree) : bool * tree :=
  let net_path := snap_path +:+ "/network" in
  let t := mkdir net_path t in
  let t := redirect m "iptables-save" (net_path +:+ "/iptables.rules") t in
  let t := redirect m "ip addr show" (net_path +:+ "/interfaces.txt") t in
  (true, redirect m "ip route show" (net_path +:+ "/routes.txt") t).

(** The loop of [create] over the lines of [cgroup.procs]. *)
Fixpoint save_processes (m : machine) (snap_path : string) (lines : list string) (t : tree)
  : outcome (list Z * tree) :=
  match lines with
  | [] => Ret ([], t)
  | l :: lines =>
      pid ← stoi l;
      '(_, t) ← save_process_state m snap_path pid t;
      '(pids, t) ← save_processes m snap_path lines t;
      Ret (pid :: pids, t)
  end.

Definition NL : string := String (byte_of 10) "".

Fixpoint pid_lines (pids : list Z) : string :=
  match pids with [] => "" | p :: pids => to_string p +:+ NL +:+ pid_lines pids end.

(** [create] from the first component to the last. *)
Definition save_state (cfg : Snapshot.SnapshotConfig) (m : machine) (snap_path : string) (t : tree) : outcome tree :=
  t ← (if Snapshot.include_processes cfg then
         match file_at m (Snapshot.cgroup_procs (Snapshot.config_sandbox_id cfg)) with
         | Some procs =>
             '(pids, t) ← save_processes m snap_path (getlines procs) t;
             Ret (write (snap_path +:+ "/pids.txt") (bytes_of (pid_lines pids)) t)
         | None => Ret t
         end
       else Ret t);
  let t := if Snapshot.include_memory cfg then (save_memory_state m snap_path 0 t).2 else t in
  Ret (if Snapshot.include_network cfg then (save_network_state m snap_path t).2 else t).

(** The sum over the regular files below the directory. *)
Definition total_size (snap_path : string) (t : tree) : Z :=
  u64 (foldr (fun '(p, bytes) n => if starts_with p (snap_path +:+ "/") then Z.of_nat (length bytes) + n else n) 0
         (map_to_list (regular t))).

(** The loop that trims newlines. *)
Fixpoint drop_newlines (bytes : list byte) : list byte :=
  match bytes with b :: bs => if decide (b = byte_of 10) then drop_newlines bs else bytes | [] => [] end.
Definition trim_newlines (s : string) : string := string_of (reverse (drop_newlines (reverse (bytes_of s)))).

(** [calculate_checksum]; the text the pipeline prints holds no NUL. *)
Definition calculate_checksum (m : machine) (path : string) (t : tree) : string :=
  match popen_output m t ("find " +:+ path +:+ " -type f -exec md5sum {} \; | sort | md5sum | awk '{print $1}'") with
  | None => ""
  | Some out => trim_newlines out
  end.

(** [create] as a whole: the metadata, the directory of snapshots and the
    files. *)
Definition create (s : SandboxSnapshot) (desc : string) (now : Z) (m : machine)
    (d : Snapshot.directory) (t : tree) : outcome (Snapshot.SnapshotMeta * Snapshot.directory * tree) :=
  let snap_path := snapshots_dir_ s +:+ "/" +:+ "snap-" +:+ to_string now in
  t ← save_state (config_ s) m snap_path (mkdir snap_path t);
  '(meta, d) ← Snapshot.create (config_ s) desc now (fun p => getlines <$> file_at m p)
                 (total_size snap_path t) (calculate_checksum m snap_path t) d;
  Ret (meta, d, write (snap_path +:+ "/meta.json") (bytes_of (Snapshot.meta_text meta)) t).

(** ** Restoring *)

(** A check of [restore]. *)
Definition exists_in (t : tree) (path : string) : bool :=
  bool_decide (path ∈ dirs t) || bool_decide (is_Some (regular t !! path)).

(** The loop over the saved pids: maps are read and parsed, to no effect. *)
Fixpoint restore_pids (lines : list string) : outcome unit :=
  match lines with
  | [] => Ret tt
  | l :: lines => _ ← stoi l; restore_pids lines
  end.

Definition restore_process_state (snap_path : string) (t : tree) : outcome bool :=
  match regular t !! (snap_path +:+ "/pids.txt") with
  | None => Ret false
  | Some bytes => _ ← restore_pids (getlines bytes); Ret true
  end.

Definition restore_memory_state (snap_path : string) : bool := true.

(** The commands run. *)
Definition restore_network_state (snap_path : string) (t : tree) : bool * list string :=
  let net_path := snap_path +:+ "/network" in
  (true, if exists_in t (net_path +:+ "/iptables.rules")
         then ["iptables-restore < " +:+ net_path +:+ "/iptables.rules 2>/dev/null"] else []).

Definition restore (s : SandboxSnapshot) (nm : string) (t : tree) : outcome (bool * list string) :=
  let snap_path := snapshots_dir_ s +:+ "/" +:+ nm in
  if negb (exists_in t snap_path) then Ret (false, [])
  else
    let cmds := if exists_in t (snap_path +:+ "/network") then (restore_network_state snap_path t).2 else [] in
    let _ := if exists_in t (snap_path +:+ "/memory") then restore_memory_state snap_path else true in
    _ ← (if exists_in t (snap_path +:+ "/proc") then restore_process_state snap_path t else Ret true);
    Ret (true, cmds).

(** ** The dump of a process *)

Definition region_size (r : Z * Z) : nat := Z.to_nat (u64 (r.2 - r.1)).
Definition regions_of (maps : list byte) : list (Z * Z) := omap scan_region (getlines maps).

(** Where a region starts in the dump. *)
Definition offset (rs : list (Z * Z)) (k : nat) : nat := foldr (fun r n => (region_size r + n)%nat) O (take k rs).

Lemma length_region m pid start n : length (region m pid start n) = n.
Proof.
  unfold region. destruct (start <? 2 ^ 63); rewrite length_app, length_replicate; [|cbn; lia].
  rewrite length_take. lia.
Qed.

Lemma dump_regions m pid lines d :
  mem_opens m pid = true -> dump m pid lines = Ret d ->
  d = concat ((fun r => region m pid r.1 (region_size r)) <$> omap scan_region lines).
Proof.
  intros Hm. revert d. induction lines as [|l lines IH]; intros d; cbn [dump]; [by intros [= <-]|].
  cbn [omap list_omap]. destruct (scan_region l) as [[start e]|]; [|by apply IH].
  rewrite Hm. destruct (_ || _); [done|]. destruct (dump m pid lines) as [rest| | |]; cbn [mbind outcome_bind]; try done.
  intros [= <-]. cbn [fmap list_fmap concat]. by rewrite <- (IH rest).
Qed.

(** A piece of a concatenation at its offset. *)
Lemma region_at m pid rs k start e :
  rs !! k = Some (start, e) ->
  take (region_size (start, e)) (drop (offset rs k) (concat ((fun r => region m pid r.1 (region_size r)) <$> rs))) =
  region m pid start (region_size (start, e)).
Proof.
  revert k. induction rs as [|r rs IH]; intros k Hk; [done|]. destruct k as [|k].
  - injection Hk as ->. unfold offset. cbn [take foldr fmap list_fmap concat fst]. rewrite drop_0.
    apply take_app_length'. by rewrite length_region.
  - cbn [fmap list_fmap concat]. unfold offset. cbn [take foldr].
    rewrite drop_app_ge by (rewrite length_region; lia). rewrite length_region.
    replace (region_size r + _ - region_size r)%nat with (offset rs k) by (unfold offset; lia).
    by apply IH.
Qed.

(** ** Paths *)

Lemma path_ne (p x y : string) : x <> y -> p +:+ x <> p +:+ y.
Proof. intros Hne E. by apply (inj (String.append p)) in E. Qed.

Lemma write_other path path' bytes t :
  path <> path' -> regular (write path bytes t) !! path' = regular t !! path'.
Proof. intros. cbn. by rewrite lookup_insert_ne. Qed.

Lemma write_same path bytes t : regular (write path bytes t) !! path = Some bytes.
Proof. cbn. by rewrite lookup_insert_eq. Qed.

Lemma copy_if_other m src dst path t : dst <> path -> regular (copy_if m src dst t) !! path = regular t !! path.
Proof. intros. unfold copy_if. destruct (file_at m src); [|done]. by apply write_other. Qed.

(** Below the directory [memory] of a snapshot. *)
Definition in_memory (snap_path path : string) : Prop := starts_with path (snap_path +:+ "/memory/") = true.

Lemma write_elsewhere snap_path x bytes t path :
  in_memory snap_path path -> String.prefix "/memory/" x = false ->
  regular (write (snap_path +:+ x) bytes t) !! path = regular t !! path.
Proof.
  intros Hp Hx. apply write_other. intros <-. unfold in_memory, starts_with in Hp.
  rewrite prefix_common in Hp. congruence.
Qed.

(** [t'] has the files of [t] below [memory]. *)
Definition same_memory (snap_path : string) (t t' : tree) : Prop :=
  forall path, in_memory snap_path path -> regular t' !! path = regular t !! path.

#[local] Instance same_memory_preorder snap_path : PreOrder (same_memory snap_path).
Proof. split; [by intros t path|]. intros t t' t'' H1 H2 path Hp. rewrite H2, H1; done. Qed.

Lemma write_same_memory snap_path x bytes t :
  String.prefix "/memory/" x = false -> same_memory snap_path t (write (snap_path +:+ x) bytes t).
Proof. intros Hx path Hp. by apply write_elsewhere. Qed.

Lemma copy_same_memory m src snap_path x t :
  String.prefix "/memory/" x = false -> same_memory snap_path t (copy_if m src (snap_path +:+ x) t).
Proof. intros Hx. unfold copy_if. destruct (file_at m src); [by apply write_same_memory|done]. Qed.

Lemma save_process_same_memory m snap_path pid t b t' :
  save_process_state m snap_path pid t = Ret (b, t') -> same_memory snap_path t t'.
Proof.
  unfold save_process_state. rewrite <- !string_app_assoc. intros E.
  set (t1 := mkdir _ (mkdir _ t)) in E. assert (H1 : same_memory snap_path t t1) by done.
  set (t2 := copy_if m _ _ t1) in E. assert (H2 : same_memory snap_path t1 t2) by by apply copy_same_memory.
  set (t3 := copy_if m _ _ t2) in E. assert (H3 : same_memory snap_path t2 t3) by by apply copy_same_memory.
  etrans; [exact H1|]. etrans; [exact H2|]. etrans; [exact H3|].
  destruct (file_at m _); [|by injection E as _ <-].
  destruct (dump _ _ _); cbn [mbind outcome_bind] in E; try done. injection E as _ <-. by apply write_same_memory.
Qed.

Lemma save_processes_same_memory m snap_path lines t pids t' :
  save_processes m snap_path lines t = Ret (pids, t') -> same_memory snap_path t t'.
Proof.
  revert t pids. induction lines as [|l lines IH]; intros t pids; cbn [save_processes]; [by intros [= _ <-]|].
  destruct (stoi l) as [pid| | |]; cbn [mbind outcome_bind]; try done.
  destruct (save_process_state _ _ _ _) as [[b t1]| | |] eqn:E1; cbn [mbind outcome_bind]; try done.
  destruct (save_processes _ _ _ _) as [[ps t2]| | |] eqn:E2; cbn [mbind outcome_bind]; try done.
  intros [= _ <-]. etrans; [by eapply save_process_same_memory|by eapply IH].
Qed.

Lemma save_network_same_memory m snap_path t : same_memory snap_path t (save_network_state m snap_path t).2.
Proof.
  unfold save_network_state, redirect. cbn [snd]. rewrite <- !string_app_assoc.
  etrans; [|by apply write_same_memory]. etrans; [|by apply write_same_memory].
  etrans; [|by apply write_same_memory]. done.
Qed.

(** Nothing is copied for the process 0. *)
Lemma save_memory_nothing m snap_path t :
  file_at m "/proc/0/maps" = None -> file_at m "/proc/0/smaps" = None ->
  save_memory_state m snap_path 0 t = (true, mkdir (snap_path +:+ "/memory") t).
Proof.
  intros H1 H2. unfold save_memory_state, copy_if.
  change (("/proc/" +:+ to_string 0) +:+ "/maps") with "/proc/0/maps".
  change (("/proc/" +:+ to_string 0) +:+ "/smaps") with "/proc/0/smaps". by rewrite H1, H2.
Qed.

(** ** Properties *)


(** The memory component of a snapshot is an empty directory.  [create]
    saves it for the process 0, which [/proc] does not show: the metadata
    lists "memory" and the directory exists, but no file is ever below it,
    whatever runs in the sandbox; [restore] finds the directory and reports
    success. *)
Theorem memory_component_empty s desc now m d t meta d' t'
    (Hmem : Snapshot.include_memory (config_ s) = true)
    (Hmaps : file_at m "/proc/0/maps" = None) (Hsmaps : file_at m "/proc/0/smaps" = None)
    (Hnew : forall path, in_memory (snapshots_dir_ s +:+ "/" +:+ "snap-" +:+ to_string now) path -> regular t !! path = None)
    (Hcreate : create s desc now m d t = Ret (meta, d', t')) :
  let snap_path := snapshots_dir_ s +:+ "/" +:+ "snap-" +:+ to_string now in
  "memory" ∈ Snapshot.included_components meta /\
  exists_in t' (snap_path +:+ "/memory") = true /\
  forall path, in_memory snap_path path -> regular t' !! path = None.
Proof.
  intros snap_path. unfold create in Hcreate. fold snap_path in Hcreate, Hnew.
  destruct (save_state (config_ s) m snap_path (mkdir snap_path t)) as [t1| | |] eqn:Es; cbn [mbind outcome_bind] in Hcreate;
    try done.
  destruct (Snapshot.create _ _ _ _ _ _ _) as [[meta0 d0]| | |] eqn:Ec; cbn [mbind outcome_bind] in Hcreate; try done.
  injection Hcreate as <- <- <-.
  assert (Hdir : snap_path +:+ "/memory" ∈ dirs t1 /\ same_memory snap_path t t1).
  { unfold save_state in Es. rewrite Hmem in Es.
    destruct (if Snapshot.include_processes (config_ s) then _ else _) as [t2| | |] eqn:E2; cbn [mbind outcome_bind] in Es; try done.
    assert (H2 : same_memory snap_path t t2).
    { destruct (Snapshot.include_processes (config_ s)); [|by injection E2 as <-].
      destruct (file_at m (Snapshot.cgroup_procs (Snapshot.config_sandbox_id (config_ s)))) as [procs|]; [|by injection E2 as <-].
      destruct (save_processes m snap_path (getlines procs) (mkdir snap_path t)) as [[pids t3]| | |] eqn:E3;
        cbn [mbind outcome_bind] in E2; try done.
      injection E2 as <-. etrans; [|by apply write_same_memory].
      apply save_processes_same_memory in E3. exact E3. }
    rewrite (save_memory_nothing _ _ _ Hmaps Hsmaps) in Es. cbn [snd] in Es. injection Es as <-.
    destruct (Snapshot.include_network (config_ s)).
    - split; [cbn; set_solver|]. etrans; [exact H2|].
      exact (save_network_same_memory m snap_path (mkdir (snap_path +:+ "/memory") t2)).
    - split; [cbn; set_solver|exact H2]. }
  destruct Hdir as [Hdir Hsame]. split_and!.
  - by apply (Snapshot.create_lists_memory _ _ _ _ _ _ _ _ _ Hmem Ec).
  - unfold exists_in. rewrite bool_decide_true by done. done.
  - intros path Hp. rewrite write_elsewhere by done. rewrite Hsame by done. by apply Hnew.
Qed.

(** ** Witnesses *)

(** A machine with the process 7, whose maps name two regions. *)
Definition demo_maps : list byte :=
  bytes_of ("1000-1003 rw-p" +:+ NL +:+ "ffffffffff600000-ffffffffff600002 --xp [vsyscall]" +:+ NL).
Definition demo_files (path : string) : option (list byte) :=
  if decide (path = "/proc/7/maps") then Some demo_maps
  else if decide (path = "/sys/fs/cgroup/sandbox-box/cgroup.procs") then Some (bytes_of ("7" +:+ NL)) else None.
Definition demo_machine : machine :=
  mkMachine demo_files (fun _ => true) (fun _ _ n => replicate n (byte_of 65)) (fun _ => true) (fun _ => [])
    (fun _ _ => Some ("d41d8cd9" +:+ NL)).
Definition demo_snapshot : SandboxSnapshot :=
  (new_snapshot (Snapshot.mkConfig "box" "/snaps" true true true true) (mkTree ∅ ∅)).1.


Lemma memory_component_empty_witness :
  exists meta d' t', create demo_snapshot "before" 5 demo_machine ∅ (mkTree ∅ ∅) = Ret (meta, d', t') /\
  "memory" ∈ Snapshot.included_components meta /\
  regular t' !! "/snaps/box/snap-5/memory/maps" = None /\
  is_Some (regular t' !! "/snaps/box/snap-5/proc/7/maps").
Proof.
  assert (exists meta d' t', create demo_snapshot "before" 5 demo_machine ∅ (mkTree ∅ ∅) = Ret (meta, d', t') /\
    is_Some (regular t' !! "/snaps/box/snap-5/proc/7/maps")) as (meta & d' & t' & E & Hp)
    by (do 3 eexists; split; [reflexivity|by apply (bool_decide_unpack _); vm_compute]).
  destruct (memory_component_empty demo_snapshot "before" 5 demo_machine ∅ (mkTree ∅ ∅) meta d' t' eq_refl eq_refl eq_refl
    (fun path _ => lookup_empty path) E) as (Hl & _ & Hn).
  exists meta, d', t'. split; [exact E|]. split; [exact Hl|]. split; [|exact Hp].
  apply Hn. vm_compute. reflexivity.
Defined.

End SnapshotFiles.
