(* ===== verification/Rust.v ===== *)
(** * Results and states of the Rust code

    [Result] with panics, state that is passed along and survives an error,
    and the slices of byte arrays with their bounds checks. *)

From stdpp Require Import base list numbers.
From Stdlib Require Import ZArith Lia.
From S2P Require Import Prelude.
From stdpp Require Import list.

(** [Result<A, String>], or a panic; [NoEnd]: a recursion deeper than the fuel
    given to it. *)
Inductive result (A : Type) := Ok (a : A) | Err (msg : string) | Panicked | NoEnd.
Arguments Ok {A} _.
Arguments Err {A} _.
Arguments Panicked {A}.
Arguments NoEnd {A}.

#[export] Instance result_ret : MRet result := fun A a => Ok a.
#[export] Instance result_bind : MBind result := fun A B k m =>
  match m with Ok a => k a | Err msg => Err msg | Panicked => Panicked | NoEnd => NoEnd end.

(** An operation on an object. *)
Definition op_on (S A : Type) : Type := S -> result A * S.

#[export] Instance op_ret {S} : MRet (op_on S) := fun A a s => (Ok a, s).
#[export] Instance op_bind {S} : MBind (op_on S) := fun A B k m s =>
  match m s with
  | (Ok a, s) => k a s
  | (Err msg, s) => (Err msg, s)
  | (Panicked, s) => (Panicked, s)
  | (NoEnd, s) => (NoEnd, s)
  end.

Definition returns {S A} (r : result A) : op_on S A := fun s => (r, s).

(** An update that fails without effect. *)
Definition updates {S} (f : S -> result S) : op_on S unit := fun s =>
  match f s with Ok s => (Ok tt, s) | Err msg => (Err msg, s) | Panicked => (Panicked, s) | NoEnd => (NoEnd, s) end.

(** An operation on a part of an object. *)
Definition within {S T A} (get : S -> T) (set : T -> S -> S) (m : op_on T A) : op_on S A := fun s =>
  let '(r, t) := m (get s) in (r, set t s).

Lemma bind_run {S A B} (m : op_on S A) (k : A -> op_on S B) s :
  (m ≫= k) s = match m s with
               | (Ok a, s) => k a s
               | (Err msg, s) => (Err msg, s)
               | (Panicked, s) => (Panicked, s)
               | (NoEnd, s) => (NoEnd, s)
               end.
Proof. done. Qed.

Lemma bind_ok {S A B} (m : op_on S A) (k : A -> op_on S B) s a s' : m s = (Ok a, s') -> (m ≫= k) s = k a s'.
Proof. intros E. by rewrite bind_run, E. Qed.

Lemma bind_panics {S A B} (m : op_on S A) (k : A -> op_on S B) s :
  (m s).1 = Panicked -> ((m ≫= k) s).1 = Panicked.
Proof. rewrite bind_run. by destruct (m s) as [[] ?]. Qed.

Lemma returns_ok {S A B} r a (k : A -> op_on S B) s : r = Ok a -> (returns r ≫= k) s = k a s.
Proof. by intros ->. Qed.

Lemma returns_panics {S A B} r (k : A -> op_on S B) s : r = Panicked -> ((returns r ≫= k) s).1 = Panicked.
Proof. by intros ->. Qed.

Section Bytes.
#[local] Open Scope nat_scope.

(** [data[off..off + n]] *)
Definition slice (off n : nat) (bs : list byte) : result (list byte) :=
  if decide (off + n <= length bs) then Ok (take n (drop off bs)) else Panicked.

(** [data[off..off + new.len()].copy_from_slice(new)] *)
Definition splice (off : nat) (new bs : list byte) : result (list byte) :=
  if decide (off + length new <= length bs) then Ok (take off bs ++ new ++ drop (off + length new) bs) else Panicked.

Lemma slice_length off n bs s : slice off n bs = Ok s -> length s = n.
Proof.
  unfold slice. case_decide; [|done]. intros [= <-]. rewrite length_take, length_drop. lia.
Qed.

Lemma splice_length off new bs bs' : splice off new bs = Ok bs' -> length bs' = length bs.
Proof.
  unfold splice. case_decide; [|done]. intros [= <-]. rewrite !length_app, length_take, length_drop. lia.
Qed.

(** Where a slice reads. *)
Lemma slice_lookup off n bs s i : slice off n bs = Ok s -> i < n -> s !! i = bs !! (off + i).
Proof.
  unfold slice. case_decide; [|done]. intros [= <-] Hi. by rewrite lookup_take_lt, lookup_drop by done.
Qed.

Lemma splice_lookup off new bs bs' i :
  splice off new bs = Ok bs' ->
  bs' !! i = if decide (off <= i < off + length new) then new !! (i - off) else bs !! i.
Proof.
  unfold splice. case_decide as Hl; [|done]. intros [= <-].
  destruct (decide (i < off)).
  - rewrite decide_False by lia. rewrite lookup_app_l by (rewrite length_take; lia). by apply lookup_take_lt.
  - rewrite lookup_app_r by (rewrite length_take; lia). rewrite length_take, Nat.min_l by lia.
    destruct (decide (i < off + length new)).
    + rewrite decide_True by lia. by rewrite lookup_app_l by lia.
    + rewrite decide_False by lia. rewrite lookup_app_r by lia. rewrite lookup_drop. f_equal. lia.
Qed.

(** What was written is read, and what lies elsewhere has not changed. *)
Lemma slice_splice off new bs bs' : splice off new bs = Ok bs' -> slice off (length new) bs' = Ok new.
Proof.
  intros E. pose proof (splice_length _ _ _ _ E) as Hl. unfold slice. unfold splice in E. case_decide; [|done].
  rewrite decide_True by lia. injection E as <-. f_equal.
  rewrite drop_app_ge by (rewrite length_take; lia). rewrite length_take, Nat.min_l, Nat.sub_diag, drop_0 by lia.
  by rewrite take_app_length.
Qed.

Lemma slice_splice_other off new bs bs' off' n :
  splice off new bs = Ok bs' -> off' + n <= off \/ off + length new <= off' -> slice off' n bs' = slice off' n bs.
Proof.
  intros E Ho. pose proof (splice_length _ _ _ _ E) as Hl. unfold slice. rewrite Hl. case_decide as Hb; [|done]. f_equal.
  apply list_eq. intros i. destruct (decide (i < n)).
  - rewrite !lookup_take_lt, !lookup_drop by done. rewrite (splice_lookup _ _ _ _ _ E). by rewrite decide_False by lia.
  - by rewrite !lookup_take_ge by lia.
Qed.

Lemma slice_defined off n bs : off + n <= length bs -> exists s, slice off n bs = Ok s.
Proof. intros. unfold slice. rewrite decide_True by done. by eexists. Qed.

Lemma splice_defined off new bs : off + length new <= length bs -> exists bs', splice off new bs = Ok bs'.
Proof. intros. unfold splice. rewrite decide_True by done. by eexists. Qed.

End Bytes.
