(* ===== verification/Wal.v ===== *)
(** * The write-ahead log: [redisdb/src/btree/wal.rs]

    The storage engine appends a record for every page it writes and for the
    end of every transaction; [replay] reads the file back and returns the
    writes of the transactions it takes for committed.  Appending to an open
    file succeeds here; what a crash leaves is any prefix of the file. *)

From stdpp Require Import base strings gmap list numbers.
From Stdlib Require Import ZArith Lia.
From S2P Require Import Prelude Text Rust.
From stdpp Require Import list.

#[local] Open Scope Z_scope.

Module Wal.

(** [file]: the contents, once there is a file; [opened]: there is a handle. *)
Record WAL := mkWAL { opened : bool; file : option (list byte); next_id : Z }.

Definition new (disk : option (list byte)) : WAL := mkWAL false disk 1.

(** [create(true).append(true)]. *)
Definition open (w : WAL) : WAL := mkWAL true (Some (default [] (file w))) (next_id w).

Definition append (bs : list byte) (w : WAL) : result WAL :=
  if opened w then Ok (mkWAL true (Some (default [] (file w) ++ bs)) (next_id w)) else Err "WAL not opened".

(** The records, as they are in the file. *)
Inductive record :=
  | Write (tx_id page_id : Z) (data : list byte)
  | Commit (tx_id : Z)
  | Rollback (tx_id : Z).

Definition record_bytes (r : record) : list byte :=
  match r with
  | Write tx_id page_id data =>
      byte_of 1 :: le_bytes 8 tx_id ++ le_bytes 8 page_id ++ le_bytes 4 (u32 (Z.of_nat (length data))) ++ data
  | Commit tx_id => byte_of 2 :: le_bytes 8 tx_id
  | Rollback tx_id => byte_of 3 :: le_bytes 8 tx_id
  end.

(** [append_write] takes the id the next transaction will get. *)
Definition append_write (page_id : Z) (data : list byte) (w : WAL) : result WAL :=
  append (record_bytes (Write (next_id w) page_id data)) w.
Definition append_commit (tx_id : Z) (w : WAL) : result WAL := append (record_bytes (Commit tx_id)) w.
Definition append_rollback (tx_id : Z) (w : WAL) : result WAL := append (record_bytes (Rollback tx_id)) w.

(** 2^64 transactions are not reached. *)
Definition next_tx_id (w : WAL) : Z * WAL := (next_id w, mkWAL (opened w) (file w) (next_id w + 1)).

Definition truncate (w : WAL) : WAL := if opened w then mkWAL true (Some []) (next_id w) else w.

(** [file.read_exact] of [n] bytes. *)
Definition read_exact (n : nat) (bs : list byte) : result (list byte * list byte) :=
  if decide (n <= length bs)%nat then Ok (take n bs, drop n bs) else Err "early eof".

(** One turn for each record; [fuel] bounds their number. *)
Fixpoint replay_loop (fuel : nat) (bs : list byte) (committed : gset Z) (entries : list (Z * list byte)) :
    result (list (Z * list byte)) :=
  match fuel with
  | O => Ok entries
  | S fuel =>
      match bs with
      | [] => Ok entries
      | t :: bs =>
          if byte_val t =? 1 then
            r ← read_exact 8 bs; let '(tx, bs) := r in
            r ← read_exact 8 bs; let '(page, bs) := r in
            r ← read_exact 4 bs; let '(len, bs) := r in
            r ← read_exact (Z.to_nat (le_val len)) bs; let '(data, bs) := r in
            let entries := if decide (le_val tx ∈ committed) then entries ++ [(le_val page, data)] else entries in
            replay_loop fuel bs committed entries
          else if byte_val t =? 2 then
            r ← read_exact 8 bs; let '(tx, bs) := r in replay_loop fuel bs ({[ le_val tx ]} ∪ committed) entries
          else if byte_val t =? 3 then
            r ← read_exact 8 bs; let '(tx, bs) := r in replay_loop fuel bs (committed ∖ {[ le_val tx ]}) entries
          else Ok entries
      end
  end.

Definition replay (w : WAL) : result (list (Z * list byte)) :=
  match file w with
  | Some bs => replay_loop (S (length bs)) bs ∅ []
  | None => Err "WAL replay open"
  end.

(** ** What a log means *)

(** The writes whose transaction is committed when they are read. *)
Fixpoint recovered (committed : gset Z) (rs : list record) : list (Z * list byte) :=
  match rs with
  | [] => []
  | Write tx page data :: rs => (if decide (tx ∈ committed) then [(page, data)] else []) ++ recovered committed rs
  | Commit tx :: rs => recovered ({[ tx ]} ∪ committed) rs
  | Rollback tx :: rs => recovered (committed ∖ {[ tx ]}) rs
  end.

Definition log_of (rs : list record) : list byte := concat (record_bytes <$> rs).

(** Ids of 64 bits, lengths of 32. *)
Definition fits (r : record) : Prop :=
  match r with
  | Write tx page data => in_u64 tx /\ in_u64 page /\ in_u32 (Z.of_nat (length data))
  | Commit tx | Rollback tx => in_u64 tx
  end.

Lemma read_exact_app n bs rest : length bs = n -> read_exact n (bs ++ rest) = Ok (bs, rest).
Proof.
  intros <-. unfold read_exact. rewrite decide_True by (rewrite length_app; lia).
  by rewrite take_app_length, drop_app_length.
Qed.

Lemma read_exact_cut n bs : (length bs < n)%nat -> read_exact n bs = Err "early eof".
Proof. intros. unfold read_exact. by rewrite decide_False by lia. Qed.

Lemma le_bytes_u64 z : in_u64 z -> le_val (le_bytes 8 z) = z.
Proof. intros Hz. rewrite le_val_bytes. apply wrap_small. exact Hz. Qed.

Lemma le_bytes_u32 z : in_u32 z -> le_val (le_bytes 4 z) = z.
Proof. intros Hz. rewrite le_val_bytes. apply wrap_small. exact Hz. Qed.

#[local] Ltac field := rewrite read_exact_app by (by rewrite length_le_bytes); cbn [mbind result_bind].

(** One record in front. *)
Lemma replay_record fuel r bs committed entries :
  fits r ->
  replay_loop (S fuel) (record_bytes r ++ bs) committed entries =
  match r with
  | Write tx page data =>
      replay_loop fuel bs committed (if decide (tx ∈ committed) then entries ++ [(page, data)] else entries)
  | Commit tx => replay_loop fuel bs ({[ tx ]} ∪ committed) entries
  | Rollback tx => replay_loop fuel bs (committed ∖ {[ tx ]}) entries
  end.
Proof.
  destruct r as [tx page data|tx|tx]; cbn [fits record_bytes replay_loop app];
    [intros (Ht & Hp & Hd)|intros Ht..]; rewrite byte_val_of.
  - change (1 mod 256 =? 1) with true. cbn iota. rewrite <- !app_assoc. do 3 field.
    rewrite u32_small by exact Hd. rewrite !le_bytes_u64, le_bytes_u32 by done. rewrite Nat2Z.id.
    by rewrite read_exact_app.
  - change (2 mod 256 =? 1) with false. change (2 mod 256 =? 2) with true. cbn iota. field. by rewrite le_bytes_u64.
  - change (3 mod 256 =? 1) with false. change (3 mod 256 =? 2) with false. change (3 mod 256 =? 3) with true.
    cbn iota. field. by rewrite le_bytes_u64.
Qed.

(** A record that was cut. *)
Lemma replay_cut fuel r m committed entries :
  fits r -> (0 < m < length (record_bytes r))%nat ->
  replay_loop (S fuel) (take m (record_bytes r)) committed entries = Err "early eof".
Proof.
  destruct m as [|m]; [lia|].
  destruct r as [tx page data|tx|tx]; cbn [fits record_bytes take length]; rewrite ?length_app, !length_le_bytes;
    [intros (Ht & Hp & Hd)|intros Ht..]; intros Hm; cbn [replay_loop]; rewrite byte_val_of.
  - change (1 mod 256 =? 1) with true. cbn iota.
    destruct (decide (m < 8)%nat) as [Hs|Hs]; [by rewrite (read_exact_cut 8) by (rewrite length_take; lia)|].
    rewrite take_app_ge by (rewrite length_le_bytes; lia). field. rewrite length_le_bytes.
    destruct (decide (m - 8 < 8)%nat) as [Hs2|Hs2]; [by rewrite (read_exact_cut 8) by (rewrite length_take; lia)|].
    rewrite take_app_ge by (rewrite length_le_bytes; lia). field. rewrite length_le_bytes.
    destruct (decide (m - 8 - 8 < 4)%nat) as [Hs3|Hs3]; [by rewrite (read_exact_cut 4) by (rewrite length_take; lia)|].
    rewrite take_app_ge by (rewrite length_le_bytes; lia). field. rewrite length_le_bytes.
    rewrite u32_small by exact Hd. rewrite le_bytes_u32 by done.
    rewrite read_exact_cut; [done|]. rewrite length_take. lia.
  - change (2 mod 256 =? 1) with false. change (2 mod 256 =? 2) with true. cbn iota.
    rewrite read_exact_cut; [done|]. rewrite length_take. lia.
  - change (3 mod 256 =? 1) with false. change (3 mod 256 =? 2) with false. change (3 mod 256 =? 3) with true.
    cbn iota. rewrite read_exact_cut; [done|]. rewrite length_take. lia.
Qed.

Lemma replay_records fuel rs bs committed entries :
  Forall fits rs ->
  exists committed', forall k, (length rs + k = fuel)%nat ->
  replay_loop fuel (log_of rs ++ bs) committed entries = replay_loop k bs committed' (entries ++ recovered committed rs).
Proof.
  intros Hf. revert fuel committed entries. induction Hf as [|r rs Hr _ IH]; intros fuel committed entries.
  - exists committed. intros k <-. cbn. by rewrite app_nil_r.
  - destruct (IH (pred fuel) (match r with Commit tx => {[ tx ]} ∪ committed | Rollback tx => committed ∖ {[ tx ]} | _ => committed end)
      (match r with Write tx page data => if decide (tx ∈ committed) then entries ++ [(page, data)] else entries | _ => entries end))
      as [committed' IH'].
    exists committed'. intros k Hk. cbn [length] in Hk. destruct fuel as [|fuel]; [lia|]. cbn [log_of fmap list_fmap concat].
    rewrite <- app_assoc, replay_record by done.
    assert (Hk' : (length rs + k = fuel)%nat) by lia. specialize (IH' k Hk').
    destruct r as [tx page data|tx|tx]; cbn [recovered pred] in *; unfold log_of in IH'; rewrite IH'; try done.
    by case_decide; rewrite <- ?app_assoc.
Qed.

Lemma record_bytes_nonempty r : (1 <= length (record_bytes r))%nat.
Proof. destruct r; cbn; lia. Qed.

Lemma log_length rs : (length rs <= length (log_of rs))%nat.
Proof.
  induction rs as [|r rs IH]; [done|]. cbn. rewrite length_app. pose proof (record_bytes_nonempty r).
  unfold log_of in IH. lia.
Qed.

(** C30: Replaying a log gives back what was appended to it.  For every
    sequence of records, [replay] of the file they make returns the writes of
    the transactions committed at that point of the log, in order; a file
    that ends inside a record, as a crash during an append leaves it, is
    refused as a whole. *)
Theorem replay_log rs (Hfits : Forall fits rs) :
  (forall w, file w = Some (log_of rs) -> replay w = Ok (recovered ∅ rs)) /\
  (forall w r m, fits r -> (0 < m < length (record_bytes r))%nat ->
     file w = Some (log_of rs ++ take m (record_bytes r)) -> replay w = Err "early eof").
Proof.
  pose proof (log_length rs) as Hlen. split.
  - intros w E. unfold replay. rewrite E.
    destruct (replay_records (S (length (log_of rs))) rs [] ∅ [] Hfits) as [c Hc].
    rewrite app_nil_r in Hc. rewrite (Hc (S (length (log_of rs)) - length rs)%nat) by lia.
    by destruct (S (length (log_of rs)) - length rs)%nat.
  - intros w r m Hr Hm E. unfold replay. rewrite E. rewrite length_app, length_take.
    destruct (replay_records (S (length (log_of rs) + m `min` length (record_bytes r))) rs (take m (record_bytes r)) ∅ [] Hfits)
      as [c Hc].
    rewrite (Hc (S (length (log_of rs) + m `min` length (record_bytes r) - length rs))) by lia.
    by apply replay_cut.
Qed.

(** ** Transactions *)

(** The page writes of a [put], between its transaction id and its commit. *)
Fixpoint append_writes (pages : list (Z * list byte)) (w : WAL) : result WAL :=
  match pages with
  | [] => Ok w
  | (page, data) :: pages => w ← append_write page data w; append_writes pages w
  end.

Definition transaction (pages : list (Z * list byte)) (w : WAL) : result WAL :=
  let '(tx, w) := next_tx_id w in w ← append_writes pages w; append_commit tx w.

Fixpoint transactions (txs : list (list (Z * list byte))) (w : WAL) : result WAL :=
  match txs with
  | [] => Ok w
  | pages :: txs => w ← transaction pages w; transactions txs w
  end.

(** What is committed after the records. *)
Fixpoint committed_by (committed : gset Z) (rs : list record) : gset Z :=
  match rs with
  | [] => committed
  | Write _ _ _ :: rs => committed_by committed rs
  | Commit tx :: rs => committed_by ({[ tx ]} ∪ committed) rs
  | Rollback tx :: rs => committed_by (committed ∖ {[ tx ]}) rs
  end.

Lemma recovered_app committed rs rs' :
  recovered committed (rs ++ rs') = recovered committed rs ++ recovered (committed_by committed rs) rs'.
Proof.
  revert committed. induction rs as [|[tx page data|tx|tx] rs IH]; intros committed; cbn; rewrite ?IH; try done.
  by rewrite app_assoc.
Qed.

Lemma committed_by_app committed rs rs' : committed_by committed (rs ++ rs') = committed_by (committed_by committed rs) rs'.
Proof. revert committed. induction rs as [|[] rs IH]; intros committed; cbn; by rewrite ?IH. Qed.

Lemma log_of_app rs rs' : log_of (rs ++ rs') = log_of rs ++ log_of rs'.
Proof. unfold log_of. by rewrite fmap_app, concat_app. Qed.

Lemma log_of_one r : log_of [r] = record_bytes r.
Proof. apply app_nil_r. Qed.

Definition page_fits (pd : Z * list byte) : Prop := in_u64 pd.1 /\ in_u32 (Z.of_nat (length pd.2)).

(** A log in which nothing is recovered, whose commits are of ids given out. *)
Definition lossy (n : Z) (rs : list record) : Prop :=
  Forall fits rs /\ recovered ∅ rs = [] /\ (forall tx, tx ∈ committed_by ∅ rs -> tx < n).

Lemma append_writes_log pages n rs :
  Forall page_fits pages -> in_u64 (n + 1) -> lossy n rs ->
  exists rs', append_writes pages (mkWAL true (Some (log_of rs)) (n + 1)) = Ok (mkWAL true (Some (log_of rs')) (n + 1)) /\
    lossy n rs'.
Proof.
  intros Hp Hn. revert rs. induction Hp as [|[page data] pages [Hp1 Hp2] _ IH]; intros rs Hl; [by exists rs|].
  cbn [append_writes append_write append opened file next_id mbind result_bind default].
  destruct (IH (rs ++ [Write (n + 1) page data])) as (rs' & E & Hl').
  - destruct Hl as (Hf & Hr & Hc). split_and!.
    + apply Forall_app. split; [done|]. by constructor.
    + rewrite recovered_app, Hr. cbn. rewrite decide_False; [done|]. intros Hin%Hc. lia.
    + rewrite committed_by_app. exact Hc.
  - exists rs'. split; [|done]. by rewrite <- E, log_of_app, log_of_one.
Qed.

Lemma transaction_log pages n rs :
  Forall page_fits pages -> in_u64 n -> in_u64 (n + 1) -> lossy n rs ->
  exists rs', transaction pages (mkWAL true (Some (log_of rs)) n) = Ok (mkWAL true (Some (log_of rs')) (n + 1)) /\
    lossy (n + 1) rs'.
Proof.
  intros Hp Hn0 Hn Hl. destruct (append_writes_log pages n rs Hp Hn Hl) as (rs' & E & Hf & Hr & Hc).
  unfold transaction. cbn [next_tx_id opened file next_id]. rewrite E.
  exists (rs' ++ [Commit n]). split.
  - by rewrite log_of_app, log_of_one.
  - split_and!.
    + apply Forall_app. split; [done|]. by constructor.
    + by rewrite recovered_app, Hr.
    + rewrite committed_by_app. cbn. intros tx [->%elem_of_singleton|Hin%Hc]%elem_of_union; lia.
Qed.

(** After any transactions of a server that started without a log, replaying
    it recovers nothing: the writes of a transaction carry the id of the next
    one, and come before its commit. *)
Theorem committed_writes_are_lost txs (Hpages : Forall (Forall page_fits) txs)
    (Hids : Z.of_nat (length txs) < 2 ^ 64 - 1) :
  exists w, transactions txs (open (new None)) = Ok w /\ replay w = Ok [].
Proof.
  assert (Hgo : forall n rs, 1 <= n -> n + Z.of_nat (length txs) < 2 ^ 64 -> lossy n rs ->
    exists w rs', transactions txs (mkWAL true (Some (log_of rs)) n) = Ok w /\ file w = Some (log_of rs') /\
      Forall fits rs' /\ recovered ∅ rs' = []).
  { clear Hids. induction Hpages as [|pages txs Hp _ IH]; intros n rs Hn1 Hn Hl; cbn [length] in Hn.
    - destruct Hl as (Hf & Hr & _). by eexists _, rs.
    - cbn [transactions].
      destruct (transaction_log pages n rs Hp ltac:(unfold in_u64; lia) ltac:(unfold in_u64; lia) Hl) as (rs' & -> & Hl').
      apply IH; [lia..|done]. }
  destruct (Hgo 1 []) as (w & rs' & E & Ef & Hf & Hr); [lia..|by split_and!|].
  exists w. split; [exact E|]. destruct (replay_log rs' Hf) as [H _]. rewrite (H w Ef). by rewrite Hr.
Qed.

(** ** Witnesses *)

(** Two transactions, the first written as it should be; then a cut in a
    third record. *)
Lemma replay_log_witness :
  let rs := [Commit 1; Write 1 7 (bytes_of "page"); Write 2 8 (bytes_of "lost"); Commit 2; Rollback 1; Write 1 9 []] in
  replay (mkWAL false (Some (log_of rs)) 1) = Ok [(7, bytes_of "page")] /\
  replay (mkWAL false (Some (log_of rs ++ take 12 (record_bytes (Write 2 8 (bytes_of "lost"))))) 1) = Err "early eof".
Proof.
  assert (Hf : Forall fits [Commit 1; Write 1 7 (bytes_of "page"); Write 2 8 (bytes_of "lost"); Commit 2; Rollback 1; Write 1 9 []])
    by (repeat constructor; vm_compute; discriminate).
  destruct (replay_log _ Hf) as [H1 H2]. split.
  - rewrite H1 by reflexivity. vm_compute. reflexivity.
  - apply (H2 _ (Write 2 8 (bytes_of "lost")) 12%nat); [repeat split; vm_compute; discriminate|vm_compute; lia|reflexivity].
Defined.

End Wal.
