(* ===== verification/Pages.v ===== *)
(** * Pages and the buffer pool: [btree/page.rs], [btree/buffer_pool.rs]

    A page is 4096 bytes with a dirty flag; the pool keeps pages of the
    database file in memory and writes dirty ones back.  Each operation runs
    alone, and reading and writing the file succeeds where the file is long
    enough.  The pool is shown to be the page file it stands for. *)

From stdpp Require Import base strings gmap list numbers.
From Stdlib Require Import ZArith Lia.
From S2P Require Import Prelude Rust.
From stdpp Require Import list.

#[local] Open Scope Z_scope.

Module Page.

Definition PAGE_SIZE : nat := 4096.

Record Page := mkPage { id : Z; data : list byte; dirty : bool }.

Definition new (i : Z) : Page := mkPage i (replicate PAGE_SIZE (byte_of 0)) false.

Definition read_slice (off len : nat) (p : Page) : result (list byte) := slice off len (data p).

Definition write_slice (off : nat) (d : list byte) (p : Page) : result Page :=
  bs ← splice off d (data p); mret (mkPage (id p) bs true).

Definition read_u64 (off : nat) (p : Page) : result Z := bs ← slice off 8 (data p); mret (le_val bs).
Definition read_u32 (off : nat) (p : Page) : result Z := bs ← slice off 4 (data p); mret (le_val bs).
Definition write_u64 (off : nat) (v : Z) (p : Page) : result Page := write_slice off (le_bytes 8 v) p.
Definition write_u32 (off : nat) (v : Z) (p : Page) : result Page := write_slice off (le_bytes 4 v) p.

Definition serialize (p : Page) : list byte := data p.

(** [try_into().unwrap()] of another length panics. *)
Definition deserialize (i : Z) (bs : list byte) : result Page :=
  if decide (length bs = PAGE_SIZE) then Ok (mkPage i bs false) else Panicked.

End Page.

Module Buffer.
Import Page.

Record BufferPool := mkPool {
  pages : gmap Z Page;
  lru_queue : list Z;
  capacity : nat;
  db : option (list byte)        (**r the file [db_path], once there is one *)
}.

Definition new_pool (disk : option (list byte)) (cap : nat) : BufferPool := mkPool ∅ [] cap disk.

Definition with_pages (m : gmap Z Page) (p : BufferPool) : BufferPool := mkPool m (lru_queue p) (capacity p) (db p).

(** *** The file *)

(** [page_id as usize * PAGE_SIZE] *)
Definition offset_of (page_id : Z) : option nat :=
  if 2 ^ 64 <=? page_id * Z.of_nat PAGE_SIZE then None else Some (Z.to_nat page_id * PAGE_SIZE)%nat.

Definition load_page (page_id : Z) (p : BufferPool) : result Page :=
  match db p with
  | None => Err "open"
  | Some f =>
      match offset_of page_id with
      | None => Panicked
      | Some off =>
          if decide (off + PAGE_SIZE <= length f)%nat then deserialize page_id (take PAGE_SIZE (drop off f))
          else Err "read"
      end
  end.

(** Writing past the end fills the gap with zeros. *)
Definition write_at (off : nat) (d f : list byte) : list byte :=
  take off (f ++ replicate (off - length f) (byte_of 0)) ++ d ++ drop (off + length d) f.

Definition save_page (pg : Page) (p : BufferPool) : result BufferPool :=
  match offset_of (id pg) with
  | None => Panicked
  | Some off => Ok (mkPool (pages p) (lru_queue p) (capacity p) (Some (write_at off (serialize pg) (default [] (db p)))))
  end.

(** *** Operations *)

Definition touch_lru (page_id : Z) (p : BufferPool) : BufferPool :=
  mkPool (pages p) (List.filter (fun i => negb (i =? page_id)) (lru_queue p) ++ [page_id]) (capacity p) (db p).

Definition put_page (pg : Page) (p : BufferPool) : BufferPool :=
  touch_lru (id pg) (with_pages (<[id pg := pg]> (pages p)) p).

Definition clean (pg : Page) : Page := mkPage (id pg) (data pg) false.

Definition mark_dirty (page_id : Z) (p : BufferPool) : BufferPool :=
  with_pages (alter (fun pg => mkPage (id pg) (data pg) true) page_id (pages p)) p.

Definition flush_page (page_id : Z) (p : BufferPool) : result BufferPool :=
  match pages p !! page_id with
  | None => Ok p
  | Some pg =>
      if negb (dirty pg) then Ok p
      else p ← save_page pg p; mret (with_pages (alter clean page_id (pages p)) p)
  end.

Fixpoint flush_each (ids : list Z) (p : BufferPool) : result BufferPool :=
  match ids with [] => Ok p | i :: ids => p ← flush_page i p; flush_each ids p end.

(** The ids in the order of the map. *)
Definition dirty_ids (p : BufferPool) : list Z := (List.filter (fun kp => dirty kp.2) (map_to_list (pages p))).*1.

Definition flush_all (p : BufferPool) : result BufferPool := flush_each (dirty_ids p) p.

Definition pop_lru (p : BufferPool) : option (Z * BufferPool) :=
  match lru_queue p with i :: q => Some (i, mkPool (pages p) q (capacity p) (db p)) | [] => None end.

(** The error of a flush is ignored. *)
Definition evict_if_needed (p : BufferPool) : result BufferPool :=
  if decide (capacity p < size (pages p))%nat then
    match pop_lru p with
    | Some (i, p) =>
        match flush_page i p with
        | Ok p => Ok (with_pages (delete i (pages p)) p)
        | Err _ => Ok (with_pages (delete i (pages p)) p)
        | Panicked => Panicked
        | NoEnd => NoEnd
        end
    | None => Ok p
    end
  else Ok p.

Definition get_page (page_id : Z) (p : BufferPool) : result (Page * BufferPool) :=
  match pages p !! page_id with
  | Some pg => Ok (pg, touch_lru page_id p)
  | None =>
      pg ← load_page page_id p;
      p ← evict_if_needed (with_pages (<[page_id := pg]> (pages p)) p);
      mret (pg, p)
  end.

Definition page_count (p : BufferPool) : nat := size (pages p).
Definition file_size (p : BufferPool) : Z := Z.of_nat (length (default [] (db p))).

(** ** The page file a pool stands for *)

Definition on_disk (i : Z) (p : BufferPool) : option (list byte) :=
  match load_page i p with Ok pg => Some (data pg) | _ => None end.

Definition content (i : Z) (p : BufferPool) : option (list byte) :=
  match pages p !! i with Some pg => Some (data pg) | None => on_disk i p end.

(** An id whose place in the file can be computed. *)
Definition good_id (i : Z) : Prop := 0 <= i /\ i * Z.of_nat PAGE_SIZE < 2 ^ 64.

Definition page_ok (i : Z) (pg : Page) : Prop := id pg = i /\ good_id i /\ length (data pg) = PAGE_SIZE.

(** What is in memory are pages, the clean ones as they are in the file. *)
Definition coherent (p : BufferPool) : Prop :=
  map_Forall (fun i pg => page_ok i pg /\ (dirty pg = false -> on_disk i p = Some (data pg))) (pages p).

(** Nothing has been lost or changed. *)
Definition keeps (p p' : BufferPool) : Prop := forall i d, good_id i -> content i p = Some d -> content i p' = Some d.

Lemma good_offset i : good_id i -> offset_of i = Some (Z.to_nat i * PAGE_SIZE)%nat.
Proof. intros [H0 Hi]. unfold offset_of. by destruct (Z.leb_spec (2 ^ 64) (i * Z.of_nat PAGE_SIZE)); [lia|]. Qed.

Lemma on_disk_good i p :
  good_id i ->
  on_disk i p = match db p with
                | Some f => if decide (Z.to_nat i * PAGE_SIZE + PAGE_SIZE <= length f)%nat
                            then Some (take PAGE_SIZE (drop (Z.to_nat i * PAGE_SIZE) f)) else None
                | None => None
                end.
Proof.
  intros Hi. unfold on_disk, load_page. destruct (db p) as [f|]; [|done]. rewrite good_offset by done.
  case_decide as Hl; [|done]. unfold deserialize. rewrite decide_True; [done|]. rewrite length_take, length_drop. lia.
Qed.

Lemma on_disk_db i p p' : db p = db p' -> on_disk i p = on_disk i p'.
Proof. unfold on_disk, load_page. by intros ->. Qed.

(** *** Writing at a place of the file *)

Lemma write_at_length off d f : length (write_at off d f) = Nat.max (length f) (off + length d).
Proof. unfold write_at. rewrite !length_app, length_take, length_app, length_replicate, length_drop. lia. Qed.

Lemma write_at_inside off d f i :
  (off <= i < off + length d)%nat -> write_at off d f !! i = d !! (i - off)%nat.
Proof.
  intros Hi. unfold write_at. rewrite lookup_app_r; rewrite length_take, length_app, length_replicate; [|lia].
  replace (off `min` (length f + (off - length f)))%nat with off by lia. by rewrite lookup_app_l by lia.
Qed.

Lemma write_at_outside off d f i :
  (i < off \/ off + length d <= i)%nat -> (i < length f)%nat -> write_at off d f !! i = f !! i.
Proof.
  intros Hi Hf. unfold write_at. destruct (decide (i < off)%nat).
  - rewrite lookup_app_l by (rewrite length_take, length_app, length_replicate; lia).
    rewrite lookup_take_lt by done. by rewrite lookup_app_l.
  - rewrite lookup_app_r; rewrite length_take, length_app, length_replicate; [|lia].
    replace (off `min` (length f + (off - length f)))%nat with off by lia.
    rewrite lookup_app_r by lia. rewrite lookup_drop. f_equal. lia.
Qed.

Lemma pages_apart (a b n : nat) : a <> b -> (a * n + n <= b * n \/ b * n + n <= a * n)%nat.
Proof.
  intros Hne. destruct (decide (a < b)%nat); [left; assert (S a * n <= b * n)%nat|right; assert (S b * n <= a * n)%nat];
    try (apply Nat.mul_le_mono_r; lia); lia.
Qed.

(** The page that is saved is on disk; the others stay there. *)
Lemma save_page_disk i pg p :
  page_ok i pg -> exists p', save_page pg p = Ok p' /\ pages p' = pages p /\ on_disk i p' = Some (data pg) /\
  (forall j d, good_id j -> j <> i -> on_disk j p = Some d -> on_disk j p' = Some d).
Proof.
  intros (Hid & Hi & Hlen). unfold save_page, serialize. rewrite Hid, good_offset by done. eexists. split; [done|].
  set (off := (Z.to_nat i * PAGE_SIZE)%nat). set (f := default [] (db p)).
  split; [done|]. split.
  - rewrite on_disk_good by done. cbn [db]. fold off. rewrite decide_True by (rewrite write_at_length; lia). f_equal.
    apply list_eq. intros k. destruct (decide (k < PAGE_SIZE)%nat).
    + rewrite lookup_take_lt, lookup_drop, write_at_inside by lia. f_equal. lia.
    + rewrite lookup_take_ge by lia. symmetry. apply lookup_ge_None. lia.
  - intros j d Hj Hne. rewrite !on_disk_good by done. cbn [db]. set (off' := (Z.to_nat j * PAGE_SIZE)%nat).
    subst f. destruct (db p) as [f|]; [|done]. unfold default, Datatypes.id. case_decide as Hf; [|done]. intros [= <-].
    rewrite decide_True by (rewrite write_at_length; lia). f_equal.
    assert (Hap : (off' + PAGE_SIZE <= off \/ off + PAGE_SIZE <= off')%nat).
    { destruct Hi as [Hi _], Hj as [Hj _]. apply pages_apart. lia. }
    apply list_eq. intros k. destruct (decide (k < PAGE_SIZE)%nat).
    + rewrite !lookup_take_lt, !lookup_drop by done. apply write_at_outside; lia.
    + by rewrite !lookup_take_ge by lia.
Qed.

Lemma content_db i p p' : pages p = pages p' -> db p = db p' -> content i p = content i p'.
Proof. unfold content. intros -> E. by rewrite (on_disk_db i p p'). Qed.

Lemma keeps_both p1 p2 p3 : keeps p1 p2 -> keeps p2 p3 -> keeps p1 p3.
Proof. intros H1 H2 i d Hi Hd. by apply H2, H1. Qed.

Lemma coherent_db p p' : pages p = pages p' -> db p = db p' -> coherent p -> coherent p'.
Proof.
  unfold coherent. intros -> E H i pg Hp. destruct (H i pg Hp) as [H1 H2]. split; [done|].
  intros Hd. rewrite <- (on_disk_db i p p') by done. by apply H2.
Qed.

(** What the queue is does not matter. *)
Lemma touch_same i p : pages (touch_lru i p) = pages p /\ db (touch_lru i p) = db p.
Proof. done. Qed.

(** *** Flushing *)

Lemma alter_clean i (m : gmap Z Page) : (forall pg, m !! i = Some pg -> dirty pg = false) -> alter clean i m = m.
Proof.
  intros Hd. apply map_eq. intros j. destruct (decide (j = i)) as [->|]; [|by rewrite lookup_alter_ne].
  rewrite lookup_alter_eq. destruct (m !! i) as [[? ? d]|] eqn:E; [|done]. by specialize (Hd _ eq_refl); cbn in Hd; subst.
Qed.

Lemma flush_page_ok i p :
  coherent p ->
  exists p', flush_page i p = Ok p' /\ coherent p' /\ keeps p p' /\ pages p' = alter clean i (pages p) /\
  (forall pg, pages p !! i = Some pg -> on_disk i p' = Some (data pg)).
Proof.
  intros Hc. unfold flush_page. destruct (pages p !! i) as [pg|] eqn:E.
  2: { exists p. split_and!; [done|done|by intros ?|by rewrite alter_clean by (by rewrite E)|done]. }
  destruct (Hc i pg E) as [Hok Hclean]. destruct (dirty pg) eqn:Ed; cbn [negb].
  2: { exists p. split_and!; [done|done|by intros ?|by rewrite alter_clean by (intros ?; by rewrite E; intros [= <-])|]. intros pg' [= <-]. by apply Hclean. }
  destruct (save_page_disk i pg p Hok) as (p' & Es & Ep & Hd & Ho). rewrite Es. cbn [mbind result_bind mret result_ret].
  assert (Hdisk : forall j, on_disk j (with_pages (alter clean i (pages p')) p') = on_disk j p')
    by (intros j; by apply on_disk_db).
  eexists. split; [done|]. cbn [pages with_pages]. rewrite Ep in *. split_and!; [| |done|].
  - intros j pg' Hj. rewrite Hdisk. cbn [pages with_pages] in Hj. destruct (decide (j = i)) as [->|Hji].
    + rewrite lookup_alter_eq, E in Hj. injection Hj as <-. by split.
    + rewrite lookup_alter_ne in Hj by done. destruct (Hc j pg' Hj) as [Hok' Hcl']. split; [done|]. intros Hd'.
      apply Ho; [apply Hok'|done|]. by apply Hcl'.
  - intros j d Hj. unfold content. rewrite Hdisk. cbn [pages with_pages]. destruct (decide (j = i)) as [->|Hji].
    + by rewrite lookup_alter_eq, E.
    + rewrite lookup_alter_ne by done. destruct (pages p !! j); [done|]. by apply Ho.
  - intros pg' [= <-]. by rewrite Hdisk.
Qed.

Lemma flush_each_ok ids p :
  coherent p -> exists p', flush_each ids p = Ok p' /\ coherent p' /\ keeps p p' /\
  (forall i pg', pages p' !! i = Some pg' -> exists pg, pages p !! i = Some pg /\ data pg' = data pg /\
     (dirty pg' = true -> dirty pg = true /\ i ∉ ids)).
Proof.
  revert p. induction ids as [|i ids IH]; intros p Hc.
  - exists p. split_and!; [done|done|by intros ?|]. intros j pg Hj. exists pg. split_and!; [done|done|].
    intros Hd. split; [done|]. by apply not_elem_of_nil.
  - destruct (flush_page_ok i p Hc) as (p1 & E1 & Hc1 & Hk1 & Ep1 & _). destruct (IH p1 Hc1) as (p2 & E2 & Hc2 & Hk2 & Hp2).
    exists p2. cbn [flush_each]. rewrite E1. split_and!; [exact E2|done|by eapply keeps_both|].
    intros j pg' Hj. destruct (Hp2 j pg' Hj) as (pg1 & H1 & Hd1 & Hdirty). rewrite Ep1 in H1.
    destruct (decide (j = i)) as [->|Hne].
    + rewrite lookup_alter_eq in H1. destruct (pages p !! i) as [pg|]; [|done]. injection H1 as <-.
      exists pg. split_and!; [done|done|]. intros Hd. by destruct (Hdirty Hd).
    + rewrite lookup_alter_ne in H1 by done. exists pg1. split_and!; [done|done|]. intros Hd.
      destruct (Hdirty Hd) as [? ?]. split; [done|]. by apply not_elem_of_cons.
Qed.

(** *** Bringing a page in *)

Lemma coherent_insert i pg p :
  coherent p -> page_ok i pg -> (dirty pg = false -> on_disk i p = Some (data pg)) ->
  coherent (with_pages (<[i := pg]> (pages p)) p).
Proof.
  intros Hc Hok Hd j pg' Hj. assert (E : on_disk j (with_pages (<[i := pg]> (pages p)) p) = on_disk j p) by (by apply on_disk_db).
  rewrite E. cbn [pages with_pages] in Hj. apply lookup_insert_Some in Hj as [[<- <-]|[_ Hj]]; [done|by apply Hc].
Qed.

Lemma evict_ok p : coherent p -> exists p', evict_if_needed p = Ok p' /\ coherent p' /\ keeps p p'.
Proof.
  intros Hc. unfold evict_if_needed. case_decide; [|by exists p; split_and!; [done|done|intros ?]].
  unfold pop_lru. destruct (lru_queue p) as [|i q]; [by exists p; split_and!; [done|done|intros ?]|].
  set (p0 := mkPool (pages p) q (capacity p) (db p)). assert (Hc0 : coherent p0) by (by apply (coherent_db p)).
  destruct (flush_page_ok i p0 Hc0) as (p1 & -> & Hc1 & Hk1 & Ep1 & Hd1). eexists. split; [done|].
  assert (Hdisk : forall j, on_disk j (with_pages (delete i (pages p1)) p1) = on_disk j p1) by (intros j; by apply on_disk_db).
  split.
  - intros j pg Hj. rewrite Hdisk. cbn [pages with_pages] in Hj. apply lookup_delete_Some in Hj as [_ Hj]. by apply Hc1.
  - intros j d Hj Hd. assert (Hd' : content j p1 = Some d) by (apply Hk1; [done|]; by rewrite <- (content_db j p p0)).
    unfold content in *. cbn [pages with_pages]. rewrite Hdisk. destruct (decide (j = i)) as [->|Hne].
    + rewrite lookup_delete_eq. rewrite Ep1, lookup_alter_eq in Hd'. cbn [pages p0] in *.
      destruct (pages p !! i) as [pg|] eqn:E; [|done]. cbn in Hd'. injection Hd' as <-. by apply Hd1.
    + by rewrite lookup_delete_ne.
Qed.

Lemma load_page_ok i p d :
  good_id i -> on_disk i p = Some d -> load_page i p = Ok (mkPage i d false) /\ length d = PAGE_SIZE.
Proof.
  intros Hi. unfold on_disk, load_page, deserialize. destruct (db p); [|done]. rewrite good_offset by done.
  case_decide; [|done]. case_decide as Hl; [|done]. cbn [data]. by intros [= <-].
Qed.

Lemma load_page_none i p : good_id i -> on_disk i p = None -> exists msg, load_page i p = Err msg.
Proof.
  intros Hi. unfold on_disk, load_page, deserialize. destruct (db p); [|by eexists]. rewrite good_offset by done.
  case_decide; [|by eexists]. rewrite decide_True; [done|]. rewrite length_take, length_drop. lia.
Qed.



End Buffer.
