(* ===== verification/Btree.v ===== *)
(** * The storage engine: [btree/btree.rs], [btree/storage.rs]

    A B-tree whose nodes are pages of the buffer pool ([Pages.v]), with a log
    ([Wal.v]).  Every operation of the tree is here as it is written, down to
    the bytes of a node; each runs alone.  A recursion that follows page ids
    gets fuel; [NoEnd] is not reached in what is proved. *)

From stdpp Require Import base strings gmap list numbers.
From Stdlib Require Import ZArith Lia.
From S2P Require Import Prelude Rust Wal Pages.
From stdpp Require Import list.

#[local] Open Scope Z_scope.

Module Btree.
Import Page.

Definition ORDER : nat := 64.
Definition HEADER_SIZE : nat := 32.
Definition KEY_SIZE : nat := 32.
Definition VALUE_SIZE : nat := 64.

(** ** Nodes in pages *)

Record BTreeNode := mkNode { page_id : Z; is_leaf : bool; num_keys : Z; parent_id : Z; next_leaf : Z }.

Definition with_num (n : Z) (b : BTreeNode) : BTreeNode := mkNode (page_id b) (is_leaf b) n (parent_id b) (next_leaf b).

Definition from_page (pg : Page) : result BTreeNode :=
  leaf ← read_u32 0 pg;
  num ← read_u32 1 pg;
  parent ← read_u64 5 pg;
  next ← read_u64 13 pg;
  mret (mkNode (id pg) (leaf =? 1) num parent next).

Definition save_to_page (b : BTreeNode) (pg : Page) : result Page :=
  pg ← write_u32 0 (if is_leaf b then 1 else 0) pg;
  pg ← write_u32 1 (num_keys b) pg;
  pg ← write_u64 5 (parent_id b) pg;
  write_u64 13 (next_leaf b) pg.

Definition keys (b : BTreeNode) : nat := Z.to_nat (num_keys b).

Definition key_offset (i : nat) : nat := (HEADER_SIZE + i * (KEY_SIZE + VALUE_SIZE))%nat.
Definition value_offset (i : nat) : nat := (HEADER_SIZE + i * (KEY_SIZE + VALUE_SIZE) + KEY_SIZE)%nat.
Definition child_offset (i : nat) : nat := (HEADER_SIZE + ORDER * (KEY_SIZE + VALUE_SIZE) + i * 8)%nat.

(** A buffer of zeros with the bytes that fit copied into it. *)
Definition padded (n : nat) (bs : list byte) : list byte := take n bs ++ replicate (n - length bs) (byte_of 0).

Definition read_key (pg : Page) (i : nat) : result (list byte) := read_slice (key_offset i) KEY_SIZE pg.
Definition write_key (i : nat) (key : list byte) (pg : Page) : result Page :=
  write_slice (key_offset i) (padded KEY_SIZE key) pg.
Definition read_value (pg : Page) (i : nat) : result (list byte) := read_slice (value_offset i) VALUE_SIZE pg.
Definition write_value (i : nat) (v : list byte) (pg : Page) : result Page :=
  write_slice (value_offset i) (padded VALUE_SIZE v) pg.
Definition read_child_id (pg : Page) (i : nat) : result Z := read_u64 (child_offset i) pg.
Definition write_child_id (i : nat) (c : Z) (pg : Page) : result Page := write_u64 (child_offset i) c pg.

(** [a < b] on slices of bytes. *)
Fixpoint bytes_lt (a b : list byte) : bool :=
  match a, b with
  | _, [] => false
  | [], _ :: _ => true
  | x :: a, y :: b => (byte_val x <? byte_val y) || ((byte_val x =? byte_val y) && bytes_lt a b)
  end.

(** *** Loops over the keys of a node; [i] is the index, [n] what is left *)

(** The first key that equals [key]. *)
Fixpoint find_key (n i : nat) (pg : Page) (key : list byte) : result (option nat) :=
  match n with
  | O => mret None
  | S n => k ← read_key pg i; if decide (k = key) then mret (Some i) else find_key n (S i) pg key
  end.

(** The child for [key]: that of the first key [k] with [before key k], or
    the last one. *)
Fixpoint choose (before : list byte -> list byte -> bool) (n i : nat) (pg : Page) (key : list byte) : result nat :=
  match n with
  | O => mret i
  | S n => k ← read_key pg i; if before key k then mret i else choose before n (S i) pg key
  end.

(** [Inl i]: the key is at [i]; [Inr pos]: where it belongs. *)
Fixpoint leaf_place (n i pos : nat) (pg : Page) (key : list byte) : result (nat + nat) :=
  match n with
  | O => mret (inr pos)
  | S n =>
      k ← read_key pg i;
      if decide (k = key) then mret (inl i)
      else leaf_place n (S i) (if bytes_lt k key then S i else pos) pg key
  end.

Fixpoint internal_place (n i pos : nat) (pg : Page) (key : list byte) : result nat :=
  match n with
  | O => mret pos
  | S n => k ← read_key pg i; internal_place n (S i) (if bytes_lt k key then S i else pos) pg key
  end.

(** The [n] entries from [pos] on move up by one, the last one first. *)
Fixpoint shift_up (n pos : nat) (pg : Page) : result Page :=
  match n with
  | O => mret pg
  | S n =>
      k ← read_key pg (pos + n); v ← read_value pg (pos + n);
      pg ← write_key (pos + n + 1) k pg; pg ← write_value (pos + n + 1) v pg; shift_up n pos pg
  end.

Fixpoint shift_children (n pos : nat) (pg : Page) : result Page :=
  match n with
  | O => mret pg
  | S n =>
      k ← read_key pg (pos + n); c ← read_child_id pg (pos + n + 1);
      pg ← write_key (pos + n + 1) k pg; pg ← write_child_id (pos + n + 2) c pg; shift_children n pos pg
  end.

Fixpoint shift_down (n i : nat) (pg : Page) : result Page :=
  match n with
  | O => mret pg
  | S n =>
      k ← read_key pg (i + 1); v ← read_value pg (i + 1);
      pg ← write_key i k pg; pg ← write_value i v pg; shift_down n (S i) pg
  end.

(** The entries of the right half, to the page's index [j] and up. *)
Fixpoint copy_entries (n i j : nat) (from : Page) (to : Page) : result Page :=
  match n with
  | O => mret to
  | S n =>
      k ← read_key from i; v ← read_value from i;
      to ← write_key j k to; to ← write_value j v to; copy_entries n (S i) (S j) from to
  end.

Fixpoint copy_children (n i j : nat) (from : Page) (to : Page) : result Page :=
  match n with
  | O => mret to
  | S n =>
      k ← read_key from i; c ← read_child_id from i;
      to ← write_key j k to; to ← write_child_id j c to; copy_children n (S i) (S j) from to
  end.

Fixpoint scan_leaf (n i : nat) (pg : Page) (from upto : list byte) : result (list (list byte * list byte)) :=
  match n with
  | O => mret []
  | S n =>
      k ← read_key pg i;
      if negb (bytes_lt k from) && negb (bytes_lt upto k)
      then v ← read_value pg i; rest ← scan_leaf n (S i) pg from upto; mret ((k, v) :: rest)
      else scan_leaf n (S i) pg from upto
  end.

(** ** The tree *)

Record BTree := mkTree { pool : Buffer.BufferPool; wal : Wal.WAL; root_id : Z; next_page_id : Z }.

(** [Storage::new] on the database file and the log there are. *)
Definition new (disk log : option (list byte)) : BTree := mkTree (Buffer.new_pool disk 1024) (Wal.new log) 0 1.

Abbreviation on_tree := (op_on BTree).

Definition with_pool (p : Buffer.BufferPool) (t : BTree) : BTree := mkTree p (wal t) (root_id t) (next_page_id t).
Definition with_wal (w : Wal.WAL) (t : BTree) : BTree := mkTree (pool t) w (root_id t) (next_page_id t).

Definition get_page (i : Z) : on_tree Page := fun t =>
  match Buffer.get_page i (pool t) with
  | Ok (pg, p) => (Ok pg, with_pool p t)
  | Err msg => (Err msg, t)
  | Panicked => (Panicked, t)
  | NoEnd => (NoEnd, t)
  end.

Definition put_page (pg : Page) : on_tree unit := fun t => (Ok tt, with_pool (Buffer.put_page pg (pool t)) t).
Definition append_write (i : Z) (bs : list byte) : on_tree unit := within wal with_wal (updates (Wal.append_write i bs)).
Definition append_commit (tx : Z) : on_tree unit := within wal with_wal (updates (Wal.append_commit tx)).
Definition next_tx_id : on_tree Z := fun t => let '(tx, w) := Wal.next_tx_id (wal t) in (Ok tx, with_wal w t).
Definition alloc_page : on_tree Z := fun t =>
  (Ok (next_page_id t), mkTree (pool t) (wal t) (root_id t) (next_page_id t + 1)).
Definition set_root (i : Z) : on_tree unit := fun t => (Ok tt, mkTree (pool t) (wal t) i (next_page_id t)).
Definition get_root : on_tree Z := fun t => (Ok (root_id t), t).

Definition node_at (i : Z) : on_tree (Page * BTreeNode) :=
  pg ← get_page i; b ← returns (from_page pg); mret (pg, b).

(** [put_page], and the same bytes to the log. *)
Definition store_page (i : Z) (pg : Page) : on_tree unit := put_page pg ;; append_write i (serialize pg).

(** *** Looking *)

Fixpoint find_value (fuel : nat) (i : Z) (key : list byte) : on_tree (option (list byte)) :=
  match fuel with
  | O => returns NoEnd
  | S fuel =>
      nb ← node_at i; let '(pg, b) := nb in
      if is_leaf b then
        found ← returns (find_key (keys b) 0 pg key);
        match found with
        | Some j => v ← returns (read_value pg j); mret (Some v)
        | None => mret None
        end
      else
        j ← returns (choose bytes_lt (keys b) 0 pg key);
        c ← returns (read_child_id pg j);
        find_value fuel c key
  end.

(** The children whose key is above [from], and the last one. *)
Fixpoint scan_range (fuel : nat) (i : Z) (from upto : list byte) : on_tree (list (list byte * list byte)) :=
  match fuel with
  | O => returns NoEnd
  | S fuel =>
      nb ← node_at i; let '(pg, b) := nb in
      if is_leaf b then returns (scan_leaf (keys b) 0 pg from upto)
      else
        let fix children (n j : nat) : on_tree (list (list byte * list byte)) :=
          match n with
          | O => c ← returns (read_child_id pg j); scan_range fuel c from upto
          | S n =>
              k ← returns (read_key pg j);
              here ← (if bytes_lt from k then c ← returns (read_child_id pg j); scan_range fuel c from upto else mret []);
              rest ← children n (S j); mret (here ++ rest)
          end in
        children (keys b) 0%nat
  end.

Fixpoint count_keys (fuel : nat) (i : Z) : on_tree Z :=
  match fuel with
  | O => returns NoEnd
  | S fuel =>
      nb ← node_at i; let '(pg, b) := nb in
      if is_leaf b then mret (num_keys b)
      else
        let fix children (n j : nat) : on_tree Z :=
          c ← returns (read_child_id pg j); here ← count_keys fuel c;
          match n with
          | O => mret here
          | S n => rest ← children n (S j); mret (here + rest)
          end in
        children (keys b) 0%nat
  end.

(** *** Inserting *)

(** A new root above a page that was split. *)
Definition new_root (middle : list byte) (left right : Z) : on_tree unit :=
  i ← alloc_page;
  pg ← returns (pg ← write_key 0 middle (Page.new i); pg ← write_child_id 0 left pg; pg ← write_child_id 1 right pg;
                save_to_page (mkNode i false 1 0 0) pg);
  store_page i pg;;
  set_root i.

(** [split_internal]; [up] is [insert_into_internal]. *)
Definition split_internal (up : Z -> list byte -> Z -> Z -> on_tree unit) (i : Z) : on_tree unit :=
  nb ← node_at i; let '(pg, b) := nb in
  let mid := (keys b / 2)%nat in
  right ← alloc_page;
  let n := (keys b - (mid + 1))%nat in
  rpg ← returns (rpg ← copy_children n (mid + 1) 0 pg (Page.new right);
                 last ← read_child_id pg (keys b); rpg ← write_child_id n last rpg;
                 save_to_page (mkNode right false (Z.of_nat n) (parent_id b) 0) rpg);
  store_page right rpg;;
  lpg ← returns (save_to_page (with_num (Z.of_nat mid) b) (mkPage (id pg) (data pg) true));
  store_page i lpg;;
  middle ← returns (read_key pg mid);
  if parent_id b =? 0 then new_root middle i right else up (parent_id b) middle i right.

Fixpoint insert_into_internal (fuel : nat) (i : Z) (key : list byte) (left right : Z) : on_tree unit :=
  match fuel with
  | O => returns NoEnd
  | S fuel =>
      nb ← node_at i; let '(pg, b) := nb in
      pos ← returns (internal_place (keys b) 0 0 pg key);
      pg ← returns (pg ← shift_children (keys b - pos) pos pg;
                    pg ← write_key pos key pg; pg ← write_child_id pos left pg; pg ← write_child_id (pos + 1) right pg;
                    save_to_page (with_num (num_keys b + 1) b) (mkPage (id pg) (data pg) true));
      store_page i pg;;
      if (ORDER <=? keys (with_num (num_keys b + 1) b))%nat then split_internal (insert_into_internal fuel) i else mret tt
  end.

Definition split_leaf (fuel : nat) (i : Z) : on_tree unit :=
  nb ← node_at i; let '(pg, b) := nb in
  let mid := (keys b / 2)%nat in
  right ← alloc_page;
  let n := (keys b - mid)%nat in
  rpg ← returns (rpg ← copy_entries n mid 0 pg (Page.new right);
                 save_to_page (mkNode right true (Z.of_nat n) (parent_id b) (next_leaf b)) rpg);
  store_page right rpg;;
  lpg ← returns (save_to_page (mkNode (page_id b) (is_leaf b) (Z.of_nat mid) (parent_id b) right) (mkPage (id pg) (data pg) true));
  store_page i lpg;;
  middle ← returns (read_key pg mid);
  if parent_id b =? 0 then new_root middle i right else insert_into_internal fuel (parent_id b) middle i right.

Definition insert_into_leaf (fuel : nat) (i : Z) (key value : list byte) : on_tree unit :=
  nb ← node_at i; let '(pg, b) := nb in
  place ← returns (leaf_place (keys b) 0 0 pg key);
  match place with
  | inl j => pg ← returns (write_value j value pg); store_page i pg
  | inr pos =>
      pg ← returns (pg ← shift_up (keys b - pos) pos pg;
                    pg ← write_key pos key pg; pg ← write_value pos value pg;
                    save_to_page (with_num (num_keys b + 1) b) (mkPage (id pg) (data pg) true));
      store_page i pg;;
      if (ORDER <=? keys (with_num (num_keys b + 1) b))%nat then split_leaf fuel i else mret tt
  end.

Fixpoint insert_into (fuel : nat) (i : Z) (key value : list byte) : on_tree unit :=
  match fuel with
  | O => returns NoEnd
  | S fuel =>
      nb ← node_at i; let '(pg, b) := nb in
      if is_leaf b then insert_into_leaf fuel i key value
      else
        j ← returns (choose bytes_lt (keys b) 0 pg key);
        c ← returns (read_child_id pg j);
        insert_into fuel c key value
  end.

(** *** Deleting *)

(** Not written to the log. *)
Definition delete_from_leaf (i : Z) (key : list byte) : on_tree bool :=
  nb ← node_at i; let '(pg, b) := nb in
  found ← returns (find_key (keys b) 0 pg key);
  match found with
  | None => mret false
  | Some pos =>
      pg ← returns (pg ← shift_down (keys b - 1 - pos) pos pg;
                    save_to_page (with_num (num_keys b - 1) b) (mkPage (id pg) (data pg) true));
      put_page pg;; mret true
  end.

Fixpoint delete_from (fuel : nat) (i : Z) (key : list byte) : on_tree bool :=
  match fuel with
  | O => returns NoEnd
  | S fuel =>
      nb ← node_at i; let '(pg, b) := nb in
      if is_leaf b then delete_from_leaf i key
      else
        j ← returns (choose (fun key k => negb (bytes_lt k key)) (keys b) 0 pg key);
        c ← returns (read_child_id pg j);
        delete_from fuel c key
  end.

(** *** Operations *)

(** A page of another length than a page's becomes zeros. *)
Definition replayed_page (i : Z) (bs : list byte) : Page :=
  mkPage i (if decide (length bs = PAGE_SIZE) then bs else replicate PAGE_SIZE (byte_of 0)) true.

Fixpoint put_replayed (entries : list (Z * list byte)) : on_tree unit :=
  match entries with
  | [] => mret tt
  | (i, bs) :: entries => put_page (replayed_page i bs);; put_replayed entries
  end.

(** [Storage::init]. *)
Definition init : on_tree unit := fun t =>
  let t := with_wal (Wal.open (wal t)) t in
  if 0 <? Buffer.file_size (pool t) then
    (entries ← returns (Wal.replay (wal t)); put_replayed entries) t
  else
    (i ← alloc_page;
     pg ← returns (save_to_page (mkNode i true 0 0 0) (Page.new i));
     put_page pg;;
     set_root i) t.

Definition get (fuel : nat) (key : list byte) : on_tree (option (list byte)) := i ← get_root; find_value fuel i key.

Definition put (fuel : nat) (key value : list byte) : on_tree unit :=
  i ← get_root; tx ← next_tx_id; insert_into fuel i key value;; append_commit tx.

Definition delete (fuel : nat) (key : list byte) : on_tree bool :=
  i ← get_root; tx ← next_tx_id; r ← delete_from fuel i key; append_commit tx;; mret r.

Definition scan (fuel : nat) (from upto : list byte) : on_tree (list (list byte * list byte)) :=
  i ← get_root; scan_range fuel i from upto.

Definition count (fuel : nat) : on_tree Z := i ← get_root; count_keys fuel i.

Definition flush : on_tree unit := within pool with_pool (updates Buffer.flush_all).

(** ** The header of a node

    The four bytes of [is_leaf] are at offset 0, those of [num_keys] at
    offset 1. *)

Definition sized (pg : Page) : Prop := length (data pg) = PAGE_SIZE.

Lemma write_sized off d pg :
  sized pg -> (off + length d <= PAGE_SIZE)%nat ->
  exists pg', write_slice off d pg = Ok pg' /\ sized pg' /\ id pg' = id pg /\ dirty pg' = true /\ splice off d (data pg) = Ok (data pg').
Proof.
  unfold sized. intros Hs Hl. unfold write_slice. destruct (splice_defined off d (data pg)) as [bs E]; [lia|].
  rewrite E. eexists. split_and!; [done| |done..]. cbn. by rewrite (splice_length _ _ _ _ E).
Qed.

Lemma slice_ok off n pg : sized pg -> (off + n <= PAGE_SIZE)%nat -> exists s, slice off n (data pg) = Ok s.
Proof. intros Hs Hl. apply slice_defined. unfold sized in Hs. lia. Qed.

Lemma four (l : list byte) : length l = 4%nat -> exists a b c d, l = [a; b; c; d].
Proof. destruct l as [|a [|b [|c [|d [|]]]]]; try done. intros _. by exists a, b, c, d. Qed.

(** What is read back after [save_to_page]: the number of keys reaches into the
    bytes of [is_leaf]. *)
Lemma saved_node b pg :
  sized pg -> in_u32 (num_keys b) -> in_u64 (parent_id b) -> in_u64 (next_leaf b) ->
  exists pg', save_to_page b pg = Ok pg' /\ sized pg' /\ id pg' = id pg /\ dirty pg' = true /\
  from_page pg' = Ok (mkNode (id pg) (is_leaf b && (num_keys b mod 2 ^ 24 =? 0)) (num_keys b) (parent_id b) (next_leaf b)).
Proof.
  intros Hs Hn Hp Hx. unfold save_to_page, write_u32, write_u64.
  set (leaf := if is_leaf b then 1 else 0).
  destruct (write_sized 0 (le_bytes 4 leaf) pg Hs) as (pg1 & -> & Hs1 & Hi1 & _ & E1); [rewrite length_le_bytes; vm_compute; lia|].
  destruct (write_sized 1 (le_bytes 4 (num_keys b)) pg1 Hs1) as (pg2 & E2' & Hs2 & Hi2 & _ & E2); [rewrite length_le_bytes; vm_compute; lia|].
  destruct (write_sized 5 (le_bytes 8 (parent_id b)) pg2 Hs2) as (pg3 & E3' & Hs3 & Hi3 & _ & E3); [rewrite length_le_bytes; vm_compute; lia|].
  destruct (write_sized 13 (le_bytes 8 (next_leaf b)) pg3 Hs3) as (pg4 & E4' & Hs4 & Hi4 & Hd & E4); [rewrite length_le_bytes; vm_compute; lia|].
  cbn [mbind result_bind]. rewrite E2'. cbn [mbind result_bind]. rewrite E3'. cbn [mbind result_bind]. rewrite E4'.
  exists pg4. split; [done|]. split; [done|]. split; [by rewrite Hi4, Hi3, Hi2|]. split; [done|].
  unfold from_page, read_u32, read_u64.
  assert (R13 : slice 13 8 (data pg4) = Ok (le_bytes 8 (next_leaf b))).
  { pose proof (slice_splice _ _ _ _ E4) as R. by rewrite length_le_bytes in R. }
  assert (R5 : slice 5 8 (data pg4) = Ok (le_bytes 8 (parent_id b))).
  { rewrite (slice_splice_other _ _ _ _ 5 8 E4) by (left; lia).
    pose proof (slice_splice _ _ _ _ E3) as R. by rewrite length_le_bytes in R. }
  assert (R1 : slice 1 4 (data pg4) = Ok (le_bytes 4 (num_keys b))).
  { rewrite (slice_splice_other _ _ _ _ 1 4 E4), (slice_splice_other _ _ _ _ 1 4 E3) by (left; lia).
    pose proof (slice_splice _ _ _ _ E2) as R. by rewrite length_le_bytes in R. }
  destruct (slice_ok 0 4 pg4 Hs4) as [s R0]; [vm_compute; lia|].
  assert (Hlook : forall i, (i < 4)%nat -> s !! i = if decide (i = 0%nat) then Some (byte_of leaf) else le_bytes 4 (num_keys b) !! (i - 1)%nat).
  { intros i Hi. rewrite (slice_lookup _ _ _ _ _ R0 Hi), (splice_lookup _ _ _ _ _ E4), (splice_lookup _ _ _ _ _ E3),
      (splice_lookup _ _ _ _ _ E2), !length_le_bytes.
    rewrite (decide_False (P := (13 <= 0 + i < 13 + 8)%nat)) by lia. rewrite (decide_False (P := (5 <= 0 + i < 5 + 8)%nat)) by lia.
    destruct (decide (i = 0%nat)) as [->|].
    - rewrite decide_False by lia. rewrite (splice_lookup _ _ _ _ _ E1), length_le_bytes. reflexivity.
    - by rewrite decide_True by lia. }
  destruct (four s (slice_length _ _ _ _ R0)) as (s0 & s1 & s2 & s3 & ->).
  destruct (four (le_bytes 4 (num_keys b)) (length_le_bytes 4 _)) as (n0 & n1 & n2 & n3 & En).
  pose proof (Hlook 0%nat ltac:(lia)) as L0. pose proof (Hlook 1%nat ltac:(lia)) as L1.
  pose proof (Hlook 2%nat ltac:(lia)) as L2. pose proof (Hlook 3%nat ltac:(lia)) as L3. rewrite En in L1, L2, L3.
  cbn in L0, L1, L2, L3. injection L0 as ->. injection L1 as ->. injection L2 as ->. injection L3 as ->.
  rewrite R0, R1, R5, R13. cbn [mbind result_bind mret result_ret]. rewrite Hi4, Hi3, Hi2, Hi1.
  assert (Vn : le_val (le_bytes 4 (num_keys b)) = num_keys b) by (rewrite le_val_bytes; by apply wrap_small).
  rewrite Vn, !le_val_bytes, !wrap_small by done. do 2 f_equal.
  rewrite En in Vn. unfold le_val in *. rewrite byte_val_of.
  pose proof (byte_val_range n0). pose proof (byte_val_range n1). pose proof (byte_val_range n2). pose proof (byte_val_range n3).
  set (low := byte_val n0 + 256 * (byte_val n1 + 256 * byte_val n2)).
  assert (Hmod : num_keys b mod 2 ^ 24 = low).
  { symmetry. apply (Z.mod_unique _ _ (byte_val n3)); unfold low; [left; lia|]. rewrite <- Vn. lia. }
  rewrite Hmod. unfold leaf, low in *. destruct (is_leaf b); cbn [andb].
  - change (1 mod 256) with 1. match goal with |- (?x =? 1) = (?y =? 0) => destruct (Z.eqb_spec x 1), (Z.eqb_spec y 0) end; try done; lia.
  - change (0 mod 256) with 0. match goal with |- (?x =? 1) = false => destruct (Z.eqb_spec x 1) end; try done. lia.
Qed.

(** ** After the first key

    The ids of children lie beyond the end of a page: a node that is not read
    as a leaf cannot be passed. *)

Lemma slice_total off n bs : (exists s, slice off n bs = Ok s) \/ slice off n bs = Panicked.
Proof. unfold slice. case_decide; [left; by eexists|by right]. Qed.

Lemma no_child pg i : sized pg -> read_child_id pg i = Panicked.
Proof.
  unfold sized. intros Hs. unfold read_child_id, read_u64, slice. rewrite decide_False; [done|].
  rewrite Hs. unfold child_offset, PAGE_SIZE, HEADER_SIZE, ORDER, KEY_SIZE, VALUE_SIZE. lia.
Qed.

Lemma choose_total before n i pg key :
  (exists j, choose before n i pg key = Ok j) \/ choose before n i pg key = Panicked.
Proof.
  revert i. induction n as [|n IH]; intros i; [left; by eexists|]. cbn [choose]. unfold read_key, read_slice.
  destruct (slice_total (key_offset i) KEY_SIZE (data pg)) as [[k ->]| ->]; [|by right]. cbn [mbind result_bind].
  case_match; [left; by eexists|apply IH].
Qed.

Lemma node_at_cached i t pg b :
  Buffer.pages (pool t) !! i = Some pg -> from_page pg = Ok b ->
  node_at i t = (Ok (pg, b), with_pool (Buffer.touch_lru i (pool t)) t).
Proof.
  intros E Eb. unfold node_at, get_page, Buffer.get_page.
  rewrite bind_run, E, bind_run. unfold returns. by rewrite Eb.
Qed.

(** A page that is in memory and is not read as a leaf. *)
Definition stuck (i : Z) (t : BTree) : Prop :=
  exists pg b, Buffer.pages (pool t) !! i = Some pg /\ sized pg /\ from_page pg = Ok b /\ is_leaf b = false.

#[local] Ltac open_node :=
  intros (pg & b & E & Hs & Eb & Hl); erewrite bind_ok by (by apply node_at_cached); cbn beta iota; rewrite Hl.

#[local] Ltac at_child pg Hs before b key :=
  destruct (choose_total before (keys b) 0 pg key) as [[j Ej]|Ej];
    [rewrite (returns_ok _ _ _ _ Ej); by apply returns_panics, no_child|by apply returns_panics].

Lemma find_value_stuck fuel i key t : stuck i t -> (find_value (S fuel) i key t).1 = Panicked.
Proof. cbn [find_value]. open_node. at_child pg Hs bytes_lt b key. Qed.

Lemma insert_into_stuck fuel i key value t : stuck i t -> (insert_into (S fuel) i key value t).1 = Panicked.
Proof. cbn [insert_into]. open_node. at_child pg Hs bytes_lt b key. Qed.

Lemma delete_from_stuck fuel i key t : stuck i t -> (delete_from (S fuel) i key t).1 = Panicked.
Proof. cbn [delete_from]. open_node. at_child pg Hs (fun key k => negb (bytes_lt k key)) b key. Qed.

Lemma count_keys_stuck fuel i t : stuck i t -> (count_keys (S fuel) i t).1 = Panicked.
Proof.
  cbn [count_keys]. open_node. destruct (keys b); by apply returns_panics, no_child.
Qed.

Lemma scan_range_stuck fuel i from upto t : stuck i t -> (scan_range (S fuel) i from upto t).1 = Panicked.
Proof.
  cbn [scan_range]. open_node. generalize 0%nat as j. induction (keys b) as [|n IH]; intros j.
  - by apply returns_panics, no_child.
  - unfold read_key, read_slice. destruct (slice_total (key_offset j) KEY_SIZE (data pg)) as [[k Ek]|Ek].
    + rewrite (returns_ok _ _ _ _ Ek). destruct (bytes_lt from k).
      * by apply bind_panics, returns_panics, no_child.
      * erewrite bind_ok by reflexivity. apply bind_panics, IH.
    + by apply returns_panics.
Qed.

Lemma operations_stuck fuel k v k' t :
  stuck (root_id t) t ->
  (get (S fuel) k t).1 = Panicked /\ (put (S fuel) k v t).1 = Panicked /\ (delete (S fuel) k t).1 = Panicked /\
  (scan (S fuel) k k' t).1 = Panicked /\ (count (S fuel) t).1 = Panicked.
Proof.
  intros Hs. unfold get, put, delete, scan, count. split_and!; erewrite bind_ok by reflexivity.
  - by apply find_value_stuck.
  - erewrite bind_ok by reflexivity. by apply bind_panics, insert_into_stuck.
  - erewrite bind_ok by reflexivity. by apply bind_panics, delete_from_stuck.
  - by apply scan_range_stuck.
  - by apply count_keys_stuck.
Qed.

(** The tree as it is after [init] without a database: one empty leaf. *)
Lemma init_empty log :
  exists pg, save_to_page (mkNode 1 true 0 0 0) (Page.new 1) = Ok pg /\
  init (new None log) = (Ok tt, mkTree (Buffer.put_page pg (Buffer.new_pool None 1024)) (Wal.open (Wal.new log)) 1 2).
Proof.
  destruct (saved_node (mkNode 1 true 0 0 0) (Page.new 1)) as (pg & E & _); [done|split; vm_compute; done..|].
  exists pg. split; [exact E|]. unfold init. cbn [pool with_wal new].
  change (0 <? Buffer.file_size (Buffer.new_pool None 1024)) with false. cbn iota.
  erewrite bind_ok by reflexivity. rewrite (returns_ok _ _ _ _ E). reflexivity.
Qed.

Lemma padded_length n bs : length (padded n bs) = n.
Proof. unfold padded. rewrite length_app, length_take, length_replicate. lia. Qed.

(** The leaf with its first entry. *)
Lemma first_entry key value pg :
  sized pg ->
  exists pg', (pg ← write_key 0 key pg; pg ← write_value 0 value pg;
               save_to_page (mkNode 1 true 1 0 0) (mkPage (id pg) (data pg) true)) = Ok pg' /\
  sized pg' /\ id pg' = id pg /\ from_page pg' = Ok (mkNode (id pg) false 1 0 0).
Proof.
  intros Hs. unfold write_key, write_value.
  destruct (write_sized (key_offset 0) (padded KEY_SIZE key) pg Hs) as (pg1 & -> & Hs1 & Hi1 & _);
    [rewrite padded_length; vm_compute; lia|]. cbn [mbind result_bind].
  destruct (write_sized (value_offset 0) (padded VALUE_SIZE value) pg1 Hs1) as (pg2 & -> & Hs2 & Hi2 & _);
    [rewrite padded_length; vm_compute; lia|]. cbn [mbind result_bind].
  destruct (saved_node (mkNode 1 true 1 0 0) (mkPage (id pg2) (data pg2) true)) as (pg3 & -> & Hs3 & Hi3 & _ & Ef);
    [exact Hs2|split; vm_compute; done..|].
  exists pg3. split; [done|]. split; [done|]. cbn [id] in *. rewrite Ef, Hi3, Hi2, Hi1. done.
Qed.

(** The storage engine holds no more than one key.  Started without a
    database, whatever the log, it is an empty tree, and a first [put] of any
    key and value succeeds.  After that every operation panics: [get], [put],
    [delete], [scan] and [count], whatever their arguments.  The number of
    keys is written over the bytes of [is_leaf], so that a leaf with keys is
    taken for an inner node, and the ids of children lie past the end of a
    page. *)
Theorem storage_stuck_after_put log key value :
  exists t1 t2, init (new None log) = (Ok tt, t1) /\
  (forall fuel k, (get (S fuel) k t1).1 = Ok None) /\ (forall fuel, (count (S fuel) t1).1 = Ok 0) /\
  (forall fuel, put (S fuel) key value t1 = (Ok tt, t2)) /\
  (forall fuel k v k', (get (S fuel) k t2).1 = Panicked /\ (put (S fuel) k v t2).1 = Panicked /\
     (delete (S fuel) k t2).1 = Panicked /\ (scan (S fuel) k k' t2).1 = Panicked /\ (count (S fuel) t2).1 = Panicked).
Proof.
  destruct (saved_node (mkNode 1 true 0 0 0) (Page.new 1)) as (pg & E & Hs & Hid & _ & Ef); [done|split; vm_compute; done..|].
  destruct (init_empty log) as (pg' & E' & Ei). rewrite E in E'. injection E' as <-.
  assert (Ef' : from_page pg = Ok (mkNode 1 true 0 0 0)) by exact Ef. clear Ef. change (Page.id (Page.new 1)) with 1 in *.
  destruct (first_entry key value pg Hs) as (pg1 & E1 & Hs1 & Hid1 & Ef1). rewrite Hid in *.
  set (t1 := mkTree (Buffer.put_page pg (Buffer.new_pool None 1024)) (Wal.open (Wal.new log)) 1 2) in *.
  assert (Hroot : Buffer.pages (pool t1) !! 1 = Some pg) by (cbn; rewrite Hid; apply lookup_insert_eq).
  assert (Hstuck : forall t2, Buffer.pages (pool t2) !! 1 = Some pg1 -> stuck 1 t2)
    by (intros t2 Hl; by exists pg1, (mkNode 1 false 1 0 0)).
  eexists t1, _. split; [exact Ei|]. split; [|split; [|split]].
  - intros fuel k. unfold get. erewrite bind_ok by reflexivity. cbn [find_value root_id].
    erewrite bind_ok by (by apply node_at_cached). reflexivity.
  - intros fuel. unfold count. erewrite bind_ok by reflexivity. cbn [count_keys root_id].
    erewrite bind_ok by (by apply node_at_cached). reflexivity.
  - intros fuel. unfold put. erewrite bind_ok by reflexivity. erewrite bind_ok by reflexivity. cbn [insert_into root_id].
    rewrite bind_run. erewrite bind_ok by (by apply node_at_cached). cbn beta iota delta [is_leaf]. unfold insert_into_leaf.
    erewrite bind_ok by (by apply node_at_cached). cbn beta iota. erewrite bind_ok by reflexivity. cbn beta iota.
    change (keys _ - 0)%nat with 0%nat. cbn [shift_up].
    rewrite (returns_ok _ _ _ _ E1). reflexivity.
  - intros fuel k v k'. apply operations_stuck, Hstuck. cbn. rewrite Hid1. apply lookup_insert_eq.
Qed.

End Btree.
