(* ===== verification/Streams.v ===== *)
(** * Streams and statistics: [streams.rs], [stats.rs]

    Two small in-memory structures of the server: append-only streams that
    are trimmed from the front, and the counters and the last commands of the
    connections.  Both turn out to be windows on everything that happened. *)

From stdpp Require Import base strings gmap list numbers sorting.
From Stdlib Require Import ZArith Lia.
From S2P Require Import Prelude Text.
From stdpp Require Import list.

#[local] Open Scope Z_scope.

Module Streams.

Record StreamEntry := mkEntry { id : string; fields : gmap string string }.

(** [next_id] is an [AtomicU64]: it wraps. *)
Record Stream := mkStream { entries : list StreamEntry; next_id : Z }.

Definition new : Stream := mkStream [] 1.

Definition entry_id (n : Z) : string := to_string n +:+ "-0".

Definition append_entry (fs : gmap string string) (s : Stream) : string * Stream :=
  let i := entry_id (next_id s) in
  (i, mkStream (entries s ++ [mkEntry i fs]) (u64 (next_id s + 1))).

(** [String::le], on bytes. *)
Definition le (a b : string) : bool := negb (String.ltb b a).

Definition in_range (from upto : string) (s : Stream) : list StreamEntry :=
  List.filter (fun e => le from (id e) && le (id e) upto) (entries s).

Definition last_entries (count : nat) (s : Stream) : list StreamEntry :=
  drop (length (entries s) - count) (entries s).

Definition trim_entries (max_len : nat) (s : Stream) : Stream :=
  if decide (max_len < length (entries s))%nat
  then mkStream (drop (length (entries s) - max_len) (entries s)) (next_id s) else s.

(** The streams by name. *)
Abbreviation streams := (gmap string Stream) (only parsing).

Definition append (stream : string) (fs : gmap string string) (m : streams) : string * streams :=
  let '(i, s) := append_entry fs (default new (m !! stream)) in (i, <[stream := s]> m).

Definition range (stream from upto : string) (m : streams) : list StreamEntry :=
  match m !! stream with Some s => in_range from upto s | None => [] end.

Definition last_n (stream : string) (count : nat) (m : streams) : list StreamEntry :=
  match m !! stream with Some s => last_entries count s | None => [] end.

Definition len (stream : string) (m : streams) : nat :=
  match m !! stream with Some s => length (entries s) | None => O end.

Definition trim (stream : string) (max_len : nat) (m : streams) : streams := alter (trim_entries max_len) stream m.

Definition list_streams (m : streams) : list string := (map_to_list m).*1.

(** ** A stream is a window on what was appended to it *)

Inductive event := Appended (fs : gmap string string) | Trimmed (max_len : nat).

Definition after (e : event) (s : Stream) : Stream :=
  match e with Appended fs => (append_entry fs s).2 | Trimmed n => trim_entries n s end.

(** Everything ever appended, with ids counted from 1, the first one first. *)
Fixpoint all_from (n : Z) (h : list event) : list StreamEntry :=
  match h with
  | [] => []
  | Appended fs :: h => mkEntry (entry_id n) fs :: all_from (n + 1) h
  | Trimmed _ :: h => all_from n h
  end.

Definition appended (h : list event) : nat :=
  length (List.filter (fun e => match e with Appended _ => true | _ => false end) h).

Lemma all_from_snoc n h e :
  all_from n (h ++ [e]) =
  all_from n h ++ match e with Appended fs => [mkEntry (entry_id (n + Z.of_nat (appended h))) fs] | Trimmed _ => [] end.
Proof.
  revert n. induction h as [|[fs|k] h IH]; intros n; cbn.
  - destruct e; [|done]. by rewrite Z.add_0_r.
  - rewrite IH. destruct e; [|done]. unfold appended. cbn [List.filter length].
    by replace (n + 1 + Z.of_nat _) with (n + Z.of_nat (S (length (List.filter (fun e => match e with Appended _ => true | _ => false end) h)))) by lia.
  - rewrite IH. by destruct e.
Qed.

Lemma appended_snoc h e : appended (h ++ [e]) = (appended h + match e with Appended _ => 1 | Trimmed _ => 0 end)%nat.
Proof. unfold appended. rewrite List.filter_app, length_app. by destruct e. Qed.

Lemma drop_suffix {A} n (l : list A) : drop n l `suffix_of` l.
Proof. exists (take n l). by rewrite take_drop. Qed.

(** A stream holds the latest part of what was appended to it: after any
    appends and trims it is a suffix of all entries ever appended, in the
    order in which they came, all of it if it was never trimmed; right after
    a trim to [n] it has at most [n] entries; and [last_n] returns the latest
    entries of the history as long as the stream still has that many. *)
Theorem stream_is_window h :
  let s := foldl (fun s e => after e s) new h in
  Z.of_nat (appended h) < 2 ^ 64 - 1 ->
  entries s `suffix_of` all_from 1 h /\
  (Forall (fun e => match e with Appended _ => True | _ => False end) h -> entries s = all_from 1 h) /\
  (forall n, (length (entries (after (Trimmed n) s)) <= n)%nat) /\
  (forall n, (n <= length (entries s))%nat -> last_entries n s = drop (length (all_from 1 h) - n) (all_from 1 h)).
Proof.
  intros s Hn.
  assert (Hinv : next_id s = 1 + Z.of_nat (appended h) /\ entries s `suffix_of` all_from 1 h /\
    (Forall (fun e => match e with Appended _ => True | _ => False end) h -> entries s = all_from 1 h)).
  { subst s. induction h as [|e h IH] using rev_ind; [by split_and!|]. rewrite foldl_snoc, all_from_snoc.
    rewrite appended_snoc in *.
    destruct IH as (Hi & Hs & Ha); [lia|]. set (s := foldl _ new h) in *. destruct e as [fs|k]; cbn [after].
    - unfold append_entry. cbn [snd entries next_id]. rewrite Hi. split_and!.
      + rewrite u64_small by (unfold in_u64; lia). lia.
      + destruct Hs as [l ->]. exists l. by rewrite app_assoc.
      + intros [Hh _]%Forall_app. by rewrite Ha.
    - unfold trim_entries. rewrite app_nil_r. case_decide; cbn [entries next_id]; split_and!; try lia; try done.
      + etrans; [apply drop_suffix|done].
      + intros [_ Hx]%Forall_app. by apply Forall_inv in Hx.
      + intros [Hh _]%Forall_app. by apply Ha. }
  destruct Hinv as (_ & Hs & Ha). split_and!; [done|done| |].
  - intros n. cbn [after]. unfold trim_entries. case_decide; [cbn [entries]; rewrite length_drop; lia|lia].
  - intros n Hl. destruct Hs as [l E]. unfold last_entries. rewrite E, length_app.
    rewrite drop_app_ge by lia. f_equal. lia.
Qed.

(** The ids are compared as text: of ten entries the last comes before the
    second. *)
Lemma range_is_textual :
  let m := (append "s" ∅ (foldl (fun m (_ : nat) => (append "s" ∅ m).2) ∅ (seq 0 9))).2 in
  id <$> range "s" "1-0" "2-0" m = ["1-0"; "2-0"; "10-0"].
Proof. vm_compute. reflexivity. Qed.

End Streams.

Module Stats.

Record Stats := mkStats {
  total_connections : Z;      (**r [AtomicU64] *)
  active_connections : Z;     (**r [AtomicI64] *)
  total_commands : Z;
  last_cmds : list string
}.

Definition new_stats : Stats := mkStats 0 0 0 [].

Definition inc_conn (s : Stats) : Stats :=
  mkStats (u64 (total_connections s + 1)) (to_signed 64 (active_connections s + 1)) (total_commands s) (last_cmds s).

Definition dec_conn (s : Stats) : Stats :=
  mkStats (total_connections s) (to_signed 64 (active_connections s - 1)) (total_commands s) (last_cmds s).

Definition inc_cmd (cmd : string) (s : Stats) : Stats :=
  let q := if decide (64 <= length (last_cmds s))%nat then tail (last_cmds s) else last_cmds s in
  mkStats (total_connections s) (active_connections s) (u64 (total_commands s + 1)) (q ++ [cmd]).

(** [snapshot], at a time since the start; [addr] is left out. *)
Record StatsSnapshot := mkSnapshot { counts : Stats; uptime_secs : Z }.
Definition snapshot (uptime : Z) (s : Stats) : StatsSnapshot := mkSnapshot s uptime.

(** What the connection tasks report. *)
Inductive event := Opened | Closed | Command (cmd : string).

Definition after (e : event) (s : Stats) : Stats :=
  match e with Opened => inc_conn s | Closed => dec_conn s | Command c => inc_cmd c s end.

Definition count (p : event -> bool) (h : list event) : Z := Z.of_nat (length (List.filter p h)).
Definition is_open (e : event) : bool := match e with Opened => true | _ => false end.
Definition is_close (e : event) : bool := match e with Closed => true | _ => false end.
Definition command_of (e : event) : option string := match e with Command c => Some c | _ => None end.

Lemma count_snoc p h e : count p (h ++ [e]) = count p h + (if p e then 1 else 0).
Proof. unfold count. rewrite List.filter_app, length_app. cbn. destruct (p e); cbn; lia. Qed.

Lemma omap_one_more {A B} (f : A -> option B) l x :
  omap f (l ++ [x]) = omap f l ++ match f x with Some y => [y] | None => [] end.
Proof. rewrite omap_app. cbn. by destruct (f x). Qed.

Lemma to_signed_small z : in_i64 z -> to_signed 64 z = z.
Proof.
  intros Hz. rewrite <- (to_signed_wrap 64 z) at 2 by (unfold in_i64 in Hz; lia). unfold to_signed. by rewrite wrap_wrap.
Qed.

(** The counters count, and the commands kept are the last 64. *)
Lemma stats_count h (Hlen : Z.of_nat (length h) < 2 ^ 63) :
  let s := foldl (fun s e => after e s) new_stats h in
  total_connections s = count is_open h /\
  active_connections s = count is_open h - count is_close h /\
  total_commands s = Z.of_nat (length (omap command_of h)) /\
  last_cmds s = drop (length (omap command_of h) - 64) (omap command_of h).
Proof.
  induction h as [|e h IH] using rev_ind; [done|]. cbn zeta in *. rewrite foldl_snoc. rewrite length_app in Hlen. cbn in Hlen.
  destruct IH as (H1 & H2 & H3 & H4); [lia|]. set (s := foldl _ new_stats h) in *.
  assert (Hb : 0 <= count is_open h <= Z.of_nat (length h) /\ 0 <= count is_close h <= Z.of_nat (length h))
    by (unfold count; pose proof (List.filter_length_le is_open h); pose proof (List.filter_length_le is_close h); lia).
  assert (Hc : (length (omap command_of h) <= length h)%nat)
    by (clear; induction h as [|[] h IH]; cbn; lia).
  rewrite !count_snoc, omap_one_more, length_app.
  destruct e as [| |c]; cbn [after inc_conn dec_conn inc_cmd is_open is_close command_of total_connections active_connections
    total_commands last_cmds length]; rewrite ?app_nil_r, ?Nat.add_0_r.
  - rewrite H1, H2. split_and!; [rewrite u64_small by (unfold in_u64; lia); lia| |done|done].
    rewrite to_signed_small; unfold in_i64; lia.
  - rewrite H1, H2. split_and!; [lia| |done|done]. rewrite to_signed_small; unfold in_i64; lia.
  - rewrite H3, H4. split_and!; [lia|lia|rewrite u64_small by (unfold in_u64; lia); lia|].
    rewrite length_drop. set (l := omap command_of h) in *. case_decide.
    + rewrite (drop_app_le _ _ (length l + 1 - 64)) by lia. f_equal.
      replace (length l + 1 - 64)%nat with ((length l - 64) + 1)%nat by lia. rewrite <- drop_drop.
      by destruct (drop (length l - 64) l).
    + replace (length l + 1 - 64)%nat with 0%nat by lia. by replace (length l - 64)%nat with 0%nat by lia.
Qed.

End Stats.
