(* ===== verification/Pubsub.v ===== *)
(** * Publish and subscribe: [redisdb/src/pubsub.rs]

    Channels by name over tokio's broadcast channels, which are a class: what
    it says of them is their documentation.  A [Sender] in the map is the
    index of its broadcast channel, which lives on with its receivers when the
    map forgets it. *)

From stdpp Require Import base strings gmap list numbers.
From Stdlib Require Import ZArith Lia.
From S2P Require Import Prelude Rust.
From stdpp Require Import list.

#[local] Open Scope nat_scope.

(** What a receiver has before it: the values it has not read, and how many it
    has lost since its last read because the channel was full. *)
Record view := mkView { missed : nat; unread : list string }.

Definition push (capacity : nat) (msg : string) (v : view) : view :=
  if decide (length (unread v) < capacity) then mkView (missed v) (unread v ++ [msg])
  else mkView (S (missed v)) (tail (unread v ++ [msg])).

Inductive received := Value (msg : string) | Lagged (n : nat) | Empty | Closed.

(** [recv]: what was lost is reported first; values that are left are read even
    when every sender is gone. *)
Definition next (closed : bool) (v : view) : received * view :=
  match missed v, unread v with
  | O, m :: l => (Value m, mkView 0 l)
  | O, [] => (if closed then Closed else Empty, v)
  | n, l => (Lagged n, mkView 0 l)
  end.

(** [tokio::sync::broadcast]; a channel is seen as its receivers. *)
Class Broadcast (B : Type) := {
  channel : nat -> B;                     (**r the sender of a new channel *)
  subscribe_to : B -> nat * B;
  send : string -> B -> B;
  receiver_count : B -> nat;
  recv : nat -> B -> received * B;
  drop_receiver : nat -> B -> B;
  close : B -> B;                         (**r the last sender is dropped *)
  receivers : B -> gmap nat view;
  capacity : B -> nat;
  is_closed : B -> bool;
  channel_new n : receivers (channel n) = ∅ /\ n <= capacity (channel n) /\ is_closed (channel n) = false;
  subscribe_new b : let '(r, b') := subscribe_to b in
    receivers b !! r = None /\ receivers b' = <[r := mkView 0 []]> (receivers b) /\
    capacity b' = capacity b /\ is_closed b' = is_closed b;
  send_all m b : receivers (send m b) = push (capacity b) m <$> receivers b /\
    capacity (send m b) = capacity b /\ is_closed (send m b) = is_closed b;
  receiver_count_size b : receiver_count b = size (receivers b);
  recv_next r b v : receivers b !! r = Some v ->
    (recv r b).1 = (next (is_closed b) v).1 /\ receivers (recv r b).2 = <[r := (next (is_closed b) v).2]> (receivers b) /\
    capacity (recv r b).2 = capacity b /\ is_closed (recv r b).2 = is_closed b;
  drop_one r b : receivers (drop_receiver r b) = delete r (receivers b) /\
    capacity (drop_receiver r b) = capacity b /\ is_closed (drop_receiver r b) = is_closed b;
  close_all b : receivers (close b) = receivers b /\ capacity (close b) = capacity b /\ is_closed (close b) = true
}.

(** A channel that is its receivers, numbered in the order of their coming. *)
Record ring := mkRing { ring_views : gmap nat view; ring_size : nat; ring_closed : bool }.

#[export] Program Instance ring_channel : Broadcast ring := {|
  channel n := mkRing ∅ n false;
  subscribe_to b := let r := fresh (dom (ring_views b)) in
    (r, mkRing (<[r := mkView 0 []]> (ring_views b)) (ring_size b) (ring_closed b));
  send m b := mkRing (push (ring_size b) m <$> ring_views b) (ring_size b) (ring_closed b);
  receiver_count b := size (ring_views b);
  recv r b := match ring_views b !! r with
              | Some v => ((next (ring_closed b) v).1,
                           mkRing (<[r := (next (ring_closed b) v).2]> (ring_views b)) (ring_size b) (ring_closed b))
              | None => (Closed, b)
              end;
  drop_receiver r b := mkRing (delete r (ring_views b)) (ring_size b) (ring_closed b);
  close b := mkRing (ring_views b) (ring_size b) true;
  receivers := ring_views;
  capacity := ring_size;
  is_closed := ring_closed
|}.
Next Obligation. done. Qed.
Next Obligation. intros b. cbn. split_and!; try done. apply not_elem_of_dom, is_fresh. Qed.
Next Obligation. done. Qed.
Next Obligation. done. Qed.
Next Obligation. intros r b v E. cbn. by rewrite E. Qed.
Next Obligation. done. Qed.
Next Obligation. done. Qed.

Module PubSub.

Section PubSub.
Context {B : Type} `{Broadcast B}.

#[local] Set Default Proof Using "Type*".

(** [channels] holds the senders; the broadcast channels are on the heap. *)
Record PubSub := mkPubSub {
  channels : gmap string nat;
  heap : gmap nat B;
  max_subscribers : nat
}.

Definition with_capacity (n : nat) : PubSub := mkPubSub ∅ ∅ n.
Definition new : PubSub := with_capacity 1024.

(** A receiver: its broadcast channel and its number there. *)
Definition Receiver : Type := nat * nat.

(** [or_insert_with]: [broadcast::channel(0)] panics. *)
Definition entry (ch : string) (p : PubSub) : result (nat * PubSub) :=
  match channels p !! ch with
  | Some i => Ok (i, p)
  | None =>
      if decide (max_subscribers p = 0) then Panicked
      else let i := fresh (dom (heap p)) in
           Ok (i, mkPubSub (<[ch := i]> (channels p)) (<[i := channel (max_subscribers p)]> (heap p)) (max_subscribers p))
  end.

Definition subscribe (ch : string) (p : PubSub) : result (Receiver * PubSub) :=
  match entry ch p with
  | Ok (i, p) =>
      match heap p !! i with
      | Some b => let '(r, b) := subscribe_to b in Ok ((i, r), mkPubSub (channels p) (<[i := b]> (heap p)) (max_subscribers p))
      | None => Panicked
      end
  | Err msg => Err msg
  | Panicked => Panicked
  | NoEnd => NoEnd
  end.

Definition at_channel {A} (ch : string) (p : PubSub) (none : A) (f : nat -> B -> A) : A :=
  match channels p !! ch with
  | Some i => match heap p !! i with Some b => f i b | None => none end
  | None => none
  end.

Definition publish (ch msg : string) (p : PubSub) : nat * PubSub :=
  at_channel ch p (0, p) (fun i b =>
    (receiver_count (send msg b), mkPubSub (channels p) (<[i := send msg b]> (heap p)) (max_subscribers p))).

(** The map's sender was the only one. *)
Definition unsubscribe (ch : string) (p : PubSub) : PubSub :=
  at_channel ch p p (fun i b => mkPubSub (delete ch (channels p)) (<[i := close b]> (heap p)) (max_subscribers p)).

Definition channel_count (p : PubSub) : nat := size (channels p).

Definition subscriber_count (ch : string) (p : PubSub) : nat := at_channel ch p 0 (fun _ b => receiver_count b).

(** The subscriber's side.  A receiver that was dropped is not there to read
    from. *)
Definition receive (rx : Receiver) (p : PubSub) : received * PubSub :=
  match heap p !! rx.1 with
  | Some b =>
      match receivers b !! rx.2 with
      | Some _ => let '(v, b) := recv rx.2 b in (v, mkPubSub (channels p) (<[rx.1 := b]> (heap p)) (max_subscribers p))
      | None => (Closed, p)
      end
  | None => (Closed, p)
  end.

Definition forget (rx : Receiver) (p : PubSub) : PubSub :=
  mkPubSub (channels p) (alter (drop_receiver rx.2) rx.1 (heap p)) (max_subscribers p).

(** ** Runs *)

Inductive op :=
  | Subscribe (ch : string)
  | Publish (ch msg : string)
  | Unsubscribe (ch : string)
  | Receive (rx : Receiver)
  | Forget (rx : Receiver).

Inductive event := Received (rx : Receiver) (v : received) | Quiet.

Definition perform (o : op) (p : PubSub) : event * PubSub :=
  match o with
  | Subscribe ch => (Quiet, match subscribe ch p with Ok (_, p') => p' | _ => p end)
  | Publish ch msg => (Quiet, (publish ch msg p).2)
  | Unsubscribe ch => (Quiet, unsubscribe ch p)
  | Receive rx => let '(v, p) := receive rx p in (Received rx v, p)
  | Forget rx => (Quiet, forget rx p)
  end.

Fixpoint performs (ops : list op) (p : PubSub) : list event * PubSub :=
  match ops with
  | [] => ([], p)
  | o :: ops => let '(e, p) := perform o p in let '(es, p) := performs ops p in (e :: es, p)
  end.

(** ** One subscriber's mailbox *)

(** What a run means to one receiver [rx] of the channel [ch]: its view, and
    whether the channel is still the one published to. *)
Record mailbox := mkMailbox { seen : view; subscribed : bool }.

Definition mail (cap : nat) (ch : string) (rx : Receiver) (o : op) (m : mailbox) : option received * mailbox :=
  match o with
  | Publish ch' msg =>
      (None, if subscribed m && bool_decide (ch' = ch) then mkMailbox (push cap msg (seen m)) true else m)
  | Unsubscribe ch' => (None, mkMailbox (seen m) (subscribed m && negb (bool_decide (ch' = ch))))
  | Receive rx' =>
      if decide (rx' = rx)
      then let '(v, w) := next (negb (subscribed m)) (seen m) in (Some v, mkMailbox w (subscribed m))
      else (None, m)
  | _ => (None, m)
  end.

Definition received_by (rx : Receiver) (e : event) : option received :=
  match e with Received rx' v => if decide (rx' = rx) then Some v else None | Quiet => None end.

(** Names have broadcast channels of their own, which are there and open. *)
Record wf (p : PubSub) : Prop := {
  wf_heap ch i : channels p !! ch = Some i -> exists b, heap p !! i = Some b /\ is_closed b = false;
  wf_inj ch ch' i : channels p !! ch = Some i -> channels p !! ch' = Some i -> ch = ch';
  wf_capacity i b : heap p !! i = Some b -> max_subscribers p <= capacity b
}.

Record follows (cap : nat) (ch : string) (rx : Receiver) (m : mailbox) (p : PubSub) (b : B) : Prop := {
  follows_heap : heap p !! rx.1 = Some b;
  follows_view : receivers b !! rx.2 = Some (seen m);
  follows_capacity : capacity b = cap;
  follows_closed : is_closed b = negb (subscribed m);
  follows_open : subscribed m = true -> channels p !! ch = Some rx.1;
  follows_gone ch' : subscribed m = false -> channels p !! ch' <> Some rx.1
}.

Lemma wf_update p i b b' :
  wf p -> heap p !! i = Some b -> capacity b' = capacity b -> is_closed b' = is_closed b ->
  wf (mkPubSub (channels p) (<[i := b']> (heap p)) (max_subscribers p)).
Proof.
  intros [W1 W2 W3] Hi Hc Hcl. split; cbn; [|by apply W2|].
  - intros ch j Hj. destruct (decide (i = j)) as [<-|Hne].
    + rewrite lookup_insert_eq. exists b'. split; [done|]. apply W1 in Hj as (b0 & E & ?). congruence.
    + rewrite lookup_insert_ne by done. by eapply W1.
  - intros j c [[<- <-]|[_ E]]%lookup_insert_Some; [rewrite Hc|]; by eapply W3.
Qed.

Lemma heap_fresh p i b : heap p !! i = Some b -> i <> fresh (dom (heap p)).
Proof. intros E ->. apply (is_fresh (dom (heap p))), elem_of_dom. by exists b. Qed.

Lemma wf_entry ch p i p' :
  wf p -> entry ch p = Ok (i, p') ->
  wf p' /\ channels p' !! ch = Some i /\ max_subscribers p' = max_subscribers p.
Proof.
  intros W E. unfold entry in E. destruct (channels p !! ch) as [j|] eqn:Ech; [by injection E as <- <-|].
  case_decide; [done|]. injection E as <- <-. destruct W as [W1 W2 W3]. set (i := fresh _).
  assert (Hn : forall ch', channels p !! ch' <> Some i).
  { intros ch' (b & E' & _)%W1. by apply heap_fresh in E'. }
  destruct (channel_new (max_subscribers p)) as (_ & Hcap & Hop).
  split_and!; [|cbn; by rewrite lookup_insert_eq|done]. split; cbn.
  - intros ch' j [[<- <-]|[Hne Hj]]%lookup_insert_Some; [rewrite lookup_insert_eq; by eexists|].
    rewrite lookup_insert_ne; [by eapply W1|]. intros <-. by apply Hn in Hj.
  - intros c1 c2 j. rewrite !lookup_insert_Some. intros [[<- <-]|[H1 E1]] [[<- E2]|[H2 E2]]; try done.
    + by apply Hn in E2.
    + subst j. by apply Hn in E1.
    + by eapply W2.
  - intros j c [[_ <-]|[_ E]]%lookup_insert_Some; [done|by eapply W3].
Qed.

(** [subscribe] gives a receiver of the channel, unless the capacity is 0. *)
Lemma subscribe_run ch p :
  wf p -> max_subscribers p <> 0 \/ is_Some (channels p !! ch) ->
  exists i p1 b r b', entry ch p = Ok (i, p1) /\ heap p1 !! i = Some b /\ subscribe_to b = (r, b') /\
    subscribe ch p = Ok ((i, r), mkPubSub (channels p1) (<[i := b']> (heap p1)) (max_subscribers p1)).
Proof.
  intros W Hm. unfold subscribe. destruct (entry ch p) as [[i p1]|? | |] eqn:Ee.
  - destruct (wf_entry _ _ _ _ W Ee) as (W1 & Hc & _). destruct (wf_heap _ W1 _ _ Hc) as (b & Hb & _).
    destruct (subscribe_to b) as [r b'] eqn:Eb. rewrite Hb, Eb. by eexists _, _, _, _, _.
  - unfold entry in Ee. destruct (channels p !! ch); [done|]. by case_decide.
  - unfold entry in Ee. destruct (channels p !! ch) eqn:E; [done|]. case_decide; [|done].
    destruct Hm as [Hm|[? Hm]]; done.
  - unfold entry in Ee. destruct (channels p !! ch); [done|]. by case_decide.
Qed.

Lemma wf_subscribe ch p rx p' :
  wf p -> subscribe ch p = Ok (rx, p') ->
  wf p' /\ max_subscribers p' = max_subscribers p.
Proof.
  intros W E. unfold subscribe in E. destruct (entry ch p) as [[i p1]|? | |] eqn:Ee; try done.
  destruct (wf_entry _ _ _ _ W Ee) as (W1 & Hc & Hm). destruct (heap p1 !! i) as [b|] eqn:Hb; [|done].
  pose proof (subscribe_new b) as Hs. destruct (subscribe_to b) as [r b'] eqn:Eb. destruct Hs as (_ & _ & Hcap & Hcl).
  injection E as <- <-. split; [by eapply wf_update|done].
Qed.

Lemma wf_unsubscribe ch p : wf p -> wf (unsubscribe ch p).
Proof.
  intros W. unfold unsubscribe, at_channel. destruct (channels p !! ch) as [i|] eqn:Ech; [|done].
  destruct (heap p !! i) as [b|] eqn:Ei; [|done]. destruct (close_all b) as (_ & Hc & _). destruct W as [W1 W2 W3].
  split; cbn.
  - intros c j [Hne E]%lookup_delete_Some. rewrite lookup_insert_ne; [by eapply W1|]. intros <-. by apply Hne, (W2 _ _ i).
  - intros c1 c2 j [_ E1]%lookup_delete_Some [_ E2]%lookup_delete_Some. by eapply W2.
  - intros j c [[<- <-]|[_ E]]%lookup_insert_Some; [rewrite Hc|]; by eapply W3.
Qed.

Lemma wf_perform o p : wf p -> wf (perform o p).2 /\ max_subscribers (perform o p).2 = max_subscribers p.
Proof.
  intros W. destruct o as [ch|ch msg|ch|rx|rx]; cbn [perform].
  - destruct (subscribe ch p) as [[rx p']|? | |] eqn:E; cbn [snd]; [by eapply wf_subscribe|done..].
  - unfold publish, at_channel. destruct (channels p !! ch) as [i|]; [|done]. destruct (heap p !! i) as [b|] eqn:Ei; [|done].
    destruct (send_all msg b) as (_ & Hc & Hcl). split; [by eapply wf_update|done].
  - split; [by apply wf_unsubscribe|]. cbn. unfold unsubscribe, at_channel. by repeat case_match.
  - unfold receive. destruct (heap p !! rx.1) as [b|] eqn:Ei; [|done]. destruct (receivers b !! rx.2) as [v|] eqn:Ev; [|done].
    destruct (recv_next rx.2 b v Ev) as (_ & _ & Hc & Hcl). destruct (recv rx.2 b) as [w b']. cbn in *.
    split; [by eapply wf_update|done].
  - cbn. unfold forget. destruct (heap p !! rx.1) as [b|] eqn:Ei.
    + rewrite (alter_alt_Some _ _ _ b) by done. destruct (drop_one rx.2 b) as (_ & Hc & Hcl). split; [by eapply wf_update|done].
    + rewrite alter_id by congruence. by destruct p.
Qed.

(** A broadcast channel other than the receiver's changes. *)
Lemma follows_other cap ch rx m p b i b' :
  follows cap ch rx m p b -> i <> rx.1 ->
  follows cap ch rx m (mkPubSub (channels p) (<[i := b']> (heap p)) (max_subscribers p)) b.
Proof. intros [F1 F2 F3 F4 F5 F6] Hne. split; cbn; try done. by rewrite lookup_insert_ne. Qed.

(** The receiver's own changes. *)
Lemma follows_same cap ch rx m v p b b' :
  follows cap ch rx m p b -> receivers b' !! rx.2 = Some v -> capacity b' = capacity b -> is_closed b' = is_closed b ->
  follows cap ch rx (mkMailbox v (subscribed m)) (mkPubSub (channels p) (<[rx.1 := b']> (heap p)) (max_subscribers p)) b'.
Proof.
  intros [F1 F2 F3 F4 F5 F6] Hv Hc Hcl. split; cbn; try done; try congruence. by rewrite lookup_insert_eq.
Qed.

Lemma follows_entry cap ch rx m p b ch' i p' :
  wf p -> follows cap ch rx m p b -> entry ch' p = Ok (i, p') -> follows cap ch rx m p' b.
Proof.
  intros W F E. unfold entry in E. destruct (channels p !! ch') as [j|] eqn:Ech; [by injection E as <- <-|].
  case_decide; [done|]. injection E as <- <-. destruct F as [F1 F2 F3 F4 F5 F6]. set (i := fresh _).
  assert (Hne : i <> rx.1) by (intros E; by apply heap_fresh in F1).
  split; cbn; try done.
  - by rewrite lookup_insert_ne.
  - intros Ho. rewrite lookup_insert_ne; [by apply F5|]. intros ->. by rewrite F5 in Ech.
  - intros c Ho. rewrite lookup_insert_Some. intros [[_ E]|[_ E]]; [done|]. by eapply F6.
Qed.

Lemma follows_subscribe cap ch rx m p b ch' rx' p' :
  wf p -> follows cap ch rx m p b -> subscribe ch' p = Ok (rx', p') ->
  exists b', follows cap ch rx m p' b'.
Proof.
  intros W F E. unfold subscribe in E. destruct (entry ch' p) as [[i p1]|? | |] eqn:Ee; try done.
  destruct (heap p1 !! i) as [bi|] eqn:Ei; [|done]. pose proof (subscribe_new bi) as Hs.
  destruct (subscribe_to bi) as [r b'] eqn:Eb. destruct Hs as (Hr & Hv & Hc & Hcl). injection E as <- <-.
  pose proof (follows_entry _ _ _ _ _ _ _ _ _ W F Ee) as F1.
  destruct (decide (i = rx.1)) as [->|Hne]; [|exists b; by apply follows_other].
  rewrite (follows_heap _ _ _ _ _ _ F1) in Ei. injection Ei as <-. exists b'. destruct m as [v o].
  apply (follows_same _ _ _ (mkMailbox v o) v p1 b b' F1); [|done|done].
  rewrite Hv, lookup_insert_ne; [by apply F1|]. intros ->. by rewrite (follows_view _ _ _ _ _ _ F1) in Hr.
Qed.

Lemma follows_publish cap ch rx m p b ch' msg :
  wf p -> follows cap ch rx m p b ->
  exists b', follows cap ch rx (mail cap ch rx (Publish ch' msg) m).2 (publish ch' msg p).2 b'.
Proof.
  intros W F. unfold publish, at_channel. cbn [mail snd]. destruct (channels p !! ch') as [i|] eqn:Ech; cbn [snd].
  - destruct (wf_heap _ W _ _ Ech) as (bi & Ei & _). rewrite Ei. cbn [snd]. destruct (decide (i = rx.1)) as [->|Hne].
    + rewrite (follows_heap _ _ _ _ _ _ F) in Ei. injection Ei as <-. destruct (send_all msg b) as (Hv & Hc & Hcl).
      destruct (subscribed m) eqn:Eo; [|by destruct (follows_gone _ _ _ _ _ _ F ch' Eo)].
      pose proof (wf_inj _ W _ _ _ Ech (follows_open _ _ _ _ _ _ F Eo)) as ->. rewrite bool_decide_true by done.
      exists (send msg b). cbn [andb]. rewrite <- Eo. apply (follows_same _ _ _ m _ p b); [done| |done|done].
      by rewrite Hv, lookup_fmap, (follows_view _ _ _ _ _ _ F), (follows_capacity _ _ _ _ _ _ F).
    + exists b. destruct (subscribed m && bool_decide (ch' = ch)) eqn:E; [|by apply follows_other].
      apply andb_true_iff in E as [Eo ->%bool_decide_eq_true]. rewrite (follows_open _ _ _ _ _ _ F Eo) in Ech. congruence.
  - exists b. destruct (subscribed m && bool_decide (ch' = ch)) eqn:E; [|done].
    apply andb_true_iff in E as [Eo ->%bool_decide_eq_true]. rewrite (follows_open _ _ _ _ _ _ F Eo) in Ech. done.
Qed.

Lemma follows_receive cap ch rx m p b rx' :
  wf p -> follows cap ch rx m p b ->
  (exists b', follows cap ch rx (mail cap ch rx (Receive rx') m).2 (receive rx' p).2 b') /\
  (rx' = rx -> (mail cap ch rx (Receive rx') m).1 = Some (receive rx' p).1).
Proof.
  intros W F. unfold receive. cbn [mail]. pose proof F as [F1 F2 F3 F4 F5 F6]. destruct (decide (rx' = rx)) as [->|Hne].
  - rewrite F1, F2. destruct (recv_next rx.2 b (seen m) F2) as (Hr & Hv & Hc & Hcl).
    destruct (recv rx.2 b) as [v b']. cbn [fst snd] in *. rewrite F4 in Hr, Hv.
    destruct (next (negb (subscribed m)) (seen m)) as [v' w]. cbn [fst snd] in *.
    split; [|by rewrite Hr].
    exists b'. apply (follows_same _ _ _ m _ p b); [done|by rewrite Hv, lookup_insert_eq|done|done].
  - cbn [snd]. destruct (heap p !! rx'.1) as [bi|] eqn:Ei; [|by split; try exists b].
    destruct (receivers bi !! rx'.2) as [v'|] eqn:Ev; [|by split; try exists b].
    destruct (recv_next rx'.2 bi v' Ev) as (_ & Hv & Hc & Hcl). destruct (recv rx'.2 bi) as [v b']. cbn [fst snd] in *.
    split; [|done].
    destruct (decide (rx'.1 = rx.1)) as [E1|E1]; [|exists b; by apply follows_other].
    rewrite E1 in *. rewrite F1 in Ei. injection Ei as <-. exists b'. destruct m as [w o].
    apply (follows_same _ _ _ (mkMailbox w o) w p b); [done| |done|done].
    rewrite Hv, lookup_insert_ne; [done|]. intros E2. apply Hne. destruct rx, rx'. cbn in *. by subst.
Qed.

Lemma still_subscribed m (ch ch' : string) :
  (subscribed m = true -> ch' <> ch) -> subscribed m && negb (bool_decide (ch' = ch)) = subscribed m.
Proof. intros Hm. destruct (subscribed m); [|done]. rewrite bool_decide_false; [done|by apply Hm]. Qed.

Lemma follows_unsubscribe cap ch rx m p b ch' :
  wf p -> follows cap ch rx m p b ->
  exists b', follows cap ch rx (mail cap ch rx (Unsubscribe ch') m).2 (unsubscribe ch' p) b'.
Proof.
  intros W F. pose proof F as [F1 F2 F3 F4 F5 F6]. unfold unsubscribe, at_channel. cbn [mail snd].
  destruct (channels p !! ch') as [i|] eqn:Ech.
  - destruct (wf_heap _ W _ _ Ech) as (bi & Ei & _). rewrite Ei. destruct (close_all bi) as (Hv & Hc & Hcl).
  + destruct (decide (i = rx.1)) as [->|Hne].
    * rewrite F1 in Ei. injection Ei as <-. exists (close b).
      assert (bool_decide (ch' = ch) = true /\ subscribed m = true) as [-> Eo].
      { destruct (subscribed m) eqn:Eo; [|by destruct (F6 ch' eq_refl)]. split; [|done]. apply bool_decide_eq_true.
        by eapply (wf_inj _ W); [done|apply F5]. }
      rewrite andb_false_r. split; cbn; rewrite ?lookup_insert_eq; try done; try congruence.
      intros c _ [Hne E]%lookup_delete_Some. by apply Hne, (wf_inj _ W _ _ rx.1).
    * exists b. rewrite still_subscribed by (intros Eo ->; rewrite F5 in Ech by done; by injection Ech).
      split; cbn; rewrite ?lookup_insert_ne by done; try done.
    -- intros Eo. rewrite lookup_delete_ne; [by apply F5|]. intros ->. rewrite F5 in Ech by done. by injection Ech.
    -- intros c Eo [_ E]%lookup_delete_Some. by eapply F6.
  - exists b. rewrite still_subscribed by (intros Eo ->; by rewrite F5 in Ech). by destruct m.
Qed.

Lemma follows_forget cap ch rx m p b rx' :
  wf p -> follows cap ch rx m p b -> rx' <> rx ->
  exists b', follows cap ch rx m (forget rx' p) b'.
Proof.
  intros W F Hne. unfold forget. destruct (heap p !! rx'.1) as [bi|] eqn:Ei.
  - rewrite (alter_alt_Some _ _ _ bi) by done.
    destruct (decide (rx'.1 = rx.1)) as [E1|E1]; [|exists b; by apply follows_other].
    rewrite E1 in *. rewrite (follows_heap _ _ _ _ _ _ F) in Ei. injection Ei as <-.
    destruct (drop_one rx'.2 b) as (Hv & Hc & Hcl). exists (drop_receiver rx'.2 b). destruct m as [w o].
    apply (follows_same _ _ _ (mkMailbox w o) w p b); [done| |done|done].
    rewrite Hv, lookup_delete_ne; [by apply F|]. intros E2. apply Hne. destruct rx, rx'. cbn in *. by subst.
  - rewrite alter_id by congruence. destruct p. by exists b.
Qed.

(** Every operation is, for a receiver that is kept, one of its mailbox. *)
Lemma follows_perform cap ch rx m p b o :
  wf p -> follows cap ch rx m p b -> o <> Forget rx ->
  (exists b', follows cap ch rx (mail cap ch rx o m).2 (perform o p).2 b') /\
  (mail cap ch rx o m).1 = received_by rx (perform o p).1.
Proof.
  intros W F Ho. destruct o as [ch'|ch' msg|ch'|rx'|rx']; cbn [perform].
  - split; [|done]. destruct (subscribe ch' p) as [[rx' p']|? | |] eqn:E; cbn [snd mail]; [|by exists b..].
    by eapply follows_subscribe.
  - split; [by eapply follows_publish|done].
  - split; [by eapply follows_unsubscribe|done].
  - destruct (follows_receive _ _ _ _ _ _ rx' W F) as [Hb He]. destruct (receive rx' p) as [v p']. cbn [fst snd] in *.
    split; [done|]. cbn [received_by]. case_decide as E; [by apply He|]. cbn [mail]. by rewrite decide_False.
  - split; [|done]. eapply follows_forget; [done|done|]. congruence.
Qed.

Fixpoint mails (cap : nat) (ch : string) (rx : Receiver) (ops : list op) (m : mailbox) : list received * mailbox :=
  match ops with
  | [] => ([], m)
  | o :: ops => let '(v, m) := mail cap ch rx o m in let '(vs, m) := mails cap ch rx ops m in (option_list v ++ vs, m)
  end.

Lemma follows_performs cap ch rx m p b ops :
  wf p -> follows cap ch rx m p b -> Forget rx ∉ ops ->
  (exists b', follows cap ch rx (mails cap ch rx ops m).2 (performs ops p).2 b') /\
  (mails cap ch rx ops m).1 = omap (received_by rx) (performs ops p).1.
Proof.
  revert m p b. induction ops as [|o ops IH]; intros m p b W F Ho; [split; [by exists b|done]|].
  apply not_elem_of_cons in Ho as [Ho Hops].
  destruct (follows_perform cap ch rx m p b o W F) as [[b' F'] He]; [congruence|].
  pose proof (proj1 (wf_perform o p W)) as W'. cbn [mails performs].
  destruct (mail cap ch rx o m) as [v m'], (perform o p) as [e p']. cbn [fst snd] in *.
  destruct (IH m' p' b' W' F' Hops) as [Hb Hes].
  destruct (mails cap ch rx ops m') as [vs m2], (performs ops p') as [es p2]. cbn [fst snd] in *.
  split; [done|]. cbn. rewrite Hes, He. by destruct (received_by rx e).
Qed.

(** ** What a mailbox delivers *)

Definition value (v : received) : option string := match v with Value m => Some m | _ => None end.
Definition lags (v : received) : bool := match v with Lagged _ => true | _ => false end.

(** The messages published to a channel before it is unsubscribed from. *)
Fixpoint published (ch : string) (ops : list op) : list string :=
  match ops with
  | [] => []
  | Publish ch' msg :: ops => if decide (ch' = ch) then msg :: published ch ops else published ch ops
  | Unsubscribe ch' :: ops => if decide (ch' = ch) then [] else published ch ops
  | _ :: ops => published ch ops
  end.

(** What is still to come. *)
Definition coming (ch : string) (ops : list op) (m : mailbox) : list string := if subscribed m then published ch ops else [].

Definition whole (m : mailbox) : Prop := missed (seen m) = 0.

(** One operation on a mailbox that has lost nothing: it hands over what it
    hands over from the front, or it loses a message. *)
Lemma mail_step cap ch rx o ops m :
  whole m ->
  let '(v, m') := mail cap ch rx o m in
  Forall (fun v => lags v = false) (option_list v) /\
  (whole m' ->
   option_list (v ≫= value) ++ unread (seen m') ++ coming ch ops m' = unread (seen m) ++ coming ch (o :: ops) m) /\
  (length (unread (seen m) ++ coming ch (o :: ops) m) <= cap -> whole m').
Proof.
  intros Hw. unfold whole, coming in *. destruct m as [[k l] on]. cbn in Hw. subst k.
  destruct o as [ch'|ch' msg|ch'|rx'|rx']; cbn [mail published seen subscribed unread missed]; try (by destruct on).
  - destruct on; [|done]. cbn [andb]. case_bool_decide as E; [rewrite decide_True by done|by rewrite decide_False].
    cbn [seen subscribed]. unfold push. cbn [unread missed]. case_decide as Hl; cbn [unread missed option_list];
      split_and!; try done.
    + intros _. cbn. by rewrite <- app_assoc.
    + rewrite length_app. cbn. lia.
  - destruct on; [|done]. cbn [andb]. case_bool_decide as E; [rewrite decide_True by done|by rewrite decide_False].
    cbn. done.
  - case_decide as E; [|by destruct on]. cbn [next unread missed]. destruct l as [|x l]; cbn.
    + destruct on; cbn; split_and!; (done || by repeat constructor).
    + split_and!; (done || by repeat constructor).
Qed.

(** A mailbox that has lost a message says so, or still has to. *)
Lemma mail_loss cap ch rx o m :
  ~ whole m -> let '(v, m') := mail cap ch rx o m in ~ whole m' \/ Exists (fun v => lags v = true) (option_list v).
Proof.
  intros Hw. unfold whole in *. destruct m as [[k l] on]. cbn in Hw. destruct k as [|k]; [done|].
  destruct o as [ch'|ch' msg|ch'|rx'|rx']; cbn; try (by left).
  - left. destruct (on && _); [|done]. unfold push. by case_decide.
  - case_decide; cbn; [right; by repeat constructor|by left].
Qed.

Lemma mails_loss cap ch rx ops m :
  ~ whole m -> let '(vs, m') := mails cap ch rx ops m in ~ whole m' \/ Exists (fun v => lags v = true) vs.
Proof.
  revert m. induction ops as [|o ops IH]; intros m Hw; [by left|]. cbn [mails].
  pose proof (mail_loss cap ch rx o m Hw) as Ho. destruct (mail cap ch rx o m) as [v m1].
  pose proof (IH m1) as Hi. destruct (mails cap ch rx ops m1) as [vs m2]. rewrite Exists_app. tauto.
Qed.

Lemma values_app (v : option received) vs : omap value (option_list v ++ vs) = option_list (v ≫= value) ++ omap value vs.
Proof. destruct v as [v|]; [|done]. cbn. by destruct (value v). Qed.

Lemma mails_complete cap ch rx ops m :
  whole m ->
  let '(vs, m') := mails cap ch rx ops m in
  (whole m' -> Forall (fun v => lags v = false) vs ->
   omap value vs ++ unread (seen m') = unread (seen m) ++ coming ch ops m) /\
  (length (unread (seen m) ++ coming ch ops m) <= cap -> whole m' /\ Forall (fun v => lags v = false) vs).
Proof.
  revert m. induction ops as [|o ops IH]; intros m Hw.
  { cbn. unfold coming. cbn. destruct (subscribed m); by rewrite app_nil_r. }
  cbn [mails]. pose proof (mail_step cap ch rx o ops m Hw) as Ho. destruct (mail cap ch rx o m) as [v m1].
  destruct Ho as (Hl & Hc & Hr). pose proof (IH m1) as Hi. pose proof (mails_loss cap ch rx ops m1) as Hx.
  destruct (mails cap ch rx ops m1) as [vs m2]. rewrite Forall_app. split.
  - intros Hw2 [_ Hvs]. destruct (decide (missed (seen m1) = 0)) as [Hw1|Hw1].
    + rewrite values_app, <- app_assoc, (proj1 (Hi Hw1) Hw2 Hvs). by apply Hc.
    + destruct (Hx Hw1) as [Hx'|Hx']; [done|]. exfalso. clear -Hvs Hx'. induction Hx' as [? ? E|? ? E IH];
        apply Forall_cons_1 in Hvs as [Hv ?]; [congruence|auto].
  - intros Hlen. pose proof (Hr Hlen) as Hw1. destruct (Hi Hw1) as [_ Hi2].
    assert (length (unread (seen m1) ++ coming ch ops m1) <= cap).
    { rewrite <- (Hc Hw1), length_app in Hlen. lia. }
    by destruct Hi2.
Qed.

(** ** Subscribing *)

Lemma wf_new n : wf (with_capacity n).
Proof. split; cbn; intros; by simplify_map_eq. Qed.

Lemma wf_performs ops p : wf p -> wf (performs ops p).2 /\ max_subscribers (performs ops p).2 = max_subscribers p.
Proof.
  revert p. induction ops as [|o ops IH]; intros p W; [done|]. cbn [performs].
  destruct (wf_perform o p W) as [W1 E1]. destruct (perform o p) as [e p1]. cbn in *.
  destruct (IH p1 W1) as [W2 E2]. destruct (performs ops p1) as [es p2]. cbn in *. split; congruence.
Qed.

(** A new receiver has an empty mailbox. *)
Lemma follows_new ch p :
  wf p -> max_subscribers p <> 0 ->
  exists rx p' b, subscribe ch p = Ok (rx, p') /\ max_subscribers p <= capacity b /\
    follows (capacity b) ch rx (mkMailbox (mkView 0 []) true) p' b.
Proof.
  intros W Hm. destruct (subscribe_run ch p W (or_introl Hm)) as (i & p1 & b & r & b' & Ee & Hb & Eb & ->).
  destruct (wf_entry _ _ _ _ W Ee) as (W1 & Hc & Hmax). destruct (wf_heap _ W1 _ _ Hc) as (b0 & Hb0 & Hop).
  assert (b0 = b) as -> by congruence. pose proof (subscribe_new b) as Hs. rewrite Eb in Hs.
  destruct Hs as (_ & Hv & Hcap & Hcl). eexists (i, r), _, b'. split; [done|]. split.
  - rewrite Hcap, <- Hmax. by eapply wf_capacity.
  - split; cbn; rewrite ?lookup_insert_eq; try done; [by rewrite Hv, lookup_insert_eq|congruence].
Qed.

(** What a receiver has before it. *)
Definition view_of (rx : Receiver) (p : PubSub) : option view := heap p !! rx.1 ≫= fun b => receivers b !! rx.2.

(** A subscriber gets what is published to its channel.  After any operations on
    a [PubSub] whose capacity is not 0, [subscribe] gives a receiver.  Whatever
    any number of clients do from then on, as long as it is not dropped: the
    receiver has read, and has before it, exactly the messages published to the
    channel's name since, in their order - up to the first [unsubscribe] of that
    name, by whoever it is, after which nothing more comes - unless it is told
    that it lags behind, or still has to be; and that it never is if these
    messages are at most as many as the capacity. *)
Theorem subscriber_gets_published n before ch (Hn : n <> 0) :
  exists rx p, subscribe ch (performs before (with_capacity n)).2 = Ok (rx, p) /\
  forall ops, Forget rx ∉ ops ->
  let '(es, p') := performs ops p in
  let got := omap (received_by rx) es in
  exists v, view_of rx p' = Some v /\
    (missed v = 0 -> Forall (fun r => lags r = false) got -> omap value got ++ unread v = published ch ops) /\
    (length (published ch ops) <= n -> missed v = 0 /\ Forall (fun r => lags r = false) got).
Proof.
  destruct (wf_performs before (with_capacity n) (wf_new n)) as [W Hm]. set (p0 := (performs _ _).2) in *.
  destruct (follows_new ch p0 W) as (rx & p & b & Es & Hcap & F); [by rewrite Hm|].
  exists rx, p. split; [done|]. intros ops Hops.
  pose proof (wf_subscribe _ _ _ _ W Es) as [Wp _].
  destruct (follows_performs _ _ _ _ _ _ ops Wp F Hops) as [[b' F'] He].
  pose proof (mails_complete (capacity b) ch rx ops (mkMailbox (mkView 0 []) true) eq_refl) as Hc.
  destruct (mails _ ch rx ops _) as [vs m'], (performs ops p) as [es p']. cbn [fst snd] in *. rewrite <- He.
  destruct Hc as [Hc1 Hc2]. exists (seen m'). split_and!.
  - unfold view_of. rewrite (follows_heap _ _ _ _ _ _ F'). apply F'.
  - intros Hw Hv. rewrite Hc1 by done. done.
  - intros Hlen. destruct Hc2 as [Hw Hv]; [|done]. cbn. cbn in Hm. lia.
Qed.

End PubSub.

(** Two subscribers of a channel; the first gives up, and the second is cut off. *)
Lemma subscriber_gets_published_witness : exists rx p,
  subscribe (B := ring) "news" (performs (B := ring) [Subscribe "news"] (with_capacity 2)).2 = Ok (rx, p) /\
  let '(es, _) := performs [Publish "news" "a"; Unsubscribe "news"; Publish "news" "b"; Receive rx; Receive rx] p in
  omap (received_by rx) es = [Value "a"; Closed].
Proof.
  destruct (subscriber_gets_published (B := ring) 2 [Subscribe "news"] "news" ltac:(lia)) as (rx & p & Es & _).
  exists rx, p. split; [exact Es|]. vm_compute in Es. injection Es as <- <-. vm_compute. reflexivity.
Defined.

(** The capacity is of messages, not of subscribers. *)
Lemma capacity_is_of_messages :
  let p := (performs (B := ring) [Subscribe "news"; Subscribe "news"; Subscribe "news"] (with_capacity 1)).2 in
  subscriber_count "news" p = 3 /\
  (performs [Publish "news" "a"; Publish "news" "b"; Receive (0, 1); Receive (0, 1)] p).1 =
    [Quiet; Quiet; Received (0, 1) (Lagged 1); Received (0, 1) (Value "b")].
Proof. by vm_compute. Qed.

End PubSub.
