(* ===== verification/Plugins.v ===== *)
(** * Plugins: [redisdb/src/plugins.rs]

    Named functions on arguments, and the four built-in ones, each registered
    by a task of its own.  Nothing else in the server calls them. *)

From stdpp Require Import base strings gmap list numbers.
From Stdlib Require Import ZArith Lia Permutation.
From S2P Require Import Prelude Text.
From stdpp Require Import list.

#[local] Open Scope Z_scope.

Module Plugins.

(** A handler reads the clock (nanoseconds since 1970) and its arguments. *)
Definition PluginFn : Type := Z -> list string -> list byte.

Record Plugin := mkPlugin { name : string; description : string; handler : PluginFn }.

(** [plugins] *)
Abbreviation plugins := (gmap string Plugin) (only parsing).

Definition register (nm desc : string) (h : PluginFn) (p : plugins) : plugins := <[nm := mkPlugin nm desc h]> p.

Definition execute (nanos : Z) (nm : string) (args : list string) (p : plugins) : option (list byte) :=
  match p !! nm with Some pl => Some (handler pl nanos args) | None => None end.

Definition list_plugins (p : plugins) : list (string * string) := (fun np => (name np.2, description np.2)) <$> map_to_list p.

Definition has (nm : string) (p : plugins) : bool := bool_decide (is_Some (p !! nm)).

(** ** The built-in plugins *)

Definition ping : PluginFn := fun _ _ => bytes_of ("+PONG" +:+ CRLF).

Definition time : PluginFn := fun nanos _ => bytes_of (":" +:+ to_string (nanos / 1000000000) +:+ CRLF).

(** [args.join(sep)] *)
Fixpoint join (sep : string) (l : list string) : string :=
  match l with [] => "" | [x] => x | x :: l => x +:+ sep +:+ join sep l end.

Definition echo : PluginFn := fun _ args =>
  if decide (args = []) then bytes_of ("$-1" +:+ CRLF)
  else let msg := join " " args in
       bytes_of ("$" +:+ to_string (Z.of_nat (String.length msg)) +:+ CRLF +:+ msg +:+ CRLF).

(** [{:032x}]: hexadecimal, with zeros in front up to [n] digits. *)
Definition hex_digit (d : Z) : byte := if d <? 10 then byte_of (48 + d) else byte_of (87 + d).

Fixpoint hex_digits (n : nat) (z : Z) : list byte :=
  match n with O => [] | S n => hex_digits n (z / 16) ++ [hex_digit (z mod 16)] end.

(** At most 32 digits: a [u128]. *)
Definition uuid : PluginFn := fun nanos _ => bytes_of ("+" +:+ string_of (hex_digits 32 nanos) +:+ CRLF).

Definition builtins : list Plugin :=
  [mkPlugin "ping" "Simple ping/pong" ping;
   mkPlugin "time" "Current server time" time;
   mkPlugin "echo" "Echo back arguments" echo;
   mkPlugin "uuid" "Generate a UUID v4" uuid].

(** [register_builtins] spawns a task for each; a task's work is one
    [register].  [tasks]: those that have run so far, in the order they did. *)
Definition registered (tasks : list Plugin) (p : plugins) : plugins :=
  foldl (fun p pl => register (name pl) (description pl) (handler pl) p) p tasks.

Definition by_name (tasks : list Plugin) : list (string * Plugin) := (fun pl => (name pl, pl)) <$> tasks.

Lemma by_name_names tasks : (by_name tasks).*1 = name <$> tasks.
Proof. unfold by_name. by rewrite <- list_fmap_compose. Qed.

Lemma registered_union tasks p :
  NoDup (name <$> tasks) -> registered tasks p = list_to_map (by_name tasks) ∪ p.
Proof.
  revert p. induction tasks as [|pl tasks IH]; intros p Hn; [symmetry; apply (left_id ∅ (∪))|].
  apply NoDup_cons in Hn as [Hin Hn]. unfold registered. cbn [foldl]. fold (registered tasks (register (name pl) (description pl) (handler pl) p)).
  rewrite IH by done. unfold register. cbn [by_name fmap list_fmap list_to_map foldr].
  rewrite <- insert_union_r; [|by apply not_elem_of_list_to_map_1; rewrite by_name_names].
  rewrite insert_union_l. by destruct pl.
Qed.

(** The order in which the tasks come to run does not matter, and once all have
    run the built-in plugins are there; before that, those whose tasks have
    run, and for the others what was registered before. *)
Theorem builtins_registered order p (Ho : Permutation order builtins) :
  registered order p = registered builtins p /\
  (forall pl, pl ∈ builtins -> registered order p !! name pl = Some pl) /\
  (forall ran rest, order = ran ++ rest -> forall pl, pl ∈ rest -> registered ran p !! name pl = p !! name pl).
Proof.
  assert (Hb : NoDup (name <$> builtins)) by (by apply (bool_decide_unpack _); vm_compute).
  assert (Hn : NoDup (name <$> order)) by (by rewrite Ho).
  split_and!.
  - rewrite !registered_union by done. f_equal. apply list_to_map_proper; [by rewrite by_name_names|].
    unfold by_name. by rewrite Ho.
  - intros pl Hpl. rewrite registered_union by done. apply lookup_union_Some_l, elem_of_list_to_map_1.
    + by rewrite by_name_names.
    + unfold by_name. apply list_elem_of_fmap. exists pl. split; [done|]. by rewrite Ho.
  - intros ran rest -> pl Hpl. rewrite fmap_app in Hn. apply NoDup_app in Hn as (Hr & Hd & _).
    rewrite registered_union by done. apply lookup_union_r, not_elem_of_list_to_map_1. rewrite by_name_names.
    intros Hin. apply (Hd _ Hin). by apply list_elem_of_fmap_2.
Qed.

Lemma builtins_registered_witness :
  execute 0 "echo" ["a"; "b"] (registered (reverse builtins) ∅) = Some (bytes_of ("$3" +:+ CRLF +:+ "a b" +:+ CRLF)).
Proof.
  destruct (builtins_registered (reverse builtins) ∅ (reverse_Permutation _)) as (_ & H & _).
  assert (E : registered (reverse builtins) ∅ !! "echo" = Some (mkPlugin "echo" "Echo back arguments" echo)).
  { apply (H (mkPlugin "echo" "Echo back arguments" echo)). unfold builtins. set_solver. }
  unfold execute. rewrite E. reflexivity.
Defined.

(** A version 4 UUID has a 4 as its 13th digit.  [uuid] has a 0 there (until the
    year 2554). *)
Lemma hex_digits_zeros n k z : 0 <= z < 16 ^ Z.of_nat n -> take k (hex_digits (k + n) z) = replicate k (hex_digit 0).
Proof.
  revert k z. induction n as [|n IH]; intros k z Hz.
  - replace z with 0 by (cbn in Hz; lia). rewrite Nat.add_0_r. clear.
    assert (E : hex_digits k 0 = replicate k (hex_digit 0)).
    { induction k as [|k IH]; [done|]. rewrite replicate_S_end. cbn [hex_digits]. by rewrite Z.div_0_l, IH by lia. }
    rewrite E. by rewrite take_replicate, Nat.min_id.
  - rewrite Nat.add_succ_r. cbn [hex_digits]. rewrite take_app_le.
    + apply IH. rewrite Nat2Z.inj_succ, Z.pow_succ_r in Hz by lia.
      split; [apply Z.div_pos; lia|apply Z.div_lt_upper_bound; lia].
    + clear. enough (length (hex_digits (k + n) (z / 16)) = k + n)%nat by lia.
      generalize (k + n)%nat, (z / 16). clear. intros m. induction m as [|m IH]; intros z; [done|].
      cbn. rewrite length_app, IH. cbn. lia.
Qed.

Lemma uuid_is_no_v4 nanos args : in_u64 nanos -> take 17 (uuid nanos args) = bytes_of "+0000000000000000".
Proof.
  intros Hn. unfold uuid. rewrite !bytes_of_app, bytes_of_string. cbn [bytes_of String.list_ascii_of_string app take].
  f_equal. rewrite take_app_le.
  - rewrite (hex_digits_zeros 16 16); [reflexivity|]. unfold in_u64 in Hn. change (16 ^ Z.of_nat 16) with (2 ^ 64). lia.
  - cbn [hex_digits]. rewrite !length_app. cbn. lia.
Qed.

End Plugins.
