(* ===== verification/Tsdb.v ===== *)
(** * The time series database: [redisdb/src/tsdb]

    Series of points in memory, kept in the order of their timestamps, and
    written as a whole to the storage engine after every point.  A value is
    the bits of its [f64].  The text of the points (serde_json), the reading
    of it, and the sum of floats are parameters. *)

From stdpp Require Import base strings gmap list numbers sorting.
From Stdlib Require Import ZArith Lia SpecFloat.
From S2P Require Import Prelude Text Float Rust Btree.
From stdpp Require Import list.

#[local] Open Scope Z_scope.

Module Tsdb.

Record DataPoint := mkPoint { timestamp : Z; value : Z; labels : gmap string string }.

Record RetentionPolicy := mkPolicy { max_age_secs : Z; max_points : Z }.

Record Series := mkSeries { name : string; points : list DataPoint; retention : option RetentionPolicy }.

Record TimeRange := mkRange { start : Z; end_ : Z }.

Inductive Aggregation := Sum | Avg | Min | Max | Count | Last.

Record QueryResult := mkResult {
  result_name : string; range : TimeRange; aggregation : Aggregation; result_value : Z; result_points : list DataPoint
}.

Record TimeSeriesDB := mkDB { storage : Btree.BTree; series : gmap string Series }.

Definition with_storage (t : Btree.BTree) (db : TimeSeriesDB) : TimeSeriesDB := mkDB t (series db).
Definition with_series (m : gmap string Series) (db : TimeSeriesDB) : TimeSeriesDB := mkDB (storage db) m.

Definition new (t : Btree.BTree) : TimeSeriesDB := mkDB t ∅.

Section Tsdb.
Context (to_json : list DataPoint -> list byte) (from_json : list byte -> option (list DataPoint)) (sum : list Z -> Z).
Context (from_utf8_lossy : list byte -> string).

(** The depth of the tree the storage engine may walk. *)
Context (fuel : nat).

(** [Vec::sort_by_key] is stable: by insertion, an element after those of the
    same timestamp that come before it. *)
Fixpoint insert_point (p : DataPoint) (l : list DataPoint) : list DataPoint :=
  match l with
  | [] => [p]
  | q :: l => if timestamp p <? timestamp q then p :: q :: l else q :: insert_point p l
  end.

Definition sort_points (l : list DataPoint) : list DataPoint := foldl (fun l p => insert_point p l) [] l.

(** [&key[9..]], which panics if there is less: the prefix has eight bytes. *)
Fixpoint load_series (found : list (list byte * list byte)) (db : TimeSeriesDB) : result unit * TimeSeriesDB :=
  match found with
  | [] => (Ok tt, db)
  | (key, v) :: found =>
      if decide (9 <= length key)%nat then
        let n := from_utf8_lossy (drop 9 key) in
        load_series found (with_series (<[n := mkSeries n (default [] (from_json v)) None]> (series db)) db)
      else (Panicked, db)
  end.

Definition init : op_on TimeSeriesDB unit :=
  found ← within storage with_storage (Btree.scan fuel (bytes_of "ts:meta:") (bytes_of "ts:meta:" ++ [byte_of 255]));
  (load_series found : op_on TimeSeriesDB unit).

(** The seconds in milliseconds overflow a [u64]: [None]. *)
Definition cutoff (ts : Z) (policy : RetentionPolicy) : option Z :=
  if 2 ^ 64 <=? max_age_secs policy * 1000 then None else Some (Z.max 0 (ts - max_age_secs policy * 1000)).

Definition series_of (n : string) (db : TimeSeriesDB) : Series := default (mkSeries n [] None) (series db !! n).

(** The points after a new one; [None]: a panic, the point has been added. *)
Definition added (p : DataPoint) (s : Series) : list DataPoint * bool :=
  let l := sort_points (points s ++ [p]) in
  match retention s with
  | None => (l, true)
  | Some policy =>
      match cutoff (timestamp p) policy with
      | Some c => (List.filter (fun q => c <=? timestamp q) l, true)
      | None => (l, false)
      end
  end.

Definition add (n : string) (p : DataPoint) : op_on TimeSeriesDB unit := fun db =>
  let s := series_of n db in
  let '(l, fine) := added p s in
  let db := with_series (<[n := mkSeries (name s) l (retention s)]> (series db)) db in
  if fine then within storage with_storage (Btree.put fuel (bytes_of ("ts:meta:" +:+ n)) (to_json l)) db
  else (Panicked, db).

Definition set_retention (n : string) (policy : RetentionPolicy) (db : TimeSeriesDB) : result unit * TimeSeriesDB :=
  match series db !! n with
  | None => (Err ("series '" +:+ n +:+ "' not found"), db)
  | Some s => (Ok tt, with_series (<[n := mkSeries (name s) (points s) (Some policy)]> (series db)) db)
  end.

(** [f64::min] and [f64::max]: a NaN gives way to the other number. *)
Definition min (a b : Z) : Z := if F64.lt b a || negb (F64.eq a a) then b else a.
Definition max (a b : Z) : Z := if F64.lt a b || negb (F64.eq a a) then b else a.

Definition INFINITY : Z := 2047 * 2 ^ 52.
Definition NEG_INFINITY : Z := 2 ^ 63 + 2047 * 2 ^ 52.

Definition div (a b : Z) : Z := F64.to_bits (SFdiv F64.prec F64.emax (F64.of_bits a) (F64.of_bits b)).

Definition aggregate (a : Aggregation) (l : list Z) : Z :=
  match a with
  | Sum => sum l
  | Avg => match l with [] => 0 | _ => div (sum l) (F64.of_int (Z.of_nat (length l))) end
  | Min => foldl min INFINITY l
  | Max => foldl max NEG_INFINITY l
  | Count => F64.of_int (Z.of_nat (length l))
  | Last => default 0 (last l)
  end.

Definition inside (r : TimeRange) (p : DataPoint) : bool := (start r <=? timestamp p) && (timestamp p <=? end_ r).

Definition query (n : string) (r : TimeRange) (a : Aggregation) (db : TimeSeriesDB) : result QueryResult :=
  match series db !! n with
  | None => Err ("series '" +:+ n +:+ "' not found")
  | Some s =>
      let l := List.filter (inside r) (points s) in
      Ok (mkResult n r a (aggregate a (value <$> l)) l)
  end.

Definition list_series (db : TimeSeriesDB) : list string := (map_to_list (series db)).*1.
Definition point_count (n : string) (db : TimeSeriesDB) : nat :=
  match series db !! n with Some s => length (points s) | None => O end.
Definition total_points (db : TimeSeriesDB) : nat := sum_list ((fun ns => length (points ns.2)) <$> map_to_list (series db)).

(** ** Series stay in order *)

Definition earlier (p q : DataPoint) : Prop := timestamp p <= timestamp q.

Lemma insert_point_perm p l : insert_point p l ≡ₚ p :: l.
Proof. induction l as [|q l IH]; [done|]. cbn. case_match; [done|]. rewrite IH. apply Permutation_swap. Qed.

Lemma insert_point_sorted p l : StronglySorted earlier l -> StronglySorted earlier (insert_point p l).
Proof.
  induction 1 as [|q l Hs IH Hq]; [repeat constructor|]. cbn. destruct (Z.ltb_spec (timestamp p) (timestamp q)).
  - constructor; [by constructor|]. constructor; [unfold earlier; lia|]. eapply Forall_impl; [exact Hq|]. unfold earlier. lia.
  - constructor; [done|]. rewrite insert_point_perm. by constructor.
Qed.

Lemma foldl_insert_sorted l acc : StronglySorted earlier acc -> StronglySorted earlier (foldl (fun l p => insert_point p l) acc l).
Proof. revert acc. induction l as [|p l IH]; intros acc Hs; [done|]. by apply IH, insert_point_sorted. Qed.

Lemma foldl_insert_perm l acc : foldl (fun l p => insert_point p l) acc l ≡ₚ l ++ acc.
Proof.
  revert acc. induction l as [|p l IH]; intros acc; [done|]. cbn. rewrite IH, insert_point_perm.
  by rewrite Permutation_middle.
Qed.

Lemma sort_points_sorted l : StronglySorted earlier (sort_points l).
Proof. apply foldl_insert_sorted. constructor. Qed.

Lemma sort_points_perm l : sort_points l ≡ₚ l.
Proof. unfold sort_points. by rewrite foldl_insert_perm, app_nil_r. Qed.

Lemma filter_sorted (f : DataPoint -> bool) l : StronglySorted earlier l -> StronglySorted earlier (List.filter f l).
Proof.
  induction 1 as [|p l Hs IH Hp]; [constructor|]. cbn. destruct (f p); [|done]. constructor; [done|].
  rewrite Forall_forall in *. intros q Hq. apply Hp. apply list_elem_of_In in Hq. apply filter_In in Hq as [Hq _].
  by apply list_elem_of_In.
Qed.

Definition ordered (db : TimeSeriesDB) : Prop := map_Forall (fun _ s => StronglySorted earlier (points s)) (series db).

Lemma series_of_ordered n db : ordered db -> StronglySorted earlier (points (series_of n db)).
Proof.
  intros Ho. unfold series_of. destruct (series db !! n) as [s|] eqn:E; [by apply (Ho n s)|constructor].
Qed.

Lemma added_ordered p s : StronglySorted earlier (added p s).1.
Proof. unfold added. repeat case_match; try apply filter_sorted; apply sort_points_sorted. Qed.

(** Series stay in the order of time, whatever becomes of the write to the
    storage: an error, a panic or a recursion without end.  A point is added
    to the points that were there, without a retention policy to exactly
    those. *)
Theorem series_stay_ordered n p db :
  ordered db ->
  let db' := (add n p db).2 in
  ordered db' /\ (forall n', n' <> n -> series db' !! n' = series db !! n') /\
  exists s, series db' !! n = Some s /\
    (retention (series_of n db) = None -> points s ≡ₚ points (series_of n db) ++ [p]) /\
    (forall q, q ∈ points s -> q ∈ points (series_of n db) ++ [p]).
Proof.
  intros Ho. unfold add. pose proof (added_ordered p (series_of n db)) as Hs.
  assert (Hperm : (retention (series_of n db) = None -> (added p (series_of n db)).1 ≡ₚ points (series_of n db) ++ [p]) /\
    (forall q, q ∈ (added p (series_of n db)).1 -> q ∈ points (series_of n db) ++ [p])).
  { unfold added. split; [intros ->; apply sort_points_perm|].
    intros q. repeat case_match; cbn [fst]; rewrite ?list_elem_of_In, ?filter_In, <- ?list_elem_of_In, sort_points_perm; tauto. }
  destruct (added p (series_of n db)) as [l fine] eqn:Ea. cbn [fst] in *.
  set (db1 := with_series _ db).
  assert (Hser : series ((if fine then within storage with_storage (Btree.put fuel (bytes_of ("ts:meta:" +:+ n)) (to_json l)) db1
                    else (Panicked, db1)).2) = <[n := mkSeries (name (series_of n db)) l (retention (series_of n db))]> (series db)).
  { destruct fine; [|done]. unfold within. by destruct (Btree.put _ _ _ _). }
  cbn zeta. unfold ordered. rewrite Hser. split_and!.
  - by apply map_Forall_insert_2.
  - intros n' Hne. by rewrite lookup_insert_ne.
  - eexists. rewrite lookup_insert_eq. split; [done|]. exact Hperm.
Qed.

(** A query returns the points of the series inside the range, in order. *)
Lemma query_points n r a db s :
  ordered db -> series db !! n = Some s ->
  exists q, query n r a db = Ok q /\ StronglySorted earlier (result_points q) /\
  (forall p, p ∈ result_points q <-> p ∈ points s /\ start r <= timestamp p <= end_ r).
Proof.
  intros Ho E. unfold query. rewrite E. eexists. split; [done|]. cbn [result_points]. split.
  - apply filter_sorted. by apply (Ho n s).
  - intros p. rewrite list_elem_of_In, filter_In, <- list_elem_of_In. unfold inside. rewrite andb_true_iff, !Z.leb_le. done.
Qed.

End Tsdb.

(** On a storage engine started without a database the first point of any
    series is stored, and adding a second one panics. *)
Theorem second_point_panics to_json log fuel n p n' p' :
  exists t, Btree.init (Btree.new None log) = (Ok tt, t) /\
  let '(r, db) := add to_json (S fuel) n p (new t) in
  r = Ok tt /\ (add to_json (S fuel) n' p' db).1 = Panicked.
Proof.
  destruct (Btree.storage_stuck_after_put log (bytes_of ("ts:meta:" +:+ n)) (to_json (sort_points [p])))
    as (t1 & t2 & Hi & _ & _ & Hput & Hstuck).
  exists t1. split; [exact Hi|]. unfold add at 1. unfold series_of, added, new. cbn [series default].
  rewrite lookup_empty. unfold default. cbn [points retention app]. unfold within. cbn [with_series storage]. rewrite Hput. split; [done|].
  unfold add. destruct (added p' _) as [l fine]. destruct fine; [|done]. unfold within. cbn [with_series with_storage storage].
  destruct (Hstuck fuel (bytes_of ("ts:meta:" +:+ n')) (to_json l) []) as (_ & Hp & _).
  destruct (Btree.put _ _ _ t2) as [r t3]. exact Hp.
Qed.

End Tsdb.
