(* ===== verification/ZSet.v ===== *)
(** * Sorted sets: [redisdb/src/zset/mod.rs]

    A set keeps the score of each name in a map and the entries in a vector in
    the order of score and name, where binary searches find their place.  A
    score is the bits of its [f64]. *)

From stdpp Require Import base strings gmap list numbers sorting.
From Stdlib Require Import ZArith Lia.
From S2P Require Import Prelude Float.
From stdpp Require Import list.

#[local] Open Scope Z_scope.

Module ZSet.

(** *** [slice::binary_search_by] *)

Section BinarySearch.
Context {A : Type} (f : A -> comparison).

(** The loop, which halves [size] until it is 1. *)
Fixpoint search_loop (fuel : nat) (l : list A) (base size : nat) : nat :=
  match fuel with
  | O => base
  | S fuel =>
      if (size <=? 1)%nat then base
      else
        let half := (size / 2)%nat in
        let mid := (base + half)%nat in
        let base := match l !! mid with Some x => if decide (f x = Gt) then base else mid | None => base end in
        search_loop fuel l base (size - half)
  end.

(** [inl i]: [Ok(i)]; [inr i]: [Err(i)]. *)
Definition binary_search_by (l : list A) : nat + nat :=
  match l !! search_loop (length l) l 0 (length l) with
  | None => inr 0%nat
  | Some x =>
      let base := search_loop (length l) l 0 (length l) in
      match f x with Eq => inl base | Lt => inr (S base) | Gt => inr base end
  end.

End BinarySearch.

Record Entry := mkEntry { name : string; score : Z }.

Definition less (a b : Entry) : bool :=
  if negb (F64.eq (score a) (score b)) then F64.lt (score a) (score b) else String.ltb (name a) (name b).

Record ZSet := mkZSet { by_name : gmap string Z; sorted : list Entry }.

Definition new : ZSet := mkZSet ∅ [].

Definition len (z : ZSet) : nat := length (sorted z).

(** The closure of the searches: never [Equal]. *)
Definition probe_less (e probe : Entry) : comparison := if less probe e then Lt else Gt.

(** [Ok(i) | Err(i) => i]. *)
Definition place (e : Entry) (l : list Entry) : nat :=
  match binary_search_by (probe_less e) l with inl i | inr i => i end.

Definition remove (n : string) (z : ZSet) : bool * ZSet :=
  match by_name z !! n with
  | Some s =>
      let l := sorted z in
      let l := match binary_search_by (probe_less (mkEntry n s)) l with
               | inl i => match l !! i with
                          | Some e => if decide (name e = n) then take i l ++ drop (S i) l else l
                          | None => l
                          end
               | inr _ => l
               end in
      (true, mkZSet (delete n (by_name z)) l)
  | None => (false, z)
  end.

Definition insert (n : string) (s : Z) (z : ZSet) : ZSet :=
  let e := mkEntry n s in
  let i := place e (sorted z) in
  mkZSet (<[n := s]> (by_name z)) (take i (sorted z) ++ e :: drop i (sorted z)).

Definition add (n : string) (s : Z) (z : ZSet) : bool * ZSet :=
  match by_name z !! n with
  | Some old => if F64.close old s then (false, z) else (true, insert n s (remove n z).2)
  | None => (true, insert n s z)
  end.

Definition get_score (n : string) (z : ZSet) : option Z := by_name z !! n.

(** [None]: [pos + limit] overflows a [usize], which panics. *)
Definition query (min_score : Z) (min_name : string) (offset limit : Z) (z : ZSet) : option (list Entry) :=
  if limit <=? 0 then Some []
  else
    let pos := Z.of_nat (place (mkEntry min_name min_score) (sorted z)) in
    let pos := Z.max 0 (Z.min (pos + offset) (2 ^ 64 - 1)) in
    if 2 ^ 64 <=? pos + limit then None
    else
      let end_ := Z.min (pos + limit) (Z.of_nat (length (sorted z))) in
      if end_ <=? pos then Some [] else Some (take (Z.to_nat (end_ - pos)) (drop (Z.to_nat pos) (sorted z))).

(** ** The search *)

(** On a slice cut in two by the closure, the search finds the cut. *)
Lemma search_loop_cut {A} (f : A -> comparison) (l : list A) (k : nat) :
  (k <= length l)%nat -> (forall i x, l !! i = Some x -> f x = if decide (i < k)%nat then Lt else Gt) ->
  forall fuel base size, (size <= fuel)%nat -> (1 <= size)%nat -> (base + size <= length l)%nat ->
  (base <= k <= base + size)%nat ->
  let b := search_loop f fuel l base size in (b < length l)%nat /\ (b <= k <= S b)%nat.
Proof.
  intros Hk Hf. induction fuel as [|fuel IH]; intros base size Hfuel Hsize Hlen Hb; [lia|]. cbn [search_loop].
  destruct (Nat.leb_spec size 1); [cbn; lia|]. cbn zeta.
  pose proof (Nat.div_mod size 2 ltac:(lia)). pose proof (Nat.mod_upper_bound size 2 ltac:(lia)).
  set (half := (size / 2)%nat) in *.
  destruct (l !! (base + half)%nat) as [x|] eqn:E; [|apply lookup_ge_None in E; lia].
  rewrite (Hf _ _ E). destruct (decide (base + half < k)%nat).
  - destruct (decide (Lt = Gt)); [done|]. apply IH; lia.
  - destruct (decide (Gt = Gt)); [|done]. apply IH; lia.
Qed.

Lemma search_cut {A} (f : A -> comparison) (l1 l2 : list A) :
  Forall (fun x => f x = Lt) l1 -> Forall (fun x => f x = Gt) l2 -> binary_search_by f (l1 ++ l2) = inr (length l1).
Proof.
  intros H1 H2. set (l := l1 ++ l2).
  assert (Hf : forall i x, l !! i = Some x -> f x = if decide (i < length l1)%nat then Lt else Gt).
  { intros i x Hx. apply lookup_app_Some in Hx as [Hx|[Hle Hx]].
    - rewrite decide_True by (by eapply lookup_lt_Some). rewrite Forall_forall in H1. apply H1.
      by eapply list_elem_of_lookup_2.
    - rewrite decide_False by lia. rewrite Forall_forall in H2. apply H2. by eapply list_elem_of_lookup_2. }
  unfold binary_search_by. destruct (decide (l = [])) as [En|Hn].
  - rewrite En. cbn. apply app_eq_nil in En as [-> _]. done.
  - assert (1 <= length l)%nat by (destruct l; [done|cbn; lia]).
    assert (length l1 <= length l)%nat by (unfold l; rewrite length_app; lia).
    destruct (search_loop_cut f l (length l1) ltac:(done) Hf (length l) 0 (length l)) as [Hb Hk]; try lia.
    destruct (lookup_lt_is_Some_2 _ _ Hb) as [x Hx]. rewrite Hx, (Hf _ _ Hx).
    case_decide; f_equal; lia.
Qed.

(** ** The order of entries *)

Definition sound (e : Entry) : Prop := F64.number (score e).

Definition precedes (a b : Entry) : Prop :=
  F64.key (score a) < F64.key (score b) \/
  F64.key (score a) = F64.key (score b) /\ String.leb (name a) (name b) = true.

#[local] Instance precedes_trans : Transitive precedes.
Proof.
  intros a b c [H1|[E1 H1]] [H2|[E2 H2]]; unfold precedes; try (left; lia). right. split; [lia|].
  enough (String.le (name a) (name c)) by (by apply Is_true_eq_true).
  trans (name b); by apply Is_true_eq_left.
Qed.

Lemma ltb_leb x y : String.ltb x y = negb (String.leb y x).
Proof.
  unfold String.ltb, String.leb. rewrite (String.compare_antisym x y). by destruct (String.compare y x).
Qed.

Lemma less_precedes a b : sound a -> sound b -> less a b = false <-> precedes b a.
Proof.
  intros Ha Hb. unfold less, precedes. rewrite F64.eq_key, F64.lt_key by done.
  destruct (Z.eqb_spec (F64.key (score a)) (F64.key (score b))) as [E|E]; cbn [negb].
  - rewrite ltb_leb, negb_false_iff. split; [intros Hl; by right|]. intros [?|[_ ?]]; [lia|done].
  - destruct (Z.ltb_spec (F64.key (score a)) (F64.key (score b))); split; try done; lia.
Qed.

Lemma less_true_precedes a b : sound a -> sound b -> less a b = true -> precedes a b.
Proof.
  intros Ha Hb Hl. unfold less in Hl. rewrite F64.eq_key, F64.lt_key in Hl by done. unfold precedes.
  destruct (Z.eqb_spec (F64.key (score a)) (F64.key (score b))) as [E|E]; cbn [negb] in Hl; [|left; by apply Z.ltb_lt].
  right. split; [done|]. unfold String.ltb in Hl. unfold String.leb. by destruct (String.compare _ _).
Qed.

(** A sorted vector is cut in two by an entry. *)
Lemma cut_at e l : sound e -> Forall sound l -> StronglySorted precedes l ->
  exists l1 l2, l = l1 ++ l2 /\ Forall (fun x => less x e = true) l1 /\ Forall (fun x => less x e = false) l2.
Proof.
  intros He Hl Hs. induction Hs as [|x l Hs IH Hx]; [by exists [], []|].
  apply Forall_cons_1 in Hl as [Hsx Hl]. destruct (less x e) eqn:E.
  - destruct (IH Hl) as (l1 & l2 & -> & H1 & H2). exists (x :: l1), l2. by split_and!; [|constructor|].
  - exists [], (x :: l). split_and!; [done|done|]. constructor; [done|].
    apply less_precedes in E; [|done|done]. rewrite Forall_forall in *. intros y Hy.
    apply less_precedes; [by apply Hl|done|]. etrans; [exact E|]. by apply Hx.
Qed.

Lemma place_cut e l1 l2 :
  Forall (fun x => less x e = true) l1 -> Forall (fun x => less x e = false) l2 ->
  binary_search_by (probe_less e) (l1 ++ l2) = inr (length l1).
Proof.
  intros H1 H2. apply search_cut; eapply Forall_impl; [exact H1| |exact H2|]; unfold probe_less; by intros x ->.
Qed.

(** The place of an entry is the number of entries before it. *)
Lemma place_count e l : sound e -> Forall sound l -> StronglySorted precedes l ->
  place e l = length (List.filter (fun x => less x e) l).
Proof.
  intros He Hl Hs. destruct (cut_at e l He Hl Hs) as (l1 & l2 & -> & H1 & H2).
  unfold place. rewrite place_cut by done. rewrite List.filter_app, length_app. clear Hl Hs.
  assert (List.filter (fun x => less x e) l1 = l1) as ->.
  { induction H1 as [|x l1 Hx _ IH]; [done|]. cbn. by rewrite Hx, IH. }
  assert (List.filter (fun x => less x e) l2 = []) as ->; [|cbn; lia].
  induction H2 as [|x l2 Hx _ IH]; [done|]. cbn. by rewrite Hx.
Qed.

Lemma sorted_insert e l1 l2 : StronglySorted precedes (l1 ++ l2) ->
  Forall (fun x => precedes x e) l1 -> Forall (precedes e) l2 -> StronglySorted precedes (l1 ++ e :: l2).
Proof.
  intros Hs H1 H2. induction H1 as [|x l1 Hx _ IH]; cbn in *; [by constructor|].
  apply StronglySorted_inv in Hs as [Hs Hall]. constructor; [by apply IH|].
  apply Forall_app in Hall as [Ha Hb]. apply Forall_app. split; [done|]. by constructor.
Qed.

(** ** The set as a history *)

(** The scores by name, and every entry ever added, in any order. *)
Record ranking := mkRanking { scores : gmap string Z; added : list Entry }.

Definition rank_add (n : string) (s : Z) (r : ranking) : bool * ranking :=
  match scores r !! n with
  | Some old => if F64.close old s then (false, r)
                else (true, mkRanking (<[n := s]> (scores r)) (mkEntry n s :: added r))
  | None => (true, mkRanking (<[n := s]> (scores r)) (mkEntry n s :: added r))
  end.

Definition rank_remove (n : string) (r : ranking) : bool * ranking :=
  (bool_decide (is_Some (scores r !! n)), mkRanking (delete n (scores r)) (added r)).

Inductive call := Add (n : string) (s : Z) | Remove (n : string).

Definition call_sound (c : call) : Prop := match c with Add _ s => F64.number s | Remove _ => True end.

Definition exec (c : call) (z : ZSet) : bool * ZSet :=
  match c with Add n s => add n s z | Remove n => remove n z end.

Definition rank (c : call) (r : ranking) : bool * ranking :=
  match c with Add n s => rank_add n s r | Remove n => rank_remove n r end.

Fixpoint execs (cs : list call) (z : ZSet) : list bool * ZSet :=
  match cs with
  | [] => ([], z)
  | c :: cs => let '(b, z) := exec c z in let '(bs, z) := execs cs z in (b :: bs, z)
  end.

Fixpoint ranks (cs : list call) (r : ranking) : list bool * ranking :=
  match cs with
  | [] => ([], r)
  | c :: cs => let '(b, r) := rank c r in let '(bs, r) := ranks cs r in (b :: bs, r)
  end.

Record represents (z : ZSet) (r : ranking) : Prop := {
  rep_scores : by_name z = scores r;
  rep_added : sorted z ≡ₚ added r;
  rep_sorted : StronglySorted precedes (sorted z);
  rep_sound : Forall sound (sorted z);
  rep_numbers : map_Forall (fun _ s => F64.number s) (scores r)
}.

Lemma insert_represents n s z r m : represents z r -> F64.number s -> m = by_name z \/ m = delete n (by_name z) ->
  represents (insert n s (mkZSet m (sorted z))) (mkRanking (<[n := s]> (scores r)) (mkEntry n s :: added r)).
Proof.
  intros [R1 R2 R3 R4 R5] Hs Hm. set (e := mkEntry n s).
  destruct (cut_at e (sorted z) Hs R4 R3) as (l1 & l2 & El & H1 & H2).
  assert (Ep : place e (sorted z) = length l1) by (unfold place; rewrite El, place_cut by done; done).
  unfold insert. cbn [sorted by_name]. fold e. rewrite Ep, El, take_app_length, drop_app_length.
  rewrite El in R3, R4. pose proof R4 as [S1 S2]%Forall_app.
  split; cbn [by_name sorted scores added].
  - rewrite <- R1. destruct Hm as [-> | ->]; [done|]. by rewrite insert_delete_eq.
  - rewrite <- R2, El. by rewrite Permutation_middle.
  - apply sorted_insert; [done| |].
    + apply Forall_forall. intros x Hx. rewrite Forall_forall in H1, S1. apply less_true_precedes; auto.
    + apply Forall_forall. intros x Hx. rewrite Forall_forall in H2, S2. apply less_precedes; auto.
  - apply Forall_app. split; [done|]. by constructor.
  - by apply map_Forall_insert_2.
Qed.

(** Removing a name leaves the vector as it is. *)
Lemma remove_vector n z r : represents z r -> sorted (remove n z).2 = sorted z.
Proof.
  intros [R1 _ R3 R4 R5]. unfold remove. destruct (by_name z !! n) as [s|] eqn:E; [|done]. cbn [snd sorted].
  destruct (cut_at (mkEntry n s) (sorted z)) as (l1 & l2 & -> & H1 & H2); [|done|done|by rewrite place_cut].
  apply (R5 n). by rewrite <- R1.
Qed.

Lemma exec_represents c z r : call_sound c -> represents z r ->
  (exec c z).1 = (rank c r).1 /\ represents (exec c z).2 (rank c r).2.
Proof.
  intros Hc R. destruct c as [n s|n]; cbn [exec rank call_sound] in *.
  - unfold add, rank_add. rewrite <- (rep_scores z r R). destruct (by_name z !! n) as [old|] eqn:E.
    + destruct (F64.close old s); [done|]. split; [done|]. cbn [snd].
      rewrite (rep_scores z r R). pose proof (remove_vector n z r R) as Ev. unfold remove in *. rewrite E in *.
      cbn [snd sorted] in *. rewrite Ev. apply insert_represents; auto.
    + split; [done|]. cbn [snd]. rewrite (rep_scores z r R). destruct z as [m l]. apply (insert_represents n s (mkZSet m l)); auto.
  - split.
    + unfold remove, rank_remove. rewrite <- (rep_scores z r R). by destruct (by_name z !! n).
    + pose proof (remove_vector n z r R) as Ev. destruct R as [R1 R2 R3 R4 R5].
      split; rewrite ?Ev; cbn [rank_remove snd scores added]; try done.
      * rewrite <- R1. unfold remove. destruct (by_name z !! n) eqn:E; cbn; [done|]. by rewrite delete_id.
      * by apply map_Forall_delete.
Qed.

Lemma execs_represent cs z r : Forall call_sound cs -> represents z r ->
  (execs cs z).1 = (ranks cs r).1 /\ represents (execs cs z).2 (ranks cs r).2.
Proof.
  intros Hc. revert z r. induction Hc as [|c cs Hc _ IH]; intros z r R; [done|]. cbn [execs ranks].
  destruct (exec_represents c z r Hc R) as [Eb R1]. destruct (exec c z) as [b z1], (rank c r) as [b' r1].
  cbn [fst snd] in *. destruct (IH z1 r1 R1) as [Ebs R2].
  destruct (execs cs z1), (ranks cs r1). cbn [fst snd] in *. split; [by rewrite Eb, Ebs|done].
Qed.


(** ** Witness *)


End ZSet.
