(* ===== verification/Store.v ===== *)
(** * The server's store: [redisdb/src/store/mod.rs]

    The keys the server keeps, with their values and expiry times, and the
    operations the handler calls on strings, lists, sorted sets and bits.  An
    operation takes the lock on the whole map, so it is one step.  Arithmetic
    overflow and a shift by too much panic, as in a debug build. *)

From stdpp Require Import base strings gmap list numbers.
From Stdlib Require Import ZArith Lia.
From S2P Require Import Prelude Text Float ZSet.

(** What the server takes from Rust's library on text: [String::from_utf8_lossy],
    [str::to_lowercase] with the identity on strings that are in lower case
    already, and the reading and printing of an [f64] (its bits). *)
Definition lower_ascii (c : byte) : bool :=
  let v := byte_val c in (v <? 128) && negb ((65 <=? v) && (v <=? 90)).

Class RustText := {
  from_utf8_lossy : list byte -> string;
  to_lowercase : string -> string;
  to_lowercase_id s : all_chars lower_ascii s = true -> to_lowercase s = s;
  parse_f64 : string -> option Z;
  print_f64 : Z -> string
}.

(** An instance: case mapping on ASCII alone, bytes taken as they are, and the
    integers among the numbers. *)
Definition lower_byte (c : byte) : byte :=
  if lower_ascii c then c else if byte_val c <? 128 then byte_of (byte_val c + 32) else c.

Fixpoint lower_string (s : string) : string :=
  match s with EmptyString => EmptyString | String c s => String (lower_byte c) (lower_string s) end.

Lemma lower_string_id s : all_chars lower_ascii s = true -> lower_string s = s.
Proof.
  induction s as [|c s IH]; intros Hs; [done|]. cbn in *. apply andb_true_iff in Hs as [Hc Hs].
  unfold lower_byte. by rewrite Hc, IH.
Qed.

Definition ascii_text : RustText :=
  {| from_utf8_lossy := string_of; to_lowercase := lower_string; to_lowercase_id := lower_string_id;
     parse_f64 := fun s => if all_chars is_digit s && negb (bool_decide (s = ""))
                           then Some (F64.of_int (read_digits 0 s).1) else None;
     print_f64 := fun b => to_string (F64.key b) |}.

Module Store.

Inductive Value :=
  | VStr (s : string)
  | VBytes (b : list byte)
  | VZSet (z : ZSet.ZSet)
  | VList (l : list string).

Record Entry := mkEntry { typ : Value; exp_at : option Z }.

(** [Inner::data]. *)
Abbreviation store := (gmap string Entry) (only parsing).

Definition expired (now : Z) (e : Entry) : bool :=
  match exp_at e with Some t => t <=? now | None => false end.

Definition len (st : store) : nat := size st.

(** The task of [new_with_expiry] keeps what has not expired. *)
Definition retain (now : Z) (st : store) : store := filter (fun ke => expired now ke.2 = false) st.

(** [get_str]: the value, and whether the key holds another type. *)
Definition get_str `{RustText} (now : Z) (key : string) (st : store) : option string * bool :=
  match st !! key with
  | Some e =>
      if expired now e then (None, false)
      else match typ e with
           | VStr s => (Some s, false)
           | VBytes b => (Some (from_utf8_lossy b), false)
           | _ => (None, true)
           end
  | None => (None, false)
  end.

Definition set_str (key val : string) (st : store) : store := <[key := mkEntry (VStr val) None]> st.

Definition del (key : string) (st : store) : bool * store :=
  (bool_decide (is_Some (st !! key)), delete key st).

Definition keys (now : Z) (st : store) : list string :=
  (List.filter (fun ke => negb (expired now ke.2)) (map_to_list st)).*1.

(** *** Lists *)

Definition lpush (key val : string) (st : store) : store :=
  match st !! key with
  | Some e => match typ e with
              | VList l => <[key := mkEntry (VList (val :: l)) (exp_at e)]> st
              | _ => st
              end
  | None => <[key := mkEntry (VList [val]) None]> st
  end.

(** [lpush_all]: the values go before the list, in their order. *)
Definition lpush_all (key : string) (vals : list string) (st : store) : store :=
  match st !! key with
  | Some e => match typ e with
              | VList l => <[key := mkEntry (VList (vals ++ l)) (exp_at e)]> st
              | _ => st
              end
  | None => <[key := mkEntry (VList vals) None]> st
  end.

(** [Vec::pop]. *)
Definition pop_last (l : list string) : option (string * list string) :=
  match reverse l with v :: r => Some (v, reverse r) | [] => None end.

Definition rpop (key : string) (st : store) : option string * store :=
  match st !! key with
  | Some e => match typ e with
              | VList l =>
                  match pop_last l with
                  | Some (v, l) => (Some v, <[key := mkEntry (VList l) (exp_at e)]> st)
                  | None => (None, st)
                  end
              | _ => (None, st)
              end
  | None => (None, st)
  end.

Definition lpop (key : string) (st : store) : option string * store :=
  match st !! key with
  | Some e => match typ e with
              | VList (v :: l) => (Some v, <[key := mkEntry (VList l) (exp_at e)]> st)
              | _ => (None, st)
              end
  | None => (None, st)
  end.

(** The elements of the list under a key; none for another type. *)
Definition list_at (key : string) (st : store) : option (list string) :=
  match st !! key with
  | Some e => match typ e with VList l => Some l | _ => None end
  | None => None
  end.

(** [lrange]; [None]: a panic.  [stop + 1] overflows for the greatest [i64]:
    the addition panics, or wraps to an index past the end. *)
Definition lrange (key : string) (start stop : Z) (st : store) : option (list string) :=
  match list_at key st with
  | Some l =>
      let len := Z.of_nat (length l) in
      let s := if start <? 0 then Z.max (len + start) 0 else start in
      if stop =? 2 ^ 63 - 1 then None
      else
        let e := if stop <? 0 then Z.max (len + stop + 1) 0 else Z.min (stop + 1) len in
        if e <=? s then Some []
        else Some (take (Z.to_nat e - Z.to_nat s) (drop (Z.to_nat s) l))
  | None => Some []
  end.

Definition lindex (key : string) (idx : Z) (st : store) : option string :=
  match list_at key st with
  | Some l =>
      let i := if idx <? 0 then Z.of_nat (length l) + idx else idx in
      if 0 <=? i then l !! Z.to_nat i else None
  | None => None
  end.

(** [llen]: -1 for another type. *)
Definition llen (key : string) (st : store) : Z :=
  match st !! key with
  | Some e => match typ e with VList l => Z.of_nat (length l) | _ => -1 end
  | None => 0
  end.

(** *** Expiry *)

(** [expire]: a negative number of milliseconds becomes a large [u64]. *)
Definition expire (now : Z) (key : string) (ms : Z) (st : store) : bool * store :=
  match st !! key with
  | Some e => (true, <[key := mkEntry (typ e) (Some (now + u64 ms))]> st)
  | None => (false, st)
  end.

Definition ttl_ms (now : Z) (key : string) (st : store) : Z :=
  match st !! key with
  | Some e => match exp_at e with Some t => to_signed 64 (Z.max 0 (t - now)) | None => -1 end
  | None => -2
  end.

(** *** Sorted sets *)

(** The result, and whether the key holds another type. *)
Definition z_add (key name : string) (score : Z) (st : store) : (bool * bool) * store :=
  match st !! key with
  | None => ((true, false), <[key := mkEntry (VZSet (ZSet.add name score ZSet.new).2) None]> st)
  | Some e => match typ e with
              | VZSet z =>
                  let '(added, z) := ZSet.add name score z in
                  ((added, false), <[key := mkEntry (VZSet z) (exp_at e)]> st)
              | _ => ((false, true), st)
              end
  end.

Definition z_rem (key name : string) (st : store) : (bool * bool) * store :=
  match st !! key with
  | None => ((false, false), st)
  | Some e => match typ e with
              | VZSet z =>
                  let '(removed, z) := ZSet.remove name z in
                  ((removed, false), <[key := mkEntry (VZSet z) (exp_at e)]> st)
              | _ => ((false, true), st)
              end
  end.

Definition z_score (key name : string) (st : store) : option Z * bool :=
  match st !! key with
  | None => (None, false)
  | Some e => match typ e with VZSet z => (ZSet.get_score name z, false) | _ => (None, true) end
  end.

(** [None]: a panic. *)
Definition z_query (key : string) (min_score : Z) (min_name : string) (offset limit : Z) (st : store) :
    option (list ZSet.Entry * bool) :=
  match st !! key with
  | None => Some ([], false)
  | Some e => match typ e with
              | VZSet z => (fun l => (l, false)) <$> ZSet.query min_score min_name offset limit z
              | _ => Some ([], true)
              end
  end.

(** *** Removal from a list *)

(** The [retain] of a positive [count]. *)
Fixpoint lrem_first (removed count : Z) (val : string) (l : list string) : Z * list string :=
  match l with
  | [] => (removed, [])
  | v :: l =>
      if bool_decide (v = val) && (removed <? count) then lrem_first (removed + 1) count val l
      else let '(n, l) := lrem_first removed count val l in (n, v :: l)
  end.

(** The loop of a negative one, [i] going down. *)
Fixpoint lrem_last (i : nat) (removed abs_count : Z) (val : string) (l : list string) : Z * list string :=
  match i with
  | O => (removed, l)
  | S i =>
      if removed <? abs_count then
        match l !! i with
        | Some v => if decide (v = val) then lrem_last i (removed + 1) abs_count val (take i l ++ drop (S i) l)
                    else lrem_last i removed abs_count val l
        | None => (removed, l)
        end
      else (removed, l)
  end.

(** [None]: [-count] overflows. *)
Definition lrem (key : string) (count : Z) (val : string) (st : store) : option Z * store :=
  match st !! key with
  | Some e => match typ e with
              | VList l =>
                  if count =? - 2 ^ 63 then (None, st)
                  else
                    let '(n, l) :=
                      if count =? 0 then
                        let l' := List.filter (fun v => negb (bool_decide (v = val))) l in
                        (Z.of_nat (length l) - Z.of_nat (length l'), l')
                      else if 0 <? count then lrem_first 0 count val l
                      else lrem_last (length l) 0 (- count) val l in
                    (Some n, <[key := mkEntry (VList l) (exp_at e)]> st)
              | _ => (Some 0, st)
              end
  | None => (Some 0, st)
  end.

(** *** Bits *)

Definition set_byte (bit : Z) (on : bool) (c : byte) : byte :=
  byte_of (if on then Z.setbit (byte_val c) (bit mod 8) else Z.clearbit (byte_val c) (bit mod 8)).

(** [resize], then the bit in its byte. *)
Definition set_in (bit : Z) (on : bool) (bs : list byte) : list byte :=
  let i := Z.to_nat (bit / 8) in
  let bs := bs ++ replicate (S i - length bs) (byte_of 0) in
  alter (set_byte bit on) i bs.

Definition set_bit (key : string) (bit : Z) (on : bool) (st : store) : store :=
  match st !! key with
  | Some e => match typ e with
              | VBytes b => <[key := mkEntry (VBytes (set_in bit on b)) (exp_at e)]> st
              | VStr s => <[key := mkEntry (VBytes (set_in bit on (bytes_of s))) (exp_at e)]> st
              | _ => st
              end
  | None => <[key := mkEntry (VBytes (set_in bit on [])) None]> st
  end.

(** The bytes a reader sees: none under an expired key or another type. *)
Definition bytes_at (now : Z) (key : string) (st : store) : list byte :=
  match st !! key with
  | Some e => if expired now e then []
              else match typ e with VBytes b => b | VStr s => bytes_of s | _ => [] end
  | None => []
  end.

Definition bit_in (bit : Z) (bs : list byte) : bool :=
  match bs !! Z.to_nat (bit / 8) with Some c => Z.testbit (byte_val c) (bit mod 8) | None => false end.

Definition get_bit (now : Z) (key : string) (bit : Z) (st : store) : bool := bit_in bit (bytes_at now key st).

(** [u8::count_ones]. *)
Fixpoint count_ones (n : nat) (v : Z) : Z :=
  match n with O => 0 | S n => Z.b2z (Z.testbit v (Z.of_nat n)) + count_ones n v end.

Definition bitcount (now : Z) (key : string) (st : store) : Z :=
  foldr (fun c n => count_ones 8 (byte_val c) + n) 0 (bytes_at now key st).

(** The loop over the [width] bits, [i] of them done; [None]: [offset + i]
    overflows, or a bit is shifted out of the result. *)
Fixpoint bitfield_bits (n : nat) (i offset : Z) (bs : list byte) (result : Z) : option Z :=
  match n with
  | O => Some result
  | S n =>
      if 2 ^ 32 <=? offset + i then None
      else if bit_in (offset + i) bs then
        if 64 <=? i then None else bitfield_bits n (i + 1) offset bs (Z.lor result (Z.shiftl 1 i))
      else bitfield_bits n (i + 1) offset bs result
  end.

(** What holds no bytes is answered before the loop. *)
Definition bitfield_get (now : Z) (key : string) (offset width : Z) (st : store) : option Z :=
  match st !! key with
  | Some e => if expired now e then Some 0
              else match typ e with
                   | VBytes _ | VStr _ => bitfield_bits (Z.to_nat width) 0 offset (bytes_at now key st) 0
                   | _ => Some 0
                   end
  | None => Some 0
  end.

(** ** Lemmas *)

Lemma pop_last_snoc l v : pop_last (l ++ [v]) = Some (v, l).
Proof. unfold pop_last. by rewrite reverse_snoc, reverse_involutive. Qed.

Lemma pop_last_Some l v l' : pop_last l = Some (v, l') -> l = l' ++ [v].
Proof.
  unfold pop_last. destruct (reverse l) as [|x r] eqn:E; [done|]. intros [= -> <-].
  by rewrite <- (reverse_involutive l), E, reverse_cons.
Qed.

Lemma pop_last_None l : pop_last l = None -> l = [].
Proof.
  unfold pop_last. destruct (reverse l) as [|x r] eqn:E; [|done].
  by rewrite <- (reverse_involutive l), E.
Qed.

Lemma get_set_same `{RustText} now key val st :
  get_str now key (set_str key val st) = (Some val, false).
Proof. unfold get_str, set_str. by rewrite lookup_insert_eq. Qed.

Lemma get_set_other `{RustText} now key key' val st :
  key <> key' -> get_str now key' (set_str key val st) = get_str now key' st.
Proof. intros. unfold get_str, set_str. by rewrite lookup_insert_ne. Qed.

Lemma set_str_eq key val st : set_str key val st !! key = Some (mkEntry (VStr val) None).
Proof. unfold set_str. by rewrite lookup_insert_eq. Qed.

Lemma set_str_other key key' val st : key <> key' -> set_str key val st !! key' = st !! key'.
Proof. intros. unfold set_str. by rewrite lookup_insert_ne. Qed.

(** What a reading of a key depends on. *)
Lemma get_str_lookup `{RustText} now key st st' :
  st !! key = st' !! key -> get_str now key st = get_str now key st'.
Proof. unfold get_str. by intros ->. Qed.

Lemma list_at_lookup key st st' : st !! key = st' !! key -> list_at key st = list_at key st'.
Proof. unfold list_at. by intros ->. Qed.

Lemma lpush_other key key' val st : key <> key' -> lpush key val st !! key' = st !! key'.
Proof.
  intros Hne. unfold lpush. destruct (st !! key) as [e|]; [destruct (typ e)|]; by rewrite ?lookup_insert_ne.
Qed.

(** The whole range. *)
Lemma lrange_all key l st : list_at key st = Some l -> lrange key 0 (-1) st = Some l.
Proof.
  intros E. unfold lrange. rewrite E. cbn [Z.ltb Z.compare Z.eqb].
  change (-1 =? 2 ^ 63 - 1) with false. cbn iota.
  replace (Z.max (Z.of_nat (length l) + -1 + 1) 0) with (Z.of_nat (length l)) by lia.
  destruct (Z.leb_spec (Z.of_nat (length l)) 0).
  - by destruct l.
  - rewrite Nat2Z.id, Nat.sub_0_r, drop_0. by rewrite take_ge.
Qed.

Lemma lrange_none key st : list_at key st = None -> lrange key 0 (-1) st = Some [].
Proof. intros E. unfold lrange. by rewrite E. Qed.

Lemma list_at_lpush key val st l :
  list_at key st = Some l -> list_at key (lpush key val st) = Some (val :: l).
Proof.
  unfold list_at, lpush. destruct (st !! key) as [e|]; [|done]. destruct (typ e) eqn:E; try done.
  intros [= ->]. by rewrite lookup_insert_eq.
Qed.

Lemma list_at_lpush_new key val st :
  st !! key = None -> list_at key (lpush key val st) = Some [val].
Proof. intros E. unfold list_at, lpush. by rewrite E, lookup_insert_eq. Qed.

Lemma rpop_other key key' st : key <> key' -> (rpop key st).2 !! key' = st !! key'.
Proof.
  intros Hne. unfold rpop. destruct (st !! key) as [e|]; [|done]. destruct (typ e); try done.
  destruct (pop_last l) as [[v l']|]; [|done]. cbn. by rewrite lookup_insert_ne.
Qed.

Lemma rpop_snoc key st l v :
  list_at key st = Some (l ++ [v]) ->
  exists st', rpop key st = (Some v, st') /\ list_at key st' = Some l.
Proof.
  unfold list_at, rpop. destruct (st !! key) as [e|]; [|done]. destruct (typ e); try done.
  intros [= ->]. rewrite pop_last_snoc. eexists. split; [done|]. by rewrite lookup_insert_eq.
Qed.

(** A slice never panics except at the greatest [stop]; indices out of range
    are cut to the list. *)
Lemma lrange_defined key start stop st :
  in_i64 stop -> lrange key start stop st = None -> stop = 2 ^ 63 - 1.
Proof.
  unfold lrange, in_i64. intros Hs. destruct (list_at key st); [|done].
  destruct (Z.eqb_spec stop (2 ^ 63 - 1)); [done|]. by repeat case_match.
Qed.

End Store.
