(* ===== verification/Http.v ===== *)
(** * The HTTP endpoint: [redisdb/src/http.rs]

    One read of a connection, the first line of the request, and an answer that
    depends on its second word alone; over the statistics, the streams and the
    channels.  Nothing starts the endpoint. *)

From stdpp Require Import base strings gmap list numbers.
From Stdlib Require Import ZArith Lia.
From S2P Require Import Prelude Text Streams Rust Pubsub Plugins Store.
From stdpp Require Import list.

#[local] Open Scope Z_scope.

Module Http.

(** ** [str::lines] and [str::split_whitespace] *)

(** The text up to the first newline, and whether there is one. *)
Fixpoint upto_newline (s : string) : string * bool :=
  match s with
  | EmptyString => (EmptyString, false)
  | String c s =>
      if decide (byte_val c = 10) then (EmptyString, true)
      else let '(l, found) := upto_newline s in (String c l, found)
  end.

(** The carriage return that ends a line, if the newline follows it. *)
Fixpoint strip_return (s : string) : string :=
  match s with
  | EmptyString => EmptyString
  | String c EmptyString => if decide (byte_val c = 13) then EmptyString else s
  | String c s => String c (strip_return s)
  end.

(** [request.lines().next().unwrap_or(..)], an empty text having no line. *)
Definition first_line (s : string) : string :=
  let '(l, found) := upto_newline s in if found then strip_return l else l.

(** The length of the white space character a text starts with, 0 if it starts
    with none: [White_Space] of Unicode, in UTF-8. *)
Definition white (s : string) : nat :=
  match byte_val <$> bytes_of s with
  | a :: l =>
      if ((9 <=? a) && (a <=? 13)) || (a =? 32) then 1%nat
      else match l with
           | b :: l =>
               if (a =? 194) && ((b =? 133) || (b =? 160)) then 2%nat
               else match l with
                    | c :: _ =>
                        if ((a =? 225) && (b =? 154) && (c =? 128)) ||
                           ((a =? 226) && (b =? 128) && (((128 <=? c) && (c <=? 138)) || (c =? 168) || (c =? 169) || (c =? 175))) ||
                           ((a =? 226) && (b =? 129) && (c =? 159)) || ((a =? 227) && (b =? 128) && (c =? 128))
                        then 3%nat else 0%nat
                    | [] => 0%nat
                    end
           | [] => 0%nat
           end
  | [] => 0%nat
  end.

(** [cur] is the word being read, [skip] what is left of a white space
    character. *)
Fixpoint words (skip : nat) (cur : string) (s : string) : list string :=
  let flush := if decide (cur = "") then [] else [cur] in
  match s with
  | EmptyString => flush
  | String c s' =>
      match skip with
      | S k => words k cur s'
      | O => match white s with
             | O => words O (cur +:+ String c "") s'
             | S k => flush ++ words k "" s'
             end
      end
  end.

Definition split_whitespace (s : string) : list string := words 0 "" s.

(** ** Answers *)

Definition answer (code : Z) (status content_type body : string) : string :=
  "HTTP/1.1 " +:+ to_string code +:+ " " +:+ status +:+ CRLF +:+
  "Content-Type: " +:+ content_type +:+ CRLF +:+
  "Content-Length: " +:+ to_string (Z.of_nat (String.length body)) +:+ CRLF +:+
  "Connection: close" +:+ CRLF +:+ CRLF +:+ body.

Definition status_text (code : Z) : string :=
  if decide (code = 200) then "OK" else if decide (code = 400) then "Bad Request"
  else if decide (code = 404) then "Not Found" else "Internal Server Error".

Definition http_response (code : Z) (body : string) : string := answer code (status_text code) "text/plain" body.

Definition http_json (code : Z) (body : string) : string :=
  answer code (if decide (code = 200) then "OK" else "Not Found") "application/json" body.

(** A member of a JSON object. *)
Definition member (key : string) (v : Z) : string := DQ +:+ key +:+ DQ +:+ ":" +:+ to_string v.

Definition status_body (s : Stats.StatsSnapshot) : string :=
  "{" +:+ member "connections" (Stats.active_connections (Stats.counts s)) +:+ "," +:+
  member "commands" (Stats.total_commands (Stats.counts s)) +:+ "," +:+ member "uptime" (Stats.uptime_secs s) +:+ "}".

Definition stats_body (s : Stats.StatsSnapshot) : string :=
  "{" +:+ member "total_connections" (Stats.total_connections (Stats.counts s)) +:+ "," +:+
  member "active_connections" (Stats.active_connections (Stats.counts s)) +:+ "," +:+
  member "total_commands" (Stats.total_commands (Stats.counts s)) +:+ "," +:+
  member "last_cmds" (Z.of_nat (length (Stats.last_cmds (Stats.counts s)))) +:+ "}".

Definition metrics_body (s : Stats.StatsSnapshot) : string :=
  "# HELP redisops_connections Total connections" +:+ NL +:+
  "# TYPE redisops_connections counter" +:+ NL +:+
  "redisops_connections " +:+ to_string (Stats.total_connections (Stats.counts s)) +:+ NL +:+
  "# HELP redisops_commands_total Total commands" +:+ NL +:+
  "# TYPE redisops_commands_total counter" +:+ NL +:+
  "redisops_commands_total " +:+ to_string (Stats.total_commands (Stats.counts s)) +:+ NL.

Definition streams_body (names : list string) : string :=
  "[" +:+ Plugins.join "," ((fun s => DQ +:+ s +:+ DQ) <$> names) +:+ "]".

Section Server.
Context `{RustText} {B : Type} `{Broadcast B}.

Record HttpApi := mkHttpApi {
  pubsub : PubSub.PubSub (B := B);
  streams : gmap string Streams.Stream;
  stats : Stats.Stats
}.

Definition handle_request (request : string) (uptime : Z) (api : HttpApi) : string :=
  match split_whitespace (first_line request) with
  | _ :: path :: _ =>
      let snap := Stats.snapshot uptime (stats api) in
      if decide (path = "/health") then http_response 200 "ok"
      else if decide (path = "/status") then http_json 200 (status_body snap)
      else if decide (path = "/stats") then http_json 200 (stats_body snap)
      else if decide (path = "/pubsub/channels")
      then http_json 200 ("{" +:+ member "channels" (Z.of_nat (PubSub.channel_count (pubsub api))) +:+ "}")
      else if decide (path = "/streams") then http_json 200 (streams_body (Streams.list_streams (streams api)))
      else if decide (path = "/metrics") then http_response 200 (metrics_body snap)
      else http_response 404 "Not Found"
  | _ => http_response 400 "Bad Request"
  end.

(** A connection's task: what one [read] into 8192 bytes gave ([None] if it
    failed), and what is written. *)
Definition serve (got : option (list byte)) (uptime : Z) (api : HttpApi) : option string :=
  match got with
  | Some (b :: bs) => Some (handle_request (from_utf8_lossy (take (Z.to_nat 8192) (b :: bs))) uptime api)
  | _ => None
  end.

End Server.

(** ** The client's side *)

(** A line that ends in CRLF, and what follows it. *)
Fixpoint read_line (s : string) : option (string * string) :=
  match s with
  | EmptyString => None
  | String c s' =>
      if String.prefix CRLF s then Some (EmptyString, String.substring 2 (String.length s) s)
      else match read_line s' with Some (l, rest) => Some (String c l, rest) | None => None end
  end.

(** A header field, at its first colon and space. *)
Fixpoint split_field (s : string) : option (string * string) :=
  match s with
  | EmptyString => None
  | String c s' =>
      if String.prefix ": " s then Some (EmptyString, String.substring 2 (String.length s) s)
      else match split_field s' with Some (k, v) => Some (String c k, v) | None => None end
  end.

Fixpoint read_headers (fuel : nat) (s : string) : option (gmap string string * string) :=
  match fuel with
  | O => None
  | S fuel =>
      '(l, rest) ← read_line s;
      if decide (l = "") then Some (∅, rest)
      else '(k, v) ← split_field l; '(hs, rest) ← read_headers fuel rest; Some (<[k := v]> hs, rest)
  end.

(** The status, the content type and the body of a complete answer. *)
Definition read_answer (s : string) : option (Z * string * string) :=
  '(l, rest) ← read_line s;
  let '(code, _) := read_digits 0 (String.substring 9 (String.length l) l) in
  '(hs, body) ← read_headers (String.length s) rest;
  ct ← hs !! "Content-Type";
  len ← hs !! "Content-Length";
  if decide ((read_digits 0 len).1 = Z.of_nat (String.length body)) then Some (code, ct, body) else None.

Definition not_char (a : byte) (s : string) : Prop := all_chars (fun c => negb (bool_decide (c = a))) s = true.

Lemma not_char_cons a c s : not_char a (String c s) -> c <> a /\ not_char a s.
Proof. unfold not_char. cbn. intros [Hc Hs]%andb_true_iff. case_bool_decide; done. Qed.

Lemma read_line_here l rest : not_char (byte_of 13) l -> read_line (l +:+ (CRLF +:+ rest)) = Some (l, rest).
Proof.
  induction l as [|c l IH]; intros Hl.
  - change (read_line (EmptyString +:+ (CRLF +:+ rest))) with
      (if String.prefix CRLF (CRLF +:+ rest)
       then Some (EmptyString, String.substring 0 (S (S (String.length rest))) rest)
       else match read_line (NL +:+ rest) with Some (l, r) => Some (String (byte_of 13) l, r) | None => None end).
    rewrite Text.prefix_app, substring_ge by lia. done.
  - apply not_char_cons in Hl as [Hc Hl]. change (String c l +:+ (CRLF +:+ rest)) with (String c (l +:+ (CRLF +:+ rest))). cbn [read_line]. rewrite IH by done.
    destruct (String.prefix CRLF _) eqn:E; [|done]. by apply prefix_inv in E as [u [= -> _]].
Qed.

Lemma split_field_here k v : not_char (byte_of 58) k -> split_field (k +:+ (": " +:+ v)) = Some (k, v).
Proof.
  induction k as [|c k IH]; intros Hk.
  - change (split_field (EmptyString +:+ (": " +:+ v))) with
      (if String.prefix ": " (": " +:+ v)
       then Some (EmptyString, String.substring 0 (S (S (String.length v))) v)
       else match split_field (" " +:+ v) with Some (l, r) => Some (String (byte_of 58) l, r) | None => None end).
    rewrite Text.prefix_app, substring_ge by lia. done.
  - apply not_char_cons in Hk as [Hc Hk]. change (String c k +:+ (": " +:+ v)) with (String c (k +:+ (": " +:+ v))). cbn [split_field]. rewrite IH by done.
    destruct (String.prefix ": " _) eqn:E; [|done]. by apply prefix_inv in E as [u [= -> _]].
Qed.

Lemma read_headers_field fuel k v rest :
  not_char (byte_of 13) (k +:+ (": " +:+ v)) -> not_char (byte_of 58) k -> k <> "" ->
  read_headers (S fuel) (k +:+ (": " +:+ (v +:+ (CRLF +:+ rest)))) =
  '(hs, rest) ← read_headers fuel rest; Some (<[k := v]> hs, rest).
Proof.
  intros Hl Hk Hn. cbn [read_headers].
  replace (k +:+ (": " +:+ (v +:+ (CRLF +:+ rest)))) with ((k +:+ (": " +:+ v)) +:+ (CRLF +:+ rest))
    by (by rewrite <- !string_app_assoc).
  rewrite read_line_here by done. cbn [mbind option_bind]. rewrite decide_False by (by destruct k).
  by rewrite split_field_here.
Qed.

Lemma digits_no_return z : 0 <= z -> not_char (byte_of 13) (to_string z).
Proof.
  intros Hz. eapply all_chars_impl; [|by apply to_string_digits]. intros c Hc. by case_bool_decide; subst.
Qed.

Lemma not_char_app a s t : not_char a s -> not_char a t -> not_char a (s +:+ t).
Proof. unfold not_char. intros Hs Ht. by rewrite all_chars_app, Hs, Ht. Qed.

(** The framing: an answer is read back whole. *)
Lemma answer_read code status ct body :
  0 <= code -> not_char (byte_of 13) status -> not_char (byte_of 13) ct ->
  read_answer (answer code status ct body) = Some (code, ct, body).
Proof.
  intros Hcode Hs Hct. set (len := to_string (Z.of_nat (String.length body))).
  assert (Hlen : not_char (byte_of 13) len) by (apply digits_no_return; lia).
  assert (Hfuel : exists n, String.length (answer code status ct body) = S (S (S (S n)))).
  { unfold answer. rewrite string_length_app. cbn [String.length Nat.add]. by eexists. }
  assert (Hline : exists headers, answer code status ct body =
    ("HTTP/1.1 " +:+ (to_string code +:+ (" " +:+ status))) +:+ (CRLF +:+ headers) /\
    forall n, read_headers (S (S (S (S n)))) headers =
      Some (<["Content-Type" := ct]> (<["Content-Length" := len]> {["Connection" := "close"]}), body)).
  { eexists. split; [unfold answer; rewrite <- !string_app_assoc; reflexivity|]. intros n. fold len.
    change ("Content-Type: " +:+ ?t) with ("Content-Type" +:+ (": " +:+ t)).
    rewrite read_headers_field by (done || (apply not_char_app; [reflexivity|by apply not_char_app])).
    change ("Content-Length: " +:+ ?t) with ("Content-Length" +:+ (": " +:+ t)).
    rewrite read_headers_field by (done || (apply not_char_app; [reflexivity|by apply not_char_app])).
    change ("Connection: close" +:+ ?t) with ("Connection" +:+ (": " +:+ ("close" +:+ t))).
    rewrite read_headers_field by done.
    cbn [read_headers]. change (CRLF +:+ body) with (EmptyString +:+ (CRLF +:+ body)).
    rewrite read_line_here by done. reflexivity. }
  destruct Hfuel as [n Hfuel], Hline as (headers & E & Hh). unfold read_answer. rewrite Hfuel, E, read_line_here.
  2: { do 2 (apply not_char_app; [by (done || (by apply digits_no_return))|]). by apply not_char_app. }
  cbn [mbind option_bind]. rewrite (substring_app "HTTP/1.1 "), substring_ge by (rewrite !string_length_app; lia).
  rewrite read_digits_to_string by done. cbn [read_digits]. rewrite Hh. cbn [mbind option_bind].
  change (read_digits code (" " +:+ status)) with (code, " " +:+ status). cbn zeta iota.
  rewrite lookup_insert_eq, lookup_insert_ne, lookup_insert_eq by done. cbn [mbind option_bind].
  rewrite decide_True; [done|]. rewrite <- (string_app_nil len). unfold len. by rewrite read_digits_to_string by lia.
Qed.

(** ** What is answered *)

(** The characters of a word of a request line. *)
Definition visible (c : byte) : bool := (33 <=? byte_val c) && (byte_val c <? 127).

Lemma white_visible c s : visible c = true -> white (String c s) = 0%nat.
Proof.
  unfold visible, white. intros [H1 H2]%andb_true_iff. change (bytes_of (String c s)) with (c :: bytes_of s). cbn [fmap list_fmap].
  apply Z.leb_le in H1. apply Z.ltb_lt in H2. set (a := byte_val c) in *.
  rewrite (proj2 (Z.leb_gt a 13)), (proj2 (Z.eqb_neq a 32)), andb_false_r by lia. cbn [orb].
  destruct (byte_val <$> bytes_of s) as [|b [|d l]]; try done;
    rewrite ?(proj2 (Z.eqb_neq a 194)), ?(proj2 (Z.eqb_neq a 225)), ?(proj2 (Z.eqb_neq a 226)), ?(proj2 (Z.eqb_neq a 227)) by lia;
    done.
Qed.

Lemma words_visible w cur s : all_chars visible w = true -> words 0 cur (w +:+ s) = words 0 (cur +:+ w) s.
Proof.
  revert cur. induction w as [|c w IH]; intros cur Hw; [by rewrite string_app_nil|].
  cbn in Hw. apply andb_true_iff in Hw as [Hc Hw]. change (String c w +:+ s) with (String c (w +:+ s)). cbn [words].
  rewrite white_visible, IH by done. f_equal. by rewrite <- string_app_assoc.
Qed.

Lemma words_space w s : w <> "" -> words 0 w (" " +:+ s) = w :: words 0 "" s.
Proof.
  intros Hw. change (" " +:+ s) with (String (byte_of 32) s). cbn [words].
  assert (white (String (byte_of 32) s) = 1%nat) as -> by reflexivity. by rewrite decide_False.
Qed.

Definition one_line (s : string) : Prop := not_char (byte_of 10) s /\ not_char (byte_of 13) s.

Lemma visible_one_line s : all_chars visible s = true -> one_line s.
Proof.
  intros Hs. split; eapply all_chars_impl; try exact Hs; intros c Hc; by case_bool_decide; subst.
Qed.

Lemma upto_newline_app w x :
  not_char (byte_of 10) w -> upto_newline (w +:+ x) = (w +:+ (upto_newline x).1, (upto_newline x).2).
Proof.
  induction w as [|c w IH]; intros Hw; [apply surjective_pairing|]. apply not_char_cons in Hw as [Hc Hw].
  change (String c w +:+ x) with (String c (w +:+ x)). cbn [upto_newline]. rewrite IH, decide_False; [done| |done].
  intros E. apply Hc. rewrite <- (byte_of_val c). by rewrite E.
Qed.

Lemma strip_return_app w x : not_char (byte_of 13) w -> strip_return (w +:+ x) = w +:+ strip_return x.
Proof.
  induction w as [|c w IH]; intros Hw; [done|]. apply not_char_cons in Hw as [Hc Hw].
  change (String c w +:+ x) with (String c (w +:+ x)). change (String c w +:+ strip_return x) with (String c (w +:+ strip_return x)).
  rewrite <- IH by done. cbn [strip_return]. destruct (w +:+ x); [|done]. rewrite decide_False; [done|].
  intros E. apply Hc. rewrite <- (byte_of_val c). by rewrite E.
Qed.

Lemma first_line_app w x : one_line w -> first_line (w +:+ x) = w +:+ first_line x.
Proof.
  intros [Hn Hr]. unfold first_line. rewrite upto_newline_app by done. destruct (upto_newline x) as [l []]; cbn [fst snd]; [|done].
  by apply strip_return_app.
Qed.

(** The first two words of a request. *)
Lemma request_words method path x :
  all_chars visible method = true -> method <> "" -> all_chars visible path = true -> path <> "" ->
  split_whitespace (first_line (method +:+ (" " +:+ (path +:+ (" " +:+ x))))) =
  method :: path :: split_whitespace (first_line x).
Proof.
  intros Hm Hm0 Hp Hp0. rewrite (first_line_app method), (first_line_app " "), (first_line_app path), (first_line_app " ");
    try (by apply visible_one_line); try (by split). unfold split_whitespace.
  rewrite words_visible by done. change ("" +:+ method) with method. rewrite words_space by done. f_equal.
  rewrite words_visible by done. change ("" +:+ path) with path. by rewrite words_space.
Qed.

Section Answers.
Context `{RustText} {B : Type} `{Broadcast B}.

(** The pages of the endpoint: content type and body. *)
Definition pages (uptime : Z) (api : HttpApi (B := B)) : list (string * (string * string)) :=
  let snap := Stats.snapshot uptime (stats api) in
  [("/health", ("text/plain", "ok"));
   ("/status", ("application/json", status_body snap));
   ("/stats", ("application/json", stats_body snap));
   ("/pubsub/channels", ("application/json",
      "{" +:+ member "channels" (Z.of_nat (PubSub.channel_count (pubsub api))) +:+ "}"));
   ("/streams", ("application/json", streams_body (Streams.list_streams (streams api))));
   ("/metrics", ("text/plain", metrics_body snap))].

(** Every request gets one complete answer.  Whatever the method, the version
    and the rest of the request are: the answer to a request line is read back
    from its framing as status 200 with the page's type and body if the path is
    one of the six pages, and else as 404; a request of fewer than two words
    gets 400. *)
Theorem http_answers_every_request uptime (api : HttpApi (B := B)) :
  (forall method path x,
    all_chars visible method = true -> method <> "" -> all_chars visible path = true -> path <> "" ->
    read_answer (handle_request (method +:+ (" " +:+ (path +:+ (" " +:+ x)))) uptime api) =
    Some (match (list_to_map (pages uptime api) : gmap string _) !! path with
          | Some (ct, body) => (200, ct, body)
          | None => (404, "text/plain", "Not Found")
          end)) /\
  (forall request, (length (split_whitespace (first_line request)) < 2)%nat ->
    read_answer (handle_request request uptime api) = Some (400, "text/plain", "Bad Request")).
Proof.
  split.
  - intros method path x Hm Hm0 Hp Hp0. unfold handle_request. rewrite request_words by done.
    repeat case_decide; subst; try (apply answer_read; [lia|reflexivity|reflexivity]).
    unfold http_response. rewrite answer_read by (reflexivity || lia). unfold pages. cbn [list_to_map foldr].
    rewrite !lookup_insert_ne by done. by rewrite lookup_empty.
  - intros request Hl. unfold handle_request.
    destruct (split_whitespace _) as [|m [|path l]]; [by apply answer_read..|cbn in Hl; lia].
Qed.

End Answers.

(** The names of streams are not escaped: one stream is listed as two. *)
Lemma streams_not_escaped : streams_body ["a" +:+ DQ +:+ "," +:+ DQ +:+ "b"] = streams_body ["a"; "b"].
Proof. reflexivity. Qed.

End Http.
