(* ===== verification/Handler.v ===== *)
(** * The server's commands: [redisdb/src/handler.rs]

    Strings, lists, sorted sets, bits, expiry, the job queue, the sandbox
    registry, the metrics and the time series.  A handler awaits the store
    between its operations and other connections run in the meantime, so a
    command is a program over the atomic operations of [Store.v]; [run]
    executes it alone, [Pool.v] interleaves many.  [auth] and [config], which
    do not touch the store, are in [Auth.v]. *)

From stdpp Require Import base strings gmap list numbers.
From Stdlib Require Import ZArith Lia.
From S2P Require Import Prelude Text Float ServerProto ZSet Store.

Module Handler.

(** ** Programs over the store *)

Inductive op :=
  | GetStr (key : string)
  | SetStr (key val : string)
  | Del (key : string)
  | Keys
  | Lpush (key val : string)
  | Rpop (key : string)
  | Lpop (key : string)
  | Lrange (key : string) (start stop : Z)
  | Lindex (key : string) (idx : Z)
  | Llen (key : string)
  | Expire (key : string) (ms : Z)
  | TtlMs (key : string)
  | ZAdd (key name : string) (score : Z)
  | ZRem (key name : string)
  | ZScore (key name : string)
  | ZQuery (key : string) (min_score : Z) (min_name : string) (offset limit : Z)
  | Lrem (key : string) (count : Z) (val : string)
  | SetBit (key : string) (bit : Z) (on : bool)
  | GetBit (key : string) (bit : Z)
  | BitCount (key : string)
  | BitfieldGet (key : string) (offset width : Z)
  | Clock.                                          (**r the system's, in milliseconds *)

Definition reply (o : op) : Type :=
  match o with
  | GetStr _ => option string * bool
  | SetStr _ _ => unit
  | Del _ => bool
  | Keys => list string
  | Lpush _ _ => unit
  | Rpop _ | Lpop _ | Lindex _ _ => option string
  | Lrange _ _ _ => option (list string)
  | Llen _ => Z
  | Expire _ _ => bool
  | TtlMs _ => Z
  | ZAdd _ _ _ | ZRem _ _ => bool * bool
  | ZScore _ _ => option Z * bool
  | ZQuery _ _ _ _ _ => option (list ZSet.Entry * bool)
  | Lrem _ _ _ => option Z
  | SetBit _ _ _ => unit
  | GetBit _ _ => bool
  | BitCount _ => Z
  | BitfieldGet _ _ _ => option Z
  | Clock => Z
  end.

Definition exec `{RustText} (now : Z) (o : op) (st : Store.store) : reply o * Store.store :=
  match o with
  | GetStr key => (Store.get_str now key st, st)
  | SetStr key val => (tt, Store.set_str key val st)
  | Del key => Store.del key st
  | Keys => (Store.keys now st, st)
  | Lpush key val => (tt, Store.lpush key val st)
  | Rpop key => Store.rpop key st
  | Lpop key => Store.lpop key st
  | Lrange key start stop => (Store.lrange key start stop st, st)
  | Lindex key idx => (Store.lindex key idx st, st)
  | Llen key => (Store.llen key st, st)
  | Expire key ms => Store.expire now key ms st
  | TtlMs key => (Store.ttl_ms now key st, st)
  | ZAdd key name score => Store.z_add key name score st
  | ZRem key name => Store.z_rem key name st
  | ZScore key name => (Store.z_score key name st, st)
  | ZQuery key min_score min_name offset limit => (Store.z_query key min_score min_name offset limit st, st)
  | Lrem key count val => Store.lrem key count val st
  | SetBit key bit on => (tt, Store.set_bit key bit on st)
  | GetBit key bit => (Store.get_bit now key bit st, st)
  | BitCount key => (Store.bitcount now key st, st)
  | BitfieldGet key offset width => (Store.bitfield_get now key offset width st, st)
  | Clock => (now, st)
  end.

(** What is left of a handler: a response, a panic of its task, or an
    operation and what follows. *)
Inductive prog :=
  | Reply (r : Server.Response)
  | Panic
  | Do (o : op) (k : reply o -> prog).

(** [store.lrange(..)], whose slice may panic. *)
Definition do_lrange (key : string) (start stop : Z) (k : list string -> prog) : prog :=
  Do (Lrange key start stop) (fun vals => match vals with Some vals => k vals | None => Panic end).

(** ** Text *)

(** [s.splitn(n + 1, c)]. *)
Fixpoint split_once (c : byte) (s : string) : option (string * string) :=
  match s with
  | EmptyString => None
  | String a s =>
      if decide (a = c) then Some ("", s)
      else match split_once c s with Some (x, y) => Some (String a x, y) | None => None end
  end.

Fixpoint splitn (n : nat) (c : byte) (s : string) : list string :=
  match n with
  | O => [s]
  | S n => match split_once c s with Some (x, y) => x :: splitn n c y | None => [s] end
  end.

Definition BAR : byte := byte_of 124.

(** [str::parse::<i64>]: a sign, then digits and nothing else. *)
Definition parse_i64 (s : string) : option Z :=
  let '(neg, digits) :=
    match s with
    | String c s' => if decide (byte_val c = 45) then (true, s')
                     else if decide (byte_val c = 43) then (false, s') else (false, s)
    | EmptyString => (false, s)
    end in
  match digits with
  | EmptyString => None
  | _ =>
      if all_chars is_digit digits then
        let v := (read_digits 0 digits).1 in
        let v := if neg then - v else v in
        if decide (- 2 ^ 63 <= v < 2 ^ 63) then Some v else None
      else None
  end.

(** [str::parse] of an unsigned integer below [bound]: no minus sign. *)
Definition parse_unsigned (bound : Z) (s : string) : option Z :=
  let digits := match s with String c s' => if decide (byte_val c = 43) then s' else s | EmptyString => s end in
  match digits with
  | EmptyString => None
  | _ =>
      if all_chars is_digit digits then
        let v := (read_digits 0 digits).1 in if v <? bound then Some v else None
      else None
  end.

Definition parse_u32 : string -> option Z := parse_unsigned (2 ^ 32).
Definition parse_u64 : string -> option Z := parse_unsigned (2 ^ 64).

(** [key.strip_prefix(p)]. *)
Definition strip_prefix (p key : string) : option string :=
  if starts_with key p
  then Some (String.substring (String.length p) (String.length key - String.length p) key)
  else None.

Definition ends_with (s suffix : string) : bool :=
  (String.length suffix <=? String.length s)%nat &&
  bool_decide (String.substring (String.length s - String.length suffix) (String.length suffix) s = suffix).

(** ** Replies *)

Definition ERR_UNKNOWN : Z := 1.
Definition ERR_TYPE : Z := 3.
Definition ERR_ARG : Z := 4.

Definition err_arg : prog := Reply (Server.Err ERR_ARG "wrong number of arguments").
Definition err_arg_msg (msg : string) : prog := Reply (Server.Err ERR_ARG msg).
Definition err_type (msg : string) : prog := Reply (Server.Err ERR_TYPE msg).
Definition err_unknown (msg : string) : prog := Reply (Server.Err ERR_UNKNOWN msg).

Definition opt_reply (v : option string) : prog :=
  Reply (match v with Some v => Server.Str v | None => Server.Nil end).
Definition arr_reply (l : list string) : prog := Reply (Server.Arr (Server.Str <$> l)).

(** ** Keys *)

Definition QUEUE : string := "devops:queue".
Definition RESULTS : string := "devops:results".
Definition METRICS : string := "devops:metrics".
Definition job_key (id : string) : string := "devops:job:" +:+ id.
Definition status_key (id : string) : string := "devops:job:" +:+ id +:+ ":status".
Definition result_key (id : string) : string := "devops:job:" +:+ id +:+ ":result".
Definition log_key (id : string) : string := "devops:job:" +:+ id +:+ ":log".
Definition sandbox_key (id : string) : string := "devops:sandbox:" +:+ id.
Definition sandbox_status_key (id : string) : string := "devops:sandbox:" +:+ id +:+ ":status".
Definition sandbox_job_key (id : string) : string := "devops:sandbox:" +:+ id +:+ ":job".

(** ** Jobs *)

(** [format!("{}|{}|{}|{}|{}", ..)]. *)
Definition payload (id name target command args : string) : string :=
  id +:+ "|" +:+ name +:+ "|" +:+ target +:+ "|" +:+ command +:+ "|" +:+ args.

Definition job_submit (args : list string) : prog :=
  match args with
  | id :: name :: target :: command :: rest =>
      let p := payload id name target command (String.concat "," rest) in
      Do (Lpush QUEUE p) (fun _ =>
      Do (SetStr (job_key id) p) (fun _ =>
      Do (SetStr (status_key id) "queued") (fun _ =>
      Reply (Server.Str id))))
  | _ => err_arg_msg "JOB SUBMIT <id> <name> <target> <command> [args...]"
  end.

(** The arguments of [job next] are not looked at. *)
Definition job_next : prog :=
  Do (Rpop QUEUE) (fun popped =>
  match popped with
  | Some p =>
      match splitn 4 BAR p with
      | [id; name; target; command; args] =>
          Do (SetStr (status_key id) "running") (fun _ =>
          arr_reply [id; name; target; command; args])
      | _ => err_unknown "malformed job payload"
      end
  | None => Reply Server.Nil
  end).

Definition job_status (args : list string) : prog :=
  match args with
  | [id] => Do (GetStr (status_key id)) (fun v => opt_reply v.1)
  | _ => err_arg
  end.

Definition job_result (args : list string) : prog :=
  match args with
  | [id; code; ms] =>
      match parse_i64 code with
      | None => err_arg_msg "expect int"
      | Some exit_code =>
          match parse_i64 ms with
          | None => err_arg_msg "expect int"
          | Some duration_ms =>
              let status := if exit_code =? 0 then "passed" else "failed" in
              Do (SetStr (status_key id) status) (fun _ =>
              Do (SetStr (result_key id)
                    ("exit_code=" +:+ to_string exit_code +:+ ",duration_ms=" +:+ to_string duration_ms)) (fun _ =>
              Do (Lpush RESULTS (id +:+ "|" +:+ status +:+ "|" +:+ to_string duration_ms)) (fun _ =>
              Reply (Server.Str status))))
          end
      end
  | _ => err_arg
  end.

(** [for v in vals { store.lpush(key.clone(), v).await; }] *)
Fixpoint lpush_each (key : string) (vals : list string) (k : prog) : prog :=
  match vals with
  | [] => k
  | v :: vals => Do (Lpush key v) (fun _ => lpush_each key vals k)
  end.

Definition job_log (args : list string) : prog :=
  match args with
  | id :: w :: rest =>
      let line := String.concat " " (w :: rest) in
      do_lrange (log_key id) 0 (-1) (fun vals =>
      Do (Del (log_key id)) (fun _ =>
      lpush_each (log_key id) (vals ++ [line]) (Reply (Server.Int 1))))
  | _ => err_arg
  end.

(** The loop of [job list] over the keys. *)
Fixpoint list_jobs (filter_status : option string) (keys jobs : list string) : prog :=
  match keys with
  | [] => arr_reply jobs
  | key :: keys =>
      match strip_prefix "devops:job:" key with
      | Some id =>
          if ends_with id ":status" || ends_with id ":result" || ends_with id ":log"
          then list_jobs filter_status keys jobs
          else
            Do (GetStr (status_key id)) (fun v =>
            match v.1 with
            | Some status =>
                if match filter_status with Some f => bool_decide (f = status) | None => true end
                then list_jobs filter_status keys (jobs ++ [id +:+ ":" +:+ status])
                else list_jobs filter_status keys jobs
            | None => list_jobs filter_status keys jobs
            end)
      | None => list_jobs filter_status keys jobs
      end
  end.

Definition job_list (args : list string) : prog :=
  Do Keys (fun keys => list_jobs (head args) keys []).

(** ** Metrics *)

Definition metric_query (args : list string) : prog :=
  match args with
  | name :: rest =>
      let limit := match rest with l :: _ => default 100 (parse_i64 l) | [] => 100 end in
      if limit =? - 2 ^ 63 then Panic
      else do_lrange METRICS 0 (limit - 1) (fun vals =>
           arr_reply (List.filter (fun v => contains v ("|" +:+ name +:+ "|")) vals))
  | [] => err_arg
  end.

(** The counters of [metric summary]. *)
Fixpoint count_jobs (job_keys : list string) (passed failed queued : Z) (k : Z -> Z -> Z -> prog) : prog :=
  match job_keys with
  | [] => k passed failed queued
  | key :: job_keys =>
      match strip_prefix "devops:job:" key with
      | Some id =>
          Do (GetStr (status_key id)) (fun v =>
          if decide (v.1 = Some "passed") then count_jobs job_keys (passed + 1) failed queued k
          else if decide (v.1 = Some "failed") then count_jobs job_keys passed (failed + 1) queued k
          else if decide (v.1 = Some "queued" \/ v.1 = Some "running")
               then count_jobs job_keys passed failed (queued + 1) k
          else count_jobs job_keys passed failed queued k)
      | None => count_jobs job_keys passed failed queued k
      end
  end.

Definition metric_summary : prog :=
  do_lrange METRICS 0 (-1) (fun vals =>
  Do Keys (fun keys =>
  let job_keys := List.filter (fun k => starts_with k "devops:job:" && negb (contains k ":")) keys in
  count_jobs job_keys 0 0 0 (fun passed failed queued =>
  Do (Llen QUEUE) (fun queue_len =>
  Reply (Server.Str ("metrics=" +:+ to_string (Z.of_nat (length vals)) +:+
                     ",jobs=" +:+ to_string (Z.of_nat (length job_keys)) +:+
                     ",passed=" +:+ to_string passed +:+ ",failed=" +:+ to_string failed +:+
                     ",queued=" +:+ to_string queued +:+ ",queue_depth=" +:+ to_string queue_len)))))).

(** ** Sandboxes *)

Definition sandbox_status : prog :=
  Do Keys (fun keys => arr_reply (omap (strip_prefix "devops:sandbox:") keys)).

Definition sandbox_register (args : list string) : prog :=
  match args with
  | [id; type; addr] =>
      Do (SetStr (sandbox_key id) (type +:+ "|" +:+ addr)) (fun _ =>
      Do (SetStr (sandbox_status_key id) "idle") (fun _ =>
      Reply (Server.Str id)))
  | _ => err_arg
  end.

Definition sandbox_claim (args : list string) : prog :=
  match args with
  | [id; job] =>
      Do (SetStr (sandbox_status_key id) "busy") (fun _ =>
      Do (SetStr (sandbox_job_key id) job) (fun _ =>
      Reply (Server.Int 1)))
  | _ => err_arg
  end.

Definition sandbox_release (args : list string) : prog :=
  match args with
  | [id] =>
      Do (SetStr (sandbox_status_key id) "idle") (fun _ =>
      Do (Del (sandbox_job_key id)) (fun _ =>
      Reply (Server.Int 1)))
  | _ => err_arg
  end.

(** ** Strings and lists *)

Definition get_cmd (args : list string) : prog :=
  match args with
  | [key] => Do (GetStr key) (fun v => if v.2 then err_type "expect string type" else opt_reply v.1)
  | _ => err_arg
  end.

Definition set_cmd (args : list string) : prog :=
  match args with
  | [key; val] => Do (SetStr key val) (fun _ => Reply Server.Nil)
  | _ => err_arg
  end.

Definition del_cmd (args : list string) : prog :=
  match args with
  | [key] => Do (Del key) (fun ok => Reply (Server.Int (if ok then 1 else 0)))
  | _ => err_arg
  end.

(** [lpush], and [rpush], which does the same. *)
Definition lpush_cmd (args : list string) : prog :=
  match args with
  | [key; val] => Do (Lpush key val) (fun _ => Reply (Server.Int 1))
  | _ => err_arg
  end.

Definition rpop_cmd (args : list string) : prog :=
  match args with [key] => Do (Rpop key) opt_reply | _ => err_arg end.

Definition lpop_cmd (args : list string) : prog :=
  match args with [key] => Do (Lpop key) opt_reply | _ => err_arg end.

Definition lrange_cmd (args : list string) : prog :=
  match args with
  | [key; start; stop] =>
      match parse_i64 start, parse_i64 stop with
      | Some a, Some b => do_lrange key a b arr_reply
      | _, _ => err_arg_msg "expect int"
      end
  | _ => err_arg
  end.

Definition lindex_cmd (args : list string) : prog :=
  match args with
  | [key; idx] =>
      match parse_i64 idx with Some i => Do (Lindex key i) opt_reply | None => err_arg_msg "expect int" end
  | _ => err_arg
  end.

Definition llen_cmd (args : list string) : prog :=
  match args with [key] => Do (Llen key) (fun n => Reply (Server.Int n)) | _ => err_arg end.

Definition keys_cmd (args : list string) : prog :=
  match args with [] => Do Keys arr_reply | _ => err_arg end.

(** ** Expiry, sorted sets and bits *)

(** An operation whose panic is the handler's. *)
Definition or_panic {A} (k : A -> prog) (v : option A) : prog := match v with Some v => k v | None => Panic end.

Definition int_of_bool (b : bool) : Server.Response := Server.Int (if b then 1 else 0).

Definition pexpire_cmd (args : list string) : prog :=
  match args with
  | [key; n] =>
      match parse_i64 n with
      | Some ms => Do (Expire key ms) (fun ok => Reply (int_of_bool ok))
      | None => err_arg_msg "expect int64"
      end
  | _ => err_arg
  end.

Definition pttl_cmd (args : list string) : prog :=
  match args with [key] => Do (TtlMs key) (fun ttl => Reply (Server.Int ttl)) | _ => err_arg end.

Definition zadd_cmd `{RustText} (args : list string) : prog :=
  match args with
  | [key; n; name] =>
      match parse_f64 n with
      | Some score =>
          Do (ZAdd key name score) (fun v => if v.2 then err_type "expect zset" else Reply (int_of_bool v.1))
      | None => err_arg_msg "expect fp number"
      end
  | _ => err_arg
  end.

Definition zrem_cmd (args : list string) : prog :=
  match args with
  | [key; name] => Do (ZRem key name) (fun v => if v.2 then err_type "expect zset" else Reply (int_of_bool v.1))
  | _ => err_arg
  end.

Definition zscore_cmd (args : list string) : prog :=
  match args with
  | [key; name] =>
      Do (ZScore key name) (fun v =>
        if v.2 then err_type "expect zset"
        else Reply (match v.1 with Some s => Server.Dbl s | None => Server.Nil end))
  | _ => err_arg
  end.

Definition zquery_cmd `{RustText} (args : list string) : prog :=
  match args with
  | [key; n; name; off; lim] =>
      match parse_f64 n with
      | None => err_arg_msg "expect fp number"
      | Some score =>
          match parse_i64 off, parse_i64 lim with
          | Some offset, Some limit =>
              Do (ZQuery key score name offset limit) (or_panic (fun v : list ZSet.Entry * bool =>
                if v.2 then err_type "expect zset"
                else Reply (Server.Arr (concat ((fun e : ZSet.Entry => [Server.Str (ZSet.name e); Server.Dbl (ZSet.score e)]) <$> v.1)))))
          | _, _ => err_arg_msg "expect int"
          end
      end
  | _ => err_arg
  end.

Definition lrem_cmd (args : list string) : prog :=
  match args with
  | [key; n; val] =>
      match parse_i64 n with
      | Some count => Do (Lrem key count val) (or_panic (fun n => Reply (Server.Int n)))
      | None => err_arg_msg "expect int"
      end
  | _ => err_arg
  end.

(** [setbit] and [clearbit]. *)
Definition setbit_cmd (on : bool) (args : list string) : prog :=
  match args with
  | [key; n] =>
      match parse_u32 n with
      | Some bit => Do (SetBit key bit on) (fun _ => Reply (Server.Int 1))
      | None => err_arg_msg "expect uint"
      end
  | _ => err_arg
  end.

Definition getbit_cmd (args : list string) : prog :=
  match args with
  | [key; n] =>
      match parse_u32 n with
      | Some bit => Do (GetBit key bit) (fun on => Reply (int_of_bool on))
      | None => err_arg_msg "expect uint"
      end
  | _ => err_arg
  end.

Definition bitcount_cmd (args : list string) : prog :=
  match args with [key] => Do (BitCount key) (fun n => Reply (Server.Int n)) | _ => err_arg end.

Definition bfget_cmd (args : list string) : prog :=
  match args with
  | [key; o; w] =>
      match parse_u32 o, parse_u32 w with
      | Some offset, Some width =>
          Do (BitfieldGet key offset width) (or_panic (fun v => Reply (Server.Int (to_signed 64 v))))
      | _, _ => err_arg_msg "expect uint"
      end
  | _ => err_arg
  end.

(** [bitfield_set] locks the store for each bit anew; [i] bits are done. *)
Fixpoint bitfield_set (key : string) (offset val : Z) (n : nat) (i : Z) (k : prog) : prog :=
  match n with
  | O => k
  | S n =>
      if (2 ^ 32 <=? offset + i) || (64 <=? i) then Panic
      else Do (SetBit key (offset + i) (Z.testbit val i)) (fun _ => bitfield_set key offset val n (i + 1) k)
  end.

Definition bfset_cmd (args : list string) : prog :=
  match args with
  | [key; o; w; v] =>
      match parse_u32 o, parse_u32 w with
      | Some offset, Some width =>
          match parse_u64 v with
          | Some val => bitfield_set key offset val (Z.to_nat width) 0 (Reply (Server.Int 1))
          | None => err_arg_msg "expect uint"
          end
      | _, _ => err_arg_msg "expect uint"
      end
  | _ => err_arg
  end.

(** ** Time series *)

Definition EQUALS : byte := byte_of 61.

Definition metric_record `{RustText} (args : list string) : prog :=
  match args with
  | name :: v :: labels =>
      match parse_f64 v with
      | Some value =>
          Do Clock (fun ts =>
          let entry := to_string ts +:+ "|" +:+ name +:+ "|" +:+ print_f64 value +:+ "|" +:+ String.concat "," labels in
          Do (Lpush METRICS entry) (fun _ =>
          Do (ZAdd "devops:metrics:ts" entry (F64.of_int ts)) (fun _ =>
          Reply (Server.Int 1))))
      | None => err_arg_msg "expect float"
      end
  | _ => err_arg
  end.

(** The labels of [ts.add]: the arguments with an equals sign, the last of a
    name; they are printed in the order of the map. *)
Definition ts_labels (args : list string) : gmap string string :=
  foldl (fun m a => match split_once EQUALS a with Some (k, v) => <[k := v]> m | None => m end) ∅ args.

Definition ts_add `{RustText} (args : list string) : prog :=
  match args with
  | name :: t :: v :: labels =>
      match parse_u64 t with
      | None => err_arg_msg "expect uint64 timestamp"
      | Some ts =>
          match parse_f64 v with
          | None => err_arg_msg "expect float value"
          | Some val =>
              let printed := String.concat "," ((fun kv : string * string => kv.1 +:+ "=" +:+ kv.2) <$> map_to_list (ts_labels labels)) in
              let entry := to_string ts +:+ "|" +:+ name +:+ "|" +:+ print_f64 val +:+ "|" +:+ printed in
              Do (Lpush ("ts:" +:+ name) entry) (fun _ =>
              Do (SetStr ("ts:meta:" +:+ name +:+ ":last") (print_f64 val)) (fun _ =>
              Do (Llen ("ts:" +:+ name)) (fun n =>
              Do (SetStr ("ts:meta:" +:+ name +:+ ":count") (to_string n)) (fun _ =>
              Reply (Server.Int 1)))))
          end
      end
  | _ => err_arg_msg "TS.ADD <series> <timestamp_ms> <value> [label1=val1 ...]"
  end.

(** A point of a series, if it is inside the range. *)
Definition ts_point (from upto : Z) (v : string) : bool :=
  match splitn 3 BAR v with
  | t :: _ :: _ :: _ => match parse_u64 t with Some ts => (from <=? ts) && (ts <=? upto) | None => false end
  | _ => false
  end.

Definition ts_range (args : list string) : prog :=
  match args with
  | name :: s :: e :: rest =>
      match parse_u64 s, parse_u64 e with
      | Some from, Some upto =>
          let limit := match rest with l :: _ => default 1000 (parse_i64 l) | [] => 1000 end in
          if limit =? - 2 ^ 63 then Panic
          else do_lrange ("ts:" +:+ name) 0 (limit - 1) (fun vals => arr_reply (List.filter (ts_point from upto) vals))
      | _, _ => err_arg_msg "expect uint64 timestamp"
      end
  | _ => err_arg_msg "TS.RANGE <series> <start_ms> <end_ms> [limit]"
  end.

Definition ts_info (args : list string) : prog :=
  match args with
  | [name] =>
      Do (Llen ("ts:" +:+ name)) (fun count =>
      Do (GetStr ("ts:meta:" +:+ name +:+ ":last")) (fun last =>
      Reply (Server.Str ("name=" +:+ name +:+ ",points=" +:+ to_string count +:+ ",last_value=" +:+ default "" last.1))))
  | _ => err_arg
  end.

Definition ts_list : prog :=
  Do Keys (fun keys =>
    arr_reply (omap (strip_prefix "ts:") (List.filter (fun k => starts_with k "ts:" && negb (starts_with k "ts:meta:")) keys))).

(** ** Dispatch *)

(** The commands that leave the store alone. *)
Definition config_commands : list string := ["auth"; "config"].

(** The [match] on the command's name. *)
Definition commands `{RustText} : list (string * (list string -> prog)) :=
  [("keys", keys_cmd);
   ("get", get_cmd);
   ("set", set_cmd);
   ("del", del_cmd);
   ("lpush", lpush_cmd);
   ("rpush", lpush_cmd);
   ("lpop", lpop_cmd);
   ("rpop", rpop_cmd);
   ("lrange", lrange_cmd);
   ("lindex", lindex_cmd);
   ("llen", llen_cmd);
   ("job submit", job_submit);
   ("job next", fun _ => job_next);
   ("job status", job_status);
   ("job result", job_result);
   ("job log", job_log);
   ("job list", job_list);
   ("metric query", metric_query);
   ("metric summary", fun _ => metric_summary);
   ("sandbox status", fun _ => sandbox_status);
   ("sandbox register", sandbox_register);
   ("sandbox claim", sandbox_claim);
   ("sandbox release", sandbox_release);
   ("pexpire", pexpire_cmd);
   ("pttl", pttl_cmd);
   ("zadd", zadd_cmd);
   ("zrem", zrem_cmd);
   ("zscore", zscore_cmd);
   ("zquery", zquery_cmd);
   ("lrem", lrem_cmd);
   ("setbit", setbit_cmd true);
   ("clearbit", setbit_cmd false);
   ("getbit", getbit_cmd);
   ("bitcount", bitcount_cmd);
   ("bfget", bfget_cmd);
   ("bfset", bfset_cmd);
   ("metric record", metric_record);
   ("ts.add", ts_add);
   ("ts.range", ts_range);
   ("ts.info", ts_info);
   ("ts.list", fun _ => ts_list)].

Fixpoint find_command (cmd : string) (l : list (string * (list string -> prog))) : option (list string -> prog) :=
  match l with
  | [] => None
  | (name, f) :: l => if decide (cmd = name) then Some f else find_command cmd l
  end.

Definition command `{RustText} (cmd : string) (args : list string) : prog :=
  match find_command cmd commands with Some f => f args | None => err_unknown "unknown command" end.

(** [dispatch] of a command that works on the store; the others are those of
    [Auth.v]. *)
Definition dispatch `{RustText} (args : list string) : option prog :=
  match args with
  | [] => Some (err_unknown "empty command")
  | name :: args =>
      let cmd := to_lowercase name in
      if decide (cmd ∈ config_commands) then None else Some (command cmd args)
  end.

(** A handler that runs alone: its response ([None]: it panicked). *)
Fixpoint run `{RustText} (now : Z) (p : prog) (st : Store.store) : option Server.Response * Store.store :=
  match p with
  | Reply r => (Some r, st)
  | Panic => (None, st)
  | Do o k => let '(v, st) := exec now o st in run now (k v) st
  end.

(** ** Lemmas *)

(** The key an operation can change. *)
Definition writes (o : op) : option string :=
  match o with
  | SetStr key _ | Del key | Lpush key _ | Rpop key | Lpop key
  | Expire key _ | ZAdd key _ _ | ZRem key _ | Lrem key _ _ | SetBit key _ _ => Some key
  | _ => None
  end.

Lemma exec_other `{RustText} now o st key : writes o <> Some key -> (exec now o st).2 !! key = st !! key.
Proof.
  intros Hne. assert (Hk : forall key', writes o = Some key' -> key' <> key) by congruence. clear Hne.
  destruct o as [k|k v|k| |k v|k|k|k a b|k i|k|k ms|k|k n v|k n|k n|k s n a b|k n v|k i b|k i|k|k a b|]; cbn in *; try done;
    specialize (Hk k eq_refl);
    unfold Store.set_str, Store.lpush, Store.rpop, Store.lpop, Store.expire, Store.z_add, Store.z_rem, Store.lrem,
      Store.set_bit; repeat case_match; cbn; simplify_eq; by rewrite ?lookup_insert_ne, ?lookup_delete_ne.
Qed.

Lemma exec_reads `{RustText} now o st : writes o = None -> (exec now o st).2 = st.
Proof. by destruct o. Qed.

(** What holds of every operation a command can come to. *)
Fixpoint every (P : op -> Prop) (p : prog) : Prop :=
  match p with
  | Do o k => P o /\ forall v, every P (k v)
  | _ => True
  end.

Section Every.
Context (P : op -> Prop).

Lemma every_lrange key a b k : P (Lrange key a b) -> (forall vals, every P (k vals)) -> every P (do_lrange key a b k).
Proof. intros Ho Hk. split; [done|]. intros [vals|]; [apply Hk|done]. Qed.

Lemma every_each key vals k : (forall v, P (Lpush key v)) -> every P k -> every P (lpush_each key vals k).
Proof. intros Ho Hk. induction vals; [done|]. by split. Qed.

Lemma every_list_jobs f ks jobs : (forall key, P (GetStr key)) -> every P (list_jobs f ks jobs).
Proof.
  intros Ho. revert jobs. induction ks as [|key ks IH]; intros jobs; [done|]. cbn [list_jobs].
  destruct (strip_prefix _ _); [|apply IH]. case_match; [apply IH|]. split; [done|]. intros v.
  destruct v.1; [|apply IH]. case_match; apply IH.
Qed.

Lemma every_count_jobs ks a b c k :
  (forall key, P (GetStr key)) -> (forall a b c, every P (k a b c)) -> every P (count_jobs ks a b c k).
Proof.
  intros Ho Hk. revert a b c. induction ks as [|key ks IH]; intros a b c; [apply Hk|]. cbn [count_jobs].
  destruct (strip_prefix _ _); [|apply IH]. split; [done|]. intros v. repeat case_decide; apply IH.
Qed.

Lemma every_bitfield_set key offset val n i k :
  (forall bit on, P (SetBit key bit on)) -> every P k -> every P (bitfield_set key offset val n i k).
Proof.
  intros Ho Hk. revert i. induction n as [|n IH]; intros i; [done|]. cbn [bitfield_set]. case_match; [done|].
  split; [done|]. intros _. apply IH.
Qed.

Lemma every_or_panic {A} (k : A -> prog) v : (forall v, every P (k v)) -> every P (or_panic k v).
Proof. intros Hk. by destruct v; [apply Hk|]. Qed.

End Every.

(** Walks through a command; the goals left are about single operations. *)
Ltac every_tac solve_op :=
  repeat first
    [ apply every_lrange; [cbn beta; solve_op|intros] | apply every_each; [intros ?; cbn beta; solve_op|]
    | apply every_list_jobs; intros ?; cbn beta; solve_op | apply every_count_jobs; [intros ?; cbn beta; solve_op|intros]
    | apply every_bitfield_set; [intros ? ?; cbn beta; solve_op|] | apply every_or_panic; intros
    | case_match | progress cbn [every] | progress cbn beta | split | done | solve_op | intros ].

(** A property of all commands, one by one. *)
Lemma command_cases `{RustText} (Q : prog -> Prop) cmd args :
  Q (err_unknown "unknown command") -> Forall (fun nf => cmd = nf.1 -> Q (nf.2 args)) commands -> Q (command cmd args).
Proof.
  intros Hu Hall. unfold command. induction Hall as [|[name f] l Hf _ IH]; [done|]. cbn [find_command].
  case_decide; [by apply Hf|apply IH].
Qed.

(** Opens [command] up: a goal for each command, with its name. *)
Ltac each_command :=
  apply command_cases; [done|]; unfold commands;
  repeat (apply List.Forall_cons; [cbn [fst snd]; let E := fresh "Ecmd" in intros E|]); [..|apply List.Forall_nil].

Ltac unfold_commands :=
  unfold keys_cmd, get_cmd, set_cmd, del_cmd, lpush_cmd, rpop_cmd, lpop_cmd, lrange_cmd, lindex_cmd, llen_cmd,
    job_submit, job_next, job_status, job_result, job_log, job_list, metric_query, metric_summary,
    sandbox_status, sandbox_register, sandbox_claim, sandbox_release, pexpire_cmd, pttl_cmd, zadd_cmd, zrem_cmd,
    zscore_cmd, zquery_cmd, lrem_cmd, setbit_cmd, getbit_cmd, bitcount_cmd, bfget_cmd, bfset_cmd, metric_record,
    ts_add, ts_range, ts_info, ts_list.

(** The clients' commands are in lower case. *)
Lemma dispatch_lower `{RustText} name args :
  all_chars lower_ascii name = true -> bool_decide (name ∈ config_commands) = false ->
  dispatch (name :: args) = Some (command name args).
Proof.
  intros Hl Hn. unfold dispatch. rewrite to_lowercase_id by done.
  apply bool_decide_eq_false in Hn. by rewrite decide_False.
Qed.

(** A printed [i64] parses back. *)
Lemma parse_digits z :
  0 <= z -> read_digits 0 (to_string z) = (z, "") /\
  (exists c s, to_string z = String c s /\ is_digit c = true) /\ all_chars is_digit (to_string z) = true.
Proof.
  intros Hz. split_and!; [| |by apply to_string_digits].
  - rewrite <- (string_app_nil (to_string z)). by rewrite read_digits_to_string.
  - pose proof (to_string_digits z Hz) as Hd. pose proof (to_string_nonempty z Hz).
    destruct (to_string z) as [|c s]; [done|]. cbn in Hd. apply andb_true_iff in Hd as [Hc _]. eauto.
Qed.

Lemma parse_i64_to_string z : in_i64 z -> parse_i64 (to_string z) = Some z.
Proof.
  unfold in_i64. intros Hz. destruct (Z.ltb_spec z 0) as [Hneg|Hpos].
  - rewrite to_string_neg by done.
    destruct (parse_digits (- z)) as (Hr & (c & s & Es & Hc) & Hd); [lia|].
    change ("-" +:+ to_string (- z)) with (String (byte_of 45) (to_string (- z))).
    unfold parse_i64. rewrite decide_True by done. rewrite Hd, Hr. rewrite Es. cbn [fst].
    rewrite Z.opp_involutive, decide_True by lia. done.
  - destruct (parse_digits z) as (Hr & (c & s & Es & Hc) & Hd); [lia|].
    unfold parse_i64. rewrite Es. unfold is_digit in Hc. apply andb_true_iff in Hc as [Hc _].
    rewrite !decide_False by lia. rewrite <- Es, Hd, Hr. cbn [fst]. by rewrite decide_True by lia.
Qed.

Lemma split_once_spec c s t :
  all_chars (fun a => negb (bool_decide (a = c))) s = true ->
  split_once c (s +:+ String c t) = Some (s, t).
Proof.
  induction s as [|a s IH]; intros Hs; cbn [String.app split_once].
  - change (split_once c (String c t) = Some ("", t)). cbn [split_once]. destruct (decide (c = c)); [done|congruence].
  - cbn in Hs. apply andb_true_iff in Hs as [Ha Hs]. apply negb_true_iff, bool_decide_eq_false in Ha.
    change (split_once c (String a (s +:+ String c t)) = Some (String a s, t)). cbn [split_once].
    destruct (decide (a = c)); [congruence|]. by rewrite IH.
Qed.

(** No ['|'] in a field. *)
Definition bar_free (s : string) : Prop := all_chars (fun a => negb (bool_decide (a = BAR))) s = true.

Lemma splitn_field n s t : bar_free s -> splitn (S n) BAR (s +:+ "|" +:+ t) = s :: splitn n BAR t.
Proof.
  intros Hs. change ("|" +:+ t) with (String BAR t). cbn [splitn]. by rewrite (split_once_spec BAR s t Hs).
Qed.

Lemma splitn_payload id name target command args :
  bar_free id -> bar_free name -> bar_free target -> bar_free command ->
  splitn 4 BAR (payload id name target command args) = [id; name; target; command; args].
Proof. intros. unfold payload. by rewrite !splitn_field. Qed.

(** Keys of the same job or sandbox that differ in their suffix. *)
Lemma suffix_ne (pre id x y : string) : x <> y -> pre +:+ id +:+ x <> pre +:+ id +:+ y.
Proof. intros Hne E. by apply (inj (String.append pre)), (inj (String.append id)) in E. Qed.

Lemma suffix_ne_nil (pre id x : string) : x <> "" -> pre +:+ id +:+ x <> pre +:+ id.
Proof.
  intros Hx E. apply (inj (String.append pre)) in E. apply (f_equal String.length) in E.
  rewrite string_length_app in E. destruct x; [done|cbn in E; lia].
Qed.

(** Decides the inequality of two keys of the job queue. *)
Ltac key_ne :=
  match goal with
  | |- ?a <> ?b =>
      unfold job_key, status_key, result_key, log_key, sandbox_key, sandbox_status_key, sandbox_job_key, QUEUE,
        RESULTS, METRICS;
      first [ discriminate | apply suffix_ne; discriminate | apply suffix_ne_nil; discriminate
            | apply not_eq_sym, suffix_ne_nil; discriminate ]
  end.

(** The lookup of a key that the last write left alone. *)
Ltac other_key := first [apply Store.set_str_other | apply Store.lpush_other]; key_ne.

(** Readings of the store below the writes to other keys. *)
Ltac skip_writes :=
  repeat first [ erewrite Store.list_at_lookup; [|other_key] | erewrite Store.get_str_lookup; [|other_key] ].

End Handler.
