(* ===== verification/Auth.v ===== *)
(** * The server's configuration: [auth] and [config] of [handler.rs]

    A password and the file names for TLS, behind a lock of their own that
    every connection shares.  With the commands of [Handler.v] this is all of
    [handler::dispatch]. *)

From stdpp Require Import base strings list.
From S2P Require Import Prelude Text ServerProto Store Handler.
From stdpp Require Import list.

Module Auth.
Import Handler.

Record AuthConfig := mkAuthConfig {
  password : option string;
  tls_cert : option string;
  tls_key : option string
}.

Definition new : AuthConfig := mkAuthConfig None None None.

Definition with_cert (v : string) (a : AuthConfig) : AuthConfig := mkAuthConfig (password a) (Some v) (tls_key a).
Definition with_key (v : string) (a : AuthConfig) : AuthConfig := mkAuthConfig (password a) (tls_cert a) (Some v).

Definition OK : prog := Reply (Server.Str "OK").

(** The arguments are those after the command's name. *)
Definition auth_cmd (args : list string) (a : AuthConfig) : prog :=
  match args with
  | [pw] =>
      match password a with
      | Some p => if decide (p = pw) then OK else err_type "invalid password"
      | None => OK
      end
  | _ => err_arg
  end.

Section Auth.
Context `{RustText}.

Definition config_cmd (args : list string) (a : AuthConfig) : prog * AuthConfig :=
  match args with
  | sub :: name :: rest =>
      let sub := to_lowercase sub in
      if decide (sub = "set") then
        match rest with
        | [v] =>
            let name := to_lowercase name in
            if decide (name = "tls-cert") then (OK, with_cert v a)
            else if decide (name = "tls-key") then (OK, with_key v a)
            else (err_unknown "unknown config key", a)
        | _ => (err_arg, a)
        end
      else if decide (sub = "get") then
        let name := to_lowercase name in
        if decide (name = "tls-cert") then (Reply (Server.Str (default "" (tls_cert a))), a)
        else if decide (name = "tls-key") then (Reply (Server.Str (default "" (tls_key a))), a)
        else (err_unknown "unknown config key", a)
      else (err_unknown "unknown config command", a)
  | _ => (err_arg, a)
  end.

(** All of [dispatch]: what is left to do on the store, and the
    configuration. *)
Definition dispatch_all (args : list string) (a : AuthConfig) : prog * AuthConfig :=
  match args with
  | [] => (err_unknown "empty command", a)
  | name :: args =>
      let cmd := to_lowercase name in
      if decide (cmd = "auth") then (auth_cmd args a, a)
      else if decide (cmd = "config") then config_cmd args a
      else (command cmd args, a)
  end.

(** The configuration after requests, in the order in which they got its lock. *)
Definition configured (reqs : list (list string)) (a : AuthConfig) : AuthConfig :=
  foldl (fun a args => (dispatch_all args a).2) a reqs.

(** [Handler.dispatch] is [dispatch_all] on the commands of the store. *)
Lemma dispatch_all_store args a p : dispatch args = Some p -> dispatch_all args a = (p, a).
Proof.
  unfold dispatch, dispatch_all, config_commands. destruct args as [|name args]; [by intros [= <-]|].
  case_decide as Hn; [done|]. intros [= <-]. by rewrite !decide_False by set_solver.
Qed.

Lemma dispatch_all_password args a : password (dispatch_all args a).2 = password a.
Proof. unfold dispatch_all, config_cmd. by repeat case_match. Qed.

Lemma configured_password reqs a : password (configured reqs a) = password a.
Proof.
  revert a. induction reqs as [|args reqs IH]; intros a; [done|]. cbn [configured foldl].
  rewrite <- (dispatch_all_password args a). apply IH.
Qed.

(** A server that has been started never has a password: whatever has been
    requested, [auth] accepts any, and every command but [config] is answered
    as on a new server, to clients that have not called it as well. *)
Theorem auth_protects_nothing reqs name args :
  let a := configured reqs new in
  (to_lowercase name = "auth" -> forall pw, (dispatch_all [name; pw] a).1 = OK) /\
  (to_lowercase name <> "config" -> (dispatch_all (name :: args) a).1 = (dispatch_all (name :: args) new).1).
Proof.
  intros a. assert (Hp : password a = None) by apply configured_password. unfold dispatch_all, auth_cmd.
  split; [intros -> pw; rewrite decide_True by done; by rewrite Hp|].
  intros Hn. destruct (decide (to_lowercase name = "auth")); [by rewrite Hp|].
  by destruct (decide (to_lowercase name = "config")).
Qed.

(** What [config set] stores, [config get] returns, until the next one. *)
Lemma config_set_get name v a :
  to_lowercase name = "tls-cert" \/ to_lowercase name = "tls-key" ->
  (dispatch_all ["config"; "get"; name] (dispatch_all ["config"; "set"; name; v] a).2).1 = Reply (Server.Str v).
Proof.
  intros Hn. unfold dispatch_all, config_cmd.
  rewrite !(to_lowercase_id "config"), !(to_lowercase_id "set"), !(to_lowercase_id "get") by done.
  by destruct Hn as [-> | ->].
Qed.

End Auth.
End Auth.
