(* ===== verification/Bits.v ===== *)
(** * Bit fields

    The bit commands of [Handler.v] on the bits of [Store.v]: a field that is
    written one bit at a time, the bytes growing as needed, is read back as it
    was written, and nothing around it has changed. *)

From stdpp Require Import base strings gmap list numbers.
From Stdlib Require Import ZArith Lia Btauto.
From S2P Require Import Prelude Text ServerProto Store Handler.
From stdpp Require Import list.

#[local] Open Scope Z_scope.

Module Bits.
Import Handler.

(** A key the bit commands can work on. *)
Definition holds_bits (now : Z) (key : string) (st : Store.store) : Prop :=
  match st !! key with
  | Some e => Store.expired now e = false /\
              match Store.typ e with Store.VBytes _ | Store.VStr _ => True | _ => False end
  | None => True
  end.

(** ** One bit *)

Lemma byte_bit c m : 8 <= m -> Z.testbit (byte_val c) m = false.
Proof.
  intros Hm. pose proof (byte_val_range c). destruct (Z.eq_dec (byte_val c) 0) as [->|]; [apply Z.bits_0|].
  apply Z.bits_above_log2; [lia|]. apply Z.lt_le_trans with 8; [|done]. apply Z.log2_lt_pow2; lia.
Qed.

Lemma testbit_byte_of z m : 0 <= m < 8 -> Z.testbit (byte_val (byte_of z)) m = Z.testbit z m.
Proof. intros. rewrite byte_val_of. change 256 with (2 ^ 8). apply Z.mod_pow2_bits_low. lia. Qed.

Lemma set_byte_bit bit on c m :
  0 <= m < 8 ->
  Z.testbit (byte_val (Store.set_byte bit on c)) m = if decide (m = bit mod 8) then on else Z.testbit (byte_val c) m.
Proof.
  intros Hm. pose proof (Z.mod_pos_bound bit 8 ltac:(lia)). unfold Store.set_byte. rewrite testbit_byte_of by done.
  destruct on; [rewrite Z.setbit_eqb by lia|rewrite Z.clearbit_eqb by lia];
    destruct (Z.eqb_spec (bit mod 8) m), (decide (m = bit mod 8)); try lia; cbn [orb andb negb]; by rewrite ?andb_true_r, ?andb_false_r.
Qed.

(** The bytes a bit needs are there, the new ones are zero. *)
Lemma padded_bit (bs : list byte) n b : Store.bit_in b (bs ++ replicate n (byte_of 0)) = Store.bit_in b bs.
Proof.
  unfold Store.bit_in. destruct (bs !! Z.to_nat (b / 8)) as [c|] eqn:E.
  - by rewrite (lookup_app_l_Some _ _ _ _ E).
  - rewrite lookup_app_r by (by apply lookup_ge_None). destruct (replicate _ _ !! _) as [c|] eqn:E'; [|done].
    apply lookup_replicate in E' as [-> _]. apply Z.bits_0.
Qed.

Lemma set_in_bit bit on bs b :
  0 <= bit -> 0 <= b -> Store.bit_in b (Store.set_in bit on bs) = if decide (b = bit) then on else Store.bit_in b bs.
Proof.
  intros Hbit Hb. unfold Store.set_in. set (i := Z.to_nat (bit / 8)).
  set (bs' := bs ++ replicate (S i - length bs) (byte_of 0)).
  rewrite <- (padded_bit bs (S i - length bs) b). change (bs ++ _) with bs'.
  assert (Hi : (i < length bs')%nat) by (unfold bs'; rewrite length_app, length_replicate; lia).
  pose proof (Z.mod_pos_bound b 8 ltac:(lia)).
  pose proof (Z.div_mod b 8 ltac:(lia)). pose proof (Z.div_mod bit 8 ltac:(lia)).
  pose proof (Z.div_pos b 8 ltac:(lia) ltac:(lia)). pose proof (Z.div_pos bit 8 ltac:(lia) ltac:(lia)).
  unfold Store.bit_in. destruct (decide (Z.to_nat (b / 8) = i)) as [Ei|Hne].
  - rewrite Ei, list_lookup_alter_eq. destruct (lookup_lt_is_Some_2 _ _ Hi) as [c Hc]. rewrite Hc. cbn [fmap option_fmap option_map].
    rewrite set_byte_bit by done. unfold i in Ei.
    destruct (decide (b mod 8 = bit mod 8)), (decide (b = bit)); try done; lia.
  - rewrite list_lookup_alter_ne by done. rewrite decide_False; [done|]. intros ->. by apply Hne.
Qed.

(** The bytes under a key after a bit is set; the key can still hold them. *)
Lemma set_bit_at now key bit on st :
  holds_bits now key st ->
  Store.bytes_at now key (Store.set_bit key bit on st) = Store.set_in bit on (Store.bytes_at now key st) /\
  holds_bits now key (Store.set_bit key bit on st).
Proof.
  unfold holds_bits, Store.bytes_at, Store.set_bit. destruct (st !! key) as [e|] eqn:E.
  - intros [He Ht]. destruct (Store.typ e) eqn:Et; try done; rewrite lookup_insert_eq, He; unfold Store.expired in *; cbn;
      by rewrite He.
  - intros _. by rewrite lookup_insert_eq.
Qed.

Lemma set_bit_other key bit on st key' : key <> key' -> Store.set_bit key bit on st !! key' = st !! key'.
Proof. intros Hne. unfold Store.set_bit. repeat case_match; by rewrite ?lookup_insert_ne. Qed.

(** ** Fields *)

(** The bits [i] and up of a field, which starts at [offset]. *)
Lemma bitfield_set_run `{RustText} now key offset val n i k st :
  holds_bits now key st -> 0 <= offset -> 0 <= i -> i + Z.of_nat n <= 64 -> offset + i + Z.of_nat n <= 2 ^ 32 ->
  exists st', run now (bitfield_set key offset val n i k) st = run now k st' /\ holds_bits now key st' /\
  (forall b, 0 <= b -> Store.get_bit now key b st' =
     if decide (offset + i <= b < offset + i + Z.of_nat n) then Z.testbit val (b - offset) else Store.get_bit now key b st) /\
  (forall key', key <> key' -> st' !! key' = st !! key').
Proof.
  revert i st. induction n as [|n IH]; intros i st Hb Ho Hi Hw Hl.
  - exists st. split_and!; try done. intros b _. rewrite decide_False; [done|lia].
  - cbn [bitfield_set]. destruct (Z.leb_spec (2 ^ 32) (offset + i)); [lia|]. destruct (Z.leb_spec 64 i); [lia|]. cbn [orb run exec].
    destruct (set_bit_at now key (offset + i) (Z.testbit val i) st Hb) as [Es Hb'].
    destruct (IH (i + 1) _ Hb' Ho ltac:(lia) ltac:(lia) ltac:(lia)) as (st' & Er & Hst & Hbits & Hother).
    exists st'. split; [exact Er|]. split; [done|]. split.
    + intros b Hb0. rewrite Hbits by done. unfold Store.get_bit. rewrite Es, set_in_bit by lia.
      destruct (decide (b = offset + i)) as [->|].
      * rewrite decide_False, decide_True by lia. f_equal. lia.
      * destruct (decide (offset + (i + 1) <= b < _)), (decide (offset + i <= b < _)); try done; lia.
    + intros key' Hne. rewrite Hother by done. by apply set_bit_other.
Qed.

(** What [bitfield_get] collects. *)
Lemma bitfield_bits_read n i offset bs result :
  0 <= offset -> 0 <= i -> i + Z.of_nat n <= 64 -> offset + i + Z.of_nat n <= 2 ^ 32 ->
  exists r, Store.bitfield_bits n i offset bs result = Some r /\
  forall m, 0 <= m -> Z.testbit r m = Z.testbit result m || (bool_decide (i <= m < i + Z.of_nat n) && Store.bit_in (offset + m) bs).
Proof.
  intros Ho. revert i result. induction n as [|n IH]; intros i result Hi Hw Hl; cbn [Store.bitfield_bits].
  - exists result. split; [done|]. intros m Hm. rewrite bool_decide_eq_false_2 by lia. by rewrite orb_false_r.
  - destruct (Z.leb_spec (2 ^ 32) (offset + i)); [lia|]. destruct (Z.leb_spec 64 i); [lia|].
    assert (Hin : forall m, i <= m < i + Z.of_nat (S n) <-> m = i \/ (i + 1 <= m < i + 1 + Z.of_nat n)) by lia.
    destruct (Store.bit_in (offset + i) bs) eqn:Eb;
      (destruct (IH (i + 1)) with (result := if Store.bit_in (offset + i) bs then Z.lor result (Z.shiftl 1 i) else result)
         as (r & Er & Hr); [lia..|]; rewrite Eb in Er, Hr; exists r; split; [exact Er|]; intros m Hm; rewrite Hr by done;
       rewrite (bool_decide_ext _ _ (Hin m)), bool_decide_or).
    + rewrite Z.lor_spec, Z.shiftl_1_l, Z.pow2_bits_eqb by done.
      destruct (Z.eqb_spec i m) as [->|]; [rewrite (bool_decide_eq_true_2 (m = m)), Eb by done; btauto|].
      rewrite (bool_decide_eq_false_2 (m = i)) by lia. btauto.
    + destruct (decide (m = i)) as [->|]; [rewrite Eb; btauto|]. rewrite (bool_decide_eq_false_2 (m = i)) by lia. btauto.
Qed.

Lemma parse_unsigned_to_string bound z : 0 <= z < bound -> parse_unsigned bound (to_string z) = Some z.
Proof.
  intros Hz. destruct (parse_digits z) as (Hr & (c & s & Es & Hc) & Hd); [lia|]. unfold parse_unsigned. rewrite Es.
  unfold is_digit in Hc. apply andb_true_iff in Hc as [Hc _]. rewrite decide_False by lia. rewrite <- Es, Hd, Hr. cbn [fst].
  destruct (Z.ltb_spec z bound); [done|lia].
Qed.

Lemma holds_bits_read `{RustText} now key offset width st v :
  holds_bits now key st ->
  0 <= offset -> 0 <= width <= 64 -> offset + width <= 2 ^ 32 ->
  0 <= v < 2 ^ width -> (forall m, 0 <= m < width -> Store.get_bit now key (offset + m) st = Z.testbit v m) ->
  Store.bitfield_get now key offset width st = Some v.
Proof.
  intros Hb Ho Hw Hl Hv Hm.
  assert (Hread : Store.bitfield_bits (Z.to_nat width) 0 offset (Store.bytes_at now key st) 0 = Some v).
  { destruct (bitfield_bits_read (Z.to_nat width) 0 offset (Store.bytes_at now key st) 0) as (r & -> & Hr); [lia..|].
    f_equal. apply Z.bits_inj'. intros m Hm0. rewrite Hr, Z.bits_0 by done. cbn [orb].
    destruct (Z.ltb_spec m width).
    - rewrite bool_decide_eq_true_2 by lia. by rewrite <- Hm.
    - rewrite bool_decide_eq_false_2 by lia. cbn [andb]. symmetry.
      rewrite <- (Z.mod_small v (2 ^ width)) by done. apply Z.mod_pow2_bits_high; lia. }
  unfold Store.bitfield_get, holds_bits, Store.get_bit, Store.bytes_at in *.
  destruct (st !! key) as [e|].
  - destruct Hb as [He Ht]. rewrite He in *. by destruct (Store.typ e).
  - f_equal. apply Z.bits_inj'. intros m Hm0. rewrite Z.bits_0. destruct (Z.ltb_spec m width).
    + by rewrite <- Hm.
    + rewrite <- (Z.mod_small v (2 ^ width)) by done. symmetry. apply Z.mod_pow2_bits_high; lia.
Qed.


(** A field of more than 64 bits is written as far as the value goes, then
    the shift panics: there is no reply. *)
Lemma bitfield_too_wide `{RustText} now key offset val n i k st :
  0 <= i <= 64 -> 64 < i + Z.of_nat n -> (run now (bitfield_set key offset val n i k) st).1 = None.
Proof.
  revert i st. induction n as [|n IH]; intros i st Hi Hw; cbn [bitfield_set].
  - lia.
  - destruct (Z.leb_spec (2 ^ 32) (offset + i)), (Z.leb_spec 64 i); try done. cbn [orb run exec]. apply IH; lia.
Qed.

(** ** Witnesses *)


End Bits.
