(* ===== verification/Pool.v ===== *)
(** * Concurrent connections of the server: [redisdb/src/server.rs]

    Each connection has a task that runs one command after the other; the
    tasks interleave at the store's operations.  A step of the pool is the
    arrival of a request, one operation of one command, the end of a command,
    or the expiry task.  [history] remembers the operations done. *)

From stdpp Require Import base strings gmap list numbers relations.
From Stdlib Require Import ZArith Lia.
From S2P Require Import Prelude Text ServerProto Store Handler.

Module Pool.
Import Handler.

Section Pool.
Context `{RustText}.

#[local] Set Default Proof Using "Type".
#[local] Arguments reverse : simpl never.

Record event := mkEvent { who : nat; what : op; got : reply what }.

Record pool := mkPool {
  data : Store.store;
  conns : gmap nat prog;
  history : list event
}.

Definition init : pool := mkPool ∅ ∅ [].

(** A request that changes the job queue as if it were any list. *)
Definition raw_queue_write (args : list string) : Prop :=
  match args with
  | name :: key :: _ =>
      key = Handler.QUEUE /\ to_lowercase name ∈ ["set"; "del"; "lpush"; "rpush"; "rpop"; "lpop"; "pexpire"; "zadd"; "lrem"; "setbit"; "clearbit"; "bfset"]
  | _ => False
  end.

(** The steps of a server whose clients send requests of a kind. *)
Inductive step_if {admits : list string -> Prop} : pool -> pool -> Prop :=
  | step_request p c args cmd :
      conns p !! c = None -> dispatch args = Some cmd -> admits args ->
      step_if p (mkPool (data p) (<[c := cmd]> (conns p)) (history p))
  | step_op p c o k now :
      conns p !! c = Some (Do o k) ->
      step_if p (mkPool (exec now o (data p)).2 (<[c := k (exec now o (data p)).1]> (conns p))
                (history p ++ [mkEvent c o (exec now o (data p)).1]))
  | step_done p c r :
      conns p !! c = Some (Reply r) ->
      step_if p (mkPool (data p) (delete c (conns p)) (history p))
  | step_panic p c :
      conns p !! c = Some Panic ->
      step_if p (mkPool (data p) (delete c (conns p)) (history p))
  | step_expiry p now :
      step_if p (mkPool (Store.retain now (data p)) (conns p) (history p)).

Abbreviation step := (step_if (admits := fun args => ~ raw_queue_write args)).

Definition reachable (p : pool) : Prop := rtc step init p.

(** ** The job queue *)

(** The jobs put into the queue and those taken out of it, in order. *)
Definition submitted_by (e : event) : option string :=
  match what e with
  | Lpush key val => if decide (key = QUEUE) then Some val else None
  | _ => None
  end.

Definition handed_by (e : event) : option string :=
  match e with
  | mkEvent _ o v =>
      match o as o return reply o -> option string with
      | Rpop key => fun v => if decide (key = QUEUE) then v else None
      | _ => fun _ => None
      end v
  end.

Definition submitted (h : list event) : list string := omap submitted_by h.
Definition handed (h : list event) : list string := omap handed_by h.

(** What waits in the queue, the next one first. *)
Definition waiting (st : Store.store) : list string := reverse (default [] (Store.list_at QUEUE st)).

(** Operations the commands allowed make: the queue is pushed and popped at
    its two ends and not written otherwise. *)
Definition op_ok (o : op) : Prop :=
  match o with
  | SetStr key _ | Del key | Lpop key | Expire key _ | ZAdd key _ _ | Lrem key _ _ | SetBit key _ _ => key <> QUEUE
  | _ => True
  end.

(** The queue is none of the keys of a job or a sandbox. *)
Lemma job_keys_other id :
  job_key id <> QUEUE /\ status_key id <> QUEUE /\ result_key id <> QUEUE /\ log_key id <> QUEUE.
Proof. repeat split; discriminate. Qed.

Lemma sandbox_keys_other id :
  sandbox_key id <> QUEUE /\ sandbox_status_key id <> QUEUE /\ sandbox_job_key id <> QUEUE.
Proof. repeat split; discriminate. Qed.

Lemma dispatch_ok args cmd : dispatch args = Some cmd -> ~ raw_queue_write args -> every op_ok cmd.
Proof.
  unfold dispatch. destruct args as [|name args]; [intros [= <-] _; done|].
  case_decide as Hn; [done|]. intros [= <-] Hraw. clear Hn.
  assert (Hq : forall key rest, args = key :: rest ->
    to_lowercase name ∈ ["set"; "del"; "lpush"; "rpush"; "rpop"; "lpop"; "pexpire"; "zadd"; "lrem"; "setbit"; "clearbit"; "bfset"] -> key <> QUEUE)
    by (intros key rest -> Hin ->; by apply Hraw).
  each_command; unfold_commands;
  every_tac ltac:(first [done | discriminate | cbn [op_ok]; eapply Hq; [reflexivity|]; rewrite Ecmd; set_solver]).
Qed.

(** *** The invariant *)

(** The queue is a list that does not expire. *)
Definition queue_ok (st : Store.store) : Prop :=
  st !! QUEUE = None \/ exists l, st !! QUEUE = Some (Store.mkEntry (Store.VList l) None).

Definition fifo (p : pool) : Prop :=
  queue_ok (data p) /\ map_Forall (fun _ => every op_ok) (conns p) /\
  submitted (history p) = handed (history p) ++ waiting (data p).

Lemma waiting_same st st' : st' !! QUEUE = st !! QUEUE -> waiting st' = waiting st.
Proof. unfold waiting, Store.list_at. by intros ->. Qed.

Lemma event_elsewhere c o v :
  writes o <> Some QUEUE -> submitted_by (mkEvent c o v) = None /\ handed_by (mkEvent c o v) = None.
Proof.
  intros Hw. destruct o; try done; cbn [submitted_by handed_by what]; rewrite decide_False; try done;
    intros ->; by apply Hw.
Qed.

(** What an operation does to the queue. *)
Lemma exec_queue c now o st :
  queue_ok st -> op_ok o ->
  let e := mkEvent c o (exec now o st).1 in
  let st' := (exec now o st).2 in
  queue_ok st' /\
  waiting st ++ option_list (submitted_by e) = option_list (handed_by e) ++ waiting st'.
Proof.
  intros Hq Ho. cbn zeta.
  assert (Hsame : forall st', st' !! QUEUE = st !! QUEUE ->
            queue_ok st' /\ waiting st ++ [] = [] ++ waiting st').
  { intros st' E. split; [unfold queue_ok; by rewrite E|]. by rewrite app_nil_r, (waiting_same st st'). }
  destruct (decide (writes o = Some QUEUE)) as [Ew|Ew].
  2: { destruct (Hsame (exec now o st).2) as [H1 H2]; [by apply exec_other|]. split; [done|].
       destruct (event_elsewhere c o (exec now o st).1 Ew) as [-> ->]. exact H2. }
  destruct o; cbn in *; try done; injection Ew as ->; try done.
  - unfold queue_ok, waiting, Store.list_at, Store.lpush. destruct Hq as [Hq|[l Hq]]; rewrite Hq; cbn;
      (split; [right; rewrite lookup_insert_eq; by eexists|]); rewrite lookup_insert_eq; cbn.
    all: by rewrite ?reverse_cons, ?app_nil_r.
  - unfold queue_ok, waiting, Store.list_at, Store.rpop. destruct Hq as [Hq|[l Hq]]; rewrite Hq; cbn.
    + rewrite Hq. split; [by left|done].
    + destruct (Store.pop_last l) as [[v l']|] eqn:Ep; cbn.
      * apply Store.pop_last_Some in Ep as ->. rewrite lookup_insert_eq. split; [right; by eexists|].
        cbn. by rewrite app_nil_r, reverse_snoc.
      * apply Store.pop_last_None in Ep as ->. rewrite Hq. split; [right; by eexists|done].
  - apply Hsame. unfold Store.z_rem. by destruct Hq as [Hq|[l Hq]]; rewrite Hq; cbn.
Qed.

Lemma omap_snoc {A B} (f : A -> option B) l x : omap f (l ++ [x]) = omap f l ++ option_list (f x).
Proof. rewrite omap_app. cbn. by destruct (f x). Qed.

Lemma retain_queue now st : queue_ok st -> Store.retain now st !! QUEUE = st !! QUEUE.
Proof.
  unfold Store.retain. intros [E|[l E]]; rewrite E.
  - apply map_lookup_filter_None. by left.
  - apply map_lookup_filter_Some. by rewrite E.
Qed.

Lemma retain_ok now st : queue_ok st -> queue_ok (Store.retain now st).
Proof. intros Hq. unfold queue_ok. by rewrite (retain_queue now st Hq). Qed.

Lemma retain_waiting now st : queue_ok st -> waiting (Store.retain now st) = waiting st.
Proof. intros Hq. by apply waiting_same, retain_queue. Qed.

Lemma fifo_step p p' : step p p' -> fifo p -> fifo p'.
Proof.
  intros Hst (Hq & Hc & Hf). destruct Hst as [p c args cmd _ Hd Hr|p c o k now E|p c r E|p c E|p now]; cbn.
  - split; [done|]. split; [|done]. apply map_Forall_insert_2; [by eapply dispatch_ok|done].
  - pose proof (map_Forall_lookup_1 _ _ _ _ Hc E) as [Ho Hk].
    destruct (exec_queue c now o (data p) Hq Ho) as [Hq' Hw].
    split; [done|]. split; [by apply map_Forall_insert_2|]. cbn.
    unfold submitted, handed in *. by rewrite !omap_snoc, Hf, <- !app_assoc, Hw.
  - split; [done|]. split; [by apply map_Forall_delete|done].
  - split; [done|]. split; [by apply map_Forall_delete|done].
  - split; [by apply retain_ok|]. split; [done|]. change (submitted (history p) = handed (history p) ++ waiting (Store.retain now (data p))).
    by rewrite retain_waiting.
Qed.

Lemma fifo_reachable p : reachable p -> fifo p.
Proof.
  intros Hr. assert (Hi : fifo init) by (split; [by left|by split; [apply map_Forall_empty|]]).
  revert Hi. induction Hr as [|? ? ? Hst _ IH]; [done|]. intros Hi. by eapply IH, fifo_step.
Qed.


(** ** A race *)

(** Steps of connection [c] in an explicit state. *)
Lemma request_step d m h c name args :
  m !! c = None -> all_chars lower_ascii name = true -> bool_decide (name ∈ config_commands) = false ->
  ~ raw_queue_write (name :: args) ->
  step (mkPool d m h) (mkPool d (<[c := command name args]> m) h).
Proof. intros Hc Hl Hn Hr. apply (step_request (mkPool d m h) c (name :: args)); auto using dispatch_lower. Qed.

Lemma op_step now d m h c o k :
  step (mkPool d (<[c := Do o k]> m) h)
    (mkPool (exec now o d).2 (<[c := k (exec now o d).1]> m) (h ++ [mkEvent c o (exec now o d).1])).
Proof.
  pose proof (step_op (admits := fun args => ~ raw_queue_write args) (mkPool d (<[c := Do o k]> m) h) c o k now) as Hst. cbn in Hst.
  rewrite insert_insert_eq in Hst. apply Hst. apply lookup_insert_eq.
Qed.

Lemma done_step d m h c r : m !! c = None -> step (mkPool d (<[c := Reply r]> m) h) (mkPool d m h).
Proof.
  intros Hc. pose proof (step_done (admits := fun args => ~ raw_queue_write args) (mkPool d (<[c := Reply r]> m) h) c r) as Hst. cbn in Hst.
  rewrite delete_insert_id in Hst by done. apply Hst. apply lookup_insert_eq.
Qed.

Lemma not_raw name args :
  all_chars lower_ascii name = true ->
  bool_decide (name ∈ ["set"; "del"; "lpush"; "rpush"; "rpop"; "lpop"; "pexpire"; "zadd"; "lrem"; "setbit"; "clearbit"; "bfset"]) = false ->
  ~ raw_queue_write (name :: args).
Proof. intros Hl Hn%bool_decide_eq_false. destruct args as [|key args]; [by intros []|]. intros [_ Hin]. by rewrite to_lowercase_id in Hin. Qed.

(** One step of a connection on top of the state, with the operation's effect
    given. *)
Lemma run_op d d' m h c o k v p :
  exec 0 o d = (v, d') -> rtc step (mkPool d' (<[c := k v]> m) (h ++ [mkEvent c o v])) p ->
  rtc step (mkPool d (<[c := Do o k]> m) h) p.
Proof.
  intros E Hr. eapply rtc_l; [apply (op_step 0)|]. rewrite E. exact Hr.
Qed.

Lemma run_request d m h c name args p :
  m !! c = None -> all_chars lower_ascii name = true -> bool_decide (name ∈ config_commands) = false ->
  ~ raw_queue_write (name :: args) ->
  rtc step (mkPool d (<[c := command name args]> m) h) p -> rtc step (mkPool d m h) p.
Proof. intros. eapply rtc_l; [by apply request_step|done]. Qed.

Lemma run_done d m h c r p :
  m !! c = None -> rtc step (mkPool d m h) p -> rtc step (mkPool d (<[c := Reply r]> m) h) p.
Proof. intros. eapply rtc_l; [by apply done_step|done]. Qed.

(** [job submit] publishes a job before it has written its status.  A
    sandbox can take the job and report its result in between: the status of
    a job that has run is then [queued] for ever, with its result next to it
    and nothing in the queue. *)
Theorem submit_race_leaves_queued (id name target cmd args : string)
    (Hid : bar_free id) (Hn : bar_free name) (Ht : bar_free target) (Hc : bar_free cmd) :
  exists p, reachable p /\ conns p = ∅ /\ waiting (data p) = [] /\
  handed (history p) = [payload id name target cmd args] /\
  forall now, Store.get_str now (status_key id) (data p) = (Some "queued", false) /\
              Store.get_str now (result_key id) (data p) = (Some "exit_code=0,duration_ms=5", false).
Proof.
  set (pl := payload id name target cmd args).
  eexists. split.
  { unfold reachable, init.
    eapply (run_request ∅ ∅ [] 0%nat "job submit" [id; name; target; cmd; args]);
      [done|done|by vm_compute|by apply not_raw|].
    change (command "job submit" _) with (job_submit [id; name; target; cmd; args]). cbn [job_submit].
    eapply run_op; [reflexivity|]. cbn beta.
    eapply (run_request _ _ _ 1%nat "job next" []);
      [done|done|by vm_compute|by apply not_raw|].
    change (command "job next" _) with job_next. unfold job_next.
    eapply run_op; [reflexivity|]. cbn beta iota. rewrite splitn_payload by done.
    eapply run_op; [reflexivity|]. cbn beta. eapply run_done; [done|].
    eapply (run_request _ _ _ 1%nat "job result" [id; "0"; "5"]);
      [done|done|by vm_compute|by apply not_raw|].
    change (command "job result" _) with (job_result [id; "0"; "5"]).
    change (job_result [id; "0"; "5"]) with
      (Do (SetStr (status_key id) "passed") (fun _ =>
       Do (SetStr (result_key id) "exit_code=0,duration_ms=5") (fun _ =>
       Do (Lpush RESULTS (id +:+ "|" +:+ "passed" +:+ "|" +:+ "5")) (fun _ => Reply (Server.Str "passed"))))).
    do 3 (eapply run_op; [reflexivity|]; cbn beta). eapply run_done; [done|].
    do 2 (eapply run_op; [reflexivity|]; cbn beta). eapply run_done; [done|]. apply rtc_refl. }
  cbn [data conns history]. split; [done|]. split.
  { unfold waiting. by skip_writes. }
  split; [done|]. intros now. split; [apply Store.get_set_same|]. skip_writes. apply Store.get_set_same.
Qed.

End Pool.

(** ** Witnesses *)


Lemma submit_race_leaves_queued_witness :
  exists p, reachable (H := ascii_text) p /\
  Store.get_str (H := ascii_text) 0 (status_key "7") (data p) = (Some "queued", false) /\
  handed (history p) = ["7|build|local|make|-j"].
Proof.
  destruct (submit_race_leaves_queued (H := ascii_text) "7" "build" "local" "make" "-j" eq_refl eq_refl eq_refl eq_refl)
    as (p & Hr & _ & _ & Hh & Hs).
  exists p. split; [done|]. split; [apply Hs|done].
Defined.

End Pool.
