(* ===== verification/Accept.v ===== *)
(** * Accepting connections: [redisdb/src/server.rs]

    [Server::serve] waits for a permit of the semaphore, accepts, counts the
    connection and spawns its task, which serves it ([handle_conn], the steps of
    [Pool.v]), uncounts it, and gives the permit back.  Loop and tasks
    interleave.  The semaphore is tokio's: a class. *)

From stdpp Require Import base strings gmap list numbers relations.
From Stdlib Require Import ZArith Lia.
From S2P Require Import Prelude Text ServerProto Store Handler Pool Streams.
From stdpp Require Import list.

#[local] Open Scope Z_scope.

(** [tokio::sync::Semaphore], as documented: a permit is taken if one is
    available and else waited for; a permit that is dropped is available. *)
Class Semaphore (T : Type) := {
  with_permits : nat -> T;
  available_permits : T -> nat;
  acquire : T -> option T;            (**r [None]: the caller waits *)
  release : T -> T;
  available_new n : available_permits (with_permits n) = n;
  acquire_some s s' : acquire s = Some s' -> available_permits s = S (available_permits s');
  acquire_none s : acquire s = None -> available_permits s = O;
  available_release s : available_permits (release s) = S (available_permits s)
}.

(** The number of permits is one. *)
#[export] Program Instance counting : Semaphore nat := {|
  with_permits n := n;
  available_permits n := n;
  acquire n := match n with O => None | S n => Some n end;
  release n := S n
|}.
Next Obligation. done. Qed.
Next Obligation. by intros [|n] s' [= ->]. Qed.
Next Obligation. by intros [|n] ?. Qed.
Next Obligation. done. Qed.

Module Accept.

Record Config := mkConfig { addr : string; max_connections : nat; read_timeout_secs : Z }.

Definition default_config : Config := mkConfig "127.0.0.1:1234" 1000 30.

(** [max_sem] *)
Definition max_permits (cfg : Config) : nat := if decide (max_connections cfg = 0%nat) then 1000 else max_connections cfg.

(** Where the loop of [serve] is.  Only [Waiting] is without a permit. *)
Inductive phase := Waiting | Listening | Accepted (c : nat) | Counted (c : nat).

(** Where a connection's task is: in [handle_conn], before [dec_conn], before
    the permit is dropped. *)
Inductive task := Serving | Returned | Leaving.

#[export] Instance phase_eq_dec : EqDecision phase.
Proof. solve_decision. Defined.
#[export] Instance task_eq_dec : EqDecision task.
Proof. solve_decision. Defined.

Section Accept.
Context `{RustText} {T : Type} `{Semaphore T}.

#[local] Set Default Proof Using "Type".

Record server := mkServer {
  sem : T;
  stats : Stats.Stats;
  at_phase : phase;
  tasks : gmap nat task;
  pool : Pool.pool;
  accepted : Z;            (**r connections counted so far *)
  panicked : Z             (**r tasks that have panicked *)
}.

Definition new (cfg : Config) : server := mkServer (with_permits (max_permits cfg)) Stats.new_stats Waiting ∅ Pool.init 0 0.

Definition cmd_name (args : list string) : string := default "" (head args).

Inductive step : server -> server -> Prop :=
  | take_permit se st ts p a k se' :
      acquire se = Some se' -> step (mkServer se st Waiting ts p a k) (mkServer se' st Listening ts p a k)
  | accept_error se st ts p a k :
      step (mkServer se st Listening ts p a k) (mkServer (release se) st Waiting ts p a k)
  | accept se st ts p a k c :
      ts !! c = None -> step (mkServer se st Listening ts p a k) (mkServer se st (Accepted c) ts p a k)
  | count se st ts p a k c :
      step (mkServer se st (Accepted c) ts p a k) (mkServer se (Stats.inc_conn st) (Counted c) ts p (a + 1) k)
  | spawn se st ts p a k c :
      step (mkServer se st (Counted c) ts p a k) (mkServer se st Waiting (<[c := Serving]> ts) p a k)
  | request se st ph ts p a k c args cmd :
      ts !! c = Some Serving -> Pool.conns p !! c = None -> Handler.dispatch args = Some cmd ->
      step (mkServer se st ph ts p a k)
           (mkServer se (Stats.inc_cmd (cmd_name args) st) ph ts
              (Pool.mkPool (Pool.data p) (<[c := cmd]> (Pool.conns p)) (Pool.history p)) a k)
  | configuration se st ph ts p a k c args :
      ts !! c = Some Serving -> Pool.conns p !! c = None -> Handler.dispatch args = None ->
      step (mkServer se st ph ts p a k) (mkServer se (Stats.inc_cmd (cmd_name args) st) ph ts p a k)
  | operation se st ph ts p a k c o cont now :
      Pool.conns p !! c = Some (Handler.Do o cont) ->
      let v := (Handler.exec now o (Pool.data p)).1 in
      step (mkServer se st ph ts p a k)
           (mkServer se st ph ts
              (Pool.mkPool (Handler.exec now o (Pool.data p)).2 (<[c := cont v]> (Pool.conns p))
                 (Pool.history p ++ [Pool.mkEvent c o v])) a k)
  | expiry se st ph ts p a k now :
      step (mkServer se st ph ts p a k)
           (mkServer se st ph ts (Pool.mkPool (Store.retain now (Pool.data p)) (Pool.conns p) (Pool.history p)) a k)
  | answer se st ph ts p a k c r :
      Pool.conns p !! c = Some (Handler.Reply r) ->
      step (mkServer se st ph ts p a k)
           (mkServer se st ph ts (Pool.mkPool (Pool.data p) (delete c (Pool.conns p)) (Pool.history p)) a k)
  | read_ends se st ph ts p a k c :
      ts !! c = Some Serving -> Pool.conns p !! c = None ->
      step (mkServer se st ph ts p a k) (mkServer se st ph (<[c := Returned]> ts) p a k)
  | write_fails se st ph ts p a k c r :
      ts !! c = Some Serving -> Pool.conns p !! c = Some (Handler.Reply r) ->
      step (mkServer se st ph ts p a k)
           (mkServer se st ph (<[c := Returned]> ts)
              (Pool.mkPool (Pool.data p) (delete c (Pool.conns p)) (Pool.history p)) a k)
  | panics se st ph ts p a k c :
      ts !! c = Some Serving -> Pool.conns p !! c = Some Handler.Panic ->
      step (mkServer se st ph ts p a k)
           (mkServer (release se) st ph (delete c ts)
              (Pool.mkPool (Pool.data p) (delete c (Pool.conns p)) (Pool.history p)) a (k + 1))
  | uncount se st ph ts p a k c :
      ts !! c = Some Returned ->
      step (mkServer se st ph ts p a k) (mkServer se (Stats.dec_conn st) ph (<[c := Leaving]> ts) p a k)
  | leave se st ph ts p a k c :
      ts !! c = Some Leaving ->
      step (mkServer se st ph ts p a k) (mkServer (release se) st ph (delete c ts) p a k).

Definition reachable (cfg : Config) (s : server) : Prop := rtc step (new cfg) s.

(** ** Tasks that are counted as active *)

Definition counts (t : task) : Prop := t <> Leaving.
#[local] Instance counts_dec t : Decision (counts t) := decide (t <> Leaving).

Definition counted (ts : gmap nat task) : nat := size (filter (fun ct => counts ct.2) ts).

Lemma counted_insert ts c t : ts !! c = None -> counts t -> counted (<[c := t]> ts) = S (counted ts).
Proof.
  intros Hc Ht. unfold counted. rewrite map_filter_insert_True by done.
  apply map_size_insert_None. apply map_lookup_filter_None. by left.
Qed.

Lemma counted_delete ts c t :
  ts !! c = Some t -> counted ts = (counted (delete c ts) + if decide (counts t) then 1 else 0)%nat.
Proof.
  intros Hc. rewrite <- (insert_delete_id ts c t) at 1 by done. case_decide as Ht.
  - rewrite counted_insert by (done || apply lookup_delete_eq). lia.
  - unfold counted. rewrite map_filter_insert_False by done.
    rewrite delete_delete_eq, Nat.add_0_r. done.
Qed.

Lemma counted_update ts c t t' :
  ts !! c = Some t ->
  (counted (<[c := t']> ts) + (if decide (counts t) then 1 else 0) =
   counted ts + if decide (counts t') then 1 else 0)%nat.
Proof.
  intros Hc. rewrite (counted_delete ts c t), (counted_delete (<[c := t']> ts) c t') by (done || apply lookup_insert_eq).
  rewrite delete_insert_eq. lia.
Qed.

(** ** The invariant *)

Definition holds_permit (ph : phase) : nat := match ph with Waiting => 0 | _ => 1 end.
Definition arriving (ph : phase) : nat := match ph with Counted _ => 1 | _ => 0 end.
Definition newcomer (ph : phase) : option nat := match ph with Accepted c | Counted c => Some c | _ => None end.

Record invariant (cfg : Config) (s : server) : Prop := {
  inv_permits : (available_permits (sem s) + size (tasks s) + holds_permit (at_phase s) = max_permits cfg)%nat;
  inv_active : Stats.active_connections (stats s) =
    to_signed 64 (Z.of_nat (counted (tasks s) + arriving (at_phase s)) + panicked s);
  inv_total : Stats.total_connections (stats s) = u64 (accepted s);
  inv_newcomer c : newcomer (at_phase s) = Some c -> tasks s !! c = None;
  inv_conns c cmd : Pool.conns (pool s) !! c = Some cmd -> tasks s !! c = Some Serving;
  inv_pool : rtc (Pool.step_if (admits := fun _ => True)) Pool.init (pool s)
}.

Lemma invariant_new cfg : invariant cfg (new cfg).
Proof. split; cbn; try done. rewrite available_new, map_size_empty. lia. Qed.

Lemma to_signed_add z d : to_signed 64 (to_signed 64 z + d) = to_signed 64 (z + d).
Proof.
  unfold to_signed at 1 3. enough (wrap 64 (to_signed 64 z + d) = wrap 64 (z + d)) as -> by done.
  unfold to_signed. case_tests; [by rewrite wrap_add_l|]. unfold wrap.
  replace (z mod 2 ^ 64 - 2 ^ 64 + d) with (z mod 2 ^ 64 + d + (-1) * 2 ^ 64) by lia.
  by rewrite Z_mod_plus_full, Zplus_mod_idemp_l.
Qed.

Lemma u64_add z d : u64 (u64 z + d) = u64 (z + d).
Proof. apply wrap_add_l. Qed.

Lemma pool_step p p' :
  Pool.step_if (admits := fun _ => True) p p' ->
  rtc (Pool.step_if (admits := fun _ => True)) Pool.init p -> rtc (Pool.step_if (admits := fun _ => True)) Pool.init p'.
Proof. intros Hst Hr. by eapply rtc_r. Qed.

(** What a counter was changed by. *)
Definition active_by (d : Z) (st st' : Stats.Stats) : Prop :=
  Stats.active_connections st' = to_signed 64 (Stats.active_connections st + d) \/
  (Stats.active_connections st' = Stats.active_connections st /\ d = 0).
Definition total_by (d : Z) (st st' : Stats.Stats) : Prop :=
  Stats.total_connections st' = u64 (Stats.total_connections st + d) \/
  (Stats.total_connections st' = Stats.total_connections st /\ d = 0).

Lemma invariant_update cfg se st ph ts p a k se' st' ph' ts' p' a' k' :
  invariant cfg (mkServer se st ph ts p a k) ->
  (available_permits se' + size ts' + holds_permit ph' = available_permits se + size ts + holds_permit ph)%nat ->
  active_by (Z.of_nat (counted ts' + arriving ph') + k' - (Z.of_nat (counted ts + arriving ph) + k)) st st' ->
  total_by (a' - a) st st' ->
  (forall c, newcomer ph' = Some c -> ts' !! c = None) ->
  (forall c cmd, Pool.conns p' !! c = Some cmd -> ts' !! c = Some Serving) ->
  (p' = p \/ Pool.step_if (admits := fun _ => True) p p') ->
  invariant cfg (mkServer se' st' ph' ts' p' a' k').
Proof.
  intros I Hp Ha Ht Hn Hc Hst. destruct I as [I1 I2 I3 _ _ I6]. cbn in *. split; cbn; try done.
  - lia.
  - destruct Ha as [->|[-> E]]; [rewrite I2, to_signed_add|rewrite I2]; f_equal; lia.
  - destruct Ht as [->|[-> E]]; [rewrite I3, u64_add|rewrite I3]; f_equal; lia.
  - destruct Hst as [->|Hst]; [done|]. by eapply pool_step.
Qed.

(** What a change of one task does to the two counts. *)
Lemma size_update (ts : gmap nat task) c t t' : ts !! c = Some t -> size (<[c := t']> ts) = size ts.
Proof. intros Hc. apply map_size_insert_Some. by exists t. Qed.

Lemma size_gone (ts : gmap nat task) c t : ts !! c = Some t -> size ts = S (size (delete c ts)).
Proof.
  intros Hc. rewrite map_size_delete, Hc. assert (size ts <> O); [|lia].
  intros E. apply map_size_empty_inv in E. by rewrite E, lookup_empty in Hc.
Qed.

Lemma counted_serving ts c : ts !! c = Some Serving -> counted (<[c := Returned]> ts) = counted ts.
Proof. intros Hc. pose proof (counted_update ts c Serving Returned Hc) as E. rewrite !decide_True in E by done. lia. Qed.

Lemma counted_uncount ts c : ts !! c = Some Returned -> counted ts = S (counted (<[c := Leaving]> ts)).
Proof.
  intros Hc. pose proof (counted_update ts c Returned Leaving Hc) as E.
  rewrite decide_True, decide_False in E by (done || intros E'; by apply E'). lia.
Qed.

Lemma counted_leave ts c : ts !! c = Some Leaving -> counted (delete c ts) = counted ts.
Proof. intros Hc. rewrite (counted_delete ts c Leaving) by done. rewrite decide_False by (intros E; by apply E). lia. Qed.

Lemma counted_panic ts c : ts !! c = Some Serving -> counted ts = S (counted (delete c ts)).
Proof. intros Hc. rewrite (counted_delete ts c Serving) by done. rewrite decide_True by done. lia. Qed.

(** The connections' commands after a change of one. *)
Lemma serving_insert (m : gmap nat Handler.prog) (ts : gmap nat task) c cmd :
  (forall c cmd, m !! c = Some cmd -> ts !! c = Some Serving) -> ts !! c = Some Serving ->
  forall c' cmd', <[c := cmd]> m !! c' = Some cmd' -> ts !! c' = Some Serving.
Proof. intros Hm Hc c' cmd' [[<- _]|[_ E]]%lookup_insert_Some; [done|by eapply Hm]. Qed.

Lemma serving_delete (m : gmap nat Handler.prog) (ts ts' : gmap nat task) c :
  (forall c cmd, m !! c = Some cmd -> ts !! c = Some Serving) -> (forall c', c' <> c -> ts' !! c' = ts !! c') ->
  forall c' cmd', delete c m !! c' = Some cmd' -> ts' !! c' = Some Serving.
Proof. intros Hm Hts c' cmd' [Hne E]%lookup_delete_Some. rewrite Hts by done. by eapply Hm. Qed.

(** A connection without a command changes or ends. *)
Lemma serving_idle (m : gmap nat Handler.prog) (ts ts' : gmap nat task) c :
  (forall c cmd, m !! c = Some cmd -> ts !! c = Some Serving) -> m !! c = None \/ ts !! c <> Some Serving ->
  (forall c', c' <> c -> ts' !! c' = ts !! c') -> forall c' cmd, m !! c' = Some cmd -> ts' !! c' = Some Serving.
Proof.
  intros Hm Hc Hts c' cmd E. destruct (decide (c' = c)) as [->|Hne]; [|rewrite Hts by done; by eapply Hm].
  destruct Hc as [Hc|Hc]; [congruence|]. by destruct Hc; eapply Hm.
Qed.

Lemma newcomer_insert (n : option nat) (ts : gmap nat task) c t t' :
  (forall c, n = Some c -> ts !! c = None) -> ts !! c = Some t -> forall c', n = Some c' -> <[c := t']> ts !! c' = None.
Proof. intros Hn Hc c' E. rewrite lookup_insert_ne; [by apply Hn|]. intros ->. apply Hn in E. congruence. Qed.

Lemma newcomer_delete (n : option nat) (ts : gmap nat task) c :
  (forall c, n = Some c -> ts !! c = None) -> forall c', n = Some c' -> delete c ts !! c' = None.
Proof. intros Hn c' E. apply lookup_delete_None. right. by apply Hn. Qed.

Lemma lookup_insert_other {A} (m : gmap nat A) c x : forall c', c' <> c -> <[c := x]> m !! c' = m !! c'.
Proof. intros c' Hne. by apply lookup_insert_ne. Qed.

Lemma lookup_delete_other {A} (m : gmap nat A) c : forall c', c' <> c -> delete c m !! c' = m !! c'.
Proof. intros c' Hne. by apply lookup_delete_ne. Qed.

(** Use of [invariant_update], leaving what a step changes. *)
Ltac update I :=
  eapply invariant_update; [exact I|..]; cbn [holds_permit arriving newcomer Pool.conns];
  try done; try (by left); try (by intros ? [= <-]); try (right; split; [done|lia]).

Lemma invariant_step cfg s s' : step s s' -> invariant cfg s -> invariant cfg s'.
Proof.
  intros Hst I. pose proof (inv_newcomer cfg s I) as Hn. pose proof (inv_conns cfg s I) as Hc.
  destruct Hst as [se st ts p a k se' Ha|se st ts p a k|se st ts p a k c Hf|se st ts p a k c|se st ts p a k c
    |se st ph ts p a k c args cmd Hs Hi Hd|se st ph ts p a k c args Hs Hi Hd|se st ph ts p a k c o cont now Ho
    |se st ph ts p a k now|se st ph ts p a k c r Hr|se st ph ts p a k c Hs Hi|se st ph ts p a k c r Hs Hr
    |se st ph ts p a k c Hs Hp|se st ph ts p a k c Hs|se st ph ts p a k c Hs]; cbn in Hn, Hc; update I.
  - apply acquire_some in Ha. lia.
  - rewrite available_release. lia.
  - left. cbn. f_equal. lia.
  - left. cbn. f_equal. lia.
  - rewrite map_size_insert_None by (by apply Hn). lia.
  - right. split; [done|]. rewrite counted_insert; [lia|by apply Hn|done].
  - eapply (serving_idle _ _ _ c); [exact Hc| |apply lookup_insert_other]. right. by rewrite Hn.
  - by eapply serving_insert.
  - right. by apply Pool.step_request with (args := args).
  - eapply serving_insert; [exact Hc|by eapply Hc].
  - right. by apply Pool.step_op.
  - right. by apply Pool.step_expiry.
  - by eapply serving_delete.
  - right. by eapply Pool.step_done.
  - by erewrite size_update.
  - right. rewrite counted_serving by done. split; [done|lia].
  - by eapply newcomer_insert.
  - eapply (serving_idle _ _ _ c); [exact Hc|by left|apply lookup_insert_other].
  - by erewrite size_update.
  - right. rewrite counted_serving by done. split; [done|lia].
  - by eapply newcomer_insert.
  - eapply serving_delete; [exact Hc|apply lookup_insert_other].
  - right. by eapply Pool.step_done.
  - rewrite available_release, (size_gone ts c Serving Hs). lia.
  - right. split; [done|]. rewrite (counted_panic ts c) by done. lia.
  - by apply newcomer_delete.
  - eapply serving_delete; [exact Hc|apply lookup_delete_other].
  - right. by eapply Pool.step_panic.
  - by erewrite size_update.
  - left. cbn. f_equal. rewrite (counted_uncount ts c) by done. lia.
  - by eapply newcomer_insert.
  - eapply (serving_idle _ _ _ c); [exact Hc|right; congruence|apply lookup_insert_other].
  - rewrite available_release, (size_gone ts c Leaving Hs). lia.
  - right. split; [done|]. rewrite counted_leave by done. lia.
  - by apply newcomer_delete.
  - eapply (serving_idle _ _ _ c); [exact Hc|right; congruence|apply lookup_delete_other].
Qed.

Lemma reachable_invariant cfg s : reachable cfg s -> invariant cfg s.
Proof.
  intros Hr. assert (Hi : invariant cfg (new cfg)) by apply invariant_new. revert Hi.
  induction Hr as [|? ? ? Hst _ IH]; [done|]. intros Hi. by eapply IH, invariant_step.
Qed.

(** The number of tasks with a command is at most that of all tasks. *)
Lemma commands_le_tasks (m : gmap nat Handler.prog) (ts : gmap nat task) :
  (forall c cmd, m !! c = Some cmd -> ts !! c = Some Serving) -> (size m <= size ts)%nat.
Proof.
  intros Hm. rewrite <- !size_dom. apply subseteq_size. intros c [cmd E]%elem_of_dom.
  apply elem_of_dom. exists Serving. by eapply Hm.
Qed.

(** C33: The limit on connections holds, and the statistics count what is there,
    except that a task that panics is never uncounted.  Whatever the clients do
    and however the accepting loop and the tasks interleave: there are never
    more tasks than the configuration allows (1000 if it says 0), and so never
    more commands at work; the loop gets its permit exactly when the limit is
    not reached, so that no connection is lost for ever and none is accepted
    above it; [active_connections] is the number of connections counted and not
    yet uncounted, and of the tasks that have panicked; [total_connections]
    that of all connections; and the pool is in a state that [Pool] reaches. *)
Theorem connections_limited cfg s (Hr : reachable cfg s) :
  let counted_now := Z.of_nat (counted (tasks s) + arriving (at_phase s)) in
  (size (tasks s) <= max_permits cfg)%nat /\
  (size (Pool.conns (pool s)) <= size (tasks s))%nat /\
  (at_phase s = Waiting -> is_Some (acquire (sem s)) <-> (size (tasks s) < max_permits cfg)%nat) /\
  Stats.active_connections (stats s) = to_signed 64 (counted_now + panicked s) /\
  Stats.total_connections (stats s) = u64 (accepted s) /\
  rtc (Pool.step_if (admits := fun _ => True)) Pool.init (pool s).
Proof.
  apply reachable_invariant in Hr as [I1 I2 I3 I4 I5 I6]. split_and!; try done.
  - lia.
  - by apply commands_le_tasks.
  - intros Hw. rewrite Hw in I1. cbn in I1. split.
    + intros [se Ha]. apply acquire_some in Ha. lia.
    + intros Hlt. destruct (acquire (sem s)) as [se|] eqn:Ha; [by exists se|]. apply acquire_none in Ha. lia.
Qed.

End Accept.

(** A client asks for a range up to the greatest integer: its task panics, and
    the connection that is gone stays active. *)
Lemma connections_limited_witness :
  let cfg := mkConfig "127.0.0.1:1234" 1 30 in
  exists s, reachable (H := ascii_text) (T := nat) cfg s /\ (size (tasks s) <= 1)%nat /\
    tasks s = ∅ /\ at_phase s = Waiting /\ Stats.active_connections (stats s) = 1.
Proof.
  assert (exists s, reachable (H := ascii_text) (T := nat) (mkConfig "127.0.0.1:1234" 1 30) s /\
    tasks s = ∅ /\ at_phase s = Waiting /\ panicked s = 1) as (s & Hr & Ht & Hp & Hk).
  { eexists. split.
    { unfold reachable, new. cbn.
      eapply rtc_l; [by apply take_permit|]. eapply rtc_l; [apply (accept _ _ _ _ _ _ 7); reflexivity|].
      eapply rtc_l; [apply count|]. eapply rtc_l; [apply spawn|].
      eapply rtc_l; [eapply (request _ _ _ _ _ _ _ 7 ["lpush"; "k"; "x"]); [reflexivity|reflexivity|vm_compute; reflexivity]|].
      eapply rtc_l; [eapply (operation _ _ _ _ _ _ _ 7 _ _ 0); vm_compute; reflexivity|].
      eapply rtc_l; [eapply (answer _ _ _ _ _ _ _ 7); vm_compute; reflexivity|].
      eapply rtc_l; [eapply (request _ _ _ _ _ _ _ 7 ["lrange"; "k"; "0"; "9223372036854775807"]);
        [reflexivity|reflexivity|vm_compute; reflexivity]|].
      eapply rtc_l; [eapply (operation _ _ _ _ _ _ _ 7 _ _ 0); vm_compute; reflexivity|].
      eapply rtc_l; [eapply (panics _ _ _ _ _ _ _ 7); vm_compute; reflexivity|]. apply rtc_refl. }
    by vm_compute. }
  exists s. destruct (connections_limited _ s Hr) as (H1 & _ & _ & H4 & _). split_and!; try done.
  rewrite H4, Ht, Hp, Hk. reflexivity.
Defined.

End Accept.
