(* ===== verification/Types.v ===== *)
(** * Types of the server's keys

    The store holds strings, byte strings, sorted sets and lists under one
    name space of keys; the handler's commands take for granted which of
    them hold lists and which hold text.  Here that assumption is an invariant
    of the concurrent server of [Pool.v]. *)

From stdpp Require Import base strings gmap list numbers relations.
From Stdlib Require Import ZArith Lia.
From S2P Require Import Prelude Text ServerProto Store Handler Pool.

Module Types.
Import Handler Pool.

Section Types.
Context `{RustText}.

#[local] Set Default Proof Using "Type".

Definition COLON : byte := byte_of 58.
Definition colon_free (s : string) : Prop := all_chars (fun a => negb (bool_decide (a = COLON))) s = true.

(** The keys the handler uses as lists, and those it uses as text. *)
Definition list_key (key : string) : Prop :=
  key = QUEUE \/ key = RESULTS \/ key = METRICS \/ exists id, key = log_key id.

Definition text_key (key : string) : Prop :=
  (exists id, colon_free id /\ key = job_key id) \/
  exists id, key = status_key id \/ key = result_key id \/ key = sandbox_key id \/
             key = sandbox_status_key id \/ key = sandbox_job_key id.

(** Every entry under a key of the handler has the type the handler expects. *)
Definition typed (st : Store.store) : Prop :=
  forall key e, st !! key = Some e ->
    (list_key key -> exists l, Store.typ e = Store.VList l) /\
    (text_key key -> exists s, Store.typ e = Store.VStr s).

(** ** The two kinds of keys are apart *)

Lemma colon_free_app s t : colon_free (s +:+ t) <-> colon_free s /\ colon_free t.
Proof. unfold colon_free. by rewrite all_chars_app, andb_true_iff. Qed.

Lemma log_not_status id id' : log_key id <> status_key id'.
Proof.
  unfold status_key, log_key. intros E. apply (inj (String.append "devops:job:")) in E.
  change ":status" with (":st" +:+ "atus") in E. rewrite string_app_assoc in E. by apply app_suffix_eq in E.
Qed.

Lemma log_not_result id id' : log_key id <> result_key id'.
Proof.
  unfold result_key, log_key. intros E. apply (inj (String.append "devops:job:")) in E.
  change ":result" with (":re" +:+ "sult") in E. rewrite string_app_assoc in E. by apply app_suffix_eq in E.
Qed.

Lemma log_not_job id id' : colon_free id' -> log_key id <> job_key id'.
Proof.
  unfold job_key, log_key. intros Hc E. apply (inj (String.append "devops:job:")) in E. subst id'.
  apply colon_free_app in Hc as [_ Hc]. done.
Qed.

Lemma kinds_apart key : list_key key -> text_key key -> False.
Proof.
  intros [-> | [-> | [-> | [id ->]]]] [(id' & Hc & E) | (id' & [E | [E | [E | [E | E]]]])]; try discriminate.
  - by apply log_not_job in E.
  - by apply log_not_status in E.
  - by apply log_not_result in E.
Qed.

(** ** Operations *)

(** An operation that stores a value of the key's type. *)
Definition op_typed (o : op) : Prop :=
  match o with
  | SetStr key _ => ~ list_key key
  | Lpush key _ => ~ text_key key
  | ZAdd key _ _ | SetBit key _ _ => ~ list_key key /\ ~ text_key key
  | _ => True
  end.

Lemma typed_insert st key e :
  typed st -> (list_key key -> exists l, Store.typ e = Store.VList l) ->
  (text_key key -> exists s, Store.typ e = Store.VStr s) -> typed (<[key := e]> st).
Proof.
  intros Ht H1 H2 key' e' Hk. destruct (decide (key = key')) as [<-|Hne].
  - rewrite lookup_insert_eq in Hk. by injection Hk as <-.
  - rewrite lookup_insert_ne in Hk by done. by apply Ht in Hk.
Qed.

Lemma typed_delete st key : typed st -> typed (delete key st).
Proof. intros Ht key' e Hk. apply lookup_delete_Some in Hk as [_ Hk]. by apply Ht in Hk. Qed.

(** An entry of the same type in the place of another. *)
Definition same_type (v v' : Store.Value) : Prop :=
  match v, v' with
  | Store.VList _, Store.VList _ | Store.VStr _, Store.VStr _ => True
  | Store.VZSet _, _ | Store.VBytes _, _ => True
  | _, _ => False
  end.

Lemma typed_same st key e v t :
  typed st -> st !! key = Some e -> same_type (Store.typ e) v -> typed (<[key := Store.mkEntry v t]> st).
Proof.
  intros Ht Hk Hs. destruct (Ht _ _ Hk) as [Hl Hx].
  apply typed_insert; [done|intros Hkey; destruct (Hl Hkey) as [l E]|intros Hkey; destruct (Hx Hkey) as [x E]];
    rewrite E in Hs; cbn; destruct v; try done; by eexists.
Qed.

(** A key of neither kind takes any value. *)
Lemma typed_neither st key e : typed st -> ~ list_key key /\ ~ text_key key -> typed (<[key := e]> st).
Proof. intros Ht [Hl Hx]. by apply typed_insert. Qed.

Ltac kept :=
  eapply typed_same; [done|eassumption|];
  first [by destruct (Store.typ _) | repeat match goal with E : Store.typ _ = _ |- _ => rewrite E end; done].

Lemma exec_typed now o st : typed st -> op_typed o -> typed (exec now o st).2.
Proof.
  intros Ht Ho. destruct (writes o) as [key|] eqn:Ew; [|by rewrite exec_reads].
  destruct o; cbn in *; try done; injection Ew as ->; try (by apply typed_delete); try (by apply typed_insert);
    unfold Store.set_str, Store.lpush, Store.rpop, Store.lpop, Store.expire, Store.z_add, Store.z_rem, Store.lrem,
      Store.set_bit;
    try (apply typed_insert; [done|done|by eexists]);
    (destruct (st !! key) as [e|] eqn:E; cbn; [|first [done|by apply typed_neither|by apply typed_insert; [..|eexists|]]]);
    repeat (case_match; cbn); try done; try (by apply typed_neither); kept.
Qed.

Lemma typed_retain now st : typed st -> typed (Store.retain now st).
Proof. intros Ht key e Hk. apply map_lookup_filter_Some in Hk as [Hk _]. by apply Ht in Hk. Qed.

(** ** Commands *)

(** Requests that respect the handler's keys: plain writes go to keys of the
    right kind, sorted sets and bits to keys of their own, and the id of a submitted job has no colon. *)
Definition respects_types (args : list string) : Prop :=
  match args with
  | name :: key :: _ =>
      (to_lowercase name = "set" -> ~ list_key key) /\
      (to_lowercase name = "lpush" \/ to_lowercase name = "rpush" -> ~ text_key key) /\
      (to_lowercase name ∈ ["zadd"; "setbit"; "clearbit"; "bfset"] -> ~ list_key key /\ ~ text_key key) /\
      (to_lowercase name = "job submit" -> colon_free key)
  | _ => True
  end.

Lemma not_list_status id : ~ list_key (status_key id).
Proof. intros [E|[E|[E|[id' E]]]]; try discriminate. by apply eq_sym, log_not_status in E. Qed.
Lemma not_list_result id : ~ list_key (result_key id).
Proof. intros [E|[E|[E|[id' E]]]]; try discriminate. by apply eq_sym, log_not_result in E. Qed.
Lemma not_list_job id : colon_free id -> ~ list_key (job_key id).
Proof. intros Hc [E|[E|[E|[id' E]]]]; try discriminate. by apply eq_sym, log_not_job in E. Qed.
Lemma not_list_sandbox id :
  ~ list_key (sandbox_key id) /\ ~ list_key (sandbox_status_key id) /\ ~ list_key (sandbox_job_key id).
Proof. split_and!; intros [E|[E|[E|[id' E]]]]; discriminate. Qed.
Lemma not_text_list key : list_key key -> ~ text_key key.
Proof. intros Hl Ht. by apply (kinds_apart key). Qed.

Lemma not_list_ts name : ~ list_key ("ts:" +:+ name).
Proof. intros [E|[E|[E|[id' E]]]]; discriminate. Qed.
Lemma not_text_ts name : ~ text_key ("ts:" +:+ name).
Proof. intros [(id' & _ & E)|(id' & [E|[E|[E|[E|E]]]])]; discriminate. Qed.
Lemma metrics_ts_own : ~ list_key "devops:metrics:ts" /\ ~ text_key "devops:metrics:ts".
Proof. split; [intros [E|[E|[E|[id' E]]]]|intros [(id' & _ & E)|(id' & [E|[E|[E|[E|E]]]])]]; discriminate. Qed.

Create HintDb keys.
#[local] Hint Resolve not_list_status not_list_result not_list_job : keys.
#[local] Hint Extern 1 (~ list_key (sandbox_key _)) => apply not_list_sandbox : keys.
#[local] Hint Extern 1 (~ list_key (sandbox_status_key _)) => apply not_list_sandbox : keys.
#[local] Hint Extern 1 (~ list_key (sandbox_job_key _)) => apply not_list_sandbox : keys.
#[local] Hint Resolve not_text_ts : keys.
#[local] Hint Extern 1 (~ _ "devops:metrics:ts") => apply metrics_ts_own : keys.
#[local] Hint Extern 1 (~ list_key ("ts:meta:" +:+ _)) => apply (not_list_ts ("meta:" +:+ _)) : keys.
#[local] Hint Extern 1 (~ text_key METRICS) => apply not_text_list; do 2 right; by left : keys.
#[local] Hint Extern 1 (~ text_key QUEUE) => apply not_text_list; by left : keys.
#[local] Hint Extern 1 (~ text_key RESULTS) => apply not_text_list; right; by left : keys.
#[local] Hint Extern 1 (~ text_key (log_key _)) => apply not_text_list; do 3 right; by eexists : keys.

Lemma dispatch_typed args cmd : dispatch args = Some cmd -> respects_types args -> every op_typed cmd.
Proof.
  unfold dispatch. destruct args as [|name args]; [intros [= <-] _; done|].
  case_decide as Hn; [done|]. intros [= <-] Hr. clear Hn.
  assert (Hset : forall key rest, args = key :: rest -> to_lowercase name = "set" -> ~ list_key key)
    by (intros key rest ->; apply Hr).
  assert (Hpush : forall key rest, args = key :: rest -> to_lowercase name = "lpush" \/ to_lowercase name = "rpush" ->
    ~ text_key key) by (intros key rest ->; apply Hr).
  assert (Hown : forall key rest, args = key :: rest -> to_lowercase name ∈ ["zadd"; "setbit"; "clearbit"; "bfset"] ->
    ~ list_key key /\ ~ text_key key) by (intros key rest ->; apply Hr).
  assert (Hsub : forall key rest, args = key :: rest -> to_lowercase name = "job submit" -> colon_free key)
    by (intros key rest ->; apply Hr).
  clear Hr. each_command; unfold_commands;
  every_tac ltac:(first [done | cbn [op_typed]; solve [eauto using not_list_job with keys]
    | eapply Hown; [reflexivity|]; rewrite Ecmd; set_solver]).
Qed.

(** ** The invariant *)

Definition pool_typed (p : pool) : Prop :=
  typed (data p) /\ map_Forall (fun _ => every op_typed) (conns p).

Lemma step_typed p p' : step_if (admits := respects_types) p p' -> pool_typed p -> pool_typed p'.
Proof.
  intros Hst (Ht & Hc). destruct Hst as [p c args cmd _ Hd Hr|p c o k now E|p c r E|p c E|p now]; split; cbn; try done.
  - apply map_Forall_insert_2; [by eapply dispatch_typed|done].
  - apply exec_typed; [done|]. by pose proof (map_Forall_lookup_1 _ _ _ _ Hc E) as [Ho _].
  - pose proof (map_Forall_lookup_1 _ _ _ _ Hc E) as [_ Hk]. by apply map_Forall_insert_2.
  - by apply map_Forall_delete.
  - by apply map_Forall_delete.
  - by apply typed_retain.
Qed.

(** C27: keys keep their types.  However the commands of any number of
    connections interleave, as long as plain [set] and [push] requests stay
    off the handler's keys of the other kind, sorted sets and bits off both, and the ids of submitted jobs
    have no colon, the queue, the results, the metrics and every job's log
    are lists, and every job's and sandbox's record, status and result is
    text.  So a status is always readable as a string, and a log that exists
    is read as the list it is. *)
Theorem key_types_kept p (Hp : rtc (step_if (admits := respects_types)) init p) :
  typed (data p) /\
  (forall now id, (Store.get_str now (status_key id) (data p)).2 = false) /\
  (forall id, is_Some (data p !! log_key id) -> is_Some (Store.list_at (log_key id) (data p))).
Proof.
  assert (Ht : pool_typed p).
  { assert (Hi : pool_typed init) by (split; [intros key e Hk; cbn in Hk; by apply lookup_empty_Some in Hk|apply map_Forall_empty]).
    revert Hi. induction Hp as [|? ? ? Hst _ IH]; [done|]. intros Hi. by eapply IH, step_typed. }
  destruct Ht as [Ht _]. split_and!; [done| |].
  - intros now id. unfold Store.get_str. destruct (data p !! status_key id) as [e|] eqn:E; [|done].
    destruct (proj2 (Ht _ _ E)) as [s Es]; [right; exists id; by left|]. rewrite Es. by case_match.
  - intros id [e E]. destruct (proj1 (Ht _ _ E)) as [l El]; [do 3 right; by exists id|].
    unfold Store.list_at. rewrite E, El. by eexists.
Qed.

(** Why the colon matters: the record of the job ["7:log"] is the log of the
    job ["7"]. *)
Lemma colon_id_replaces_log id name target command st now :
  (run now (job_submit [id +:+ ":log"; name; target; command]) st).2 !! log_key id =
  Some (Store.mkEntry (Store.VStr (payload (id +:+ ":log") name target command "")) None).
Proof.
  change (job_key (id +:+ ":log")) with (log_key id). cbn [job_submit run exec String.concat].
  change (job_key (id +:+ ":log")) with (log_key id). cbn [snd].
  rewrite Store.set_str_other, Store.set_str_eq; [done|]. by intros E%eq_sym%log_not_status.
Qed.

End Types.

(** ** Witnesses *)

(** A job has been submitted and its status is written. *)
Lemma key_types_kept_witness :
  exists p, rtc (step_if (H := ascii_text) (admits := respects_types (H := ascii_text))) init p /\
  data p !! status_key "7" = Some (Store.mkEntry (Store.VStr "queued") None) /\
  (Store.get_str (H := ascii_text) 0 (status_key "7") (data p)).2 = false.
Proof.
  assert (exists p, rtc (step_if (H := ascii_text) (admits := respects_types (H := ascii_text))) init p /\
    data p !! status_key "7" = Some (Store.mkEntry (Store.VStr "queued") None)) as (p & Hr & Hs).
  { eexists. split.
    - eapply rtc_l; [eapply (step_request (H := ascii_text) _ 0%nat ["job submit"; "7"; "build"; "local"; "make"]);
        [reflexivity|by apply (dispatch_lower (H := ascii_text))
         |split_and!; [intros E; vm_compute in E; discriminate
                      |intros [E|E]; vm_compute in E; discriminate
                      |intros Hin; exfalso; refine (bool_decide_eq_false_1 _ _ Hin); vm_compute; reflexivity
                      |intros _; reflexivity]]|].
      eapply rtc_l; [eapply (step_op (H := ascii_text)) with (c := 0%nat) (now := 0); reflexivity|].
      eapply rtc_l; [eapply (step_op (H := ascii_text)) with (c := 0%nat) (now := 0); reflexivity|].
      eapply rtc_l; [eapply (step_op (H := ascii_text)) with (c := 0%nat) (now := 0); reflexivity|]. apply rtc_refl.
    - vm_compute. reflexivity. }
  exists p. split; [exact Hr|]. split; [exact Hs|].
  apply (key_types_kept (H := ascii_text) p Hr).
Defined.

End Types.
