(* ===== verification/Main.v ===== *)
(** * The job loop: [sandbox/src/main.cpp]

    The command-line options, what one turn of the main loop does with the
    reply to [job next], and the loop.  A turn composes the security
    manager's verdict with [Sandbox::run] and the network namespaces; its
    effects are a list of actions, and [perform] carries the requests among
    them out with the Redis client.  The code ignores the replies to all of
    them.  The start-up and the end of the
    program are in [Startup.v].  Not modelled: messages on the terminal. *)

From stdpp Require Import base strings gmap list numbers.
From Stdlib Require Import ZArith Lia.
From S2P Require Import Prelude Text Wire ServerProto RedisClient LogAggregator Security NetNS Sandbox.

Module Main.

(** ** Options *)

Record Options := mkOptions {
  host : string;
  port : Z;                 (**r uint16_t *)
  sandbox_id : string;
  target_type : string;
  metrics_port : Z;         (**r uint16_t *)
  watch_path : string;
  use_seccomp : bool;
  security_profile : string;
  enable_netns : bool;
  enable_ipc : bool;
  max_restarts : Z          (**r uint32_t *)
}.

Definition default_options : Options :=
  mkOptions "127.0.0.1" 1234 "cpp-sandbox-1" "local" 9090 "" true "standard" false false 3.

(** What [getopt_long] reports: an option with its argument, or a character
    that is none. *)
Inductive opt :=
  | OptHost (a : string) | OptPort (a : string) | OptId (a : string) | OptType (a : string)
  | OptMetrics (a : string) | OptWatch (a : string) | OptNoSeccomp | OptSecurity (a : string)
  | OptNetns | OptIpc | OptRestarts (a : string) | OptHelp | OptUnknown.

(** The loop over the options: the exit status, or the options. *)
Fixpoint parse_options (opts : list opt) (o : Options) : outcome (Z + Options) :=
  match opts with
  | [] => Ret (inr o)
  | OptHost a :: opts => parse_options opts
      (mkOptions a (port o) (sandbox_id o) (target_type o) (metrics_port o) (watch_path o) (use_seccomp o)
         (security_profile o) (enable_netns o) (enable_ipc o) (max_restarts o))
  | OptPort a :: opts => n ← stoi a; parse_options opts
      (mkOptions (host o) (wrap 16 n) (sandbox_id o) (target_type o) (metrics_port o) (watch_path o) (use_seccomp o)
         (security_profile o) (enable_netns o) (enable_ipc o) (max_restarts o))
  | OptId a :: opts => parse_options opts
      (mkOptions (host o) (port o) a (target_type o) (metrics_port o) (watch_path o) (use_seccomp o)
         (security_profile o) (enable_netns o) (enable_ipc o) (max_restarts o))
  | OptType a :: opts => parse_options opts
      (mkOptions (host o) (port o) (sandbox_id o) a (metrics_port o) (watch_path o) (use_seccomp o)
         (security_profile o) (enable_netns o) (enable_ipc o) (max_restarts o))
  | OptMetrics a :: opts => n ← stoi a; parse_options opts
      (mkOptions (host o) (port o) (sandbox_id o) (target_type o) (wrap 16 n) (watch_path o) (use_seccomp o)
         (security_profile o) (enable_netns o) (enable_ipc o) (max_restarts o))
  | OptWatch a :: opts => parse_options opts
      (mkOptions (host o) (port o) (sandbox_id o) (target_type o) (metrics_port o) a (use_seccomp o)
         (security_profile o) (enable_netns o) (enable_ipc o) (max_restarts o))
  | OptNoSeccomp :: opts => parse_options opts
      (mkOptions (host o) (port o) (sandbox_id o) (target_type o) (metrics_port o) (watch_path o) false
         (security_profile o) (enable_netns o) (enable_ipc o) (max_restarts o))
  | OptSecurity a :: opts => parse_options opts
      (mkOptions (host o) (port o) (sandbox_id o) (target_type o) (metrics_port o) (watch_path o) (use_seccomp o)
         a (enable_netns o) (enable_ipc o) (max_restarts o))
  | OptNetns :: opts => parse_options opts
      (mkOptions (host o) (port o) (sandbox_id o) (target_type o) (metrics_port o) (watch_path o) (use_seccomp o)
         (security_profile o) true (enable_ipc o) (max_restarts o))
  | OptIpc :: opts => parse_options opts
      (mkOptions (host o) (port o) (sandbox_id o) (target_type o) (metrics_port o) (watch_path o) (use_seccomp o)
         (security_profile o) (enable_netns o) true (max_restarts o))
  | OptRestarts a :: opts => n ← stoi a; parse_options opts
      (mkOptions (host o) (port o) (sandbox_id o) (target_type o) (metrics_port o) (watch_path o) (use_seccomp o)
         (security_profile o) (enable_netns o) (enable_ipc o) (u32 n))
  | OptHelp :: _ => Ret (inl 0)
  | OptUnknown :: _ => Ret (inl 1)
  end.

(** ** One turn of the loop *)

(** What a turn does, apart from waiting for [job next]. *)
Inductive action :=
  | Request (args : list string)                       (**r a call of the Redis client *)
  | LogPush (source level message : string)
  | LogRaw (source line : string)
  | Count (name : string) (labels : list (string * string))
  | Observe (name : string) (value : Z)                (**r histogram *)
  | SetGauge (name : string) (value : Z)
  | RunSandbox (cfg : Sandbox.SandboxConfig) (command : string) (trace : list Sandbox.sys_op)
  | CreateNamespace (id : string)
  | RemoveNamespace (id : string)
  | Sleep (ms : Z).

(** The arguments of the wrappers of [RedisClient]. *)
Definition job_result (id : string) (code ms : Z) : action := Request ["job result"; id; to_string code; to_string ms].
Definition job_log (id line : string) : action := Request ["job log"; id; line].
Definition sandbox_claim (id job : string) : action := Request ["sandbox claim"; id; job].
Definition sandbox_release (id : string) : action := Request ["sandbox release"; id].

(** The rest of the machine during a turn: whether the namespace is created,
    the kernel as [Sandbox::run] meets it, the clock around the run. *)
Record surroundings := mkSurroundings {
  netns_created : bool;
  sandbox_kernel : Sandbox.kernel;
  started_ms : Z;
  ended_ms : Z
}.

Record counters := mkCounters { jobs_completed : Z; jobs_failed : Z }.

(** [output_fn]. *)
Definition on_output (job_id line : string) : list action :=
  [job_log job_id (String.substring 0 1000 line); LogRaw ("sandbox:" +:+ job_id) line].

(** The configuration the job runs with. *)
Definition sandbox_config (o : Options) (job_id target : string) : Sandbox.SandboxConfig :=
  let d := Sandbox.default_config job_id in
  Sandbox.mkConfig job_id (Sandbox.rootfs d) (Sandbox.memory_limit_bytes d) (Sandbox.cpu_quota_us d)
    (Sandbox.cpu_period_us d) (Sandbox.pids_limit d)
    (bool_decide (target = "network") || enable_netns o) (use_seccomp o).

(** The turn of a job with at least five fields. *)
Definition run_job (o : Options) (sec : Security.SecurityManager) (e : surroundings)
    (job_id job_name target command : string) (n : counters) : outcome (list action * counters) :=
  let start :=
    [LogPush "scheduler" "info" ("running job: " +:+ job_id +:+ " (" +:+ job_name +:+ ")");
     Count "sandbox.jobs_started_total" [("target", target)];
     sandbox_claim (sandbox_id o) job_id] in
  if negb (Security.result_allowed (Security.validate_command command (security_profile o) sec)) then
    Ret (start ++ [job_log job_id "SECURITY: command blocked by policy";
                   job_result job_id 126 0; sandbox_release (sandbox_id o)], n)
  else
    let namespace :=
      if enable_netns o then
        CreateNamespace job_id :: (if netns_created e then [job_log job_id "sandbox: network namespace created"] else [])
      else [] in
    let cfg := sandbox_config o job_id target in
    '(result, lines, _, trace) ← Sandbox.run (sandbox_kernel e) command (Sandbox.new_sandbox cfg);
    let code := Sandbox.exit_code result in
    let duration := ended_ms e - started_ms e in
    let n := if code =? 0 then mkCounters (u64 (jobs_completed n + 1)) (jobs_failed n)
             else mkCounters (jobs_completed n) (u64 (jobs_failed n + 1)) in
    Ret (start ++ namespace ++
         [job_log job_id "sandbox: starting execution"; RunSandbox cfg command trace] ++
         concat (on_output job_id <$> lines) ++
         [job_result job_id code duration;
          Count "sandbox.jobs_completed_total" [("target", target); ("exit_code", to_string code)];
          Observe "sandbox.execution_duration_ms" duration;
          if code =? 0
          then LogPush "scheduler" "info" ("job " +:+ job_id +:+ " PASSED (" +:+ to_string duration +:+ "ms)")
          else LogPush "scheduler" "error" ("job " +:+ job_id +:+ " FAILED (exit=" +:+ to_string code +:+ ")");
          SetGauge "sandbox.jobs_completed" (jobs_completed n);
          SetGauge "sandbox.jobs_failed" (jobs_failed n)] ++
         (if enable_netns o && netns_created e then [RemoveNamespace job_id] else []) ++
         [sandbox_release (sandbox_id o); Sleep 100], n).

(** A turn, by the reply to [job next]. *)
Definition job_turn (o : Options) (sec : Security.SecurityManager) (e : surroundings)
    (job_resp : option Redis.Response) (n : counters) : outcome (list action * counters) :=
  match job_resp with
  | None => Ret ([Sleep 500], n)
  | Some r =>
      if Redis.is_nil r then Ret ([Sleep 500], n)
      else if Redis.is_error r then Ret ([Sleep 1000], n)
      else
        match Redis.as_arr r with
        | id :: name :: target :: command :: _ :: _ =>
            run_job o sec e (Redis.as_str id) (Redis.as_str name) (Redis.as_str target) (Redis.as_str command) n
        | _ => Ret ([], n)
        end
  end.

(** The loop, until a signal clears [g_running]: one reply per turn. *)
Fixpoint main_loop (o : Options) (sec : Security.SecurityManager) (turns : list (option Redis.Response * surroundings))
    (n : counters) : outcome (list action * counters) :=
  match turns with
  | [] => Ret ([], n)
  | (r, e) :: turns =>
      '(a, n) ← job_turn o sec e r n;
      '(rest, n) ← main_loop o sec turns n;
      Ret (a ++ rest, n)
  end.

(** The requests of a list of actions, sent one after the other. *)
Fixpoint perform (reserve_ok : Z -> bool) (l : list action) (c : Redis.RedisClient) : outcome Redis.RedisClient :=
  match l with
  | [] => Ret c
  | Request args :: l => '(_, c) ← Redis.send reserve_ok args c; perform reserve_ok l c
  | _ :: l => perform reserve_ok l c
  end.

(** ** Lemmas *)

(** The requests are those of the client's wrappers. *)
Lemma perform_wrappers reserve_ok id code ms line job c :
  perform reserve_ok [job_result id code ms] c = (r ← Redis.job_result reserve_ok id code ms c; Ret r.2) /\
  perform reserve_ok [job_log id line] c = (r ← Redis.job_log reserve_ok id line c; Ret r.2) /\
  perform reserve_ok [sandbox_claim id job] c = (r ← Redis.sandbox_claim reserve_ok id job c; Ret r.2) /\
  perform reserve_ok [sandbox_release id] c = (r ← Redis.sandbox_release reserve_ok id c; Ret r.2).
Proof.
  cbn [perform job_result job_log sandbox_claim sandbox_release].
  unfold Redis.job_result, Redis.job_log, Redis.sandbox_claim, Redis.sandbox_release.
  repeat split; by destruct (Redis.send _ _ _) as [[? ?]| | |].
Qed.

Fixpoint requests (l : list action) : list (list string) :=
  match l with [] => [] | Request a :: l => a :: requests l | _ :: l => requests l end.

Lemma requests_app l l' : requests (l ++ l') = requests l ++ requests l'.
Proof. induction l as [|[] l IH]; cbn; by rewrite ?IH. Qed.

Lemma requests_cons a acts : requests (a :: acts) = requests [a] ++ requests acts.
Proof. by destruct a. Qed.

Lemma requests_output job_id lines :
  requests (concat (on_output job_id <$> lines)) =
  (fun line => ["job log"; job_id; String.substring 0 1000 line]) <$> lines.
Proof. induction lines as [|l lines IH]; [done|]. cbn. by rewrite IH. Qed.

(** What ran in the sandbox. *)
Fixpoint runs_of (l : list action) : list string :=
  match l with [] => [] | RunSandbox _ cmd _ :: l => cmd :: runs_of l | _ :: l => runs_of l end.

Lemma runs_of_app l l' : runs_of (l ++ l') = runs_of l ++ runs_of l'.
Proof. induction l as [|[] l IH]; cbn; by rewrite ?IH. Qed.

Lemma runs_of_output job_id lines : runs_of (concat (on_output job_id <$> lines)) = [].
Proof. by induction lines. Qed.

(** What a job's turn reports: its log, exit code and duration. *)
Definition job_outcome (o : Options) (sec : Security.SecurityManager) (e : surroundings)
    (job_id target command : string) : outcome (list string * Z * Z) :=
  if Security.result_allowed (Security.validate_command command (security_profile o) sec) then
    '(res, lines, _, _) ← Sandbox.run (sandbox_kernel e) command (Sandbox.new_sandbox (sandbox_config o job_id target));
    Ret ((if enable_netns o && netns_created e then ["sandbox: network namespace created"] else []) ++
         ["sandbox: starting execution"] ++ (String.substring 0 1000 <$> lines),
         Sandbox.exit_code res, ended_ms e - started_ms e)
  else Ret (["SECURITY: command blocked by policy"], 126, 0).

Definition report (sandbox id : string) (logs : list string) (code ms : Z) : list (list string) :=
  ["sandbox claim"; sandbox; id] :: ((fun line => ["job log"; id; line]) <$> logs) ++
  [["job result"; id; to_string code; to_string ms]; ["sandbox release"; sandbox]].

(** The counters after a job. *)
Definition count_job (allowed : bool) (code : Z) (n : counters) : counters :=
  if allowed then
    if code =? 0 then mkCounters (u64 (jobs_completed n + 1)) (jobs_failed n)
    else mkCounters (jobs_completed n) (u64 (jobs_failed n + 1))
  else n.

Lemma run_job_reports o sec e id name target command n logs code ms :
  job_outcome o sec e id target command = Ret (logs, code, ms) ->
  let allowed := Security.result_allowed (Security.validate_command command (security_profile o) sec) in
  exists acts, run_job o sec e id name target command n = Ret (acts, count_job allowed code n) /\
    requests acts = report (sandbox_id o) id logs code ms /\
    runs_of acts = (if allowed then [command] else []).
Proof.
  unfold job_outcome, run_job, report.
  destruct (Security.result_allowed _); cbn [negb]; [|intros [= <- <- <-]; by eexists].
  destruct (Sandbox.run _ _ _) as [[[[res lines] s'] trace]| | |]; cbn [mbind outcome_bind]; try done.
  intros [= <- <- <-]. eexists. split; [reflexivity|].
  set (n' := if Sandbox.exit_code res =? 0 then _ else _).
  rewrite !runs_of_app, !requests_app, runs_of_output, requests_output, !fmap_app.
  split; destruct (enable_netns o), (netns_created e), (Sandbox.exit_code res =? 0); cbn;
    by rewrite ?app_nil_r, <- ?list_fmap_compose, <- ?app_assoc.
Qed.

(** The reply to [job next] that carries a job. *)
Lemma job_turn_job o sec e r n id name target command x rest :
  r = Redis.mkResponse Redis.Arr 0 "" "" 0 0 (id :: name :: target :: command :: x :: rest) ->
  job_turn o sec e (Some r) n =
  run_job o sec e (Redis.as_str id) (Redis.as_str name) (Redis.as_str target) (Redis.as_str command) n.
Proof. by intros ->. Qed.

(** ** Properties *)

(** C5: a command the security manager refuses never runs.  The turn of such a
    job is, action for action: a line in the log and the count of jobs begun,
    then the requests that claim the job, tell it so in its log, give it the
    result 126 and release the sandbox.  There is no run in a sandbox, no
    network namespace created or removed, no other metric and no pause, and
    the counters stay. *)
Theorem blocked_command_never_runs o sec e (id name target command x : Redis.Response) rest n r
    (Hr : r = Redis.mkResponse Redis.Arr 0 "" "" 0 0 (id :: name :: target :: command :: x :: rest))
    (Hb : Security.result_allowed
            (Security.validate_command (Redis.as_str command) (security_profile o) sec) = false) :
  job_turn o sec e (Some r) n =
  Ret ([LogPush "scheduler" "info" ("running job: " +:+ Redis.as_str id +:+ " (" +:+ Redis.as_str name +:+ ")");
        Count "sandbox.jobs_started_total" [("target", Redis.as_str target)];
        Request ["sandbox claim"; sandbox_id o; Redis.as_str id];
        Request ["job log"; Redis.as_str id; "SECURITY: command blocked by policy"];
        Request ["job result"; Redis.as_str id; "126"; "0"];
        Request ["sandbox release"; sandbox_id o]], n).
Proof.
  rewrite (job_turn_job _ _ _ _ _ _ _ _ _ _ _ Hr). unfold run_job. rewrite Hb. reflexivity.
Qed.

(** C4: an accepted job is run and reported exactly once.  The turn claims the
    job, runs its command once in a sandbox of its own, logs every piece of
    its output (cut at 1000 bytes) in order, reports its exit code and
    releases the sandbox; one of the two counters goes up. *)
Theorem accepted_job_reported_once o sec e (id name target command x : Redis.Response) rest n r
    res lines s' trace
    (Hr : r = Redis.mkResponse Redis.Arr 0 "" "" 0 0 (id :: name :: target :: command :: x :: rest))
    (Ha : Security.result_allowed
            (Security.validate_command (Redis.as_str command) (security_profile o) sec) = true)
    (Hs : Sandbox.run (sandbox_kernel e) (Redis.as_str command)
            (Sandbox.new_sandbox (sandbox_config o (Redis.as_str id) (Redis.as_str target))) =
          Ret (res, lines, s', trace)) :
  exists l n', job_turn o sec e (Some r) n = Ret (l, n') /\ runs_of l = [Redis.as_str command] /\
  requests l =
    [["sandbox claim"; sandbox_id o; Redis.as_str id]] ++
    (if enable_netns o && netns_created e
     then [["job log"; Redis.as_str id; "sandbox: network namespace created"]] else []) ++
    [["job log"; Redis.as_str id; "sandbox: starting execution"]] ++
    ((fun line => ["job log"; Redis.as_str id; String.substring 0 1000 line]) <$> lines) ++
    [["job result"; Redis.as_str id; to_string (Sandbox.exit_code res); to_string (ended_ms e - started_ms e)];
     ["sandbox release"; sandbox_id o]] /\
  n' = (if Sandbox.exit_code res =? 0 then mkCounters (u64 (jobs_completed n + 1)) (jobs_failed n)
        else mkCounters (jobs_completed n) (u64 (jobs_failed n + 1))).
Proof.
  rewrite (job_turn_job _ _ _ _ _ _ _ _ _ _ _ Hr).
  edestruct (run_job_reports o sec e (Redis.as_str id) (Redis.as_str name) (Redis.as_str target)
    (Redis.as_str command) n) as (acts & E & Hq & Hx); [unfold job_outcome; by rewrite Ha, Hs|].
  rewrite Ha in E, Hx. do 2 eexists. split_and!; [exact E|exact Hx| |done].
  rewrite Hq. unfold report. rewrite !fmap_app.
  by destruct (enable_netns o && netns_created e); cbn; rewrite <- ?list_fmap_compose, <- ?app_assoc.
Qed.

(** What a turn does with any other reply.  No reply or nil waits half a
    second, an error one second; a reply that is no array of five fields
    (a job the server has already handed out) is dropped: the turn makes no
    request for it and does not even wait. *)
Theorem other_replies_ignored o sec e n (job_resp : option Redis.Response)
    (Hr : forall r, job_resp = Some r -> Redis.is_nil r = false -> Redis.is_error r = false ->
          (length (Redis.as_arr r) < 5)%nat) :
  job_turn o sec e job_resp n =
  Ret (match job_resp with
       | None => [Sleep 500]
       | Some r => if Redis.is_nil r then [Sleep 500] else if Redis.is_error r then [Sleep 1000] else []
       end, n).
Proof.
  destruct job_resp as [r|]; [|done]. unfold job_turn.
  destruct (Redis.is_nil r) eqn:En; [done|]. destruct (Redis.is_error r) eqn:Ee; [done|].
  specialize (Hr r eq_refl En Ee).
  destruct (Redis.as_arr r) as [|? [|? [|? [|? [|? ?]]]]]; try done. cbn in Hr. lia.
Qed.

(** Asking for network isolation gives jobs the host's network.  With
    [--enable-netns] the sandbox is configured with [enable_network], so the
    child is cloned without a network namespace of its own; the namespace
    created for the job is never entered. *)
Theorem netns_option_shares_host_network o (k : Sandbox.kernel) (job_id target command : string)
    (calls : list string) res s' trace
    (Hn : enable_netns o = true)
    (Hs : Sandbox.run k command (Sandbox.new_sandbox (sandbox_config o job_id target)) =
          Ret (res, calls, s', trace)) :
  Forall (fun op => match op with Sandbox.Clone _ newnet _ => newnet = false | _ => True end) trace.
Proof.
  assert (He : Sandbox.enable_network (sandbox_config o job_id target) = true)
    by (cbn; by rewrite Hn, orb_true_r).
  set (cfg := sandbox_config o job_id target) in *. clearbody cfg.
  unfold Sandbox.run in Hs. cbn in Hs. destruct (Sandbox.pipe_result k) as [[r w]|]; [|by simplify_eq].
  destruct (Sandbox.malloc_ok k); [|done]. cbn in Hs.
  destruct (Sandbox.clone_result k <? 0).
  - simplify_eq. repeat case_match; repeat constructor.
  - destruct (Sandbox.read_output _ _ _) as [cs out]. simplify_eq. rewrite He.
    repeat case_match; repeat constructor.
Qed.

(** A port out of range is taken modulo 2^16. *)
Lemma port_wraps (n : Z) o : in_i32 n -> 0 <= n -> exists o',
  parse_options [OptPort (to_string n)] o = Ret (inr o') /\ port o' = n mod 65536.
Proof.
  intros Hn H0. cbn [parse_options]. unfold stoi.
  rewrite <- (string_app_nil (to_string n)), convert_to_string by done.
  unfold in_i32 in Hn. rewrite decide_True by lia. cbn [mbind outcome_bind]. by eexists.
Qed.

(** ** Witnesses *)

Definition demo_str (s : string) : Redis.Response := Redis.mkResponse Redis.Str 0 "" s 0 0 [].
Definition demo_job (command : string) : Redis.Response :=
  Redis.mkResponse Redis.Arr 0 "" "" 0 0
    [demo_str "7"; demo_str "build"; demo_str "local"; demo_str command; demo_str "x"].
Definition demo_options (profile : string) : Options :=
  mkOptions "127.0.0.1" 1234 "box" "local" 9090 "" true profile false false 3.
Definition demo_surroundings : surroundings :=
  mkSurroundings false (Sandbox.demo_kernel true 42 (exited 0)) 5 9.

Lemma blocked_command_never_runs_witness :
  exists l, job_turn (demo_options "filesystem") Security.new_manager demo_surroundings
              (Some (demo_job "rm -rf /")) (mkCounters 0 0) = Ret (l, mkCounters 0 0) /\ length l = 6%nat.
Proof.
  eexists. split; [|].
  - apply (blocked_command_never_runs (demo_options "filesystem") Security.new_manager demo_surroundings
      (demo_str "7") (demo_str "build") (demo_str "local") (demo_str "rm -rf /") (demo_str "x") [] (mkCounters 0 0)
      (demo_job "rm -rf /") eq_refl). vm_compute. reflexivity.
  - reflexivity.
Defined.

Lemma accepted_job_reported_once_witness :
  exists l n', job_turn (demo_options "standard") Security.new_manager demo_surroundings
                 (Some (demo_job "make")) (mkCounters 0 0) = Ret (l, n') /\
  requests l = [["sandbox claim"; "box"; "7"]; ["job log"; "7"; "sandbox: starting execution"];
                ["job log"; "7"; "hello "]; ["job log"; "7"; "world"];
                ["job result"; "7"; "0"; "4"]; ["sandbox release"; "box"]].
Proof.
  edestruct (accepted_job_reported_once (demo_options "standard") Security.new_manager demo_surroundings
    (demo_str "7") (demo_str "build") (demo_str "local") (demo_str "make") (demo_str "x") [] (mkCounters 0 0)
    (demo_job "make")) as (l & n' & E & _ & H & _);
    [reflexivity|vm_compute; reflexivity|reflexivity|].
  exists l, n'. split; [exact E|]. rewrite H. reflexivity.
Defined.

Lemma other_replies_ignored_witness :
  job_turn (demo_options "standard") Security.new_manager demo_surroundings
    (Some (Redis.mkResponse Redis.Arr 0 "" "" 0 0 [demo_str "7"])) (mkCounters 1 2) = Ret ([], mkCounters 1 2).
Proof.
  apply (other_replies_ignored (demo_options "standard") Security.new_manager demo_surroundings (mkCounters 1 2)
    (Some (Redis.mkResponse Redis.Arr 0 "" "" 0 0 [demo_str "7"]))).
  intros r [= <-] _ _. cbn. lia.
Defined.

Definition netns_options : Options :=
  mkOptions "127.0.0.1" 1234 "box" "local" 9090 "" true "standard" true false 3.

Lemma netns_option_shares_host_network_witness :
  exists res calls s' trace,
    Sandbox.run (Sandbox.demo_kernel true 42 (exited 0)) "make"
      (Sandbox.new_sandbox (sandbox_config netns_options "7" "local")) = Ret (res, calls, s', trace) /\
  Forall (fun op => match op with Sandbox.Clone _ newnet _ => newnet = false | _ => True end) trace.
Proof.
  do 4 eexists. split; [reflexivity|].
  eapply (netns_option_shares_host_network netns_options (Sandbox.demo_kernel true 42 (exited 0)) "7" "local" "make");
    reflexivity.
Defined.

End Main.
