(* ===== verification/Startup.v ===== *)
(** * The program around the job loop: [sandbox/src/main.cpp]

    The objects [main] declares, their callbacks, the start-up with its early
    returns, the job loop on the client the start-up has connected, the
    shutdown, and the destructors in the reverse order of the declarations.
    What the system answers to the start-up is the record [world]. *)

From stdpp Require Import base strings gmap list numbers.
From Stdlib Require Import ZArith Lia.
From S2P Require Import Prelude Descriptors Text Wire ServerProto RedisClient LogAggregator Security IPC Supervisor.
From S2P Require Import Health Resource NetNS Metrics Sandbox FileWatcher Main.

Module Startup.

(** The objects of [main], in the order of their declarations. *)
Inductive local :=
  | LMetrics | LMetricsServer | LHealthMonitor | LLogAggregator | LFileWatcher | LResourceManager
  | LProcessSupervisor | LSecurityManager | LNetManager | LIpcManager | LRedis.

#[global] Instance local_eq_dec : EqDecision local.
Proof. solve_decision. Defined.

(** What the start-up asks the system: the process id, the metrics socket,
    the network commands, the IPC sockets, inotify, the server's socket, the
    clock, and what [/proc] gives to the resource monitors. *)
Record world := mkWorld {
  self_pid : Z;
  http_fd : Z; http_bind_ok : bool; http_listen_ok : bool;
  cmd_succeeds : NetNS.history -> string -> bool; cmd_output : NetNS.history -> string -> string;
  ipc_fd : Z; ipc_bind_ok : bool; ipc_files : IPC.kernel;
  inotify_fd : Z; inotify_wd : Z;
  redis_sock : Z; redis_rc : Z; redis_peer : Socket.socket;
  now : Z;
  clk_tck : Z; proc : Z -> Resource.proc_files
}.

Section Startup.

(** A sample's value, a C++ [double], and the numbers among them. *)
Context {V : Type} (double_of : Z -> V) (reserve_ok : Z -> bool).

#[local] Set Default Proof Using "Type".

Record runtime := mkRuntime {
  metrics : list (Metrics.Metric (V := V));
  metrics_server : Metrics.MetricsServer;
  health_monitor : Health.HealthMonitor;
  log_agg : Log.LogAggregator;
  file_watcher : FileWatcher.FileWatcher;
  resource_manager : Resource.ResourceManager;
  process_supervisor : Supervisor.supervisor;
  security_manager : Security.SecurityManager;
  net_manager : option NetNS.NetworkManager;
  ipc_manager : option IPC.IPCManager;
  redis : Redis.RedisClient;
  commands : NetNS.history;      (**r shell commands run, the last first *)
  files : IPC.kernel;            (**r the IPC sockets' paths *)
  alive : list local;            (**r constructed and not destroyed, the last first *)
  fd_trace : list fd_call        (**r what the objects did to descriptors *)
}.

Definition set_metrics x r := mkRuntime x (metrics_server r) (health_monitor r) (log_agg r) (file_watcher r)
  (resource_manager r) (process_supervisor r) (security_manager r) (net_manager r) (ipc_manager r) (redis r)
  (commands r) (files r) (alive r) (fd_trace r).
Definition set_metrics_server x r := mkRuntime (metrics r) x (health_monitor r) (log_agg r) (file_watcher r)
  (resource_manager r) (process_supervisor r) (security_manager r) (net_manager r) (ipc_manager r) (redis r)
  (commands r) (files r) (alive r) (fd_trace r).
Definition set_health x r := mkRuntime (metrics r) (metrics_server r) x (log_agg r) (file_watcher r)
  (resource_manager r) (process_supervisor r) (security_manager r) (net_manager r) (ipc_manager r) (redis r)
  (commands r) (files r) (alive r) (fd_trace r).
Definition set_log x r := mkRuntime (metrics r) (metrics_server r) (health_monitor r) x (file_watcher r)
  (resource_manager r) (process_supervisor r) (security_manager r) (net_manager r) (ipc_manager r) (redis r)
  (commands r) (files r) (alive r) (fd_trace r).
Definition set_watcher x r := mkRuntime (metrics r) (metrics_server r) (health_monitor r) (log_agg r) x
  (resource_manager r) (process_supervisor r) (security_manager r) (net_manager r) (ipc_manager r) (redis r)
  (commands r) (files r) (alive r) (fd_trace r).
Definition set_supervisor x r := mkRuntime (metrics r) (metrics_server r) (health_monitor r) (log_agg r)
  (file_watcher r) (resource_manager r) x (security_manager r) (net_manager r) (ipc_manager r) (redis r)
  (commands r) (files r) (alive r) (fd_trace r).
Definition set_net x h r := mkRuntime (metrics r) (metrics_server r) (health_monitor r) (log_agg r)
  (file_watcher r) (resource_manager r) (process_supervisor r) (security_manager r) x (ipc_manager r) (redis r)
  h (files r) (alive r) (fd_trace r).
Definition set_ipc x k r := mkRuntime (metrics r) (metrics_server r) (health_monitor r) (log_agg r)
  (file_watcher r) (resource_manager r) (process_supervisor r) (security_manager r) (net_manager r) x (redis r)
  (commands r) k (alive r) (fd_trace r).
Definition set_redis x r := mkRuntime (metrics r) (metrics_server r) (health_monitor r) (log_agg r)
  (file_watcher r) (resource_manager r) (process_supervisor r) (security_manager r) (net_manager r) (ipc_manager r)
  x (commands r) (files r) (alive r) (fd_trace r).
Definition set_alive x r := mkRuntime (metrics r) (metrics_server r) (health_monitor r) (log_agg r)
  (file_watcher r) (resource_manager r) (process_supervisor r) (security_manager r) (net_manager r) (ipc_manager r)
  (redis r) (commands r) (files r) x (fd_trace r).

Definition note (calls : list fd_call) r := mkRuntime (metrics r) (metrics_server r) (health_monitor r) (log_agg r)
  (file_watcher r) (resource_manager r) (process_supervisor r) (security_manager r) (net_manager r) (ipc_manager r)
  (redis r) (commands r) (files r) (alive r) (fd_trace r ++ calls).

(** ** Callbacks *)

(** The check ["redis"], and the check ["sandbox"]. *)
Definition redis_check : bool * string := (true, "ok").
Definition sandbox_check : bool * string := (true, "running").

(** The check ["resources"]. *)
Definition resources_check (w : world) (r : Resource.ResourceManager) : bool * string :=
  let '(stats, _) := Resource.get_global_stats (clk_tck w) (proc w) (proc w) r in
  if 0 <? Resource.sandboxes_over_limit stats
  then (false, to_string (Resource.sandboxes_over_limit stats) +:+ " sandboxes over limit")
  else (true, "ok").

(** The subscriber of the topic ["command"]. *)
Definition on_command (now : Z) (msg : IPC.IPCMessage) (r : runtime) : runtime :=
  set_log (Log.push now "ipc" "info" ("received command: " +:+ IPC.as_string msg) (log_agg r)) r.

(** [file_watcher.on_change]. *)
Definition on_file_event (now : Z) (e : FileWatcher.FileEvent) (r : runtime) : runtime :=
  let r := set_log (Log.push now "filewatcher" "info" ("file changed: " +:+ FileWatcher.path e) (log_agg r)) r in
  set_metrics (Metrics.counter "filewatcher.events_total" (double_of 1) ∅ (metrics r)) r.

Definition type_str (t : Supervisor.EventType) : string :=
  match t with
  | Supervisor.EvStarted => "STARTED"
  | Supervisor.EvStopped => "STOPPED"
  | Supervisor.EvCrashed => "CRASHED"
  | Supervisor.EvRestarted => "RESTARTED"
  | Supervisor.EvHealthCheckFailed => "HEALTH_FAIL"
  end.

(** [process_supervisor.on_event]. *)
Definition on_process_event (now : Z) (e : Supervisor.ProcessEvent) (r : runtime) : runtime :=
  let t := type_str (Supervisor.type e) in
  let r := set_log (Log.push now "supervisor" t
             (Supervisor.process_name e +:+ ": pid=" +:+ to_string (Supervisor.event_pid e) +:+
              " exit=" +:+ to_string (Supervisor.event_exit_code e)) (log_agg r)) r in
  set_metrics (Metrics.counter "supervisor.events_total" (double_of 1) {[ "type" := t ]} (metrics r)) r.

(** ** Start-up *)

(** An empty id is replaced by one made of the process id. *)
Definition with_id (w : world) (o : Main.Options) : Main.Options :=
  if decide (Main.sandbox_id o = "") then
    Main.mkOptions (Main.host o) (Main.port o) ("cpp-sandbox-" +:+ to_string (self_pid w)) (Main.target_type o)
      (Main.metrics_port o) (Main.watch_path o) (Main.use_seccomp o) (Main.security_profile o) (Main.enable_netns o)
      (Main.enable_ipc o) (Main.max_restarts o)
  else o.

(** The objects before the client, the last first. *)
Definition declared : list local :=
  [LIpcManager; LNetManager; LSecurityManager; LProcessSupervisor; LResourceManager; LFileWatcher; LLogAggregator;
   LHealthMonitor; LMetricsServer; LMetrics].

(** The declarations. *)
Definition construct (w : world) : runtime :=
  mkRuntime [] Metrics.new_server Health.new_monitor Log.init FileWatcher.new_watcher (Resource.mkManager ∅ false)
    Supervisor.new_supervisor Security.new_manager None None (Redis.mkClient (-1) (Socket.mkSocket [] [] []))
    [] (ipc_files w) declared [].

(** The health checks; the third one reads [resource_manager] when it runs,
    at the monitor's [i]-th turn. *)
Definition register_checks (w : world) (resources_at : nat -> Resource.ResourceManager) (r : runtime) : runtime :=
  set_health
    (Health.register_check "resources" (Health.mkCheck (fun i => resources_check w (resources_at i)) false) (now w)
       (Health.register_check "sandbox" (Health.mkCheck (fun _ => sandbox_check) false) (now w)
          (Health.register_check "redis" (Health.mkCheck (fun _ => redis_check) false) (now w)
             (health_monitor r)))) r.

Definition netns_config : NetNS.NetnsConfig :=
  NetNS.mkConfig "sandbox-netns" "sandbox-br0" "10.100.0.0/24" 2 true true ["8.8.8.8"; "8.8.4.4"].

(** The network manager: [false] when [main] returns. *)
Definition init_network (w : world) (o : Main.Options) (r : runtime) : bool * runtime :=
  if negb (Main.enable_netns o) then (true, r)
  else
    let m := NetNS.new_manager netns_config in
    let '(ok, h) := NetNS.init (cmd_succeeds w) (cmd_output w) m (commands r) in
    (ok, set_net (Some m) h r).

Definition ipc_config (o : Main.Options) : IPC.IPCConfig :=
  IPC.mkConfig (Main.sandbox_id o) "/tmp/sandbox-ipc" (64 * 1024) 1000 false.

(** The IPC manager and its channel, which the manager and [main] share.  The
    subscriber only pushes to the log. *)
Definition init_ipc (w : world) (o : Main.Options) (r : runtime) : runtime :=
  if negb (Main.enable_ipc o) then r
  else
    let id := Main.sandbox_id o in
    match IPC.register_sandbox (ipc_fd w) (ipc_bind_ok w) false id (IPC.mkManager (ipc_config o) ∅) (files r) with
    | (None, m, k, calls) => note calls (set_ipc (Some m) k r)
    | (Some channel, m, k, calls) =>
        let '(_, channel) := IPC.subscribe "command" (IPC.mkCallback 1 false) channel in
        note calls (set_ipc (Some (IPC.mkManager (IPC.base_config_ m) (<[id := channel]> (IPC.channels_ m)))) k r)
    end.

(** A server that does not start is not mentioned. *)
Definition start_metrics (w : world) (r : runtime) : runtime :=
  let started := Metrics.start (http_fd w) (http_bind_ok w) (http_listen_ok w) (metrics_server r) in
  note started.2 (set_metrics_server started.1.2 r).

Definition start_health (r : runtime) : runtime :=
  set_health (Health.start (Health.set_interval_ms 5000 (health_monitor r))).2 r.

(** [IN_CREATE | IN_MODIFY]. *)
Definition WATCH_MASK : Z := Z.lor 256 2.

Definition start_watcher (w : world) (o : Main.Options) (r : runtime) : runtime :=
  if decide (Main.watch_path o = "") then r
  else
    let '(_, fw, ops) := FileWatcher.watch (inotify_fd w) (inotify_wd w) (Main.watch_path o) WATCH_MASK (file_watcher r) in
    note (FileWatcher.fd_calls ops) (set_watcher (FileWatcher.start (FileWatcher.on_change fw)).2 r).

(** The event handler takes no lock of the supervisor. *)
Definition watch_processes (r : runtime) : runtime :=
  set_supervisor (Supervisor.on_event (Some (Supervisor.mkCallback false)) (process_supervisor r)) r.

(** The connection and the registration: [false] when [main] returns. *)
Definition connect_redis (w : world) (o : Main.Options) (r : runtime) : outcome (bool * runtime) :=
  let r := set_alive (LRedis :: alive r) r in
  let '(ok, c, calls) := Redis.connect (redis_sock w) (redis_rc w) (redis_peer w) (redis r) in
  let r := note calls r in
  if negb ok then Ret (false, set_redis c r)
  else
    '(reg, c) ← Redis.sandbox_register reserve_ok (Main.sandbox_id o) (Main.target_type o)
                  (Main.host o +:+ ":" +:+ to_string (Main.port o)) c;
    let r := set_redis c r in
    match reg with
    | None => Ret (false, r)
    | Some reply => Ret (negb (Redis.is_error reply), r)
    end.

(** From the declarations to the job loop: [false] for [return 1]. *)
Definition startup (w : world) (resources_at : nat -> Resource.ResourceManager) (o : Main.Options)
  : outcome (bool * runtime) :=
  let o := with_id w o in
  let r := register_checks w resources_at (construct w) in
  match Security.get_profile (Main.security_profile o) (security_manager r) with
  | None => Ret (false, r)
  | Some _ =>
      let '(ok, r) := init_network w o r in
      if negb ok then Ret (false, r)
      else connect_redis w o (watch_processes (start_watcher w o (start_health (start_metrics w (init_ipc w o r)))))
  end.

(** ** The job loop *)

(** An action of a turn on the objects it names.  [RunSandbox] has happened
    in [Sandbox.run]; the old namespace of an id is not held by anybody. *)
Definition apply_action (w : world) (now : Z) (a : Main.action) (r : runtime) : outcome runtime :=
  match a with
  | Main.Request args => '(_, c) ← Redis.send reserve_ok args (redis r); Ret (set_redis c r)
  | Main.LogPush source level message => Ret (set_log (Log.push now source level message (log_agg r)) r)
  | Main.LogRaw source line => l ← Log.push_raw now source line (log_agg r); Ret (set_log l r)
  | Main.Count nm labels =>
      Ret (set_metrics (Metrics.counter nm (double_of 1) (list_to_map labels) (metrics r)) r)
  | Main.Observe nm v => Ret (set_metrics (Metrics.histogram nm (double_of v) ∅ (metrics r)) r)
  | Main.SetGauge nm v => Ret (set_metrics (Metrics.gauge nm (double_of v) ∅ (metrics r)) r)
  | Main.CreateNamespace id =>
      Ret (match net_manager r with
           | Some m => let '(_, m, h) := NetNS.create_namespace (cmd_succeeds w) false id m (commands r) in
                       set_net (Some m) h r
           | None => r
           end)
  | Main.RemoveNamespace id =>
      Ret (match net_manager r with
           | Some m => let '(_, m, h) := NetNS.remove_namespace id m (commands r) in set_net (Some m) h r
           | None => r
           end)
  | Main.RunSandbox _ _ _ | Main.Sleep _ => Ret r
  end.

Fixpoint apply_actions (w : world) (now : Z) (l : list Main.action) (r : runtime) : outcome runtime :=
  match l with
  | [] => Ret r
  | a :: l => r ← apply_action w now a r; apply_actions w now l r
  end.

(** Whether the namespace of the job in a reply is created. *)
Definition created (w : world) (resp : option Redis.Response) (r : runtime) : bool :=
  match resp, net_manager r with
  | Some resp, Some m =>
      match Redis.as_arr resp with
      | id :: _ =>
          let '(ns, _, _) := NetNS.create_namespace (cmd_succeeds w) false (Redis.as_str id) m (commands r) in
          bool_decide (is_Some ns)
      | [] => false
      end
  | _, _ => false
  end.

(** The loop until a signal clears [g_running]: the machine around each turn,
    and its time. *)
Fixpoint job_loop (w : world) (o : Main.Options) (turns : list (Main.surroundings * Z)) (n : Main.counters)
    (r : runtime) : outcome (runtime * Main.counters) :=
  match turns with
  | [] => Ret (r, n)
  | (e, now) :: turns =>
      '(resp, c) ← Redis.job_next reserve_ok (redis r);
      let r := set_redis c r in
      let e := Main.mkSurroundings (created w resp r) (Main.sandbox_kernel e) (Main.started_ms e) (Main.ended_ms e) in
      '(acts, n) ← Main.job_turn o (security_manager r) e resp n;
      r ← apply_actions w now acts r;
      job_loop w o turns n r
  end.

(** ** The end of the program *)

Definition stop_watcher (r : runtime) : runtime :=
  let stopped := FileWatcher.stop (file_watcher r) in note (FileWatcher.fd_calls stopped.2) (set_watcher stopped.1 r).
Definition stop_metrics (r : runtime) : runtime :=
  let stopped := Metrics.stop (metrics_server r) in note stopped.2 (set_metrics_server stopped.1 r).
Definition close_redis (r : runtime) : runtime :=
  let closed := Redis.close (redis r) in note closed.2 (set_redis closed.1 r).

Definition shutdown (r : runtime) : runtime :=
  let r := stop_watcher r in
  let r := set_health (Health.stop (health_monitor r)) r in
  let r := stop_metrics r in
  let r := set_supervisor (Supervisor.stop_all (process_supervisor r)).2 r in
  close_redis r.

Definition destructor (l : local) (r : runtime) : outcome runtime :=
  r ← match l with
      | LRedis => Ret (close_redis r)
      | LIpcManager =>
          Ret (match ipc_manager r with
               | Some m => set_ipc None (IPC.destroy_manager m (files r)) r
               | None => r
               end)
      | LNetManager =>
          Ret (match net_manager r with
               | Some m => set_net None (NetNS.destroy_manager m (commands r)) r
               | None => r
               end)
      | LProcessSupervisor => _ ← Supervisor.destroy (process_supervisor r); Ret r
      | LFileWatcher => Ret (stop_watcher r)
      | LHealthMonitor => Ret (set_health (Health.stop (health_monitor r)) r)
      | LMetricsServer => Ret (stop_metrics r)
      | LSecurityManager | LResourceManager | LLogAggregator | LMetrics => Ret r
      end;
  Ret (set_alive (filter (fun l' => l' <> l) (alive r)) r).

(** The destructors at a [return]. *)
Fixpoint destroy_locals (ls : list local) (r : runtime) : outcome runtime :=
  match ls with
  | [] => Ret r
  | l :: ls => r ← destructor l r; destroy_locals ls r
  end.

(** [main] after the options: the exit status and what is left. *)
Definition main (w : world) (resources_at : nat -> Resource.ResourceManager) (o : Main.Options)
    (turns : list (Main.surroundings * Z)) : outcome (Z * runtime) :=
  '(ok, r) ← startup w resources_at o;
  if negb ok then r ← destroy_locals (alive r) r; Ret (1, r)
  else
    '(r, _) ← job_loop w (with_id w o) turns (Main.mkCounters 0 0) r;
    let r := shutdown r in
    r ← destroy_locals (alive r) r;
    Ret (0, r).

(** ** Lemmas *)

(** What start-up, loop and callbacks leave alone. *)
Record kept (r r' : runtime) : Prop := mkKept {
  kept_server : metrics_server r' = metrics_server r;
  kept_health : health_monitor r' = health_monitor r;
  kept_watcher : file_watcher r' = file_watcher r;
  kept_resources : resource_manager r' = resource_manager r;
  kept_supervisor : process_supervisor r' = process_supervisor r;
  kept_alive : alive r' = alive r;
  kept_trace : fd_trace r' = fd_trace r;
  kept_fd : Redis.fd_ (redis r') = Redis.fd_ (redis r)
}.

#[local] Instance kept_preorder : PreOrder kept.
Proof. split; [by intros r|]. intros r r' r'' [] []. constructor; by etrans. Qed.

Lemma apply_action_kept w now a r r' : apply_action w now a r = Ret r' -> kept r r'.
Proof.
  destruct a; cbn [apply_action]; try (by intros [= <-]).
  - destruct (Redis.send _ _ _) as [[? c]| | |] eqn:E; [|done..]. apply Redis.send_fd in E. by intros [= <-].
  - destruct (Log.push_raw _ _ _ _); [|done..]. by intros [= <-].
  - intros [= <-]. destruct (net_manager r); [|done]. by destruct (NetNS.create_namespace _ _ _ _ _) as [[? ?] ?].
  - intros [= <-]. destruct (net_manager r); [|done]. by destruct (NetNS.remove_namespace _ _ _) as [[? ?] ?].
Qed.

Lemma apply_actions_kept w now acts r r' : apply_actions w now acts r = Ret r' -> kept r r'.
Proof.
  revert r. induction acts as [|a acts IH]; intros r; cbn [apply_actions]; [by intros [= <-]|].
  destruct (apply_action _ _ _ _) as [r1| | |] eqn:E; try done. intros H1. etrans; [by eapply apply_action_kept|by apply IH].
Qed.

Lemma job_loop_kept w o turns n r r' n' : job_loop w o turns n r = Ret (r', n') -> kept r r'.
Proof.
  revert n r. induction turns as [|[e now] turns IH]; intros n r; cbn [job_loop]; [by intros [= <- <-]|].
  destruct (Redis.job_next _ _) as [[resp c]| | |] eqn:Ej; cbn [mbind outcome_bind]; try done.
  destruct (Main.job_turn _ _ _ _ _) as [[acts n1]| | |]; cbn [mbind outcome_bind]; try done.
  destruct (apply_actions _ _ _ _) as [r1| | |] eqn:E; cbn [mbind outcome_bind]; try done.
  apply Redis.send_fd in Ej.
  intros H1. etrans; [|by eapply IH]. apply apply_actions_kept in E as []. constructor; try done. by etrans.
Qed.

(** The state at the connection to the server. *)
Definition prepared (w : world) (resources_at : nat -> Resource.ResourceManager) (o : Main.Options) : runtime :=
  let r := (init_network w (with_id w o) (register_checks w resources_at (construct w))).2 in
  watch_processes (start_watcher w (with_id w o) (start_health (start_metrics w (init_ipc w (with_id w o) r)))).

Definition network_ok (w : world) (o : Main.Options) : Prop :=
  Main.enable_netns o = false \/
  (NetNS.init (cmd_succeeds w) (cmd_output w) (NetNS.new_manager netns_config) []).1 = true.

Definition known_profile (o : Main.Options) : Prop :=
  is_Some (Security.get_profile (Main.security_profile o) Security.new_manager).

Lemma with_id_profile w o : Main.security_profile (with_id w o) = Main.security_profile o.
Proof. unfold with_id. by case_decide. Qed.

Lemma with_id_netns w o : Main.enable_netns (with_id w o) = Main.enable_netns o.
Proof. unfold with_id. by case_decide. Qed.

Lemma startup_prepared w resources_at o :
  known_profile o -> network_ok w o ->
  startup w resources_at o = connect_redis w (with_id w o) (prepared w resources_at o).
Proof.
  intros [p Hp] Hn. unfold startup, prepared. rewrite with_id_profile. cbn [security_manager register_checks set_health construct].
  rewrite Hp. unfold init_network. rewrite with_id_netns. unfold network_ok in Hn.
  destruct (Main.enable_netns o); [|done]. cbn [negb]. cbn [commands register_checks set_health construct].
  destruct Hn as [|Hn]; [done|]. destruct (NetNS.init _ _ _ _) as [ok h]. cbn in Hn. subst ok. done.
Qed.

(** The parts of the prepared state the steps before do not touch. *)
Lemma prepared_parts w resources_at o :
  let r := prepared w resources_at o in
  metrics_server r = (Metrics.start (http_fd w) (http_bind_ok w) (http_listen_ok w) Metrics.new_server).1.2 /\
  health_monitor r = health_monitor (start_health (register_checks w resources_at (construct w))) /\
  file_watcher r = file_watcher (start_watcher w (with_id w o) (construct w)) /\
  resource_manager r = Resource.mkManager ∅ false /\
  Supervisor.processes_ (process_supervisor r) = ∅ /\
  redis r = Redis.mkClient (-1) (Socket.mkSocket [] [] []) /\
  security_manager r = Security.new_manager /\
  alive r = alive (construct w).
Proof.
  unfold prepared, init_network, init_ipc, start_watcher, start_metrics.
  destruct (Main.enable_netns (with_id w o)), (Main.enable_ipc (with_id w o)); cbn [negb];
    try destruct (NetNS.init _ _ _ _) as [ok h];
    try destruct (IPC.register_sandbox _ _ _ _ _ _) as [[[[ch|] m] k] calls];
    destruct (decide (Main.watch_path (with_id w o) = ""));
    try destruct (FileWatcher.watch _ _ _ _ _) as [[? fw] ?] eqn:?;
    cbn in *; simplify_eq; by rewrite ?Heqp.
Qed.

(** The request of the registration. *)
Definition registration (w : world) (o : Main.Options) : list string :=
  ["sandbox register"; Main.sandbox_id (with_id w o); Main.target_type (with_id w o);
   Main.host (with_id w o) +:+ ":" +:+ to_string (Main.port (with_id w o))].

Definition is_err (resp : Server.Response) : bool := match resp with Server.Err _ _ => true | _ => false end.

Lemma is_error_of_server resp : Redis.is_error (Redis.of_server resp) = is_err resp.
Proof. by destruct resp. Qed.

(** The checks the start-up registers, and their first statuses. *)
Lemma prepared_checks w resources_at o nm :
  Health.checks_ (health_monitor (prepared w resources_at o)) !! nm =
  if decide (nm = "resources") then Some (Health.mkCheck (fun i => resources_check w (resources_at i)) false)
  else if decide (nm = "sandbox") then Some (Health.mkCheck (fun _ => sandbox_check) false)
  else if decide (nm = "redis") then Some (Health.mkCheck (fun _ => redis_check) false) else None.
Proof.
  destruct (prepared_parts w resources_at o) as (_ & -> & _). cbn.
  repeat case_decide; subst; by simplify_map_eq.
Qed.

(** No monitor is ever added, so nothing is over its limit. *)
Lemma resources_check_ok w : resources_check w (Resource.mkManager ∅ false) = (true, "ok").
Proof. reflexivity. Qed.

(** A registration the server answers. *)
Lemma startup_answered w resources_at o resp rest :
  known_profile o -> network_ok w o -> 0 <= redis_sock w -> 0 <= redis_rc w ->
  Server.request_size (registration w o) <= Server.MAX_MSG_SIZE ->
  Socket.room_for (length (Server.frame (registration w o))) (Socket.tx_room (redis_peer w)) ->
  Server.wf resp -> Z.of_nat (length (Server.encode resp)) <= Redis.MAX_RESPONSE ->
  (forall n, 0 <= n <= Z.of_nat (length (Server.encode resp)) -> reserve_ok n = true) ->
  Socket.delivered (Socket.rx (redis_peer w)) = Server.write_response (Server.encode resp) ++ rest ->
  exists c, startup w resources_at o = Ret (negb (is_err resp),
      set_redis c (note [Opened (redis_sock w)]
        (set_alive (LRedis :: alive (prepared w resources_at o)) (prepared w resources_at o)))) /\
    Redis.fd_ c = redis_sock w /\
    Socket.tx (Redis.net c) = Socket.tx (redis_peer w) ++ Server.frame (registration w o).
Proof.
  intros Hprofile Hnet Hsock Hrc Hsize Hroom Hwf Hmax Halloc Hrx.
  rewrite (startup_prepared _ _ _ Hprofile Hnet). unfold connect_redis.
  pose proof (prepared_parts w resources_at o) as (_ & _ & _ & _ & _ & Er & _).
  set (r := prepared w resources_at o) in *. clearbody r. cbn [redis set_alive]. rewrite Er. unfold Redis.connect.
  rewrite (proj2 (Z.ltb_ge _ _) Hsock), (proj2 (Z.ltb_ge _ _) Hrc). cbn [negb].
  destruct (Redis.response_of_written reserve_ok resp rest Hwf Halloc Hmax) as [R1 _]. rewrite <- Hrx in R1.
  destruct (Redis.send_answered reserve_ok (Redis.mkClient (redis_sock w) (redis_peer w)) (registration w o)
    (Some (Redis.of_server resp))) as (c' & E & Etx & _); try done; [by apply Z.leb_le|].
  unfold Redis.sandbox_register. unfold registration in E. rewrite E. cbn [mbind outcome_bind].
  rewrite is_error_of_server. exists c'. split; [reflexivity|]. split; [|done]. by apply Redis.send_fd in E.
Qed.

(** ** Properties *)

(** C15: The start-up announces the sandbox to the server and waits for its
    consent.  With a known security profile, a network that can be prepared
    and a server that accepts the connection and answers, the bytes sent are
    the request [sandbox register] with the id (made of the process id when
    the option is empty), the type and [host:port]; the loop is entered
    exactly if the answer is no error.  By then the three health checks are
    registered and the monitor's thread runs, the metrics socket listens if
    the system let it, the watcher's thread runs if a path was given, and no
    process is supervised. *)
Theorem startup_registers w resources_at o resp rest
    (Hprofile : known_profile o) (Hnet : network_ok w o)
    (Hsock : 0 <= redis_sock w) (Hrc : 0 <= redis_rc w)
    (Hsize : Server.request_size (registration w o) <= Server.MAX_MSG_SIZE)
    (Hroom : Socket.room_for (length (Server.frame (registration w o))) (Socket.tx_room (redis_peer w)))
    (Hwf : Server.wf resp)
    (Hmax : Z.of_nat (length (Server.encode resp)) <= Redis.MAX_RESPONSE)
    (Halloc : forall n, 0 <= n <= Z.of_nat (length (Server.encode resp)) -> reserve_ok n = true)
    (Hrx : Socket.delivered (Socket.rx (redis_peer w)) = Server.write_response (Server.encode resp) ++ rest) :
  exists r, startup w resources_at o = Ret (negb (is_err resp), r) /\
  Redis.fd_ (redis r) = redis_sock w /\
  Socket.tx (Redis.net (redis r)) = Socket.tx (redis_peer w) ++ Server.frame (registration w o) /\
  (forall nm, is_Some (Health.checks_ (health_monitor r) !! nm) <-> nm ∈ ["redis"; "sandbox"; "resources"]) /\
  Health.running_ (health_monitor r) = true /\
  Metrics.running_ (metrics_server r) = (0 <=? http_fd w) && http_bind_ok w && http_listen_ok w /\
  FileWatcher.running_ (file_watcher r) = negb (bool_decide (Main.watch_path (with_id w o) = "")) /\
  Supervisor.processes_ (process_supervisor r) = ∅.
Proof.
  destruct (startup_answered w resources_at o resp rest Hprofile Hnet Hsock Hrc Hsize Hroom Hwf Hmax Halloc Hrx)
    as (c & E & Efd & Etx).
  pose proof (prepared_parts w resources_at o) as (Em & Eh & Ew & _ & Es & _ & _ & _).
  pose proof (prepared_checks w resources_at o) as Ec.
  eexists. split; [exact E|]. cbn [redis set_redis note set_alive health_monitor metrics_server file_watcher
    process_supervisor]. split_and!; try done.
  - intros nm. rewrite Ec, !elem_of_cons, elem_of_nil. split.
    + intros [fn Hfn]. repeat case_decide; auto. done.
    + intros [-> | [-> | [-> | []]]]; by eexists.
  - by rewrite Eh.
  - rewrite Em. unfold Metrics.start. destruct (Z.ltb_spec (http_fd w) 0), (Z.leb_spec 0 (http_fd w)); try lia; [done|].
    by destruct (http_bind_ok w), (http_listen_ok w).
  - rewrite Ew. unfold start_watcher. case_decide; case_bool_decide; try done.
    destruct (FileWatcher.watch _ _ _ _ _) as [[? fw] ?]. cbn [file_watcher note set_watcher negb].
    unfold FileWatcher.start. by destruct (FileWatcher.running_ (FileWatcher.on_change fw)) eqn:?.
Qed.

(** The descriptors the objects hold. *)
Definition owned (r : runtime) : list Z :=
  holds (Redis.fd_ (redis r)) ++ holds (FileWatcher.inotify_fd_ (file_watcher r)) ++
  holds (Metrics.server_fd_ (metrics_server r)).

(** What no object holds: the socket an IPC channel has bound. *)
Definition abandoned (w : world) (o : Main.Options) (l : list Z) : Prop :=
  l = [] \/ Main.enable_ipc o = true /\ l = [ipc_fd w].

(** Every descriptor was closed at most once, and open ones have their owner. *)
Definition balanced (w : world) (o : Main.Options) (r : runtime) : Prop :=
  exists l, abandoned w o l /\ owner (fd_trace r) (owned r ++ l).

(** The objects hold nothing any more, their threads have been told to stop,
    and they are gone. *)
Record at_rest (r : runtime) : Prop := mkAtRest {
  rest_http : Metrics.server_fd_ (metrics_server r) < 0 /\ Metrics.running_ (metrics_server r) = false;
  rest_health : Health.running_ (health_monitor r) = false;
  rest_watcher : FileWatcher.inotify_fd_ (file_watcher r) < 0 /\ FileWatcher.running_ (file_watcher r) = false;
  rest_redis : Redis.is_connected (redis r) = false;
  rest_managers : ipc_manager r = None /\ net_manager r = None;
  rest_locals : alive r = []
}.

(** Besides, each descriptor opened has been closed once and none twice, but
    for the abandoned socket. *)
Definition quiet (w : world) (o : Main.Options) (r : runtime) : Prop :=
  at_rest r /\ exists l, abandoned w o l /\ held [] (fd_trace r) = Some l.

(** *** Descriptors and their owners *)

Lemma holds_none fd : fd < 0 -> holds fd = [].
Proof. intros. unfold holds. by rewrite (proj2 (Z.ltb_lt _ _)). Qed.

Lemma metrics_stop s : (Metrics.stop s).2 = closes (Metrics.server_fd_ s) /\
  Metrics.server_fd_ (Metrics.stop s).1 < 0 /\ Metrics.running_ (Metrics.stop s).1 = false.
Proof. unfold Metrics.stop, closes. destruct (Z.leb_spec 0 (Metrics.server_fd_ s)); cbn; split_and!; (lia || done). Qed.

Lemma watcher_stop fw : FileWatcher.fd_calls (FileWatcher.stop fw).2 = closes (FileWatcher.inotify_fd_ fw) /\
  FileWatcher.inotify_fd_ (FileWatcher.stop fw).1 < 0 /\ FileWatcher.running_ (FileWatcher.stop fw).1 = false.
Proof.
  unfold FileWatcher.stop, closes. destruct (Z.leb_spec 0 (FileWatcher.inotify_fd_ fw)); cbn; split_and!; try (lia || done).
  by induction (FileWatcher.watch_fds_ fw).
Qed.

Lemma close_disconnects c : (Redis.close c).2 = closes (Redis.fd_ c) /\
  Redis.fd_ (Redis.close c).1 < 0 /\ Redis.is_connected (Redis.close c).1 = false.
Proof.
  unfold Redis.close, Redis.is_connected, closes. destruct (Z.leb_spec 0 (Redis.fd_ c)) as [|Hn]; cbn; [done|].
  split_and!; [done|done|]. by apply Z.leb_gt.
Qed.

Lemma note_balanced w o r r' fd :
  balanced w o r -> fd_trace r' = fd_trace r ++ closes fd -> (forall l, owned r ++ l ≡ₚ holds fd ++ owned r' ++ l) ->
  balanced w o r'.
Proof.
  intros (l & Hl & Ho) Et Hp. exists l. split; [done|]. rewrite Et. eapply owner_closes, owner_perm; [|exact Ho]. apply Hp.
Qed.

Lemma stop_watcher_balanced w o r : balanced w o r -> balanced w o (stop_watcher r).
Proof.
  destruct (watcher_stop (file_watcher r)) as (E & Hn & _). intros Hb. eapply note_balanced; [exact Hb|by rewrite <- E|].
  intros l. unfold owned. cbn. rewrite (holds_none _ Hn). solve_Permutation.
Qed.

Lemma stop_metrics_balanced w o r : balanced w o r -> balanced w o (stop_metrics r).
Proof.
  destruct (metrics_stop (metrics_server r)) as (E & Hn & _). intros Hb. eapply note_balanced; [exact Hb|by rewrite <- E|].
  intros l. unfold owned. cbn. rewrite (holds_none _ Hn). solve_Permutation.
Qed.

Lemma close_redis_balanced w o r : balanced w o r -> balanced w o (close_redis r).
Proof.
  destruct (close_disconnects (redis r)) as (E & Hn & _). intros Hb. eapply note_balanced; [exact Hb|by rewrite <- E|].
  intros l. unfold owned. cbn. rewrite (holds_none _ Hn). solve_Permutation.
Qed.

Lemma same_balanced w o r r' : fd_trace r' = fd_trace r -> owned r' = owned r -> balanced w o r -> balanced w o r'.
Proof. intros Et Eo (l & Hl & Ho). exists l. by rewrite Et, Eo. Qed.

Lemma destructor_balanced w o l r r' : destructor l r = Ret r' -> balanced w o r -> balanced w o r'.
Proof.
  unfold destructor. intros (r1 & E & H1)%bind_Ret_inv Hb. injection H1 as <-.
  apply (same_balanced w o r1); [done|done|]. destruct l; try (by injection E as <-).
  - injection E as <-. by apply stop_metrics_balanced.
  - injection E as <-. by apply stop_watcher_balanced.
  - by apply bind_Ret_inv in E as ([] & _ & [= <-]).
  - injection E as <-. destruct (net_manager r); [by apply (same_balanced w o r)|done].
  - injection E as <-. destruct (ipc_manager r); [by apply (same_balanced w o r)|done].
  - injection E as <-. by apply close_redis_balanced.
Qed.

Lemma destroy_balanced w o ls r r' : destroy_locals ls r = Ret r' -> balanced w o r -> balanced w o r'.
Proof.
  revert r. induction ls as [|l ls IH]; intros r; cbn [destroy_locals]; [by intros [= <-]|].
  intros (r1 & E & Hd)%bind_Ret_inv Hb. apply (IH r1 Hd). by eapply destructor_balanced.
Qed.

Lemma shutdown_balanced w o r : balanced w o r -> balanced w o (shutdown r).
Proof.
  intros Hb. unfold shutdown. apply close_redis_balanced.
  apply (same_balanced w o (stop_metrics (set_health (Health.stop (health_monitor (stop_watcher r))) (stop_watcher r)))); [done..|].
  apply stop_metrics_balanced, (same_balanced w o (stop_watcher r)); [done..|]. by apply stop_watcher_balanced.
Qed.

(** The start-up's own part. *)
Lemma metrics_start_owner fd b1 b2 :
  owner (Metrics.start fd b1 b2 Metrics.new_server).2 (holds (Metrics.server_fd_ (Metrics.start fd b1 b2 Metrics.new_server).1.2)).
Proof.
  unfold Metrics.start. destruct (Z.ltb_spec fd 0) as [Hn|Hn]; cbn; [rewrite holds_none by done; apply owner_none|].
  destruct b1, b2; cbn; try apply (owner_round fd).
  pose proof (owner_opened fd) as Ho. unfold opens in Ho. by rewrite (proj2 (Z.ltb_ge _ _)) in Ho.
Qed.

Lemma watch_owner fd wd p m fw :
  FileWatcher.inotify_fd_ fw < 0 ->
  let watched := FileWatcher.watch fd wd p m fw in
  owner (FileWatcher.fd_calls watched.2) (holds (FileWatcher.inotify_fd_ watched.1.2)).
Proof.
  intros Hn. unfold FileWatcher.watch. rewrite (proj2 (Z.ltb_lt _ _)) by done. pose proof (owner_opened fd) as Ho.
  destruct (fd <? 0) eqn:E; [|destruct (wd <? 0)]; cbn; by rewrite app_nil_r.
Qed.

Lemma connect_owner sock rc peer c :
  let connected := Redis.connect sock rc peer c in owner connected.2 (holds (Redis.fd_ connected.1.2)).
Proof.
  unfold Redis.connect, Redis.close. cbn [Redis.fd_].
  destruct (Z.ltb_spec sock 0) as [Hn|Hn]; cbn; [rewrite holds_none by done; apply owner_none|].
  rewrite (proj2 (Z.leb_le _ _)) by done. destruct (rc <? 0); cbn; [apply (owner_round sock)|].
  pose proof (owner_opened sock) as Ho. unfold opens in Ho. by rewrite (proj2 (Z.ltb_ge _ _)) in Ho.
Qed.

Lemma register_owner sock b held id m k :
  exists l, (l = [] \/ l = [sock]) /\ owner (IPC.register_sandbox sock b held id m k).2 l.
Proof.
  unfold IPC.register_sandbox, IPC.connect. cbn [IPC.initial IPC.chan IPC.new_channel IPC.connected_].
  destruct (Z.ltb_spec sock 0) as [Hn|Hn]; [exists []; split; [by left|apply owner_none]|].
  destruct (IPC.sys_bind _ _ _ _); cbn.
  - exists [sock]. split; [by right|]. by exists [sock].
  - exists []. split; [by left|apply owner_round].
Qed.

(** A step of the start-up that opens something. *)
Lemma note_owner r r' l l' own calls :
  owner (fd_trace r) (owned r ++ l) -> owner calls own -> fd_trace r' = fd_trace r ++ calls ->
  own ++ owned r ++ l ≡ₚ owned r' ++ l' -> owner (fd_trace r') (owned r' ++ l').
Proof. intros Ho Hc -> Hp. eapply owner_perm; [exact Hp|]. by apply owner_app. Qed.

Lemma init_network_same w o r :
  let r' := (init_network w o r).2 in
  fd_trace r' = fd_trace r /\ owned r' = owned r /\ metrics_server r' = metrics_server r /\ file_watcher r' = file_watcher r.
Proof. unfold init_network. destruct (Main.enable_netns o); [|done]. cbn [negb]. by destruct (NetNS.init _ _ _ _). Qed.

Lemma init_ipc_parts w o r :
  metrics_server (init_ipc w o r) = metrics_server r /\ file_watcher (init_ipc w o r) = file_watcher r /\
  (owner (fd_trace r) (owned r) -> exists l, abandoned w o l /\ owner (fd_trace (init_ipc w o r)) (owned (init_ipc w o r) ++ l)).
Proof.
  unfold init_ipc, abandoned. destruct (Main.enable_ipc o); cbn [negb].
  - destruct (register_owner (ipc_fd w) (ipc_bind_ok w) false (Main.sandbox_id o)
      (IPC.mkManager (ipc_config o) ∅) (files r)) as (l & Hl & Hown).
    destruct (IPC.register_sandbox _ _ _ _ _ _) as [[[[ch|] m] k] calls]; cbn [snd] in Hown;
      (split_and!; [done|done|]; intros Ho; exists l; split; [destruct Hl as [->| ->]; auto|];
       apply (note_owner r _ [] l l calls); [by rewrite app_nil_r|done|done|]; unfold owned; cbn; solve_Permutation).
  - split_and!; [done|done|]. intros Ho. exists []. split; [by left|]. by rewrite app_nil_r.
Qed.

Lemma start_metrics_owner w r l :
  metrics_server r = Metrics.new_server -> owner (fd_trace r) (owned r ++ l) ->
  owner (fd_trace (start_metrics w r)) (owned (start_metrics w r) ++ l).
Proof.
  intros Em Ho. eapply note_owner; [exact Ho| |reflexivity|]; unfold start_metrics; rewrite ?Em; [apply metrics_start_owner|].
  unfold owned. cbn. rewrite Em. cbn. solve_Permutation.
Qed.

Lemma start_watcher_owner w o r l :
  file_watcher r = FileWatcher.new_watcher -> owner (fd_trace r) (owned r ++ l) ->
  owner (fd_trace (start_watcher w o r)) (owned (start_watcher w o r) ++ l).
Proof.
  intros Ef Ho. unfold start_watcher. destruct (decide (Main.watch_path o = "")); [done|]. rewrite Ef.
  pose proof (watch_owner (inotify_fd w) (inotify_wd w) (Main.watch_path o) WATCH_MASK FileWatcher.new_watcher
    ltac:(done)) as Hw. cbn zeta in Hw.
  destruct (FileWatcher.watch _ _ _ _ _) as [[? fw] ops]. cbn [fst snd] in Hw.
  eapply note_owner; [exact Ho|exact Hw|reflexivity|].
  assert (Ei : FileWatcher.inotify_fd_ (FileWatcher.start (FileWatcher.on_change fw)).2 = FileWatcher.inotify_fd_ fw)
    by (unfold FileWatcher.start; by destruct (FileWatcher.running_ _)).
  unfold owned. cbn. rewrite Ei, Ef. cbn. solve_Permutation.
Qed.

Lemma prepared_balanced w resources_at o : balanced w o (prepared w resources_at o).
Proof.
  unfold balanced, prepared. set (r0 := register_checks w resources_at (construct w)).
  destruct (init_network_same w (with_id w o) r0) as (Et & Eo & Em & Ef). set (r1 := (init_network w (with_id w o) r0).2) in *.
  assert (H1 : owner (fd_trace r1) (owned r1)) by (rewrite Et, Eo; apply owner_none). clearbody r1.
  destruct (init_ipc_parts w (with_id w o) r1) as (Em2 & Ef2 & H2). destruct (H2 H1) as (l & Hl & H3).
  set (r2 := init_ipc w (with_id w o) r1) in *. clearbody r2.
  exists l. split; [unfold abandoned in *; unfold with_id in Hl; by case_decide|].
  apply (start_watcher_owner w (with_id w o) (start_health (start_metrics w r2)) l); [cbn; by rewrite Ef2, Ef|].
  apply (start_metrics_owner w r2 l); [by rewrite Em2, Em|done].
Qed.

Lemma destroy_empty s : Supervisor.processes_ s = ∅ -> Supervisor.destroy s = Ret tt.
Proof.
  intros Hs. unfold Supervisor.destroy, Supervisor.stop_all. rewrite Hs.
  destruct s; cbn in *. subst. done.
Qed.

(** The destructors of [main]'s objects, with the client or before it. *)
Lemma destroy_at_rest r :
  alive r = LRedis :: declared \/ alive r = declared /\ Redis.is_connected (redis r) = false ->
  Supervisor.processes_ (process_supervisor r) = ∅ ->
  exists r', destroy_locals (alive r) r = Ret r' /\ at_rest r'.
Proof.
  intros Ha Hs. pose proof (metrics_stop (metrics_server r)) as (_ & Hm).
  pose proof (watcher_stop (file_watcher r)) as (_ & Hw). pose proof (close_disconnects (redis r)) as (_ & _ & Hc).
  pose proof (destroy_empty _ Hs) as Hd.
  destruct Ha as [Ha|[Ha Hr]]; rewrite Ha; unfold declared; cbn [destroy_locals destructor mbind outcome_bind];
    destruct r as [m ms hm lg fw rm ps sm [nm|] [im|] rd cs fs al tr]; cbn in *; subst al; rewrite Hd;
    cbn [mbind outcome_bind]; eexists; (split; [reflexivity|]); by constructor.
Qed.

Lemma at_rest_owned r : at_rest r -> owned r = [].
Proof. intros [[Hm _] _ [Hw _] Hr _ _]. unfold owned. apply Z.leb_gt in Hr. by rewrite !holds_none. Qed.

Lemma destroy_quiet w o r :
  alive r = LRedis :: declared \/ alive r = declared /\ Redis.is_connected (redis r) = false ->
  balanced w o r -> Supervisor.processes_ (process_supervisor r) = ∅ ->
  exists r', destroy_locals (alive r) r = Ret r' /\ quiet w o r'.
Proof.
  intros Ha Hb Hs. destruct (destroy_at_rest r Ha Hs) as (r' & Ed & Hrel). exists r'. split; [done|]. split; [done|].
  destruct (destroy_balanced w o _ _ _ Ed Hb) as (l & Hl & l' & Hh & Hp). exists l. split; [done|]. rewrite Hh. f_equal.
  rewrite at_rest_owned in Hp by done. cbn in Hp.
  destruct Hl as [->|[_ ->]]; [by apply Permutation_nil_r in Hp|by apply Permutation_singleton_r in Hp].
Qed.

Lemma connect_redis_balanced w o' o r b r' :
  connect_redis w o' r = Ret (b, r') -> Redis.fd_ (redis r) < 0 -> balanced w o r -> balanced w o r'.
Proof.
  intros E Hfd (l & Hl & Ho). exists l. split; [done|]. unfold connect_redis in E. cbn [redis set_alive] in E.
  pose proof (connect_owner (redis_sock w) (redis_rc w) (redis_peer w) (redis r)) as Hc. cbn zeta in Hc.
  destruct (Redis.connect _ _ _ _) as [[ok c] calls]. cbn [fst snd] in Hc.
  assert (H : forall r1, fd_trace r1 = fd_trace r ++ calls -> file_watcher r1 = file_watcher r ->
            metrics_server r1 = metrics_server r -> Redis.fd_ (redis r1) = Redis.fd_ c -> owner (fd_trace r1) (owned r1 ++ l)).
  { intros r1 Et Ew Em Er. eapply note_owner; [exact Ho|exact Hc|exact Et|]. unfold owned.
    by rewrite (holds_none (Redis.fd_ (redis r))), Ew, Em, Er, <- !app_assoc. }
  destruct ok; cbn [negb] in E; [|injection E as _ <-; by apply H].
  apply bind_Ret_inv in E as ([reg c'] & Es & E). apply Redis.send_fd in Es.
  destruct reg; injection E as _ <-; by apply H.
Qed.

Lemma startup_state w resources_at o b r :
  startup w resources_at o = Ret (b, r) ->
  (alive r = LRedis :: declared \/ b = false /\ alive r = declared /\ Redis.is_connected (redis r) = false) /\
  balanced w o r /\ Supervisor.processes_ (process_supervisor r) = ∅.
Proof.
  assert (Hnone : forall r1, fd_trace r1 = [] -> owned r1 = [] -> balanced w o r1).
  { intros r1 Et Eo. exists []. split; [by left|]. rewrite Et, Eo. apply owner_none. }
  destruct (decide (known_profile o)) as [Hp|Hp].
  - destruct (decide (network_ok w o)) as [Hn|Hn].
    + rewrite (startup_prepared _ _ _ Hp Hn).
      pose proof (prepared_parts w resources_at o) as (_ & _ & _ & _ & Es & Er & _ & Ea).
      pose proof (prepared_balanced w resources_at o) as Hb.
      set (r0 := prepared w resources_at o) in *. clearbody r0. intros E.
      assert (Hb' : balanced w o r) by (eapply connect_redis_balanced; [exact E|by rewrite Er|done]).
      revert E. unfold connect_redis.
      destruct (Redis.connect _ _ _ _) as [[[] c] calls]; cbn [negb].
      * destruct (Redis.sandbox_register _ _ _ _ _) as [[[reply|] c']| | |]; cbn [mbind outcome_bind]; try done;
          intros [= <- <-]; cbn; rewrite Ea, Es; auto.
      * intros [= <- <-]. cbn. rewrite Ea, Es. auto.
    + unfold startup. rewrite with_id_profile. cbn [security_manager register_checks set_health construct].
      destruct Hp as [p ->]. unfold init_network, network_ok in *. rewrite with_id_netns.
      destruct (Main.enable_netns o); cbn [negb]; [|tauto]. cbn [commands register_checks set_health construct].
      destruct (NetNS.init _ _ _ _) as [[] h]; [cbn in Hn; tauto|]. cbn [negb]. intros [= <- <-]. cbn.
      split_and!; [by right|by apply Hnone|reflexivity].
  - unfold startup. rewrite with_id_profile. cbn [security_manager register_checks set_health construct].
    unfold known_profile in Hp. destruct (Security.get_profile _ _); [by destruct Hp; eexists|].
    intros [= <- <-]. cbn. split_and!; [by right|by apply Hnone|reflexivity].
Qed.

(** An unknown profile ends the program before anything has started. *)
Lemma startup_unknown w resources_at o :
  ~ known_profile o -> startup w resources_at o = Ret (false, register_checks w resources_at (construct w)).
Proof.
  intros Hp. unfold startup. rewrite with_id_profile. cbn [security_manager register_checks set_health construct].
  unfold known_profile in Hp. destruct (Security.get_profile _ _); [by destruct Hp; eexists|done].
Qed.

Lemma main_failed w resources_at o turns r :
  startup w resources_at o = Ret (false, r) -> exists r', main w resources_at o turns = Ret (1, r').
Proof.
  intros E. destruct (startup_state _ _ _ _ _ E) as (Ha & Hf & Hs).
  destruct (destroy_quiet w o r) as (r' & Ed & _); [tauto|done|done|].
  exists r'. unfold main. rewrite E. cbn [mbind outcome_bind negb]. by rewrite Ed.
Qed.

(** After the loop the destructors run to their end. *)
Lemma main_ends w resources_at o o' turns n r r1 n1 :
  startup w resources_at o = Ret (true, r) -> job_loop w o' turns n r = Ret (r1, n1) ->
  exists r', destroy_locals (alive (shutdown r1)) (shutdown r1) = Ret r' /\ quiet w o r'.
Proof.
  intros E El. apply startup_state in E as ([Ha|[? _]] & Hb & Hs); [|done].
  apply job_loop_kept in El as [K1 K2 K3 K4 K5 K6 K7 K8]. apply destroy_quiet.
  - left. cbn. congruence.
  - apply shutdown_balanced, (same_balanced w o r); [done| |done]. unfold owned. by rewrite K1, K3, K8.
  - change (Supervisor.processes_ (Supervisor.stop_all (process_supervisor r1)).2 = ∅). rewrite K5.
    unfold Supervisor.stop_all. by rewrite Hs.
Qed.

(** C16: The program closes what it opens on every way out, each descriptor
    once.  However [main] ends, with status 0 after the loop or 1 from a
    start-up that failed: in the trace of all the descriptors that its objects
    opened and closed, the metrics socket, the watcher's inotify instance and
    the connection are closed exactly once after they were opened, and nothing
    is closed that is not open; the one descriptor left over, only with IPC
    enabled, is the socket [IPCChannel::connect] has bound, which nobody
    stores.  The threads of the monitor and the watcher are told to stop, the
    objects hold no descriptor, the managers are destroyed (the bridge and the
    NAT rule of the network manager stay) and no object of [main] is left. *)
Theorem main_releases_everything w resources_at o turns code r
    (Hmain : main w resources_at o turns = Ret (code, r)) :
  at_rest r /\
  (exists l, (l = [] \/ Main.enable_ipc o = true /\ l = [ipc_fd w]) /\ held [] (fd_trace r) = Some l) /\
  (code = 0 \/ code = 1).
Proof.
  enough (quiet w o r /\ (code = 0 \/ code = 1)) as [[Hr Hf] Hc] by done.
  unfold main in Hmain. destruct (startup w resources_at o) as [[ok r0]| | |] eqn:E; cbn [mbind outcome_bind] in Hmain;
    try done.
  destruct ok; cbn [negb] in Hmain.
  - destruct (job_loop _ _ _ _ _) as [[r1 n]| | |] eqn:El; cbn [mbind outcome_bind] in Hmain; try done.
    destruct (main_ends _ _ _ _ _ _ _ _ _ E El) as (r' & Ed & Hq).
    rewrite Ed in Hmain. cbn [mbind outcome_bind] in Hmain. injection Hmain as <- <-. auto.
  - apply startup_state in E as (Ha & Hb & Hs). destruct (destroy_quiet w o r0) as (r' & Ed & Hq); [tauto|done|done|].
    rewrite Ed in Hmain. cbn [mbind outcome_bind] in Hmain. injection Hmain as <- <-. auto.
Qed.

(** A stopped monitor stays stopped. *)
Lemma destructor_stopped l r r' :
  destructor l r = Ret r' -> Health.running_ (health_monitor r) = false ->
  Health.running_ (health_monitor r') = false.
Proof.
  intros Hd Hr. destruct l; cbn [destructor mbind outcome_bind] in Hd;
    try (destruct (Supervisor.destroy (process_supervisor r)); cbn [mbind outcome_bind] in Hd; try done);
    try destruct (net_manager r); try destruct (ipc_manager r); injection Hd as <-; exact Hr || reflexivity.
Qed.

Lemma destroy_stopped ls r r' :
  destroy_locals ls r = Ret r' -> Health.running_ (health_monitor r) = false ->
  Health.running_ (health_monitor r') = false.
Proof.
  revert r. induction ls as [|l ls IH]; intros r; cbn [destroy_locals]; [by intros [= <-]|].
  destruct (destructor l r) as [r1| | |] eqn:E; cbn [mbind outcome_bind]; try done.
  intros Hd Hr. apply (IH r1 Hd). by eapply destructor_stopped.
Qed.

(** The objects destroyed before the monitor, and those after them. *)
Definition before_watcher : list local :=
  [LRedis; LIpcManager; LNetManager; LSecurityManager; LProcessSupervisor; LResourceManager].
Definition from_watcher : list local := [LFileWatcher; LLogAggregator; LHealthMonitor; LMetricsServer; LMetrics].

Lemma destructor_spec l r :
  Supervisor.processes_ (process_supervisor r) = ∅ ->
  exists r1, destructor l r = Ret r1 /\ process_supervisor r1 = process_supervisor r /\
    alive r1 = filter (fun l' => l' <> l) (alive r) /\
    (l <> LHealthMonitor -> health_monitor r1 = health_monitor r).
Proof.
  intros Hs. pose proof (destroy_empty _ Hs) as Hd.
  destruct l; cbn [destructor mbind outcome_bind]; try (rewrite Hd; cbn [mbind outcome_bind]);
    eexists; (split; [reflexivity|]); try destruct (net_manager r); try destruct (ipc_manager r); by split_and!.
Qed.

Lemma destroy_keeps_health ls r :
  Supervisor.processes_ (process_supervisor r) = ∅ -> LHealthMonitor ∉ ls ->
  exists r1, destroy_locals ls r = Ret r1 /\ alive r1 = filter (fun l => l ∉ ls) (alive r) /\
    health_monitor r1 = health_monitor r.
Proof.
  revert r. induction ls as [|l ls IH]; intros r Hs Hl; cbn [destroy_locals].
  - exists r. split_and!; try done. induction (alive r) as [|x al IHal]; [done|].
    rewrite filter_cons_True by apply not_elem_of_nil. by rewrite <- IHal.
  - apply not_elem_of_cons in Hl as [Hne Hl].
    destruct (destructor_spec l r Hs) as (r1 & -> & Es & Ea & Eh). cbn [mbind outcome_bind].
    destruct (IH r1) as (r2 & E2 & Ea2 & Eh2); [by rewrite Es|done|].
    exists r2. split; [done|]. rewrite Ea2, Ea, Eh2, list_filter_filter. split; [|by apply Eh].
    apply list_filter_iff. intros x. rewrite not_elem_of_cons. tauto.
Qed.

Lemma destroy_before_watcher r :
  alive r = LRedis :: declared -> Supervisor.processes_ (process_supervisor r) = ∅ ->
  exists r1, destroy_locals before_watcher r = Ret r1 /\ alive r1 = from_watcher /\
    health_monitor r1 = health_monitor r.
Proof.
  intros Ha Hs. destruct (destroy_keeps_health before_watcher r Hs) as (r1 & E & Ea & Eh).
  - by apply (bool_decide_unpack (LHealthMonitor ∉ before_watcher)).
  - exists r1. by rewrite Ea, Ha.
Qed.

(** C34: A refused connection ends the program with the health monitor still
    at work on a destroyed object.  The monitor's thread runs since before
    the connection is tried, and the early [return] destroys the objects in
    the reverse order of their declarations: [resource_manager], which the
    check ["resources"] reads through a reference, goes before
    [health_monitor], whose destructor stops and joins the thread.  The way
    out through the shutdown is safe: there the monitor is stopped before the
    first destructor runs. *)
Theorem failed_connection_outlives_resources w resources_at o
    (Hprofile : known_profile o) (Hnet : network_ok w o)
    (Hrefused : redis_sock w < 0 \/ redis_rc w < 0) :
  (exists r r1 first, startup w resources_at o = Ret (false, r) /\
    alive r = (first ++ alive r1) /\ destroy_locals first r = Ret r1 /\
    (LResourceManager ∉ alive r1) /\ (LHealthMonitor ∈ alive r1) /\
    Health.running_ (health_monitor r1) = true /\
    Health.checks_ (health_monitor r1) !! "resources" =
      Some (Health.mkCheck (fun i => resources_check w (resources_at i)) false)) /\
  forall r first r1, destroy_locals first (shutdown r) = Ret r1 -> Health.running_ (health_monitor r1) = false.
Proof.
  split; [|intros r first r1 Hd; by apply (destroy_stopped _ _ _ Hd)].
  rewrite (startup_prepared _ _ _ Hprofile Hnet). unfold connect_redis.
  pose proof (prepared_parts w resources_at o) as (_ & Eh & _ & _ & Es & Er & _ & Ea).
  pose proof (prepared_checks w resources_at o "resources") as Ec.
  set (r0 := prepared w resources_at o) in *. clearbody r0.
  assert (Hc : (Redis.connect (redis_sock w) (redis_rc w) (redis_peer w) (redis (set_alive (LRedis :: alive r0) r0))).1.1 =
    false).
  { unfold Redis.connect. destruct (Z.ltb_spec (redis_sock w) 0); [done|].
    destruct (Z.ltb_spec (redis_rc w) 0); [by destruct (Redis.close _)|]. lia. }
  destruct (Redis.connect _ _ _ _) as [[ok c] calls]. cbn in Hc. subst ok. cbn [negb].
  destruct (destroy_before_watcher (set_redis c (note calls (set_alive (LRedis :: alive r0) r0)))) as (r1 & Ed & Ea1 & Eh1);
    [cbn; by rewrite Ea|done|].
  exists (set_redis c (note calls (set_alive (LRedis :: alive r0) r0))), r1, before_watcher.
  rewrite Ea1, Eh1. split_and!; [done| |done| | | |exact Ec].
  - cbn. by rewrite Ea.
  - by apply (bool_decide_unpack (LResourceManager ∉ from_watcher)).
  - by apply (bool_decide_unpack (LHealthMonitor ∈ from_watcher)).
  - cbn [health_monitor set_redis note set_alive]. by rewrite Eh.
Qed.

(** Only a start-up that got as far as the connection enters the loop. *)
Lemma startup_true w resources_at o r :
  startup w resources_at o = Ret (true, r) ->
  health_monitor r = health_monitor (prepared w resources_at o) /\ resource_manager r = Resource.mkManager ∅ false.
Proof.
  intros E. destruct (decide (known_profile o)) as [Hp|Hp].
  - destruct (decide (network_ok w o)) as [Hn|Hn].
    + rewrite (startup_prepared _ _ _ Hp Hn) in E. unfold connect_redis in E.
      pose proof (prepared_parts w resources_at o) as (_ & _ & _ & Er & _).
      set (r0 := prepared w resources_at o) in *. clearbody r0.
      destruct (Redis.connect _ _ _ _) as [[[] c] calls]; cbn [negb] in E; [|done].
      destruct (Redis.sandbox_register _ _ _ _ _) as [[[reply|] c']| | |]; cbn [mbind outcome_bind] in E; try done.
      injection E as _ <-. by split.
    + exfalso. unfold startup in E. rewrite with_id_profile in E.
      cbn [security_manager register_checks set_health construct] in E.
      destruct Hp as [p Hp]. rewrite Hp in E. unfold init_network, network_ok in *. rewrite with_id_netns in E.
      destruct (Main.enable_netns o); cbn [negb] in E; [|tauto].
      cbn [commands register_checks set_health construct] in E.
      destruct (NetNS.init _ _ _ _) as [[] h]; [cbn in Hn; tauto|]. done.
  - exfalso. unfold startup in E. rewrite with_id_profile in E.
    cbn [security_manager register_checks set_health construct] in E.
    unfold known_profile in Hp. destruct (Security.get_profile _ _); [by destruct Hp; eexists|]. done.
Qed.

(** The health monitor of the runtime cannot report anything.  Whatever
    the loop does, it leaves the monitor's checks and [resource_manager] as
    the start-up has made them; no resource monitor is ever added, and each
    pass of the checks finds ["redis"], ["sandbox"] and ["resources"] healthy,
    with the connection lost as with the connection open. *)
Theorem health_checks_blind w resources_at o r turns n r' n' turn t
    (Hstart : startup w resources_at o = Ret (true, r))
    (Hloop : job_loop w (with_id w o) turns n r = Ret (r', n'))
    (Hres : forall i, resources_at i = resource_manager r') :
  exists m, Health.run_checks turn t (sorted_keys (Health.checks_ (health_monitor r'))) (health_monitor r') = Ret m /\
  (forall nm, nm ∈ ["redis"; "sandbox"; "resources"] -> Health.is_healthy nm m = true) /\
  Health.statuses_ m !! "redis" = Some (Health.mkStatus "redis" true "ok" t).
Proof.
  destruct (startup_true _ _ _ _ Hstart) as [Eh Er]. destruct (job_loop_kept _ _ _ _ _ _ _ Hloop) as [_ Kh _ Kr _ _ _ _].
  rewrite Kh, Eh. rewrite Kr, Er in Hres. pose proof (prepared_checks w resources_at o) as Ec.
  set (m0 := health_monitor (prepared w resources_at o)) in *. clearbody m0.
  destruct (Health.run_checks_spec turn t (sorted_keys (Health.checks_ m0)) m0) as (m & E & _ & _ & _ & _ & Est).
  { intros nm fn. rewrite Ec. repeat case_decide; by intros [= <-]. }
  assert (Hat : forall nm fn, Health.checks_ m0 !! nm = Some fn ->
    Health.statuses_ m !! nm = Some (Health.status_of nm (Health.answer fn turn) t)).
  { intros nm fn Hfn. rewrite Est, Hfn, decide_True; [done|]. apply sorted_keys_elem. by eexists. }
  exists m. split; [done|]. split.
  - intros nm. rewrite !elem_of_cons, elem_of_nil. unfold Health.is_healthy.
    intros [-> | [-> | [-> | []]]]; erewrite Hat by (rewrite Ec; reflexivity); try done.
    cbn [Health.answer]. rewrite Hres. by rewrite resources_check_ok.
  - erewrite Hat by (rewrite Ec; reflexivity). reflexivity.
Qed.

End Startup.

(** ** Witnesses *)

(** A server that answers with the sandbox's id. *)
Definition demo_reply : Server.Response := Server.Str "box".
Definition demo_peer : Socket.socket :=
  Socket.mkSocket (match Server.write_response (Server.encode demo_reply) with
                   | [] => [] | b :: bs => [Socket.Data b bs] end) [1000] [].
Definition demo_world (sock : Z) : world :=
  mkWorld 77 9 true true (fun _ _ => true) (fun _ _ => "") 8 true ∅ 5 1 sock 0 demo_peer 100 100
    (fun _ => Resource.mkProc None None None None).
Definition no_monitors (_ : nat) : Resource.ResourceManager := Resource.mkManager ∅ false.

Lemma demo_known : known_profile (Main.demo_options "standard").
Proof. apply (bool_decide_unpack _). vm_compute. exact I. Qed.

Lemma demo_network sock : network_ok (demo_world sock) (Main.demo_options "standard").
Proof. by left. Qed.

Lemma demo_room : Socket.room_for (length (Server.frame (registration (demo_world 3) (Main.demo_options "standard"))))
  (Socket.tx_room demo_peer).
Proof. vm_compute. done. Qed.

Lemma startup_registers_witness :
  exists r, startup (V := Z) (fun _ => true) (demo_world 3) no_monitors (Main.demo_options "standard") = Ret (true, r) /\
  Socket.tx (Redis.net (redis r)) = Server.frame ["sandbox register"; "box"; "local"; "127.0.0.1:1234"] /\
  Metrics.running_ (metrics_server r) = true.
Proof.
  destruct (startup_registers (V := Z) (fun _ => true) (demo_world 3) no_monitors
    (Main.demo_options "standard") demo_reply []) as (r & E & _ & Etx & _ & _ & Em & _).
  - exact demo_known.
  - apply demo_network.
  - cbn. lia.
  - cbn. lia.
  - vm_compute. congruence.
  - exact demo_room.
  - vm_compute. split; congruence.
  - vm_compute. congruence.
  - done.
  - reflexivity.
  - exists r. split; [exact E|]. split; [exact Etx|exact Em].
Defined.

Lemma demo_unknown : ~ known_profile (Main.demo_options "none").
Proof. apply (bool_decide_unpack (~ known_profile (Main.demo_options "none"))). vm_compute. exact I. Qed.

Lemma failed_connection_outlives_resources_witness :
  exists (r r1 : runtime (V := Z)),
    startup (fun _ => true) (demo_world (-1)) no_monitors (Main.demo_options "standard") = Ret (false, r) /\
    (LResourceManager ∉ alive r1) /\ Health.running_ (health_monitor r1) = true.
Proof.
  destruct (failed_connection_outlives_resources (V := Z) (fun _ => true) (demo_world (-1)) no_monitors
    (Main.demo_options "standard") demo_known (demo_network _) (or_introl eq_refl))
    as [(r & r1 & first & E & _ & _ & Hn & _ & Hrun & _) _].
  exists r, r1. split; [exact E|]. split; [exact Hn|exact Hrun].
Defined.

Lemma demo_started : exists r,
  startup (V := Z) (fun _ => true) (demo_world 3) no_monitors (Main.demo_options "standard") = Ret (true, r).
Proof.
  destruct (startup_answered (V := Z) (fun _ => true) (demo_world 3) no_monitors
    (Main.demo_options "standard") demo_reply []) as (c & E & _);
    [exact demo_known|apply demo_network|cbn; lia|cbn; lia|vm_compute; congruence|exact demo_room
    |vm_compute; split; congruence|vm_compute; congruence|done|reflexivity|].
  eexists. exact E.
Qed.

(** A run without a signal's delay: the metrics socket and the connection are
    opened and closed. *)
Lemma main_releases_everything_witness :
  exists r, main (fun z : Z => z) (fun _ => true) (demo_world 3) no_monitors (Main.demo_options "standard") [] = Ret (0, r) /\
  at_rest r /\ held [] (fd_trace r) = Some [].
Proof.
  destruct demo_started as [r0 E]. destruct (main_ends (fun z : Z => z) (fun _ => true) _ _ _ (with_id (demo_world 3) (Main.demo_options "standard"))
    [] (Main.mkCounters 0 0) _ _ _ E eq_refl) as (r & Ed & _).
  assert (Hmain : main (fun z : Z => z) (fun _ => true) (demo_world 3) no_monitors (Main.demo_options "standard") [] = Ret (0, r)).
  { unfold main. rewrite E. cbn [mbind outcome_bind negb job_loop]. by rewrite Ed. }
  exists r. split; [exact Hmain|].
  destruct (main_releases_everything _ _ _ _ _ _ _ _ Hmain) as (Hr & (l & [->|[Hl _]] & Hh) & _); [by split|discriminate Hl].
Defined.

Lemma health_checks_blind_witness :
  exists (r : runtime (V := Z)) m,
    startup (fun _ => true) (demo_world 3) no_monitors (Main.demo_options "standard") = Ret (true, r) /\
    Health.run_checks 4 60 (sorted_keys (Health.checks_ (health_monitor r))) (health_monitor r) = Ret m /\
    Health.is_healthy "redis" m = true.
Proof.
  destruct demo_started as [r E].
  destruct (health_checks_blind (fun z : Z => z) (fun _ => true) (demo_world 3) no_monitors
    (Main.demo_options "standard") r [] (Main.mkCounters 0 0) r (Main.mkCounters 0 0) 4 60 E eq_refl)
    as (m & Em & Hh & _).
  - intros i. symmetry. exact (proj2 (startup_true _ _ _ _ _ E)).
  - exists r, m. split; [exact E|]. split; [exact Em|]. apply Hh. left.
Defined.

End Startup.
