(* ===== verification/System.v ===== *)
(** * The sandbox runtime against the server

    The job loop of [main.cpp] with its Redis client on one side of a
    connection, a task of [server.rs] with the handler and the store on the
    other.  Requests and responses travel as the bytes both sides encode and
    decode.  The server drops a connection that is silent for longer than its
    read timeout or that sends a malformed request; the client never connects
    again, and dies when it writes to a connection that was reset. *)

From stdpp Require Import base strings gmap list numbers.
From Stdlib Require Import ZArith Lia.
From S2P Require Import Prelude Text Wire ServerProto RedisClient Security Sandbox Store Handler Main.

Module System.
Import Handler.

(** [Config::default().read_timeout], in milliseconds. *)
Definition READ_TIMEOUT : Z := 30 * 1000.

(** The server's side of the sandbox's connection, and its clock. *)
Record link := mkLink { server : Store.store; opened : bool; clock : Z }.

Section System.
Context `{RustText}.

(** The commands [Handler.v] does not model; what the network makes of the
    server's bytes and of the client's, by their number; whether, at a time
    after the server has closed, its host's reset has come to the client; the
    allocator. *)
Context (other_command : list string -> prog).
Context (cut : list byte -> list Socket.segment) (rooms : nat -> list Z) (reset : Z -> bool) (reserve_ok : Z -> bool).

Definition handler (args : list string) : prog := default (other_command args) (dispatch args).

(** One turn of the loop of [handle_conn]: the message [msg] comes [gap]
    milliseconds after the previous one.  The bytes sent back; none once the
    connection is closed. *)
Definition serve (gap : Z) (msg : list byte) (l : link) : list byte * link :=
  let now := clock l + gap in
  let closed := ([], mkLink (server l) false now) in
  if negb (opened l) then closed
  else if READ_TIMEOUT <? gap then closed
  else
    match (Server.read_request msg).1 with
    | inl _ => closed
    | inr args =>
        match run now (handler args) (server l) with
        | (None, st) => ([], mkLink st false now)
        | (Some resp, st) => (Server.write_response (Server.encode resp), mkLink st true now)
        end
    end.

(** Whether the next request is written to a connection that was reset: one the
    server has closed before, when the reset has come. *)
Definition broken (gap : Z) (l : link) : bool := negb (opened l) && reset (clock l + gap).

(** A call of [RedisClient::send] on the connection. *)
Definition call (gap : Z) (args : list string) (l : link) : outcome (option Redis.Response * link) :=
  msg ← Redis.encode_request args;
  let room := if broken gap l then [- Socket.EPIPE] else rooms (length msg) in
  let '(answer, l) := serve gap msg l in
  '(r, _) ← Redis.send reserve_ok args (Redis.mkClient 3 (Socket.mkSocket (cut answer) room []));
  Ret (r, l).

(** Requests sent one after the other; [gaps i] is the time before the [i]-th
    request of a turn. *)
Fixpoint calls (gaps : nat -> Z) (i : nat) (reqs : list (list string)) (l : link) : outcome link :=
  match reqs with
  | [] => Ret l
  | args :: reqs => '(_, l) ← call (gaps i) args l; calls gaps (S i) reqs l
  end.

(** The requests among the actions of a turn, after [job next]. *)
Definition perform (gaps : nat -> Z) (acts : list Main.action) (l : link) : outcome link :=
  calls gaps 1 (Main.requests acts) l.

(** A turn of the job loop against the server. *)
Definition turn (o : Main.Options) (sec : Security.SecurityManager) (e : Main.surroundings) (gaps : nat -> Z)
    (n : Main.counters) (l : link) : outcome (list Main.action * Main.counters * link) :=
  '(job_resp, l) ← call (gaps O) ["job next"] l;
  '(acts, n) ← Main.job_turn o sec e job_resp n;
  l ← perform gaps acts l;
  Ret (acts, n, l).

(** The loop: the surroundings and the gaps of each turn. *)
Fixpoint loop (o : Main.Options) (sec : Security.SecurityManager) (turns : list (Main.surroundings * (nat -> Z)))
    (n : Main.counters) (l : link) : outcome (list Main.action * Main.counters * link) :=
  match turns with
  | [] => Ret ([], n, l)
  | (e, gaps) :: turns =>
      '(acts, n, l) ← turn o sec e gaps n l;
      '(rest, n, l) ← loop o sec turns n l;
      Ret (acts ++ rest, n, l)
  end.

(** ** Calls *)

(** The network delivers what is written and has room for it; the allocator
    serves responses of the protocol's size. *)
Hypothesis Hcut : forall bs, Socket.delivered (cut bs) = bs.
Hypothesis Hrooms : forall n, Socket.room_for n (rooms n).
Hypothesis Halloc : forall n, 0 <= n <= Redis.MAX_RESPONSE -> reserve_ok n = true.

Definition utf8 (s : string) : Prop := Server.valid_utf8 (bytes_of s) = true.

(** A request inside the protocol's limits. *)
Definition fits (args : list string) : Prop :=
  Z.of_nat (length args) <= Server.MAX_ARGS /\ Server.request_size args <= Server.MAX_MSG_SIZE.

Definition small (r : Server.Response) : Prop :=
  Server.wf r /\ Z.of_nat (length (Server.encode r)) <= Redis.MAX_RESPONSE.

Lemma call_answered gap args l answer l' r :
  fits args -> broken gap l = false -> serve gap (Server.frame args) l = (answer, l') ->
  Redis.response_of reserve_ok answer = Ret r -> call gap args l = Ret (r, l').
Proof.
  intros [Hn Hs] Hb Hserve Hr. unfold call. rewrite Redis.encode_request_cases, decide_True
    by (unfold Server.MAX_MSG_SIZE in *; lia). cbn [mbind outcome_bind]. rewrite Hb, Hserve.
  destruct (Redis.send_answered reserve_ok
    (Redis.mkClient 3 (Socket.mkSocket (cut answer) (rooms (length (Server.frame args))) [])) args r)
    as (c' & -> & _); [done|done|apply Hrooms|by cbn; rewrite Hcut|done].
Qed.

(** A request the server answers. *)
Lemma serve_ok gap args l resp st :
  fits args -> Forall utf8 args -> opened l = true -> gap <= READ_TIMEOUT ->
  run (clock l + gap) (handler args) (server l) = (Some resp, st) ->
  serve gap (Server.frame args) l = (Server.write_response (Server.encode resp), mkLink st true (clock l + gap)).
Proof.
  intros [Hn Hs] Hu Ho Hg Hrun. unfold serve. rewrite Ho. cbn [negb]. rewrite (proj2 (Z.ltb_ge _ _)) by done.
  rewrite <- (app_nil_r (Server.frame args)), Server.read_request_frame by done. cbn [fst].
  by rewrite Hrun.
Qed.

(** ... and the call that makes it. *)
Lemma call_ok gap args l resp st :
  fits args -> Forall utf8 args -> opened l = true -> gap <= READ_TIMEOUT ->
  run (clock l + gap) (handler args) (server l) = (Some resp, st) -> small resp ->
  call gap args l = Ret (Some (Redis.of_server resp), mkLink st true (clock l + gap)).
Proof.
  intros Hfit Hu Ho Hg Hrun [Hwf Hsz]. eapply call_answered; [done|by unfold broken; rewrite Ho|by apply serve_ok|].
  rewrite <- (app_nil_r (Server.write_response _)).
  apply Redis.response_of_written; [done| |done]. intros n Hn'. apply Halloc. lia.
Qed.

(** A call nobody answers. *)
Lemma call_unanswered gap args l l' :
  fits args -> broken gap l = false -> serve gap (Server.frame args) l = ([], l') -> call gap args l = Ret (None, l').
Proof. intros Hfit Hb Hs. by eapply call_answered. Qed.

Lemma serve_closed gap msg l : opened l = false -> serve gap msg l = ([], mkLink (server l) false (clock l + gap)).
Proof. intros Ho. unfold serve. by rewrite Ho. Qed.

(** On a connection the server has closed there is no answer, and once its
    reset has come the process dies. *)
Lemma call_closed gap args l :
  fits args -> opened l = false ->
  call gap args l =
  if reset (clock l + gap) then Undefined Sigpipe else Ret (None, mkLink (server l) false (clock l + gap)).
Proof.
  intros Hfit Ho. destruct (reset (clock l + gap)) eqn:Er.
  - unfold call. destruct Hfit as [Hn Hs]. rewrite Redis.encode_request_cases, decide_True
      by (unfold Server.MAX_MSG_SIZE in *; lia). cbn [mbind outcome_bind].
    rewrite serve_closed by done. unfold broken. rewrite Ho, Er. cbn [negb andb].
    rewrite (Redis.send_reset reserve_ok _ _ []); done || (unfold Server.MAX_MSG_SIZE in *; lia).
  - apply call_unanswered; [done|by unfold broken; rewrite Ho, Er|by apply serve_closed].
Qed.

(** The requests the server answers by closing the connection. *)
Definition refused (gap : Z) (args : list string) : Prop :=
  READ_TIMEOUT < gap \/ Exists (fun a => Server.valid_utf8 (bytes_of a) = false) args.

Lemma call_refused gap args l :
  fits args -> opened l = true -> refused gap args ->
  call gap args l = Ret (None, mkLink (server l) false (clock l + gap)).
Proof.
  intros Hfit Ho Hr. apply call_unanswered; [done|by unfold broken; rewrite Ho|]. unfold serve. rewrite Ho. cbn [negb].
  destruct (Z.ltb_spec READ_TIMEOUT gap); [done|]. destruct Hr as [Hr|Hr]; [lia|].
  destruct Hfit as [Hn Hs]. by destruct (Server.read_request_bad args Hr Hn Hs) as (e & rest & ->).
Qed.

(** ** What the runtime's requests do to the store *)

Lemma handler_lower name args :
  all_chars lower_ascii name = true -> bool_decide (name ∈ config_commands) = false ->
  handler (name :: args) = command name args.
Proof. intros Hl Hn. unfold handler. by rewrite dispatch_lower. Qed.

Lemma run_lpush_each now key vals k st :
  run now (lpush_each key vals k) st = run now k (foldl (fun st v => Store.lpush key v st) st vals).
Proof. revert st. induction vals as [|v vals IH]; intros st; [done|]. apply IH. Qed.

(** The list under a key after pushing, one by one, onto no list. *)
Lemma lpush_all key vals st l :
  Store.list_at key st = Some l ->
  Store.list_at key (foldl (fun st v => Store.lpush key v st) st vals) = Some (reverse vals ++ l).
Proof.
  revert st l. induction vals as [|v vals IH]; intros st l Hl; [done|]. cbn [foldl].
  rewrite (IH _ (v :: l)) by (by apply Store.list_at_lpush). by rewrite reverse_cons, <- app_assoc.
Qed.

Lemma lpush_all_other key key' vals st :
  key <> key' -> foldl (fun st v => Store.lpush key v st) st vals !! key' = st !! key'.
Proof.
  intros Hne. revert st. induction vals as [|v vals IH]; intros st; [done|]. cbn [foldl].
  by rewrite IH, Store.lpush_other.
Qed.

Lemma small_int v : in_i64 v -> small (Server.Int v).
Proof.
  intros Hv. split; [done|]. unfold Redis.MAX_RESPONSE. cbn [Server.encode length].
  rewrite length_le_bytes. lia.
Qed.

(** Strings far below every limit. *)
Definition short (s : string) : Prop := Z.of_nat (String.length s) <= 65536.

Lemma small_str s : short s -> small (Server.Str s).
Proof.
  unfold short. intros Hs. split; [cbn; unfold in_u32; lia|]. unfold Redis.MAX_RESPONSE.
  cbn [Server.encode length]. unfold Server.encode_string. rewrite length_app, length_le_bytes, length_bytes_of. lia.
Qed.

Lemma fits_short args : (length args <= 16)%nat -> Forall short args -> fits args.
Proof.
  intros Hl Hs. unfold fits, Server.request_size, Server.MAX_ARGS, Server.MAX_MSG_SIZE. split; [lia|].
  assert (Server.args_size args <= 65540 * Z.of_nat (length args)).
  { clear Hl. induction Hs as [|a args Ha _ IH]; [done|]. unfold short in Ha. cbn [Server.args_size length]. lia. }
  lia.
Qed.

(** Onto a key that is not there. *)
Lemma lpush_all_new key v vals st :
  st !! key = None ->
  Store.list_at key (foldl (fun st v => Store.lpush key v st) st (v :: vals)) = Some (reverse (v :: vals)).
Proof.
  intros Hn. cbn [foldl]. rewrite (lpush_all _ _ _ [v]) by (by apply Store.list_at_lpush_new).
  by rewrite reverse_cons.
Qed.

(** [job log]: the old lines, read as a list that is not there when the key
    holds something else, are written back with the new one, last first. *)
Definition log_lines (id : string) (st : Store.store) : list string :=
  default [] (Store.list_at (log_key id) st).

Definition append_log (id : string) (st : Store.store) (line : string) : Store.store :=
  foldl (fun st v => Store.lpush (log_key id) v st) (delete (log_key id) st) (log_lines id st ++ [line]).

Definition claimed (sb id : string) (st : Store.store) : Store.store :=
  Store.set_str (sandbox_job_key sb) id (Store.set_str (sandbox_status_key sb) "busy" st).

Definition released (sb : string) (st : Store.store) : Store.store :=
  delete (sandbox_job_key sb) (Store.set_str (sandbox_status_key sb) "idle" st).

Definition verdict (code : Z) : string := if code =? 0 then "passed" else "failed".

Definition finished (id : string) (code ms : Z) (st : Store.store) : Store.store :=
  Store.lpush RESULTS (id +:+ "|" +:+ verdict code +:+ "|" +:+ to_string ms)
    (Store.set_str (result_key id) ("exit_code=" +:+ to_string code +:+ ",duration_ms=" +:+ to_string ms)
       (Store.set_str (status_key id) (verdict code) st)).

Definition reported (sb id : string) (logs : list string) (code ms : Z) (st : Store.store) : Store.store :=
  released sb (finished id code ms (foldl (append_log id) (claimed sb id st) logs)).

(** The requests of a job: answered the same way whatever the server stores,
    with these effects. *)
Definition does (args : list string) (f : Store.store -> Store.store) : Prop :=
  exists resp, small resp /\ forall now st, run now (handler args) st = (Some resp, f st).

Lemma does_claim sb id : does ["sandbox claim"; sb; id] (claimed sb id).
Proof. exists (Server.Int 1). split; [by apply small_int|]. intros. by rewrite handler_lower. Qed.

Lemma does_release sb : does ["sandbox release"; sb] (released sb).
Proof. exists (Server.Int 1). split; [by apply small_int|]. intros. by rewrite handler_lower. Qed.

Lemma does_log id line : does ["job log"; id; line] (fun st => append_log id st line).
Proof.
  exists (Server.Int 1). split; [by apply small_int|]. intros now st.
  rewrite handler_lower by done. change (command _ _) with (job_log [id; line]).
  unfold job_log, do_lrange, append_log, log_lines. cbn [String.concat run exec].
  destruct (Store.list_at (log_key id) st) as [l|] eqn:E;
    [rewrite (Store.lrange_all _ l) by done|rewrite Store.lrange_none by done];
    cbn [run exec Store.del]; by rewrite run_lpush_each.
Qed.

Lemma does_result id code ms :
  in_i64 code -> in_i64 ms -> does ["job result"; id; to_string code; to_string ms] (finished id code ms).
Proof.
  intros Hc Hm. exists (Server.Str (verdict code)).
  split; [apply small_str; unfold verdict, short; case_match; cbn; lia|].
  intros now st. rewrite handler_lower by done. change (command _ _) with (job_result [id; to_string code; to_string ms]).
  unfold job_result. by rewrite !parse_i64_to_string.
Qed.

(** ** Sequences of requests *)

Definition polite (args : list string) : Prop := fits args /\ Forall utf8 args.

Lemma calls_ok gaps : (forall i, gaps i <= READ_TIMEOUT) -> forall reqs fs i l,
  Forall2 does reqs fs -> Forall polite reqs -> opened l = true ->
  exists t, calls gaps i reqs l = Ret (mkLink (foldl (fun st f => f st) (server l) fs) true t).
Proof.
  intros Hg reqs fs i l Hd. revert i l. induction Hd as [|args f reqs fs (resp & Hs & Hrun) _ IH]; intros i l Hp Ho.
  - destruct l as [st b t]. exists t. cbn in Ho. by rewrite Ho.
  - apply Forall_cons_1 in Hp as [[Hfit Hu] Hp]. cbn [calls foldl].
    rewrite (call_ok _ _ _ _ _ Hfit Hu Ho (Hg i) (Hrun _ _) Hs). cbn [mbind outcome_bind].
    by apply (IH (S i) (mkLink (f (server l)) true (clock l + gaps i))).
Qed.

(** What becomes of requests on a closed connection: they change nothing, or
    one of them kills the process. *)
Lemma calls_closed gaps reqs i l :
  Forall fits reqs -> opened l = false ->
  (calls gaps i reqs l = Undefined Sigpipe \/ exists t, calls gaps i reqs l = Ret (mkLink (server l) false t)) /\
  ((forall t, reset t = true) -> reqs <> [] -> calls gaps i reqs l = Undefined Sigpipe) /\
  ((forall t, reset t = false) -> exists t, calls gaps i reqs l = Ret (mkLink (server l) false t)).
Proof.
  intros Hf. revert i l. induction Hf as [|args reqs Hfit _ IH]; intros i l Ho.
  - destruct l as [st b t]. cbn in Ho. rewrite Ho. split_and!; [right; by exists t|done|by exists t].
  - cbn [calls]. rewrite call_closed by done. split_and!.
    + destruct (reset _); [by left|]. cbn [mbind outcome_bind].
      by apply (IH (S i) (mkLink (server l) false (clock l + gaps i))).
    + intros Hr _. by rewrite Hr.
    + intros Hr. rewrite Hr. cbn [mbind outcome_bind].
      by apply (IH (S i) (mkLink (server l) false (clock l + gaps i))).
Qed.

Lemma calls_app gaps reqs reqs' i l :
  calls gaps i (reqs ++ reqs') l = (l ← calls gaps i reqs l; calls gaps (i + length reqs) reqs' l).
Proof.
  revert i l. induction reqs as [|args reqs IH]; intros i l; cbn [app calls length].
  - by rewrite Nat.add_0_r.
  - destruct (call (gaps i) args l) as [[r l']| | |]; try done. cbn [mbind outcome_bind].
    by rewrite IH, Nat.add_succ_comm.
Qed.

(** Only the gaps before the requests matter. *)
Lemma calls_gaps gaps gaps' reqs i l :
  (forall j, (i <= j < i + length reqs)%nat -> gaps j = gaps' j) -> calls gaps i reqs l = calls gaps' i reqs l.
Proof.
  revert i l. induction reqs as [|args reqs IH]; intros i l Hg; [done|]. cbn [calls length] in *.
  rewrite <- (Hg i) by lia. destruct (call _ _ _) as [[r l']| | |]; try done. cbn [mbind outcome_bind].
  apply IH. intros j Hj. apply Hg. lia.
Qed.

(** The server executes the requests before one it refuses, and closes. *)
Lemma calls_refused gaps reqs fs bad i l :
  (forall j, (j < i + length reqs)%nat -> gaps j <= READ_TIMEOUT) ->
  Forall2 does reqs fs -> Forall polite reqs -> opened l = true ->
  fits bad -> refused (gaps (i + length reqs)%nat) bad ->
  exists t, calls gaps i (reqs ++ [bad]) l = Ret (mkLink (foldl (fun st f => f st) (server l) fs) false t).
Proof.
  intros Hg Hd Hp Ho Hfit Hbad. rewrite calls_app.
  set (gaps' := fun j => if decide (j < i + length reqs)%nat then gaps j else 0).
  rewrite (calls_gaps gaps gaps') by (intros j Hj; unfold gaps'; by rewrite decide_True by lia).
  destruct (calls_ok gaps') with (reqs := reqs) (fs := fs) (i := i) (l := l) as [t ->]; try done.
  { intros j. unfold gaps'. case_decide; [by apply Hg|unfold READ_TIMEOUT; lia]. }
  cbn [mbind outcome_bind calls]. rewrite call_refused by done. cbn [mbind outcome_bind server]. by eexists.
Qed.

Lemma utf8_ascii s : all_chars (Server.between 0 127) s = true -> utf8 s.
Proof.
  unfold utf8. induction s as [|c s IH]; [done|]. cbn. rewrite andb_true_iff. intros [Hc Hs].
  rewrite Hc. auto.
Qed.

Lemma to_string_polite z : in_i64 z -> short (to_string z) /\ utf8 (to_string z).
Proof.
  unfold in_i64. intros Hz. split.
  - unfold short. pose proof (length_to_string z 19 ltac:(change (10 ^ Z.of_nat 19) with (10 ^ 19); lia)). lia.
  - assert (Hd : forall z, 0 <= z -> all_chars (Server.between 0 127) (to_string z) = true).
    { intros z' Hz'. eapply all_chars_impl; [|by apply to_string_digits]. unfold is_digit, Server.between.
      intros c. rewrite !andb_true_iff. lia. }
    apply utf8_ascii. destruct (Z.ltb_spec z 0); [|auto]. rewrite to_string_neg by done.
    change (Server.between 0 127 (byte_of 45) && all_chars (Server.between 0 127) (to_string (- z)) = true).
    rewrite Hd by lia. done.
Qed.

Lemma Forall_both {A} (P Q : A -> Prop) l : Forall P l -> Forall Q l -> Forall (fun x => P x /\ Q x) l.
Proof. intros HP. induction HP; intros HQ; constructor; inversion HQ; auto. Qed.

Lemma polite_request args :
  (length args <= 16)%nat -> Forall (fun a => short a /\ utf8 a) args -> polite args.
Proof. intros Hl Ha. split; [apply fits_short; [done|]|]; eapply Forall_impl; [|exact Ha| |exact Ha]; by intros ? []. Qed.

Lemma polite_name s : (String.length s <= 100)%nat -> all_chars (Server.between 0 127) s = true -> short s /\ utf8 s.
Proof. intros Hl Hs. split; [unfold short; lia|by apply utf8_ascii]. Qed.

(** A request of known words and arguments known to be polite. *)
Ltac polite_tac :=
  apply polite_request; [cbn; lia|];
  repeat match goal with
  | |- Forall _ [] => constructor
  | |- Forall _ (_ :: _) => constructor; [first [assumption | apply polite_name; [cbn; lia|reflexivity]]|]
  end.

Lemma next_polite : polite ["job next"].
Proof. polite_tac. Qed.

(** ** A turn with a job *)

Record job := mkJob { jid : string; jname : string; jtarget : string; jcommand : string; jargs : string }.

Definition job_payload (j : job) : string := payload (jid j) (jname j) (jtarget j) (jcommand j) (jargs j).

(** No ['|'] in the fields but the last, and lengths below the limits. *)
Definition good_job (j : job) : Prop :=
  Forall bar_free [jid j; jname j; jtarget j; jcommand j] /\
  Forall short [jid j; jname j; jtarget j; jcommand j; jargs j] /\ utf8 (jid j).

Definition taken (id : string) (st : Store.store) : Store.store :=
  Store.set_str (status_key id) "running" (Store.rpop QUEUE st).2.

Lemma next_answered now j q st :
  Store.list_at QUEUE st = Some (q ++ [job_payload j]) -> good_job j ->
  run now (handler ["job next"]) st =
  (Some (Server.Arr (Server.Str <$> [jid j; jname j; jtarget j; jcommand j; jargs j])), taken (jid j) st).
Proof.
  intros Hq [Hb _]. rewrite handler_lower by done. change (command _ _) with job_next.
  destruct (Store.rpop_snoc _ _ _ _ Hq) as (st' & E & _). unfold job_next, taken. cbn [run exec].
  rewrite E. cbn beta iota delta [snd].
  assert (splitn 4 BAR (job_payload j) = [jid j; jname j; jtarget j; jcommand j; jargs j]) as ->; [|done].
  decompose_Forall. by apply splitn_payload.
Qed.

Lemma small_strs l : (length l <= 16)%nat -> Forall short l -> small (Server.Arr (Server.Str <$> l)).
Proof.
  intros Hl Hs. split.
  - cbn. rewrite length_fmap. split; [unfold in_u32; lia|]. clear Hl.
    induction Hs as [|s l Hs _ IH]; [done|]. split; [|exact IH]. unfold short in Hs. cbn. unfold in_u32. lia.
  - rewrite Server.encode_Arr. cbn [length]. rewrite length_app, length_le_bytes. unfold Redis.MAX_RESPONSE.
    assert (Z.of_nat (length (Server.encode_all (Server.Str <$> l))) <= 65541 * Z.of_nat (length l)).
    { clear Hl. induction Hs as [|s l Hs _ IH]; [done|]. unfold short in Hs. cbn [fmap list_fmap Server.encode_all].
      rewrite length_app. cbn [Server.encode length]. unfold Server.encode_string.
      rewrite length_app, length_le_bytes, length_bytes_of. lia. }
    lia.
Qed.

(** A turn that gets a job is the job's report after [job next]. *)
Lemma turn_reports o sec e gaps n l q j logs code ms :
  opened l = true -> gaps O <= READ_TIMEOUT ->
  Store.list_at QUEUE (server l) = Some (q ++ [job_payload j]) -> good_job j ->
  Main.job_outcome o sec e (jid j) (jtarget j) (jcommand j) = Ret (logs, code, ms) ->
  let allowed := Security.result_allowed
    (Security.validate_command (jcommand j) (Main.security_profile o) sec) in
  let l1 := mkLink (taken (jid j) (server l)) true (clock l + gaps O) in
  (exists answer, call (gaps O) ["job next"] l = Ret (answer, l1)) /\
  exists acts, Main.runs_of acts = (if allowed then [jcommand j] else []) /\
  turn o sec e gaps n l =
    (l' ← calls gaps 1 (Main.report (Main.sandbox_id o) (jid j) logs code ms) l1;
     Ret (acts, Main.count_job allowed code n, l')).
Proof.
  intros Ho Hg Hq Hj Hout allowed l1.
  destruct (Main.run_job_reports o sec e (jid j) (jname j) (jtarget j) (jcommand j) n logs code ms Hout)
    as (acts & E & Hreq & Hruns).
  destruct next_polite as [Hfit Hu], Hj as (Hb & Hs & Hi).
  assert (Ec : exists resp, call (gaps O) ["job next"] l = Ret (Some (Redis.of_server resp), l1) /\
    resp = Server.Arr (Server.Str <$> [jid j; jname j; jtarget j; jcommand j; jargs j])).
  { eexists. split; [|reflexivity]. apply (call_ok _ _ _ _ _ Hfit Hu Ho Hg);
      [by apply (next_answered _ j q)|apply small_strs; [cbn; lia|done]]. }
  destruct Ec as (resp & Ec & ->). split; [by eexists|].
  exists acts. split; [done|]. unfold turn, perform. rewrite Ec.
  cbn [mbind outcome_bind]. erewrite Main.job_turn_job by reflexivity.
  cbn [Redis.as_str Redis.str Redis.of_server]. rewrite E. cbn [mbind outcome_bind]. by rewrite Hreq.
Qed.

(** ** The store after a report *)

(** The requests before the result. *)
Definition claim_and_log (sb id : string) (logs : list string) : list (list string) :=
  ["sandbox claim"; sb; id] :: ((fun line => ["job log"; id; line]) <$> logs).

Lemma report_split sb id logs code ms :
  Main.report sb id logs code ms =
  claim_and_log sb id logs ++ [["job result"; id; to_string code; to_string ms]; ["sandbox release"; sb]].
Proof. done. Qed.

Lemma report_split_at sb id logs code ms k bad :
  (k <= length logs)%nat -> tail (Main.report sb id logs code ms) !! k = Some bad ->
  exists rest, Main.report sb id logs code ms = claim_and_log sb id (take k logs) ++ bad :: rest.
Proof.
  intros Hk Hbad. unfold Main.report, claim_and_log in *. cbn [tail] in Hbad.
  exists (drop (S k) (((fun line => ["job log"; id; line]) <$> logs) ++
    [["job result"; id; to_string code; to_string ms]; ["sandbox release"; sb]])).
  cbn [app]. f_equal. rewrite <- (take_drop_middle _ _ _ Hbad) at 1. f_equal.
  rewrite take_app_le by (by rewrite length_fmap). by rewrite fmap_take.
Qed.

(** The request that is refused is not the last one. *)
Lemma report_split_rest sb id logs code ms k bad rest :
  (k <= length logs)%nat -> Main.report sb id logs code ms = claim_and_log sb id (take k logs) ++ bad :: rest ->
  rest <> [] /\ length (claim_and_log sb id (take k logs)) = S k.
Proof.
  intros Hk E. assert (Hl : length (claim_and_log sb id (take k logs)) = S k).
  { cbn. rewrite length_fmap, length_take. lia. }
  split; [|done]. intros ->. apply (f_equal length) in E. unfold Main.report in E.
  rewrite length_app, Hl in E. cbn in E. rewrite length_app, length_fmap in E. cbn in E. lia.
Qed.

Definition claim_and_log_effects (sb id : string) (logs : list string) : list (Store.store -> Store.store) :=
  claimed sb id :: ((fun line st => append_log id st line) <$> logs).

Lemma claim_and_log_does sb id logs :
  Forall2 does (claim_and_log sb id logs) (claim_and_log_effects sb id logs).
Proof.
  constructor; [apply does_claim|]. induction logs as [|line logs IH]; [done|].
  constructor; [apply does_log|done].
Qed.

Lemma claim_and_log_fold sb id logs st :
  foldl (fun st f => f st) st (claim_and_log_effects sb id logs) = foldl (append_log id) (claimed sb id st) logs.
Proof.
  unfold claim_and_log_effects. cbn [foldl]. generalize (claimed sb id st).
  induction logs as [|line logs IH]; intros st'; [done|]. apply IH.
Qed.

Lemma report_does sb id logs code ms :
  in_i64 code -> in_i64 ms ->
  Forall2 does (Main.report sb id logs code ms)
    (claim_and_log_effects sb id logs ++ [finished id code ms; released sb]).
Proof.
  intros Hc Hm. rewrite report_split. apply Forall2_app; [apply claim_and_log_does|].
  repeat constructor; [by apply does_result|apply does_release].
Qed.

Lemma reported_fold sb id logs code ms st :
  foldl (fun st f => f st) st (claim_and_log_effects sb id logs ++ [finished id code ms; released sb]) =
  reported sb id logs code ms st.
Proof. by rewrite foldl_app, claim_and_log_fold. Qed.

Lemma claim_and_log_polite sb id logs :
  short sb /\ utf8 sb -> short id /\ utf8 id -> Forall (fun l => short l /\ utf8 l) logs ->
  Forall polite (claim_and_log sb id logs).
Proof.
  intros Hsb Hid Hl. constructor; [polite_tac|].
  apply Forall_fmap. eapply Forall_impl; [|exact Hl]. intros line Hline. cbn. polite_tac.
Qed.

Lemma report_polite sb id logs code ms :
  short sb /\ utf8 sb -> short id /\ utf8 id -> Forall (fun l => short l /\ utf8 l) logs ->
  in_i64 code -> in_i64 ms -> Forall polite (Main.report sb id logs code ms).
Proof.
  intros Hsb Hid Hl Hc Hm. pose proof (to_string_polite code Hc). pose proof (to_string_polite ms Hm).
  rewrite report_split. apply Forall_app; split; [by apply claim_and_log_polite|].
  repeat (constructor; [polite_tac|]). constructor.
Qed.

Lemma report_fits sb id logs code ms :
  short sb -> short id -> Forall short logs -> in_i64 code -> in_i64 ms ->
  Forall fits (Main.report sb id logs code ms).
Proof.
  intros Hsb Hid Hl Hc Hm. destruct (to_string_polite code Hc), (to_string_polite ms Hm).
  assert (Hword : forall w, (String.length w <= 100)%nat -> short w) by (unfold short; lia).
  rewrite report_split. apply Forall_app; split; [constructor|].
  - apply fits_short; [cbn; lia|]. repeat constructor; auto. apply Hword. cbn. lia.
  - apply Forall_fmap. eapply Forall_impl; [|exact Hl]. intros line Hline. apply fits_short; [cbn; lia|].
    repeat constructor; auto. apply Hword. cbn. lia.
  - repeat constructor; try done; apply fits_short; try (cbn; lia);
      repeat constructor; auto; apply Hword; cbn; lia.
Qed.

Lemma append_log_other key id st line :
  key <> log_key id -> append_log id st line !! key = st !! key.
Proof. intros Hk. unfold append_log. rewrite lpush_all_other by done. by rewrite lookup_delete_ne. Qed.

Lemma append_logs_other key id logs st :
  key <> log_key id -> foldl (append_log id) st logs !! key = st !! key.
Proof.
  intros Hk. revert st. induction logs as [|line logs IH]; intros st; [done|]. cbn [foldl].
  by rewrite IH, append_log_other.
Qed.

(** The order [job log] leaves the lines in. *)
Definition log_order (old lines : list string) : list string :=
  foldl (fun old line => line :: reverse old) old lines.

Lemma append_log_lines id st line :
  log_lines id (append_log id st line) = line :: reverse (log_lines id st).
Proof.
  unfold log_lines at 1, append_log.
  destruct (log_lines id st ++ [line]) as [|v vals] eqn:E; [by destruct (log_lines id st)|].
  rewrite lpush_all_new by (by rewrite lookup_delete_eq). rewrite <- E, reverse_snoc. done.
Qed.

Lemma append_logs_lines id logs st :
  log_lines id (foldl (append_log id) st logs) = log_order (log_lines id st) logs.
Proof.
  revert st. induction logs as [|line logs IH]; intros st; [done|]. cbn [foldl]. by rewrite IH, append_log_lines.
Qed.

Lemma log_lines_lookup id st st' : st !! log_key id = st' !! log_key id -> log_lines id st = log_lines id st'.
Proof. intros E. unfold log_lines. by rewrite (Store.list_at_lookup _ _ _ E). Qed.

Definition touched (sb id : string) : list string :=
  [QUEUE; RESULTS; status_key id; result_key id; log_key id; sandbox_status_key sb; sandbox_job_key sb].

(** Looks a key up below the writes to others. *)
Ltac lookups :=
  repeat first
    [ rewrite lookup_delete_eq | rewrite lookup_delete_ne by key_ne
    | rewrite Store.set_str_other by key_ne | rewrite Store.lpush_other by key_ne
    | rewrite append_logs_other by key_ne | rewrite Store.set_str_eq ].

Lemma reported_other key sb id logs code ms st :
  key ∉ touched sb id -> reported sb id logs code ms st !! key = st !! key.
Proof.
  unfold touched. rewrite !not_elem_of_cons. intros (_ & ? & ? & ? & ? & ? & ? & _).
  unfold reported, released, finished, claimed.
  rewrite lookup_delete_ne, Store.set_str_other, Store.lpush_other, !Store.set_str_other, append_logs_other by done.
  by rewrite !Store.set_str_other.
Qed.

Lemma taken_other key id st : key <> QUEUE -> key <> status_key id -> taken id st !! key = st !! key.
Proof. intros. unfold taken. by rewrite Store.set_str_other, Store.rpop_other. Qed.

Definition text (s : string) : option Store.Entry := Some (Store.mkEntry (Store.VStr s) None).

(** An entry with a value pushed in front of its list. *)
Definition with_front (v : string) (e : option Store.Entry) : option Store.Entry :=
  match e with
  | None => Some (Store.mkEntry (Store.VList [v]) None)
  | Some (Store.mkEntry (Store.VList vs) x) => Some (Store.mkEntry (Store.VList (v :: vs)) x)
  | Some e => Some e
  end.

Lemma lpush_front key v st : Store.lpush key v st !! key = with_front v (st !! key).
Proof.
  unfold Store.lpush, with_front. destruct (st !! key) as [[[] x]|] eqn:E; cbn [Store.typ Store.exp_at];
    rewrite ?lookup_insert_eq; done.
Qed.

Lemma reported_at sb id logs code ms st :
  let st' := reported sb id logs code ms st in
  st' !! QUEUE = st !! QUEUE /\
  st' !! status_key id = text (verdict code) /\
  st' !! result_key id = text ("exit_code=" +:+ to_string code +:+ ",duration_ms=" +:+ to_string ms) /\
  log_lines id st' = log_order (log_lines id st) logs /\
  st' !! sandbox_status_key sb = text "idle" /\
  st' !! sandbox_job_key sb = None /\
  st' !! RESULTS = with_front (id +:+ "|" +:+ verdict code +:+ "|" +:+ to_string ms) (st !! RESULTS).
Proof.
  intros st'. unfold st', reported, released, finished, claimed, text. split_and!; try (by lookups).
  2: { rewrite lookup_delete_ne, Store.set_str_other, lpush_front by key_ne. f_equal. by lookups. }
  rewrite (log_lines_lookup id _ (foldl (append_log id) (claimed sb id st) logs)) by by lookups.
  rewrite append_logs_lines. f_equal. unfold claimed. apply log_lines_lookup. by lookups.
Qed.

(** ** Reports and stores *)

Lemma job_outcome_bounds o sec e id target command logs code ms :
  Main.job_outcome o sec e id target command = Ret (logs, code, ms) ->
  Forall short logs /\ in_i64 code.
Proof.
  unfold Main.job_outcome, in_i64. destruct (Security.result_allowed _).
  - destruct (Sandbox.run _ _ _) as [[[[res lines] s'] trace]| | |] eqn:E; try done. cbn [mbind outcome_bind].
    intros [= <- <- <-]. apply Sandbox.run_exit_code in E. split; [|lia].
    apply Forall_app; split; [by case_match; repeat constructor|]. constructor; [done|].
    apply Forall_fmap. apply Forall_forall. intros line _. unfold short, compose.
    pose proof (length_substring_le 1000 line). lia.
  - intros [= <- <- <-]. split; [by repeat constructor|lia].
Qed.

Definition polite_id (s : string) : Prop := short s /\ utf8 s.

(** A turn whose requests are all answered. *)
Lemma turn_answered o sec e gaps n l q j logs code ms :
  opened l = true -> (forall i, gaps i <= READ_TIMEOUT) -> polite_id (Main.sandbox_id o) ->
  Store.list_at QUEUE (server l) = Some (q ++ [job_payload j]) -> good_job j ->
  Main.job_outcome o sec e (jid j) (jtarget j) (jcommand j) = Ret (logs, code, ms) ->
  Forall utf8 logs -> in_i64 ms ->
  let allowed := Security.result_allowed
    (Security.validate_command (jcommand j) (Main.security_profile o) sec) in
  exists acts t, Main.runs_of acts = (if allowed then [jcommand j] else []) /\
  turn o sec e gaps n l =
    Ret (acts, Main.count_job allowed code n,
         mkLink (reported (Main.sandbox_id o) (jid j) logs code ms (taken (jid j) (server l))) true t).
Proof.
  intros Ho Hg Hsb Hq Hj Hout Hu Hms allowed.
  destruct (turn_reports o sec e gaps n l q j logs code ms Ho (Hg O) Hq Hj Hout) as (_ & acts & Hr & ->).
  destruct (job_outcome_bounds _ _ _ _ _ _ _ _ _ Hout) as [Hs Hc].
  destruct (calls_ok gaps Hg (Main.report (Main.sandbox_id o) (jid j) logs code ms) _ 1%nat
    (mkLink (taken (jid j) (server l)) true (clock l + gaps O)) (report_does _ _ _ _ _ Hc Hms))
    as [t ->]; [|done|].
  - destruct Hj as (_ & Hshort & Hid). apply report_polite; try done.
    + split; [by inversion Hshort|done].
    + by apply Forall_both.
  - exists acts, t. split; [done|]. cbn [mbind outcome_bind server]. by rewrite reported_fold.
Qed.

Lemma queue_taken id q p st :
  Store.list_at QUEUE st = Some (q ++ [p]) -> Store.list_at QUEUE (taken id st) = Some q.
Proof.
  intros Hq. destruct (Store.rpop_snoc _ _ _ _ Hq) as (st' & E & Hq'). unfold taken. rewrite E.
  rewrite <- Hq'. apply Store.list_at_lookup, Store.set_str_other. key_ne.
Qed.

(** The keys of two jobs are apart. *)
Lemma status_key_inj id id' : status_key id = status_key id' -> id = id'.
Proof. unfold status_key. intros E. apply (inj (String.append "devops:job:")) in E. by apply app_suffix_inj in E. Qed.

Lemma status_key_apart sb id id' : id <> id' -> status_key id' ∉ touched sb id.
Proof.
  intros Hne. unfold touched. rewrite !not_elem_of_cons. split_and!; try discriminate; [| | |apply not_elem_of_nil].
  - intros E. by apply status_key_inj in E.
  - unfold status_key, result_key. intros E. apply (inj (String.append "devops:job:")) in E.
    by apply app_suffix_eq in E.
  - unfold status_key, log_key. intros E. apply (inj (String.append "devops:job:")) in E.
    change ":status" with (":st" +:+ "atus") in E. rewrite string_app_assoc in E. by apply app_suffix_eq in E.
Qed.

(** ** Properties *)

(** C2: A queued job is run and reported once, from the queue to the store,
    over the connection.  One turn of the runtime against a server whose
    queue ends in the job (no field but the last has a ['|']; every request
    comes within the read timeout and is valid UTF-8): the job leaves the
    queue, its command runs once if the security profile allows it and not at
    all otherwise, and afterwards its status is passed or failed as the exit
    code is 0 or not, its result is the exit code and duration, its log has
    every line, the list of results has one entry more, in front, with the
    job's id, status and duration, the sandbox is idle and holds no job, and
    no other key of the store has changed. *)
Theorem queued_job_run_and_reported o sec e gaps n l q j logs code ms
    (Hopen : opened l = true)
    (Hgaps : forall i, gaps i <= READ_TIMEOUT)
    (Hsb : polite_id (Main.sandbox_id o))
    (Hq : Store.list_at QUEUE (server l) = Some (q ++ [job_payload j]))
    (Hj : good_job j)
    (Hout : Main.job_outcome o sec e (jid j) (jtarget j) (jcommand j) = Ret (logs, code, ms))
    (Hlogs : Forall utf8 logs)
    (Hms : in_i64 ms) :
  exists acts n' t st, turn o sec e gaps n l = Ret (acts, n', mkLink st true t) /\
  Main.runs_of acts =
    (if Security.result_allowed (Security.validate_command (jcommand j) (Main.security_profile o) sec)
     then [jcommand j] else []) /\
  Store.list_at QUEUE st = Some q /\
  st !! status_key (jid j) = text (verdict code) /\
  st !! result_key (jid j) = text ("exit_code=" +:+ to_string code +:+ ",duration_ms=" +:+ to_string ms) /\
  log_lines (jid j) st = log_order (log_lines (jid j) (server l)) logs /\
  st !! sandbox_status_key (Main.sandbox_id o) = text "idle" /\
  st !! sandbox_job_key (Main.sandbox_id o) = None /\
  st !! RESULTS = with_front (jid j +:+ "|" +:+ verdict code +:+ "|" +:+ to_string ms) (server l !! RESULTS) /\
  forall key, key ∉ touched (Main.sandbox_id o) (jid j) -> st !! key = server l !! key.
Proof.
  destruct (turn_answered o sec e gaps n l q j logs code ms Hopen Hgaps Hsb Hq Hj Hout Hlogs Hms)
    as (acts & t & Hr & E).
  destruct (reported_at (Main.sandbox_id o) (jid j) logs code ms (taken (jid j) (server l)))
    as (H1 & H2 & H3 & H4 & H5 & H6 & H7).
  do 4 eexists. split_and!; [exact E|done| |done|done| |done|done| |].
  - rewrite (Store.list_at_lookup _ _ _ H1). by eapply queue_taken.
  - rewrite H4. f_equal. apply log_lines_lookup, taken_other; key_ne.
  - rewrite H7. f_equal. apply taken_other; key_ne.
  - intros key Hkey. rewrite reported_other by done. unfold touched in Hkey.
    rewrite !not_elem_of_cons in Hkey. destruct Hkey as (? & _ & ? & _). by apply taken_other.
Qed.

(** A command with a ['|'] makes the same payload as the job whose command
    stops before it. *)
Lemma payload_cut id name target c1 c2 args :
  payload id name target (c1 +:+ "|" +:+ c2) args = payload id name target c1 (c2 +:+ "|" +:+ args).
Proof. unfold payload. by rewrite <- !string_app_assoc. Qed.

(** A command with a pipe runs only up to the pipe.  A job submitted to an
    empty queue with the command [c1|c2] is handed out with the command [c1]:
    the profile judges [c1] alone, [c1] is what runs, and the job is passed or
    failed by the exit code of [c1]. *)
Theorem submitted_pipe_cut o sec e gaps n l now id name target c1 c2 args r st logs code ms
    (Hempty : Store.list_at QUEUE (server l) = Some [])
    (Hsubmit : run now (handler ["job submit"; id; name; target; c1 +:+ "|" +:+ c2; args]) (server l) = (r, st))
    (Hopen : opened l = true)
    (Hgaps : forall i, gaps i <= READ_TIMEOUT)
    (Hsb : polite_id (Main.sandbox_id o))
    (Hj : good_job (mkJob id name target c1 (c2 +:+ "|" +:+ args)))
    (Hout : Main.job_outcome o sec e id target c1 = Ret (logs, code, ms))
    (Hlogs : Forall utf8 logs)
    (Hms : in_i64 ms) :
  exists acts n' t st', turn o sec e gaps n (mkLink st true (clock l)) = Ret (acts, n', mkLink st' true t) /\
  Main.runs_of acts =
    (if Security.result_allowed (Security.validate_command c1 (Main.security_profile o) sec) then [c1] else []) /\
  st' !! status_key id = text (verdict code).
Proof.
  assert (Hq : Store.list_at QUEUE st = Some ([] ++ [job_payload (mkJob id name target c1 (c2 +:+ "|" +:+ args))])).
  { rewrite handler_lower in Hsubmit by done.
    change (command _ _) with (job_submit [id; name; target; c1 +:+ "|" +:+ c2; args]) in Hsubmit.
    injection Hsubmit as _ <-. unfold job_payload. cbn [jid jname jtarget jcommand jargs String.concat app].
    rewrite <- payload_cut. skip_writes. by rewrite (Store.list_at_lpush _ _ _ []). }
  destruct (turn_answered o sec e gaps n (mkLink st true (clock l)) [] _ logs code ms eq_refl Hgaps Hsb Hq Hj Hout
    Hlogs Hms) as (acts & t & Hr & E).
  do 4 eexists. split_and!; [exact E|done|].
  by destruct (reported_at (Main.sandbox_id o) id logs code ms (taken id st)) as (_ & H2 & _).
Qed.

(** Turns on a closed connection. *)
Lemma loop_closed o sec turns n l :
  opened l = false ->
  let asleep := exists t,
    loop o sec turns n l = Ret (replicate (length turns) (Main.Sleep 500), n, mkLink (server l) false t) in
  (loop o sec turns n l = Undefined Sigpipe \/ asleep) /\ ((forall t, reset t = false) -> asleep).
Proof.
  intros Ho. revert l Ho. induction turns as [|[e gaps] turns IH]; intros l Ho.
  - destruct l as [st b t]. cbn in Ho. rewrite Ho. split; [right|intros _]; by exists t.
  - destruct next_polite as [Hfit _]. cbn [loop]. unfold turn. rewrite call_closed by done.
    set (l' := mkLink (server l) false (clock l + gaps 0%nat)).
    destruct (IH l' eq_refl) as [IH1 IH2]. destruct (reset _) eqn:Er.
    { split; [by left|]. intros Hr. by rewrite Hr in Er. }
    cbn [mbind outcome_bind Main.job_turn]. unfold perform. cbn [Main.requests calls mbind outcome_bind].
    split.
    + destruct IH1 as [->|[t ->]]; [by left|right; by exists t].
    + intros Hr. destruct (IH2 Hr) as [t ->]. by exists t.
Qed.

(** What follows a request that was refused. *)
Lemma strand_after gaps reqs i l l1 :
  calls gaps i reqs l = Ret l1 -> opened l1 = false ->
  forall rest, Forall fits rest ->
  (calls gaps i (reqs ++ rest) l = Undefined Sigpipe \/
   exists t, calls gaps i (reqs ++ rest) l = Ret (mkLink (server l1) false t)) /\
  ((forall t, reset t = true) -> rest <> [] -> calls gaps i (reqs ++ rest) l = Undefined Sigpipe) /\
  ((forall t, reset t = false) -> exists t, calls gaps i (reqs ++ rest) l = Ret (mkLink (server l1) false t)).
Proof. intros E Ho rest Hrest. rewrite calls_app, E. cbn [mbind outcome_bind]. by apply calls_closed. Qed.


(** The job the loop is given next and the turn it is given. *)
Definition serves (o : Main.Options) (sec : Security.SecurityManager) (j : job)
    (turn : Main.surroundings * (nat -> Z)) : Prop :=
  (forall i, turn.2 i <= READ_TIMEOUT) /\ good_job j /\
  exists logs code ms, Main.job_outcome o sec turn.1 (jid j) (jtarget j) (jcommand j) = Ret (logs, code, ms) /\
    Forall utf8 logs /\ in_i64 ms.

Definition allowed_commands (o : Main.Options) (sec : Security.SecurityManager) (js : list job) : list string :=
  List.filter (fun c => Security.result_allowed (Security.validate_command c (Main.security_profile o) sec))
    (jcommand <$> js).

(** Its status is what its exit code says. *)
Definition settled (o : Main.Options) (sec : Security.SecurityManager) (st : Store.store) (j : job)
    (turn : Main.surroundings * (nat -> Z)) : Prop :=
  exists logs code ms, Main.job_outcome o sec turn.1 (jid j) (jtarget j) (jcommand j) = Ret (logs, code, ms) /\
    st !! status_key (jid j) = text (verdict code).

(** What serving jobs one after the other does to the store. *)
Definition job_effect (o : Main.Options) (sec : Security.SecurityManager) (j : job) (e : Main.surroundings)
    (st : Store.store) : Store.store :=
  match Main.job_outcome o sec e (jid j) (jtarget j) (jcommand j) with
  | Ret (logs, code, ms) => reported (Main.sandbox_id o) (jid j) logs code ms (taken (jid j) st)
  | _ => st
  end.

Fixpoint jobs_effect (o : Main.Options) (sec : Security.SecurityManager) (js : list job)
    (turns : list (Main.surroundings * (nat -> Z))) (st : Store.store) : Store.store :=
  match js, turns with
  | j :: js, turn :: turns => jobs_effect o sec js turns (job_effect o sec j turn.1 st)
  | _, _ => st
  end.

(** One job: the queue loses it, and other jobs' statuses stay. *)
Lemma job_effect_at o sec j turn q st :
  serves o sec j turn -> Store.list_at QUEUE st = Some (q ++ [job_payload j]) ->
  let st' := job_effect o sec j turn.1 st in
  Store.list_at QUEUE st' = Some q /\ settled o sec st' j turn /\
  forall id, id <> jid j -> st' !! status_key id = st !! status_key id.
Proof.
  intros (_ & _ & logs & code & ms & Hout & _) Hq st'. unfold st', job_effect. rewrite Hout.
  destruct (reported_at (Main.sandbox_id o) (jid j) logs code ms (taken (jid j) st)) as (Hq' & Hst & _).
  split_and!.
  - rewrite (Store.list_at_lookup _ _ _ Hq'). by eapply queue_taken.
  - exists logs, code, ms. by split.
  - intros id Hid. rewrite reported_other by (by apply status_key_apart).
    apply taken_other; [key_ne|]. intros Ek. by apply status_key_inj in Ek.
Qed.

Lemma jobs_effect_drains o sec js turns : Forall2 (serves o sec) js turns -> NoDup (jid <$> js) ->
  forall q st, Store.list_at QUEUE st = Some (q ++ reverse (job_payload <$> js)) ->
  let st' := jobs_effect o sec js turns st in
  Store.list_at QUEUE st' = Some q /\ Forall2 (settled o sec st') js turns /\
  forall id, id ∉ jid <$> js -> st' !! status_key id = st !! status_key id.
Proof.
  intros Hjs. induction Hjs as [|j turn js turns Hj _ IH]; intros Hnd q st Hq; cbn [jobs_effect].
  - split_and!; try done. by rewrite app_nil_r in Hq.
  - cbn [fmap list_fmap] in Hq, Hnd. rewrite reverse_cons, app_assoc in Hq. inversion Hnd as [|? ? Hnew Hnd']. subst.
    destruct (job_effect_at o sec j turn _ st Hj Hq) as (Hq1 & Hset & Hframe1).
    destruct (IH Hnd' q _ Hq1) as (Hq2 & Hall & Hframe). split_and!; [done| |].
    + constructor; [|done]. destruct Hset as (logs & code & ms & Hout & Hs). exists logs, code, ms. split; [done|].
      by rewrite Hframe.
    + intros id Hid. cbn [fmap list_fmap] in Hid. apply not_elem_of_cons in Hid as [Hne Hid].
      rewrite Hframe by done. by apply Hframe1.
Qed.

(** The turns of the runtime have that effect. *)
Lemma loop_drains o sec js turns : polite_id (Main.sandbox_id o) -> Forall2 (serves o sec) js turns ->
  forall q n l, opened l = true ->
  Store.list_at QUEUE (server l) = Some (q ++ reverse (job_payload <$> js)) ->
  exists acts n' t, loop o sec turns n l = Ret (acts, n', mkLink (jobs_effect o sec js turns (server l)) true t) /\
    Main.runs_of acts = allowed_commands o sec js.
Proof.
  intros Hsb Hjs. induction Hjs as [|j [e gaps] js turns Hj _ IH]; intros q n l Ho Hq.
  - destruct l as [st b t]. cbn in *. rewrite Ho. by do 3 eexists.
  - cbn [fmap list_fmap] in Hq. rewrite reverse_cons, app_assoc in Hq.
    pose proof (job_effect_at o sec j (e, gaps) _ _ Hj Hq) as (Hq1 & _). cbn [fst] in Hq1.
    destruct Hj as (Hg & Hj & logs & code & ms & Hout & Hu & Hms). cbn [fst snd] in *.
    destruct (turn_answered o sec e gaps n l _ j logs code ms Ho Hg Hsb Hq Hj Hout Hu Hms) as (acts & t & Hr & E).
    unfold job_effect in Hq1. rewrite Hout in Hq1.
    edestruct (IH q) with (l := mkLink (reported (Main.sandbox_id o) (jid j) logs code ms (taken (jid j) (server l))) true t)
      as (acts' & n' & t' & El & Hruns); [done|exact Hq1|].
    cbn [loop jobs_effect fst]. unfold job_effect. rewrite Hout, E. cbn [mbind outcome_bind]. rewrite El.
    cbn [mbind outcome_bind server]. do 3 eexists. split; [reflexivity|].
    rewrite Main.runs_of_app, Hr, Hruns. unfold allowed_commands. cbn [fmap list_fmap List.filter].
    by destruct (Security.result_allowed _).
Qed.

(** C8: Every queued job is served.  A server whose queue holds [k] jobs with
    different ids, submitted in this order, and [k] turns of the runtime,
    every request answered: after them the queue is empty, the commands the
    profile allows have each run once, in the order of submission, and every
    job, the refused ones too, has the status its exit code gives. *)
Theorem queued_jobs_all_served o sec js turns n l
    (Hsb : polite_id (Main.sandbox_id o))
    (Hjs : Forall2 (serves o sec) js turns)
    (Hids : NoDup (jid <$> js))
    (Hopen : opened l = true)
    (Hq : Store.list_at QUEUE (server l) = Some (reverse (job_payload <$> js))) :
  exists acts n' t st, loop o sec turns n l = Ret (acts, n', mkLink st true t) /\
  Main.runs_of acts = allowed_commands o sec js /\
  Store.list_at QUEUE st = Some [] /\
  Forall2 (settled o sec st) js turns.
Proof.
  destruct (loop_drains o sec js turns Hsb Hjs [] n l Hopen Hq) as (acts & n' & t & E & Hr).
  destruct (jobs_effect_drains o sec js turns Hjs Hids [] (server l) Hq) as (Hd & Hs & _).
  by do 4 eexists.
Qed.

(** *** The order of a log *)

Definition log_place (n i : nat) : nat := if (2 * i <? n)%nat then n - 1 - 2 * i else 2 * i - n.

Lemma log_order_snoc old lines x : log_order old (lines ++ [x]) = x :: reverse (log_order old lines).
Proof. unfold log_order. by rewrite foldl_app. Qed.

Lemma length_log_order lines : length (log_order [] lines) = length lines.
Proof.
  induction lines as [|x lines IH] using rev_ind; [done|].
  rewrite log_order_snoc, length_app. cbn. rewrite length_reverse. lia.
Qed.

Lemma log_order_lookup lines i :
  (i < length lines)%nat -> log_order [] lines !! i = lines !! log_place (length lines) i.
Proof.
  revert i. induction lines as [|x lines IH] using rev_ind; intros i Hi; [cbn in Hi; lia|].
  rewrite log_order_snoc, length_app in *. cbn [length] in *. destruct i as [|i].
  - unfold log_place. replace (_ <? _)%nat with true by (symmetry; apply Nat.ltb_lt; lia).
    replace (_ + 1 - 1 - 2 * 0)%nat with (length lines) by lia. by rewrite lookup_app_r, Nat.sub_diag by lia.
  - change (reverse (log_order [] lines) !! i = (lines ++ [x]) !! log_place (length lines + 1) (S i)).
    rewrite reverse_lookup by (rewrite length_log_order; lia).
    rewrite length_log_order, IH by lia. unfold log_place.
    destruct (Nat.ltb_spec (2 * (length lines - S i)) (length lines)),
      (Nat.ltb_spec (2 * S i) (length lines + 1)); try lia; rewrite lookup_app_l by lia; f_equal; lia.
Qed.

Lemma log_order_perm lines : log_order [] lines ≡ₚ lines.
Proof.
  induction lines as [|x lines IH] using rev_ind; [done|].
  rewrite log_order_snoc, reverse_Permutation, IH. by rewrite Permutation_app_comm.
Qed.

(** A job's log keeps every line and loses their order.  [job log] reads
    the list, appends the line, and pushes all of it back at the front, one by
    one: the list is turned around at each call.  After [n] lines the log
    holds each of them once, but its [i]-th entry is line [n-1-2i] in its
    first half and line [2i-n] in the second: the lines of one parity
    backwards, then those of the other forwards. *)
Theorem job_log_order now id lines st
    (Hnew : st !! log_key id = None) :
  let log := log_lines id (foldl (fun st line => (run now (handler ["job log"; id; line]) st).2) st lines) in
  log ≡ₚ lines /\
  forall i, (i < length lines)%nat -> log !! i = lines !! log_place (length lines) i.
Proof.
  intros log. assert (E : log = log_order [] lines).
  { unfold log. transitivity (log_lines id (foldl (append_log id) st lines)).
    - f_equal. clear Hnew log. revert st. induction lines as [|line lines IH]; intros st; [done|]. cbn [foldl].
      destruct (does_log id line) as (resp & _ & ->). apply IH.
    - rewrite append_logs_lines. f_equal. unfold log_lines, Store.list_at. by rewrite Hnew. }
  rewrite E. split; [apply log_order_perm|]. intros i Hi. by apply log_order_lookup.
Qed.

End System.

(** ** Witnesses *)

Definition no_command (_ : list string) : prog := Panic.
Definition one_segment (bs : list byte) : list Socket.segment :=
  match bs with [] => [] | b :: bs => [Socket.Data b bs] end.
Definition one_room (n : nat) : list Z := [Z.of_nat n].

Lemma one_segment_delivers bs : Socket.delivered (one_segment bs) = bs.
Proof. destruct bs; [done|]. cbn. by rewrite app_nil_r. Qed.

Lemma one_room_is_enough n : Socket.room_for n (one_room n).
Proof. destruct n as [|n]; [done|]. cbn [Socket.room_for one_room]. rewrite Nat2Z.id, Nat.sub_diag. split; [lia|done]. Qed.

Definition demo_job (id command : string) : job := mkJob id "build" "local" command "-j".
Definition demo_link (js : list job) : link :=
  mkLink {[ QUEUE := Store.mkEntry (Store.VList (reverse (job_payload <$> js))) None ]} true 0.
Definition demo_output : list string := ["sandbox: starting execution"; "hello "; "world"].

Lemma demo_good id : id = "7" \/ id = "8" -> good_job (demo_job id "make").
Proof. intros [-> | ->]; split_and!; repeat constructor; unfold short; cbn; lia. Qed.

Lemma queued_job_run_and_reported_witness :
  exists acts n' t st,
    turn (H := ascii_text) no_command one_segment one_room (fun _ => true) (fun _ => true) (Main.demo_options "standard")
      Security.new_manager Main.demo_surroundings (fun _ => 5) (Main.mkCounters 0 0)
      (demo_link [demo_job "7" "make"]) = Ret (acts, n', mkLink st true t) /\
    Main.runs_of acts = ["make"] /\ st !! status_key "7" = text "passed" /\
    log_lines "7" st = ["world"; "sandbox: starting execution"; "hello "].
Proof.
  destruct (queued_job_run_and_reported (H := ascii_text) no_command one_segment one_room (fun _ => true) (fun _ => true)
    one_segment_delivers one_room_is_enough (fun _ _ => eq_refl)
    (Main.demo_options "standard") Security.new_manager Main.demo_surroundings (fun _ => 5) (Main.mkCounters 0 0)
    (demo_link [demo_job "7" "make"]) [] (demo_job "7" "make") demo_output 0 4)
    as (acts & n' & t & st & E & Hr & _ & Hs & _ & Hl & _).
  - reflexivity.
  - intros. unfold READ_TIMEOUT. lia.
  - by split; [unfold short; cbn; lia|].
  - reflexivity.
  - apply demo_good. by left.
  - vm_compute. reflexivity.
  - by repeat constructor.
  - unfold in_i64. lia.
  - exists acts, n', t, st. split; [exact E|]. split; [|split; [exact Hs|]].
    + etrans; [exact Hr|vm_compute; reflexivity].
    + etrans; [exact Hl|vm_compute; reflexivity].
Defined.

Lemma submitted_pipe_cut_witness :
  exists st acts n' t st',
    run (H := ascii_text) 0 (handler (H := ascii_text) no_command
      ["job submit"; "7"; "build"; "local"; "make" +:+ "|" +:+ "tee log"; "-j"])
      (server (demo_link [])) = (Some (Server.Str "7"), st) /\
    turn (H := ascii_text) no_command one_segment one_room (fun _ => true) (fun _ => true) (Main.demo_options "standard")
      Security.new_manager Main.demo_surroundings (fun _ => 5) (Main.mkCounters 0 0) (mkLink st true 0) =
      Ret (acts, n', mkLink st' true t) /\
    Main.runs_of acts = ["make"].
Proof.
  edestruct (submitted_pipe_cut (H := ascii_text) no_command one_segment one_room (fun _ => true) (fun _ => true)
    one_segment_delivers one_room_is_enough (fun _ _ => eq_refl)
    (Main.demo_options "standard") Security.new_manager Main.demo_surroundings (fun _ => 5) (Main.mkCounters 0 0)
    (demo_link []) 0 "7" "build" "local" "make" "tee log" "-j")
    as (acts & n' & t & st' & E & Hr & _).
  - reflexivity.
  - reflexivity.
  - reflexivity.
  - intros. unfold READ_TIMEOUT. lia.
  - by split; [unfold short; cbn; lia|].
  - split_and!; repeat constructor; vm_compute; discriminate.
  - vm_compute. reflexivity.
  - by repeat constructor.
  - unfold in_i64. lia.
  - do 5 eexists. split; [reflexivity|]. split; [exact E|]. etrans; [exact Hr|vm_compute; reflexivity].
Defined.


Lemma queued_jobs_all_served_witness :
  exists acts n' t st,
    loop (H := ascii_text) no_command one_segment one_room (fun _ => true) (fun _ => true) (Main.demo_options "standard")
      Security.new_manager
      [(Main.demo_surroundings, fun _ => 5); (Main.demo_surroundings, fun _ => 5)]
      (Main.mkCounters 0 0) (demo_link [demo_job "7" "make"; demo_job "8" "make"]) =
      Ret (acts, n', mkLink st true t) /\
    Main.runs_of acts = ["make"; "make"] /\ Store.list_at QUEUE st = Some [].
Proof.
  destruct (queued_jobs_all_served (H := ascii_text) no_command one_segment one_room (fun _ => true) (fun _ => true)
    one_segment_delivers one_room_is_enough (fun _ _ => eq_refl)
    (Main.demo_options "standard") Security.new_manager [demo_job "7" "make"; demo_job "8" "make"]
    [(Main.demo_surroundings, fun _ => 5); (Main.demo_surroundings, fun _ => 5)] (Main.mkCounters 0 0)
    (demo_link [demo_job "7" "make"; demo_job "8" "make"]))
    as (acts & n' & t & st & E & Hr & Hq & _).
  - by split; [unfold short; cbn; lia|].
  - constructor; [|constructor; [|constructor]];
      (split_and!; [intros; cbn; unfold READ_TIMEOUT; lia|apply demo_good; auto|];
       exists demo_output, 0, 4; split_and!; [vm_compute; reflexivity|by repeat constructor|unfold in_i64; lia]).
  - apply (bool_decide_unpack (NoDup ["7"; "8"])). vm_compute. exact I.
  - reflexivity.
  - reflexivity.
  - exists acts, n', t, st. split; [exact E|]. split; [etrans; [exact Hr|vm_compute; reflexivity]|exact Hq].
Defined.

Lemma job_log_order_witness :
  log_lines "7" (foldl (fun st line => (run (H := ascii_text) 0 (handler (H := ascii_text) no_command
    ["job log"; "7"; line]) st).2) ∅ ["a"; "b"; "c"; "d"; "e"]) !! 4%nat = Some "d".
Proof.
  destruct (job_log_order (H := ascii_text) no_command 0 "7" ["a"; "b"; "c"; "d"; "e"] ∅ (lookup_empty _)) as [_ Hi].
  rewrite (Hi 4%nat) by (cbn; lia). reflexivity.
Defined.

End System.
