(* ===== verification/Program.v ===== *)
(** * The program and its server, from start-up to exit

    [Startup.main] with the server of [System.v] at the other end of its one
    connection.  The client is given as a stream what the server sends in
    return for what the client sends ([exchange]); the theorem says that with
    this stream the program does what the turns of [System.v] do, request by
    request, and that the requests it has sent are the ones the server was
    asked. *)

From stdpp Require Import base strings gmap list numbers.
From Stdlib Require Import ZArith Lia.
From S2P Require Import Prelude Descriptors Text Wire ServerProto RedisClient Bounded LogAggregator Security Sandbox Store.
From S2P Require Import IPC FileWatcher Handler Main Startup System.

Module Program.
Import Handler System Startup.

(** The start-up of a machine whose connection is [peer]. *)
Definition with_peer (peer : Socket.socket) (w : world) : world :=
  mkWorld (self_pid w) (http_fd w) (http_bind_ok w) (http_listen_ok w) (cmd_succeeds w) (cmd_output w) (ipc_fd w)
    (ipc_bind_ok w) (ipc_files w) (inotify_fd w) (inotify_wd w) (redis_sock w) (redis_rc w) peer (now w) (clk_tck w)
    (proc w).

Section Program.
Context `{RustText}.
Context (other_command : list string -> prog).
Context {V : Type} (double_of : Z -> V) (reserve_ok : Z -> bool).

#[local] Set Default Proof Using "Type*".

(** The allocator serves responses of the protocol's size. *)
Hypothesis Halloc : forall n, 0 <= n <= Redis.MAX_RESPONSE -> reserve_ok n = true.

(** The requests of a connection, each with the milliseconds since the last
    one, and the bytes the server sends in return. *)
Definition dialogue := list (Z * list string).

Fixpoint exchange (d : dialogue) (l : link) : list byte * link :=
  match d with
  | [] => ([], l)
  | (gap, args) :: d =>
      let '(answer, l) := serve other_command gap (Server.frame args) l in
      let '(answers, l) := exchange d l in
      (answer ++ answers, l)
  end.

(** The bytes of the requests. *)
Definition frames (d : dialogue) : list byte := concat (Server.frame <$> d.*2).

Lemma exchange_app d d' l :
  exchange (d ++ d') l =
  ((exchange d l).1 ++ (exchange d' (exchange d l).2).1, (exchange d' (exchange d l).2).2).
Proof.
  revert l. induction d as [|[gap args] d IH]; intros l; cbn [app exchange fst snd].
  { by destruct (exchange d' l). }
  destruct (serve _ _ _ _) as [a l1]. rewrite IH. destruct (exchange d l1) as [b l2]. cbn [fst snd].
  by rewrite app_assoc.
Qed.

Lemma frames_app d d' : frames (d ++ d') = frames d ++ frames d'.
Proof. unfold frames. by rewrite !fmap_app, concat_app. Qed.

(** The requests of a turn with their gaps, from the [i]-th on. *)
Fixpoint timed (gaps : nat -> Z) (i : nat) (reqs : list (list string)) : dialogue :=
  match reqs with
  | [] => []
  | args :: reqs => (gaps i, args) :: timed gaps (S i) reqs
  end.

(** The client of a runtime without network manager is connected, will
    receive [bs], and can send [m] bytes more; it has sent [sent]. *)
Record attached (r : runtime (V := V)) (bs : list byte) (m : nat) (sent : list byte) : Prop := {
  at_open : Redis.is_connected (redis r) = true;
  at_rx : Socket.delivered (Socket.rx (Redis.net (redis r))) = bs;
  at_room : Socket.ample m (Socket.tx_room (Redis.net (redis r)));
  at_tx : Socket.tx (Redis.net (redis r)) = sent;
  at_net : net_manager r = None;
  at_sec : security_manager r = Security.new_manager
}.

(** A request the server answers is answered on the client. *)
Lemma send_follows args gap l resp st r rest m sent :
  polite args -> opened l = true -> gap <= READ_TIMEOUT -> small resp ->
  run (clock l + gap) (handler other_command args) (server l) = (Some resp, st) ->
  attached r ((serve other_command gap (Server.frame args) l).1 ++ rest) (length (Server.frame args) + m) sent ->
  exists c, Redis.send reserve_ok args (redis r) = Ret (Some (Redis.of_server resp), c) /\
    attached (set_redis c r) rest m (sent ++ Server.frame args).
Proof.
  intros [Hfit Hu] Ho Hg [Hwf Hmax] Hrun [A1 A2 A3 A4 A5 A6].
  rewrite (serve_ok _ _ _ _ _ _ Hfit Hu Ho Hg Hrun) in A2.
  destruct (Redis.send_written reserve_ok (redis r) args resp rest m) as (c & E & Efd & Etx & Erx & Erm);
    [done|apply Hfit|done| |done|done|done|].
  { intros n Hn. apply Halloc. lia. }
  exists c. split; [done|]. split; cbn; try done.
  - unfold Redis.is_connected. by rewrite Efd.
  - by rewrite Etx, A4.
Qed.

Lemma attached_redis r r' bs m sent :
  attached r bs m sent -> redis r' = redis r -> net_manager r' = net_manager r ->
  security_manager r' = security_manager r -> attached r' bs m sent.
Proof. intros [] E1 E2 E3. split; by rewrite ?E1, ?E2, ?E3. Qed.

(** Actions that are no requests leave the connection alone. *)
Lemma other_action w t a r bs m sent :
  Main.requests [a] = [] -> attached r bs m sent ->
  exists r', apply_action double_of reserve_ok w t a r = Ret r' /\ attached r' bs m sent.
Proof.
  intros Hq A. pose proof (at_net _ _ _ _ A) as Hn.
  destruct a; try done; cbn [apply_action]; rewrite ?Log.push_raw_classify, ?Hn; cbn [mbind outcome_bind];
    (eexists; split; [reflexivity|]; by apply (attached_redis r)).
Qed.

(** What a run of requests does to the store. *)
Lemma exchange_does gaps reqs fs i l : (forall i, gaps i <= READ_TIMEOUT) ->
  Forall2 (does other_command) reqs fs -> Forall polite reqs -> opened l = true ->
  exists t, (exchange (timed gaps i reqs) l).2 = mkLink (foldl (fun st f => f st) (server l) fs) true t.
Proof.
  intros Hg Hd. revert i l. induction Hd as [|args f reqs fs (resp & Hs & Hrun) _ IH]; intros i l Hp Ho.
  - exists (clock l). destruct l. cbn in *. by rewrite Ho.
  - apply Forall_cons_1 in Hp as [Hpa Hp]. cbn [timed exchange].
    rewrite (serve_ok _ (gaps i) args l resp (f (server l)) (proj1 Hpa) (proj2 Hpa) Ho (Hg i) (Hrun _ _)).
    destruct (IH (S i) (mkLink (f (server l)) true (clock l + gaps i)) Hp eq_refl) as [t E].
    exists t. destruct (exchange _ _) as [b l2]. exact E.
Qed.

(** The requests among a turn's actions, answered whatever the store holds. *)
Lemma actions_follow w t gaps acts : (forall i, gaps i <= READ_TIMEOUT) ->
  forall fs i l r rest m sent,
  Forall2 (does other_command) (Main.requests acts) fs -> Forall polite (Main.requests acts) -> opened l = true ->
  let d := timed gaps i (Main.requests acts) in
  attached r ((exchange d l).1 ++ rest) (length (frames d) + m) sent ->
  exists r', apply_actions double_of reserve_ok w t acts r = Ret r' /\ attached r' rest m (sent ++ frames d).
Proof.
  intros Hg. induction acts as [|a acts IH]; intros fs i l r rest m sent Hd Hp Ho d A; subst d.
  - cbn in *. exists r. by rewrite app_nil_r.
  - destruct (decide (Main.requests [a] = [])) as [Hq|Hq].
    + assert (Eq : Main.requests (a :: acts) = Main.requests acts) by (by rewrite Main.requests_cons, Hq).
      rewrite Eq in *. destruct (other_action w t a _ _ _ _ Hq A) as (r1 & E1 & A1).
      destruct (IH fs i l r1 rest m sent Hd Hp Ho A1) as (r' & E2 & A2).
      exists r'. split; [|done]. cbn [apply_actions]. by rewrite E1.
    + destruct a as [args| | | | | | | | |]; try done. clear Hq. cbn [Main.requests timed] in *.
      apply Forall_cons_1 in Hp as [Hpa Hp].
      destruct fs as [|f fs]; [by apply Forall2_length in Hd|]. apply Forall2_cons_1 in Hd as [(resp & Hs & Hrun) Hd].
      pose proof (serve_ok _ (gaps i) args l resp (f (server l)) (proj1 Hpa) (proj2 Hpa) Ho (Hg i) (Hrun _ _)) as Es.
      cbn [exchange] in *. rewrite Es in *.
      set (l1 := mkLink (f (server l)) true (clock l + gaps i)) in *.
      destruct (exchange (timed gaps (S i) (Main.requests acts)) l1) as [b l2] eqn:Ex. cbn [fst snd] in A.
      rewrite <- app_assoc in A. unfold frames in A. cbn [fmap list_fmap snd concat] in A.
      rewrite length_app, <- Nat.add_assoc in A.
      destruct (send_follows args (gaps i) l resp (f (server l)) r (b ++ rest)
        (length (frames (timed gaps (S i) (Main.requests acts))) + m) sent) as (c & E & A1); try done.
      { by rewrite Es. }
      destruct (IH fs (S i) l1 (set_redis c r) rest m (sent ++ Server.frame args) Hd Hp eq_refl) as (r' & E2 & A2); [by rewrite Ex|].
      exists r'. split; [cbn [apply_actions apply_action]; by rewrite E|]. by rewrite <- app_assoc in A2.
Qed.

(** The requests of a turn that serves a job. *)
Definition turn_dialogue (o : Main.Options) (gaps : nat -> Z) (j : job) (logs : list string) (code ms : Z) : dialogue :=
  (gaps O, ["job next"]) :: timed gaps 1 (Main.report (Main.sandbox_id o) (jid j) logs code ms).

Lemma turn_follows w o e t gaps l q j logs code ms :
  opened l = true -> (forall i, gaps i <= READ_TIMEOUT) -> polite_id (Main.sandbox_id o) ->
  Main.netns_created e = false ->
  Store.list_at QUEUE (server l) = Some (q ++ [job_payload j]) -> good_job j ->
  Main.job_outcome o Security.new_manager e (jid j) (jtarget j) (jcommand j) = Ret (logs, code, ms) ->
  Forall utf8 logs -> in_i64 ms ->
  let d := turn_dialogue o gaps j logs code ms in
  (exists t', (exchange d l).2 =
     mkLink (reported (Main.sandbox_id o) (jid j) logs code ms (taken (jid j) (server l))) true t') /\
  forall turns n r rest m sent, attached r ((exchange d l).1 ++ rest) (length (frames d) + m) sent ->
  exists n' r', job_loop double_of reserve_ok w o ((e, t) :: turns) n r =
                job_loop double_of reserve_ok w o turns n' r' /\
    attached r' rest m (sent ++ frames d).
Proof.
  intros Ho Hg Hsb He Hq Hj Hout Hu Hms d.
  destruct (job_outcome_bounds _ _ _ _ _ _ _ _ _ Hout) as [Hs Hc].
  set (sb := Main.sandbox_id o) in *. set (reqs := Main.report sb (jid j) logs code ms) in *.
  assert (Hp : Forall polite reqs).
  { destruct Hj as (_ & Hshort & Hid). apply report_polite; try done; [|by apply Forall_both].
    split; [by inversion Hshort|done]. }
  pose proof (next_answered other_command (clock l + gaps O) j q (server l) Hq Hj) as Hrun.
  set (resp := Server.Arr _) in Hrun.
  assert (Hsmall : small resp) by (apply small_strs; [cbn; lia|apply Hj]).
  pose proof (serve_ok _ (gaps O) ["job next"] l resp _ (proj1 next_polite) (proj2 next_polite) Ho (Hg O) Hrun) as Es.
  set (l1 := mkLink (taken (jid j) (server l)) true (clock l + gaps O)) in *.
  assert (Ed : exchange d l = (Server.write_response (Server.encode resp) ++ (exchange (timed gaps 1 reqs) l1).1,
                               (exchange (timed gaps 1 reqs) l1).2)).
  { unfold d, turn_dialogue. cbn [exchange]. fold sb reqs. rewrite Es. by destruct (exchange _ l1). }
  pose proof (report_does other_command sb (jid j) logs code ms Hc Hms) as Hd. fold reqs in Hd.
  rewrite Ed. cbn [fst snd]. split.
  { destruct (exchange_does gaps reqs _ 1 l1 Hg Hd Hp eq_refl) as [t' ->]. exists t'. by rewrite reported_fold. }
  intros turns n r rest m sent A. rewrite <- app_assoc in A.
  change (frames d) with (Server.frame ["job next"] ++ frames (timed gaps 1 reqs)) in *.
  rewrite length_app, <- Nat.add_assoc in A.
  destruct (send_follows ["job next"] (gaps O) l resp _ r ((exchange (timed gaps 1 reqs) l1).1 ++ rest)
    (length (frames (timed gaps 1 reqs)) + m) sent next_polite Ho (Hg O) Hsmall Hrun) as (c & E & A1).
  { rewrite Es. exact A. }
  destruct (Main.run_job_reports o Security.new_manager e (jid j) (jname j) (jtarget j) (jcommand j) n logs code ms Hout)
    as (acts & Ea & Hreq & _). fold sb reqs in Hreq.
  destruct (actions_follow w t gaps acts Hg (claim_and_log_effects sb (jid j) logs ++
    [finished (jid j) code ms; released sb]) 1 l1 (set_redis c r) rest m (sent ++ Server.frame ["job next"]))
    as (r' & E2 & A2); rewrite ?Hreq; try done.
  do 2 eexists. split; [|rewrite Hreq, <- app_assoc in A2; exact A2].
  cbn [job_loop]. unfold Redis.job_next. rewrite E. cbn [mbind outcome_bind].
  unfold created. rewrite (at_net _ _ _ _ A1), (at_sec _ _ _ _ A1). rewrite <- He.
  replace (Main.mkSurroundings _ _ _ _) with e by (by destruct e).
  erewrite Main.job_turn_job by reflexivity. cbn [Redis.as_str Redis.str Redis.of_server].
  rewrite Ea. cbn [mbind outcome_bind]. by rewrite E2.
Qed.

(** The requests for a job, for all of them. *)
Definition job_dialogue (o : Main.Options) (j : job) (turn : Main.surroundings * (nat -> Z)) : dialogue :=
  match Main.job_outcome o Security.new_manager turn.1 (jid j) (jtarget j) (jcommand j) with
  | Ret (logs, code, ms) => turn_dialogue o turn.2 j logs code ms
  | _ => []
  end.

Fixpoint jobs_dialogue (o : Main.Options) (js : list job) (turns : list (Main.surroundings * (nat -> Z))) : dialogue :=
  match js, turns with
  | j :: js, turn :: turns => job_dialogue o j turn ++ jobs_dialogue o js turns
  | _, _ => []
  end.

(** A turn of the program: the machine, the gaps between the requests, and
    the time of the aggregator's entries. *)
Abbreviation program_turn := (Main.surroundings * (nat -> Z) * Z)%type.

Definition no_namespace (turn : program_turn) : Prop := Main.netns_created turn.1.1 = false.

Lemma loop_follows w o js (turns : list program_turn) : polite_id (Main.sandbox_id o) ->
  Forall2 (serves o Security.new_manager) js turns.*1 -> Forall no_namespace turns ->
  forall q l, opened l = true -> Store.list_at QUEUE (server l) = Some (q ++ reverse (job_payload <$> js)) ->
  let d := jobs_dialogue o js turns.*1 in
  (exists t, (exchange d l).2 = mkLink (jobs_effect o Security.new_manager js turns.*1 (server l)) true t) /\
  forall n r rest m sent, attached r ((exchange d l).1 ++ rest) (length (frames d) + m) sent ->
  exists n' r', job_loop double_of reserve_ok w o ((fun t => (t.1.1, t.2)) <$> turns) n r = Ret (r', n') /\
    attached r' rest m (sent ++ frames d).
Proof.
  intros Hsb. revert js. induction turns as [|[[e gaps] t] turns IH]; intros js Hjs Hns q l Ho Hq.
  - inversion Hjs. subst. cbn. split.
    + exists (clock l). destruct l. cbn in *. by rewrite Ho.
    + intros n r rest m sent A. exists n, r. by rewrite app_nil_r.
  - cbn [fmap list_fmap fst] in Hjs. inversion Hjs as [|j ? js' ? Hj Hjs']. subst. clear Hjs.
    apply Forall_cons_1 in Hns as [He Hns]. cbn in He.
    cbn [fmap list_fmap] in Hq. rewrite reverse_cons, app_assoc in Hq.
    pose proof (job_effect_at o Security.new_manager j (e, gaps) _ _ Hj Hq) as (Hq1 & _). cbn [fst] in Hq1.
    destruct Hj as (Hg & Hj & logs & code & ms & Hout & Hu & Hms). cbn [fst snd] in *.
    destruct (turn_follows w o e t gaps l _ j logs code ms Ho Hg Hsb He Hq Hj Hout Hu Hms) as ([t1 E1] & F1).
    unfold job_effect in Hq1. rewrite Hout in Hq1. set (l1 := mkLink _ true t1) in E1.
    destruct (IH js' Hjs' Hns q l1 eq_refl Hq1) as ([t2 E2] & F2).
    cbn [jobs_dialogue jobs_effect fmap list_fmap fst]. unfold job_dialogue, job_effect. cbn [fst snd]. rewrite Hout.
    rewrite exchange_app, frames_app, E1. cbn [fst snd]. split; [by exists t2|].
    intros n r rest m sent A. rewrite <- app_assoc, length_app, <- Nat.add_assoc in A.
    destruct (F1 ((fun t => (t.1.1, t.2)) <$> turns) n r _ _ _ A) as (n1 & r1 & -> & A1).
    destruct (F2 n1 r1 rest m _ A1) as (n2 & r2 & E & A2). exists n2, r2. by rewrite app_assoc.
Qed.

(** ** Start-up and end *)

Lemma prepared_no_network w resources_at o :
  Main.enable_netns o = false -> net_manager (prepared (V := V) w resources_at o) = None.
Proof.
  intros Hn. unfold prepared, init_network, init_ipc, start_watcher. rewrite with_id_netns, Hn. cbn [negb snd].
  destruct (Main.enable_ipc (with_id w o)); cbn [negb];
    try destruct (IPC.register_sandbox _ _ _ _ _ _) as [[[[ch|] m] k] calls];
    destruct (decide (Main.watch_path (with_id w o) = ""));
    try destruct (FileWatcher.watch _ _ _ _ _) as [[? fw] ?]; done.
Qed.

(** The start-up against a server that takes the registration. *)
Lemma startup_attached w resources_at o peer l gap resp st rest m :
  known_profile o -> Main.enable_netns o = false -> 0 <= redis_sock w -> 0 <= redis_rc w ->
  polite (registration w o) -> opened l = true -> gap <= READ_TIMEOUT -> small resp -> is_err resp = false ->
  run (clock l + gap) (handler other_command (registration w o)) (server l) = (Some resp, st) ->
  Socket.delivered (Socket.rx peer) = (serve other_command gap (Server.frame (registration w o)) l).1 ++ rest ->
  Socket.ample (length (Server.frame (registration w o)) + m) (Socket.tx_room peer) ->
  exists r, startup reserve_ok (with_peer peer w) resources_at o = Ret (true, r) /\
    attached r rest m (Socket.tx peer ++ Server.frame (registration w o)).
Proof.
  intros Hprofile Hnet Hsock Hrc Hp Ho Hg Hs Herr Hrun Hrx Hroom.
  rewrite startup_prepared by (by try left). unfold connect_redis.
  pose proof (prepared_parts (V := V) (with_peer peer w) resources_at o) as (_ & _ & _ & _ & _ & Er & Es & _).
  pose proof (prepared_no_network (with_peer peer w) resources_at o Hnet) as En.
  set (r := prepared (with_peer peer w) resources_at o) in *. clearbody r. cbn [redis set_alive]. rewrite Er.
  unfold Redis.connect. cbn [redis_sock redis_rc redis_peer with_peer].
  rewrite (proj2 (Z.ltb_ge _ _) Hsock), (proj2 (Z.ltb_ge _ _) Hrc). cbn [negb].
  set (r1 := set_redis (Redis.mkClient (redis_sock w) peer) (note [Opened (redis_sock w)] (set_alive (LRedis :: alive r) r))).
  destruct (send_follows (registration w o) gap l resp st r1 rest m (Socket.tx peer)) as (c & E & A); try done.
  { split; cbn; try done. by apply Z.leb_le. }
  cbn [redis r1 set_redis] in E. unfold Redis.sandbox_register.
  change (Main.sandbox_id (with_id (with_peer peer w) o)) with (Main.sandbox_id (with_id w o)).
  change (Main.target_type (with_id (with_peer peer w) o)) with (Main.target_type (with_id w o)).
  change (Main.host (with_id (with_peer peer w) o)) with (Main.host (with_id w o)).
  change (Main.port (with_id (with_peer peer w) o)) with (Main.port (with_id w o)).
  unfold registration in E. rewrite E. cbn [mbind outcome_bind]. rewrite is_error_of_server, Herr.
  eexists. split; [reflexivity|]. by apply (attached_redis _ _ _ _ _ A).
Qed.

(** What the registration stores. *)
Definition registered (w : world) (o : Main.Options) (st : Store.store) : Store.store :=
  let o := with_id w o in
  Store.set_str (sandbox_status_key (Main.sandbox_id o)) "idle"
    (Store.set_str (sandbox_key (Main.sandbox_id o))
       (Main.target_type o +:+ "|" +:+ Main.host o +:+ ":" +:+ to_string (Main.port o)) st).

Lemma run_register w o t st :
  run t (handler other_command (registration w o)) st =
  (Some (Server.Str (Main.sandbox_id (with_id w o))), registered w o st).
Proof. unfold registration. by rewrite handler_lower. Qed.

(** Shutdown and destructors close the client and leave what it has sent. *)
Lemma close_net c : Redis.net (Redis.close c).1 = Redis.net c.
Proof. unfold Redis.close. by case_match. Qed.

Lemma destroy_net ls r r' :
  destroy_locals (V := V) ls r = Ret r' -> Redis.net (redis r') = Redis.net (redis r).
Proof.
  revert r. induction ls as [|a ls IH]; intros r Hd; [by injection Hd as <-|]. cbn [destroy_locals] in Hd.
  apply bind_Ret_inv in Hd as (r1 & E & Hd). rewrite (IH _ Hd). clear IH Hd. unfold destructor in E.
  apply bind_Ret_inv in E as (r2 & E & Hd). injection Hd as <-. cbn [redis set_alive].
  destruct a; try (injection E as <-; try done).
  all: first [apply close_net|by destruct (ipc_manager r)|by destruct (net_manager r)
             |by apply bind_Ret_inv in E as ([] & _ & [= <-])].
Qed.

(** ** Properties *)

(** C3: The whole program, from start-up to exit.  Against a server whose queue
    holds jobs with different ids, and with a machine turn for each of them
    (no network namespaces, every request within the read timeout and valid
    UTF-8): the program registers its sandbox, asks for the jobs and reports
    them, and then ends with status 0 and everything released.  The bytes it
    has sent on its one connection are the requests of the registration and
    of the jobs' turns; the bytes it has received are what the server sends in
    return for just these, and after them the server's queue is empty and
    every job has the status its exit code gives. *)
Theorem program_serves_queue w resources_at o js (turns : list program_turn) l gap peer
    (Hprofile : known_profile o) (Hnet : Main.enable_netns o = false)
    (Hsock : 0 <= redis_sock w) (Hrc : 0 <= redis_rc w)
    (Hid : polite_id (Main.sandbox_id (with_id w o))) (Hreg : polite (registration w o)) (Hgap : gap <= READ_TIMEOUT)
    (Hjs : Forall2 (serves (with_id w o) Security.new_manager) js turns.*1)
    (Hns : Forall no_namespace turns) (Hids : NoDup (jid <$> js))
    (Hopen : opened l = true) (Hq : Store.list_at QUEUE (server l) = Some (reverse (job_payload <$> js))) :
  let d := (gap, registration w o) :: jobs_dialogue (with_id w o) js turns.*1 in
  Socket.tx peer = [] -> Socket.delivered (Socket.rx peer) = (exchange d l).1 ->
  Socket.ample (length (frames d)) (Socket.tx_room peer) ->
  (exists r, main double_of reserve_ok (with_peer peer w) resources_at o ((fun t => (t.1.1, t.2)) <$> turns) = Ret (0, r) /\
     quiet w o r /\ Socket.tx (Redis.net (redis r)) = frames d) /\
  exists st t, (exchange d l).2 = mkLink st true t /\ Store.list_at QUEUE st = Some [] /\
    Forall2 (settled (with_id w o) Security.new_manager st) js turns.*1.
Proof.
  intros d Htx Hrx Hroom. set (o' := with_id w o) in *. set (dj := jobs_dialogue o' js turns.*1) in *.
  pose proof (serve_ok other_command gap (registration w o) l _ _ (proj1 Hreg) (proj2 Hreg) Hopen Hgap
    (run_register w o (clock l + gap) (server l))) as Es.
  set (l1 := mkLink (registered w o (server l)) true (clock l + gap)) in *.
  assert (Hq1 : Store.list_at QUEUE (server l1) = Some ([] ++ reverse (job_payload <$> js))).
  { cbn [app]. rewrite <- Hq. apply Store.list_at_lookup. cbn. unfold registered.
    rewrite !Store.set_str_other by key_ne. done. }
  assert (Ed : exchange d l = (Server.write_response (Server.encode (Server.Str (Main.sandbox_id o'))) ++ (exchange dj l1).1,
                               (exchange dj l1).2)).
  { unfold d. cbn [exchange]. rewrite Es. by destruct (exchange dj l1). }
  change (frames d) with (Server.frame (registration w o) ++ frames dj) in *. rewrite Ed in *. cbn [fst snd] in *.
  destruct (loop_follows (with_peer peer w) o' js turns Hid Hjs Hns [] l1 eq_refl Hq1) as ([t1 E1] & F).
  fold dj in E1, F. split.
  - rewrite length_app in Hroom.
    destruct (startup_attached w resources_at o peer l gap (Server.Str (Main.sandbox_id o')) (registered w o (server l))
      (exchange dj l1).1 (length (frames dj))) as (r & E & A); try done.
    { apply small_str, Hid. } { apply run_register. } { by rewrite Es. }
    rewrite <- (app_nil_r (exchange dj l1).1) in A. rewrite <- (Nat.add_0_r (length (frames dj))) in A.
    destruct (F (Main.mkCounters 0 0) r [] O _ A) as (n' & r' & El & A').
    destruct (main_ends _ _ _ _ _ _ _ _ _ _ _ E El) as (r2 & Ed2 & Hquiet).
    exists r2. split_and!; [|done|].
    + unfold main. rewrite E. cbn [mbind outcome_bind negb].
      change (with_id (with_peer peer w) o) with o'. rewrite El. cbn [mbind outcome_bind]. by rewrite Ed2.
    + rewrite (destroy_net _ _ _ Ed2). change (redis (shutdown r')) with (Redis.close (redis r')).1. rewrite close_net.
      etrans; [exact (at_tx _ _ _ _ A')|]. by rewrite Htx.
  - destruct (jobs_effect_drains o' Security.new_manager js turns.*1 Hjs Hids [] (server l1) Hq1) as (D1 & D2 & _).
    by do 2 eexists.
Qed.

End Program.
(** ** Witness *)

Definition demo_turn : Main.surroundings * (nat -> Z) * Z := (Main.demo_surroundings, fun _ => 5, 100).

(** The requests of the registration and of a job that runs [make]. *)
Definition demo_dialogue : dialogue :=
  (5, registration (demo_world 3) (Main.demo_options "standard")) ::
  jobs_dialogue (Main.demo_options "standard") [demo_job "7" "make"] [demo_turn.1].

Definition demo_server : link := demo_link [demo_job "7" "make"].
Definition demo_connection : Socket.socket :=
  Socket.mkSocket (one_segment (exchange (H := ascii_text) no_command demo_dialogue demo_server).1)
    (replicate (length (frames demo_dialogue)) 1) [].

Lemma program_serves_queue_witness :
  exists r, main (fun z : Z => z) (fun _ => true) (with_peer demo_connection (demo_world 3)) no_monitors
              (Main.demo_options "standard") [(Main.demo_surroundings, 100)] = Ret (0, r) /\
  Socket.tx (Redis.net (redis r)) = frames demo_dialogue.
Proof.
  destruct (program_serves_queue (H := ascii_text) no_command (fun z : Z => z) (fun _ => true) (fun _ _ => eq_refl)
    (demo_world 3) no_monitors (Main.demo_options "standard") [demo_job "7" "make"] [demo_turn] demo_server 5
    demo_connection) as [(r & E & _ & Etx) _].
  - exact demo_known.
  - reflexivity.
  - cbn. lia.
  - cbn. lia.
  - split; [by vm_compute|done].
  - split; [apply fits_short; [cbn; lia|]; repeat constructor; by vm_compute|by repeat constructor].
  - unfold READ_TIMEOUT. lia.
  - constructor; [|constructor]. split; [intros i; cbn; unfold READ_TIMEOUT; lia|].
    split; [apply demo_good; by left|]. exists demo_output, 0, 4.
    split; [vm_compute; reflexivity|]. split; [by repeat constructor|unfold in_i64; lia].
  - by repeat constructor.
  - constructor; [by apply not_elem_of_nil|constructor].
  - reflexivity.
  - reflexivity.
  - reflexivity.
  - apply one_segment_delivers.
  - split; [by apply Forall_replicate|]. cbn [Socket.tx_room demo_connection]. rewrite length_replicate. done.
  - exists r. split; [exact E|exact Etx].
Defined.

End Program.
