(* ===== verification/Fleet.v ===== *)
(** * Many runtimes on one server

    Any number of sandbox runtimes ([main.cpp]) that poll one server
    ([handler.rs] under the tasks of [server.rs]), with other clients beside
    them.  A runtime is the state machine of its job loop: it asks for a job,
    turns the reply into the actions of [Main.job_turn], and carries these out
    one by one, a request when the connection's task is free and the next
    action when the answer is there.  The server's tasks interleave as in
    [Pool.v].  A connection can break at any time, also because the server
    closes it: when it was silent for 30 seconds, or when a request is no valid
    UTF-8 or too long, as in [System.v].  The runtime then goes on without
    answers, as the loop does, until a request it writes kills it (SIGPIPE),
    and the server's task finishes the command it runs.  The requests the
    server reads and the replies below the client's limit travel unchanged
    ([rpc_roundtrip]); a longer reply is none. *)

From stdpp Require Import base strings gmap list numbers relations.
From Stdlib Require Import ZArith Lia.
From S2P Require Import Prelude Text ServerProto RedisClient Security Sandbox Store Handler Pool Main System.

Module Fleet.
Import Handler Pool.

(** ** State *)

(** Where the loop of a runtime stands: before its request for a job, waiting
    for the reply to it, with actions left to do, waiting for the answer to a
    request among them, killed. *)
Inductive phase :=
  | Idle
  | Asked
  | Doing (acts : list Main.action)
  | Sent (acts : list Main.action)
  | Killed.

Record box := mkBox {
  opts : Main.Options;
  sec : Security.SecurityManager;
  at_phase : phase;
  up : bool;                        (**r its connection works *)
  count : Main.counters;
  did : list Main.action           (**r everything it has done *)
}.

(** The runtimes, each under the number of its connection. *)
Record fleet := mkFleet { server : pool; boxes : gmap nat box }.

Definition with_phase (ph : phase) (b : box) : box := mkBox (opts b) (sec b) ph (up b) (count b) (did b).
Definition with_count (n : Main.counters) (b : box) : box := mkBox (opts b) (sec b) (at_phase b) (up b) n (did b).
Definition with_did (a : Main.action) (b : box) : box :=
  mkBox (opts b) (sec b) (at_phase b) (up b) (count b) (did b ++ [a]).
Definition broken (b : box) : box := mkBox (opts b) (sec b) (at_phase b) false (count b) (did b).

Definition set_box (c : nat) (b : box) (f : fleet) : fleet := mkFleet (server f) (<[c := b]> (boxes f)).
Definition set_conns (m : gmap nat prog) (f : fleet) : fleet :=
  mkFleet (mkPool (data (server f)) m (history (server f))) (boxes f).

(** A runtime after its start-up. *)
Definition fresh (b : box) : Prop := at_phase b = Idle /\ up b = true /\ did b = [].

(** What has been run, and will be, with the job's id. *)
Fixpoint ran (l : list Main.action) : list (string * string) :=
  match l with
  | [] => []
  | Main.RunSandbox cfg cmd _ :: l => (Sandbox.id cfg, cmd) :: ran l
  | _ :: l => ran l
  end.

Section Fleet.
Context `{RustText}.

#[local] Set Default Proof Using "Type".
#[local] Arguments reverse : simpl never.

(** ** Steps

    [admits]: the requests of clients that are no runtimes; [breaks]: the
    connections that can end; [machine]: what the runtimes' machines do in a
    turn. *)
Inductive fstep {admits : list string -> Prop} {breaks : nat -> Prop} {machine : Main.surroundings -> Prop} :
    fleet -> fleet -> Prop :=
  | server_op f c o k now :
      conns (server f) !! c = Some (Do o k) ->
      fstep f (mkFleet (mkPool (exec now o (data (server f))).2
                 (<[c := k (exec now o (data (server f))).1]> (conns (server f)))
                 (history (server f) ++ [mkEvent c o (exec now o (data (server f))).1])) (boxes f))
  | server_expiry f now :
      fstep f (mkFleet (mkPool (Store.retain now (data (server f))) (conns (server f)) (history (server f))) (boxes f))
  | server_done f c r :
      conns (server f) !! c = Some (Reply r) ->
      (forall b, boxes f !! c = Some b -> up b = false) ->
      fstep f (set_conns (delete c (conns (server f))) f)
  | server_panic f c :
      conns (server f) !! c = Some Panic ->
      fstep f (mkFleet (mkPool (data (server f)) (delete c (conns (server f))) (history (server f)))
                 (alter broken c (boxes f)))
  | client_request f c args cmd :
      boxes f !! c = None -> conns (server f) !! c = None -> dispatch args = Some cmd -> admits args ->
      System.polite args ->
      fstep f (set_conns (<[c := cmd]> (conns (server f))) f)
  | box_asks f c b cmd :
      boxes f !! c = Some b -> at_phase b = Idle -> up b = true -> conns (server f) !! c = None ->
      dispatch ["job next"] = Some cmd ->
      fstep f (set_conns (<[c := cmd]> (conns (server f))) (set_box c (with_phase Asked b) f))
  | box_told f c b r e acts n :
      boxes f !! c = Some b -> at_phase b = Asked -> up b = true -> conns (server f) !! c = Some (Reply r) ->
      System.small r -> machine e -> in_i64 (Main.ended_ms e - Main.started_ms e) ->
      Main.job_turn (opts b) (sec b) e (Some (Redis.of_server r)) (count b) = Ret (acts, n) ->
      fstep f (set_conns (delete c (conns (server f))) (set_box c (with_phase (Doing acts) (with_count n b)) f))
  | box_acts f c b a acts :
      boxes f !! c = Some b -> at_phase b = Doing (a :: acts) -> Main.requests [a] = [] ->
      fstep f (set_box c (with_phase (Doing acts) (with_did a b)) f)
  | box_sends f c b args acts cmd :
      boxes f !! c = Some b -> at_phase b = Doing (Main.Request args :: acts) -> up b = true ->
      conns (server f) !! c = None -> dispatch args = Some cmd -> System.polite args ->
      fstep f (set_conns (<[c := cmd]> (conns (server f)))
                 (set_box c (with_phase (Sent acts) (with_did (Main.Request args) b)) f))
  | box_answered f c b r acts :
      boxes f !! c = Some b -> at_phase b = Sent acts -> up b = true -> conns (server f) !! c = Some (Reply r) ->
      System.small r ->
      fstep f (set_conns (delete c (conns (server f))) (set_box c (with_phase (Doing acts) b) f))
  | box_ends f c b :
      boxes f !! c = Some b -> at_phase b = Doing [] -> fstep f (set_box c (with_phase Idle b) f)
  | box_breaks f c b :
      boxes f !! c = Some b -> breaks c -> fstep f (set_box c (broken b) f)
  | box_refused f c b args acts :
      boxes f !! c = Some b -> at_phase b = Doing (Main.Request args :: acts) -> up b = true ->
      conns (server f) !! c = None -> ~ System.polite args -> breaks c ->
      fstep f (set_box c (with_phase (Sent acts) (with_did (Main.Request args) (broken b))) f)
  | box_killed f c b :
      boxes f !! c = Some b -> up b = false ->
      at_phase b = Idle \/ (exists args acts, at_phase b = Doing (Main.Request args :: acts)) ->
      fstep f (set_box c (with_phase Killed b) f)
  | box_unanswered f c b args acts :
      boxes f !! c = Some b -> up b = false ->
      at_phase b = Sent acts \/ at_phase b = Doing (Main.Request args :: acts) ->
      fstep f (set_box c (with_phase (Doing acts) b) f)
  | box_untold f c b e acts n :
      boxes f !! c = Some b -> up b = false -> at_phase b = Idle \/ at_phase b = Asked ->
      Main.job_turn (opts b) (sec b) e None (count b) = Ret (acts, n) ->
      fstep f (set_box c (with_phase (Doing acts) (with_count n b)) f).

(** The jobs a connection has been handed, in order. *)
Definition handed_on (c : nat) (e : event) : option string :=
  if decide (who e = c) then handed_by e else None.
Definition handed_to (c : nat) (h : list event) : list string := omap (handed_on c) h.

(** What a runtime runs for a job: its command, if the profile allows it. *)
Definition job_of (b : box) (p : string) : option (string * string) :=
  match splitn 4 BAR p with
  | [id; _; _; command; _] =>
      if Security.result_allowed (Security.validate_command command (Main.security_profile (opts b)) (sec b))
      then Some (id, command) else None
  | _ => None
  end.

(** ** What a turn runs and sends *)

Inductive own_request (sb id : string) : list string -> Prop :=
  | own_claim : own_request sb id ["sandbox claim"; sb; id]
  | own_log line : own_request sb id ["job log"; id; line]
  | own_result code ms : in_i64 code -> in_i64 ms -> own_request sb id ["job result"; id; to_string code; to_string ms]
  | own_release : own_request sb id ["sandbox release"; sb].

Lemma ran_app l l' : ran (l ++ l') = ran l ++ ran l'.
Proof. induction l as [|[] l IH]; cbn; by rewrite ?IH. Qed.

Lemma ran_output id lines : ran (concat (Main.on_output id <$> lines)) = [].
Proof. by induction lines. Qed.

Lemma report_own sb id logs code ms :
  in_i64 code -> in_i64 ms -> Forall (own_request sb id) (Main.report sb id logs code ms).
Proof.
  intros. unfold Main.report. constructor; [constructor|]. apply Forall_app. split.
  - apply Forall_fmap, Forall_true. intros line. constructor.
  - constructor; [by apply own_result|]. constructor; [apply own_release|constructor].
Qed.

Lemma run_job_ran o s e id name target command n acts n' :
  Main.run_job o s e id name target command n = Ret (acts, n') ->
  ran acts = (if Security.result_allowed (Security.validate_command command (Main.security_profile o) s)
              then [(id, command)] else []).
Proof.
  unfold Main.run_job. destruct (Security.result_allowed _); cbn [negb]; [|by intros [= <- <-]].
  destruct (Sandbox.run _ _ _) as [[[[res lines] s'] trace]| | |]; cbn [mbind outcome_bind]; try done.
  match goal with |- Ret (?l, _) = _ -> _ => intros E; assert (acts = l) as -> by congruence end.
  rewrite !ran_app, ran_output. by destruct (Main.enable_netns o), (Main.netns_created e), (Sandbox.exit_code res =? 0).
Qed.

#[local] Ltac unfold_job E :=
  unfold Main.run_job, Main.job_outcome in *; destruct (Security.result_allowed _); [cbn [negb] in E|done];
  by destruct (Sandbox.run _ _ _) as [[[[? ?] ?] ?]| | |].

(** What a turn does with a job it is told. *)
Lemma run_job_own o s e id name target command n acts n' :
  in_i64 (Main.ended_ms e - Main.started_ms e) ->
  Main.run_job o s e id name target command n = Ret (acts, n') ->
  exists logs code ms, Main.job_outcome o s e id target command = Ret (logs, code, ms) /\ in_i64 code /\ in_i64 ms /\
  Main.requests acts = Main.report (Main.sandbox_id o) id logs code ms.
Proof.
  intros Hms E.
  destruct (Main.job_outcome o s e id target command) as [[[logs code] ms]| | |] eqn:Eo.
  - destruct (Main.run_job_reports o s e id name target command n logs code ms Eo) as (acts' & E' & Hq & _).
    rewrite E in E'. injection E' as <- _. exists logs, code, ms. split; [done|].
    split; [by apply (System.job_outcome_bounds _ _ _ _ _ _ _ _ _ Eo)|]. split; [|done].
    unfold Main.job_outcome in Eo. destruct (Security.result_allowed _).
    + destruct (Sandbox.run _ _ _) as [[[[res lines] s'] trace]| | |]; try done.
      cbn [mbind outcome_bind] in Eo. by injection Eo as _ _ <-.
    + injection Eo as _ _ <-. unfold in_i64. lia.
  - exfalso. unfold_job E.
  - exfalso. unfold_job E.
  - exfalso. unfold_job E.
Qed.

(** A command between a request for a job and its reply, with the payload it
    has taken from the queue. *)
Inductive asking : prog -> list string -> Prop :=
  | asking_pop : asking job_next []
  | asking_mark key p fields : splitn 4 BAR p = fields -> length fields = 5%nat ->
      asking (Do (SetStr key "running") (fun _ => arr_reply fields)) [p]
  | asking_given p fields : splitn 4 BAR p = fields -> length fields = 5%nat ->
      asking (Reply (Server.Arr (Server.Str <$> fields))) [p]
  | asking_none : asking (Reply Server.Nil) []
  | asking_bad p code msg : length (splitn 4 BAR p) <> 5%nat -> asking (Reply (Server.Err code msg)) [p].

Lemma job_of_bad b p : length (splitn 4 BAR p) <> 5%nat -> job_of b p = None.
Proof. unfold job_of. by destruct (splitn 4 BAR p) as [|? [|? [|? [|? [|? [|? ?]]]]]]. Qed.

Lemma asking_op c now st p inflight :
  asking p inflight ->
  match p with
  | Do o k => asking (k (exec now o st).1) (inflight ++ option_list (handed_on c (mkEvent c o (exec now o st).1)))
  | Panic => False
  | Reply _ => True
  end.
Proof.
  destruct 1 as [|key p fields Ef Hl| | |]; try done.
  - unfold job_next. cbn [exec]. unfold handed_on. cbn [who]. rewrite decide_True by done.
    cbn [handed_by]. rewrite decide_True by done. destruct (Store.rpop QUEUE st) as [[p|] st']; cbn [fst]; [|by constructor].
    cbn [app option_list]. destruct (splitn 4 BAR p) as [|x1 [|x2 [|x3 [|x4 [|x5 [|x6 l]]]]]] eqn:E;
      try (apply asking_bad; by rewrite E).
    by apply asking_mark.
  - cbn [exec fst]. unfold handed_on. cbn [who handed_by]. rewrite decide_True by done. cbn [option_list].
    rewrite app_nil_r. by apply asking_given.
Qed.

(** The turn after the reply. *)
Lemma told_turn b e r inflight acts n :
  asking (Reply r) inflight -> in_i64 (Main.ended_ms e - Main.started_ms e) ->
  Main.job_turn (opts b) (sec b) e (Some (Redis.of_server r)) (count b) = Ret (acts, n) ->
  ran acts = omap (job_of b) inflight /\
  exists id, Forall (own_request (Main.sandbox_id (opts b)) id) (Main.requests acts).
Proof.
  intros Ha Hms. remember (Reply r) as p eqn:Ep. destruct Ha as [| |p fields Ef Hl| |p code msg Hbad]; try done;
    injection Ep as <-.
  - destruct fields as [|id [|name [|target [|command [|args [|x l]]]]]]; try done. intros E.
    erewrite Main.job_turn_job in E by reflexivity. cbn [Redis.as_str Redis.str Redis.of_server] in E.
    split.
    + rewrite (run_job_ran _ _ _ _ _ _ _ _ _ _ E). cbn [omap list_omap]. unfold job_of. rewrite Ef.
      by destruct (Security.result_allowed _).
    + destruct (run_job_own _ _ _ _ _ _ _ _ _ _ Hms E) as (logs & code & ms & _ & Hc & Hm & ->).
      exists id. by apply report_own.
  - intros [= <- <-]. split; [done|]. exists "". constructor.
  - intros [= <- <-]. cbn [omap list_omap]. rewrite job_of_bad by done. split; [done|]. exists "". constructor.
Qed.

(** A command that takes nothing from the queue. *)
Definition pop_free : prog -> Prop := every (fun o => o <> Rpop QUEUE).

Lemma pop_free_event c o v : o <> Rpop QUEUE -> handed_by (mkEvent c o v) = None.
Proof. intros Ho. destruct o; try done. cbn. case_decide; [by subst|done]. Qed.

Lemma own_lower sb id args :
  own_request sb id args -> exists name rest, args = name :: rest /\ all_chars lower_ascii name = true /\
    bool_decide (name ∈ config_commands) = false /\ pop_free (command name rest) /\ ~ raw_queue_write args.
Proof.
  intros Ho; destruct Ho as [|line|code ms Hc Hm|]; do 2 eexists; (split; [reflexivity|]);
    (split; [done|]); (split; [by vm_compute|]); (split; [|by apply not_raw]); unfold pop_free.
  - change (command _ _) with (sandbox_claim [sb; id]). every_tac done.
  - change (command _ _) with (job_log [id; line]). unfold job_log. every_tac done.
  - change (command _ _) with (job_result [id; to_string code; to_string ms]). unfold job_result.
    rewrite !parse_i64_to_string by done. every_tac done.
  - change (command _ _) with (sandbox_release [sb]). every_tac done.
Qed.

Lemma own_dispatch sb id args cmd :
  own_request sb id args -> dispatch args = Some cmd -> pop_free cmd /\ ~ raw_queue_write args.
Proof.
  intros Ho Hd. destruct (own_lower sb id args Ho) as (name & rest & -> & Hl & Hn & Hp & Hr).
  rewrite dispatch_lower in Hd by done. by injection Hd as <-.
Qed.

(** ** One run for each job *)

Definition todo (b : box) : list Main.action :=
  match at_phase b with Doing acts | Sent acts => acts | _ => [] end.

(** The commands of the jobs a connection has been handed. *)
Definition due (b : box) (c : nat) (h : list event) : list (string * string) := omap (job_of b) (handed_to c h).

(** A runtime whose connection works has run, or is about to run, just what it
    was handed; without the connection a job may be lost on the way, and no
    other appears. *)
Definition in_step (p : pool) (c : nat) (b : box) : Prop :=
  match at_phase b with
  | Asked => exists cmd inflight pre, conns p !! c = Some cmd /\ asking cmd inflight /\
               handed_to c (history p) = pre ++ inflight /\ ran (did b) = omap (job_of b) pre
  | Sent acts => (exists cmd, conns p !! c = Some cmd /\ pop_free cmd) /\
                 ran (did b) ++ ran acts = due b c (history p)
  | _ => conns p !! c = None /\ ran (did b) ++ ran (todo b) = due b c (history p)
  end.

Definition tracked (p : pool) (c : nat) (b : box) : Prop :=
  ran (did b) ++ ran (todo b) `sublist_of` due b c (history p) /\
  (up b = true -> in_step p c b) /\
  exists id, Forall (own_request (Main.sandbox_id (opts b)) id) (Main.requests (todo b)).

Lemma in_step_sublist p c b : in_step p c b -> ran (did b) ++ ran (todo b) `sublist_of` due b c (history p).
Proof.
  unfold in_step, todo, due. destruct (at_phase b); try (intros [_ ->]; done).
  intros (cmd & inflight & pre & _ & _ & E & ->). rewrite app_nil_r, E, omap_app. apply sublist_inserts_r. done.
Qed.

Lemma handed_to_snoc c h e : handed_to c (h ++ [e]) = handed_to c h ++ option_list (handed_on c e).
Proof. apply omap_snoc. Qed.

Lemma handed_to_other c h e : who e <> c -> handed_to c (h ++ [e]) = handed_to c h.
Proof. intros Hne. rewrite handed_to_snoc. unfold handed_on. rewrite decide_False by done. by rewrite app_nil_r. Qed.

(** What a runtime's invariant depends on. *)
Lemma tracked_same p p' c b :
  conns p' !! c = conns p !! c -> handed_to c (history p') = handed_to c (history p) -> tracked p c b -> tracked p' c b.
Proof. intros E1 E2. unfold tracked, in_step, due. by rewrite E1, E2. Qed.

Lemma tracked_broken p p' c b :
  due b c (history p) `sublist_of` due b c (history p') -> tracked p c b -> tracked p' c (broken b).
Proof. intros Hs (H1 & _ & H3). split_and!; [by etrans|done|done]. Qed.

Lemma due_grows b c h e : due b c h `sublist_of` due b c (h ++ [e]).
Proof. unfold due. rewrite handed_to_snoc, omap_app. by apply sublist_inserts_r. Qed.

(** An operation of its own connection's command. *)
Lemma tracked_op p c b o k now :
  conns p !! c = Some (Do o k) -> tracked p c b ->
  tracked (mkPool (exec now o (data p)).2 (<[c := k (exec now o (data p)).1]> (conns p))
             (history p ++ [mkEvent c o (exec now o (data p)).1])) c b.
Proof.
  intros Hc (Hs & Hup & Hreq). set (v := (exec now o (data p)).1). set (e := mkEvent c o v).
  assert (Hstep : up b = true -> in_step (mkPool (exec now o (data p)).2 (<[c := k v]> (conns p)) (history p ++ [e])) c b).
  { intros Hu. specialize (Hup Hu). unfold in_step in *. cbn [conns history]. rewrite lookup_insert_eq.
    destruct (at_phase b); try (by destruct Hup as [Hn _]; rewrite Hn in Hc).
    - destruct Hup as (cmd & inflight & pre & Hcmd & Ha & E & Hr). rewrite Hc in Hcmd. injection Hcmd as <-.
      exists (k v), (inflight ++ option_list (handed_on c e)), pre. split_and!; [done| |by rewrite handed_to_snoc, E, <- app_assoc|done].
      by apply (asking_op c now (data p)) in Ha.
    - destruct Hup as [(cmd & Hcmd & Hp) Hr]. rewrite Hc in Hcmd. injection Hcmd as <-.
      destruct Hp as [Hh Hk]. split; [by exists (k v); split; [|apply Hk]|]. rewrite Hr. unfold due. rewrite handed_to_snoc.
      unfold handed_on. cbn [who]. rewrite decide_True by done.
      assert (handed_by e = None) as -> by (by apply pop_free_event). by rewrite app_nil_r. }
  split_and!; [|done|done]. etrans; [exact Hs|]. apply due_grows.
Qed.

Definition orderly (f : fleet) : Prop := fifo (server f) /\ map_Forall (tracked (server f)) (boxes f).

(** A step of one connection. *)
Lemma tracked_update p p' c (m : gmap nat box) b :
  (forall c', c' <> c -> conns p' !! c' = conns p !! c' /\ handed_to c' (history p') = handed_to c' (history p)) ->
  map_Forall (tracked p) m -> tracked p' c b -> map_Forall (tracked p') (<[c := b]> m).
Proof.
  intros Hp Hm Hb c' b' Hl. destruct (decide (c = c')) as [<-|Hne].
  - rewrite lookup_insert_eq in Hl. by injection Hl as <-.
  - rewrite lookup_insert_ne in Hl by done. destruct (Hp c' (not_eq_sym Hne)).
    eapply tracked_same; [done|done|]. by apply (Hm c' b').
Qed.

Lemma tracked_no_box p p' c (m : gmap nat box) :
  (forall c', c' <> c -> conns p' !! c' = conns p !! c' /\ handed_to c' (history p') = handed_to c' (history p)) ->
  m !! c = None -> map_Forall (tracked p) m -> map_Forall (tracked p') m.
Proof.
  intros Hp Hn Hm c' b' Hl. destruct (Hp c') as [E1 E2]; [by intros ->; rewrite Hn in Hl|].
  eapply tracked_same; [done|done|]. by apply (Hm c' b').
Qed.

(** *** The steps of a runtime *)

(** The server with another command for a connection, or none. *)
Definition with_conns (m : gmap nat prog) (p : pool) : pool := mkPool (data p) m (history p).

Lemma tracked_asks p c b cmd :
  at_phase b = Idle -> up b = true -> dispatch ["job next"] = Some cmd -> tracked p c b ->
  tracked (with_conns (<[c := cmd]> (conns p)) p) c (with_phase Asked b).
Proof.
  intros Hph Hu Hd (Hs & Hin & Hreq). specialize (Hin Hu). unfold in_step, todo in *. rewrite Hph in *. destruct Hin as [_ Hin].
  rewrite dispatch_lower in Hd by (done || by vm_compute). injection Hd as <-.
  split_and!; [done| |by exists ""; constructor].
  intros _. exists job_next, [], (handed_to c (history p)). cbn.
  rewrite lookup_insert_eq, app_nil_r. split_and!; [done|constructor|done|]. cbn in Hin. by rewrite app_nil_r in Hin.
Qed.

Lemma tracked_told p c b r e acts n :
  at_phase b = Asked -> up b = true -> conns p !! c = Some (Reply r) ->
  in_i64 (Main.ended_ms e - Main.started_ms e) ->
  Main.job_turn (opts b) (sec b) e (Some (Redis.of_server r)) (count b) = Ret (acts, n) -> tracked p c b ->
  tracked (with_conns (delete c (conns p)) p) c (with_phase (Doing acts) (with_count n b)).
Proof.
  intros Hph Hu Hc Hms Ht (Hs & Hin & Hreq). specialize (Hin Hu). unfold in_step in Hin. rewrite Hph in Hin.
  destruct Hin as (cmd & inflight & pre & Hcmd & Ha & Eh & Er). rewrite Hc in Hcmd. injection Hcmd as <-.
  destruct (told_turn b e r inflight acts n Ha Hms Ht) as [Eacts Hown].
  assert (Hin : in_step (with_conns (delete c (conns p)) p) c (with_phase (Doing acts) (with_count n b))).
  { unfold in_step. cbn. rewrite lookup_delete_eq. split; [done|]. by rewrite Er, Eacts, <- omap_app, <- Eh. }
  split_and!; [by apply in_step_sublist in Hin|done|done].
Qed.

Lemma tracked_acts p c b a acts :
  at_phase b = Doing (a :: acts) -> Main.requests [a] = [] -> tracked p c b ->
  tracked p c (with_phase (Doing acts) (with_did a b)).
Proof.
  intros Hph Ha (Hs & Hin & id & Hreq). unfold tracked, in_step, todo in *. rewrite Hph in *.
  assert (Er : forall l, ran (l ++ [a]) ++ ran acts = ran l ++ ran (a :: acts)).
  { intros l. change (a :: acts) with ([a] ++ acts). by rewrite !ran_app, app_assoc. }
  rewrite Main.requests_cons, Ha in Hreq.
  split_and!; cbn [with_phase with_did at_phase did up opts]; [by rewrite Er| |by exists id].
  intros Hu. destruct (Hin Hu) as [Hc E]. split; [done|]. cbn. by rewrite Er, E.
Qed.

Lemma tracked_sends p c b args acts cmd :
  at_phase b = Doing (Main.Request args :: acts) -> up b = true -> dispatch args = Some cmd -> tracked p c b ->
  tracked (with_conns (<[c := cmd]> (conns p)) p) c (with_phase (Sent acts) (with_did (Main.Request args) b)).
Proof.
  intros Hph Hu Hd (Hs & Hin & id & Hreq). specialize (Hin Hu). unfold in_step, todo in *. rewrite Hph in *.
  cbn [Main.requests] in Hreq. apply Forall_cons_1 in Hreq as [Hown Hreq].
  destruct (own_dispatch _ _ _ _ Hown Hd) as [Hp _]. destruct Hin as [_ E].
  assert (Hin : in_step (with_conns (<[c := cmd]> (conns p)) p) c (with_phase (Sent acts) (with_did (Main.Request args) b))).
  { unfold in_step. cbn. rewrite lookup_insert_eq. split; [by exists cmd|]. rewrite ran_app, app_nil_r. exact E. }
  split_and!; [by apply in_step_sublist in Hin|done|by exists id].
Qed.

Lemma tracked_answered p c b acts :
  at_phase b = Sent acts -> up b = true -> tracked p c b ->
  tracked (with_conns (delete c (conns p)) p) c (with_phase (Doing acts) b).
Proof.
  intros Hph Hu (Hs & Hin & id & Hreq). specialize (Hin Hu). unfold in_step, todo in *. rewrite Hph in *. destruct Hin as [_ E].
  split_and!; [done| |by exists id]. intros _. unfold in_step. cbn. by rewrite lookup_delete_eq.
Qed.

(** Without a connection the runtime goes on with what it has left. *)
Lemma tracked_unanswered p c b args acts :
  up b = false -> at_phase b = Sent acts \/ at_phase b = Doing (Main.Request args :: acts) -> tracked p c b ->
  tracked p c (with_phase (Doing acts) b).
Proof.
  intros Hu Hph (Hs & _ & id & Hreq). split_and!; [|cbn; congruence|exists id]; unfold todo in *;
    cbn [with_phase at_phase did opts]; destruct Hph as [Hph|Hph]; rewrite Hph in *; try done.
  by apply Forall_cons_1 in Hreq as [_ ?].
Qed.

Lemma tracked_refused p c b args acts :
  at_phase b = Doing (Main.Request args :: acts) -> tracked p c b ->
  tracked p c (with_phase (Sent acts) (with_did (Main.Request args) (broken b))).
Proof.
  intros Hph (Hs & _ & id & Hreq). unfold tracked, todo in *. rewrite Hph in *.
  cbn [with_phase with_did broken at_phase did opts up Main.requests] in *. apply Forall_cons_1 in Hreq as [_ Hreq].
  split_and!; [by rewrite ran_app, app_nil_r|done|by exists id].
Qed.

Lemma tracked_killed p c b : up b = false -> tracked p c b -> tracked p c (with_phase Killed b).
Proof.
  intros Hu (Hs & _ & _). split_and!; [|cbn; congruence|exists ""; constructor]. etrans; [|exact Hs].
  cbn [with_phase todo at_phase did]. apply sublist_app; [done|apply sublist_nil_l].
Qed.

Lemma tracked_untold p c b e acts n :
  up b = false -> at_phase b = Idle \/ at_phase b = Asked ->
  Main.job_turn (opts b) (sec b) e None (count b) = Ret (acts, n) -> tracked p c b ->
  tracked p c (with_phase (Doing acts) (with_count n b)).
Proof.
  intros Hu Hph Ht (Hs & _ & id & _). injection Ht as <- <-. split_and!; [|cbn; congruence|exists id; constructor].
  unfold todo in *. cbn [with_phase with_count at_phase did]. by destruct Hph as [Hph|Hph]; rewrite Hph in Hs.
Qed.

Section Safety.
Context {breaks : nat -> Prop} {machine : Main.surroundings -> Prop}.

Abbreviation pool_step := (step_if (admits := fun args => ~ raw_queue_write args)).
Abbreviation step := (fstep (admits := fun args => ~ raw_queue_write args) (breaks := breaks) (machine := machine)).

(** The server's part of a step is at most one of the pool's. *)
Lemma server_steps f f' : step f f' -> orderly f -> rtc pool_step (server f) (server f').
Proof.
  intros Hst [_ Hm].
  assert (Hown : forall c b args acts cmd, boxes f !! c = Some b -> at_phase b = Doing (Main.Request args :: acts) ->
    dispatch args = Some cmd -> ~ raw_queue_write args).
  { intros c b args acts cmd Hb Hph Hd. destruct (Hm c b Hb) as (_ & _ & id & Hreq). unfold todo in Hreq.
    rewrite Hph in Hreq. cbn [Main.requests] in Hreq. apply Forall_cons_1 in Hreq as [Ho _]. by eapply own_dispatch. }
  destruct Hst; cbn [server set_box set_conns]; try apply rtc_refl; apply rtc_once.
  - by apply step_op.
  - by apply step_expiry.
  - by eapply step_done.
  - by apply step_panic.
  - by eapply step_request.
  - eapply step_request; [done|done|]. by apply not_raw.
  - by eapply step_done.
  - eapply step_request; [done|done|]. by eapply Hown.
  - by eapply step_done.
Qed.

Lemma fifo_steps p p' : rtc pool_step p p' -> fifo p -> fifo p'.
Proof. induction 1 as [|? ? ? Hst _ IH]; [done|]. intros Hf. by eapply IH, fifo_step. Qed.

Lemma orderly_step f f' : step f f' -> orderly f -> orderly f'.
Proof.
  intros Hst Ho. pose proof (server_steps f f' Hst Ho) as Hr. destruct Ho as [Hf Hm]. split.
  { by eapply fifo_steps. }
  clear Hr. destruct Hst as [f c o k now Hc|f now|f c r Hc Hb|f c Hc|f c args cmd Hb Hc Hd Hadm Hpol|f c b cmd Hb Hph Hu Hc Hd
    |f c b r e acts n Hb Hph Hu Hc Hsm Hmac Hms Ht|f c b a acts Hb Hph Ha|f c b args acts cmd Hb Hph Hu Hc Hd Hpol
    |f c b r acts Hb Hph Hu Hc Hsm|f c b Hb Hph|f c b Hb Hbr|f c b args acts Hb Hph Hu Hc Hpol Hbr|f c b Hb Hu Hph|f c b args acts Hb Hu Hph|f c b e acts n Hb Hu Hph Ht];
    cbn [server boxes set_box set_conns].
  - set (p' := mkPool _ _ _).
    assert (Hp : forall c', c' <> c -> conns p' !! c' = conns (server f) !! c' /\
                   handed_to c' (history p') = handed_to c' (history (server f))).
    { intros c' Hne. cbn. rewrite lookup_insert_ne by done. split; [done|]. by apply handed_to_other. }
    destruct (boxes f !! c) as [b|] eqn:Eb; [|by eapply tracked_no_box].
    rewrite <- (insert_id (boxes f) c b) by done. eapply tracked_update; [exact Hp|done|].
    apply tracked_op; [done|]. by apply (Hm c b).
  - intros c b Hb. eapply tracked_same; [| |by apply (Hm c b)]; done.
  - intros c' b Hb'. destruct (decide (c = c')) as [<-|Hne].
    + assert (b = broken b) as -> by (specialize (Hb b Hb'); by destruct b; cbn in *; subst).
      eapply tracked_broken; [|by apply (Hm c b)]. done.
    + eapply tracked_same; [| |by apply (Hm c' b)]; cbn; by rewrite ?lookup_delete_ne.
  - intros c' b Hb'. destruct (decide (c = c')) as [<-|Hne].
    + rewrite lookup_alter_eq in Hb'. apply fmap_Some in Hb' as (b0 & Hb0 & ->).
      eapply tracked_broken; [|by apply (Hm c b0)]. done.
    + rewrite lookup_alter_ne in Hb' by done.
      eapply tracked_same; [| |by apply (Hm c' b)]; cbn; by rewrite ?lookup_delete_ne.
  - eapply tracked_no_box; [|exact Hb|exact Hm]. intros c' Hne. cbn. by rewrite lookup_insert_ne.
  - apply (tracked_update (server f)); [by intros; cbn; rewrite lookup_insert_ne|done|].
    eapply tracked_asks; eauto.
  - apply (tracked_update (server f)); [by intros; cbn; rewrite lookup_delete_ne|done|].
    eapply tracked_told; eauto.
  - apply (tracked_update (server f)); [done|done|]. eapply tracked_acts; eauto.
  - apply (tracked_update (server f)); [by intros; cbn; rewrite lookup_insert_ne|done|].
    eapply tracked_sends; eauto.
  - apply (tracked_update (server f)); [by intros; cbn; rewrite lookup_delete_ne|done|].
    eapply tracked_answered; eauto.
  - apply (tracked_update (server f)); [done|done|].
    destruct (Hm c b Hb) as (Hs & Hin & id & Hreq). unfold tracked, in_step, todo in *. rewrite Hph in *.
    split_and!; [done|done|by exists id].
  - apply (tracked_update (server f)); [done|done|]. eapply tracked_broken; [|by apply (Hm c b)]. done.
  - apply (tracked_update (server f)); [done|done|]. eapply tracked_refused; eauto.
  - apply (tracked_update (server f)); [done|done|]. eapply tracked_killed; eauto.
  - apply (tracked_update (server f)); [done|done|]. eapply tracked_unanswered; eauto.
  - apply (tracked_update (server f)); [done|done|]. eapply tracked_untold; eauto.
Qed.

Lemma orderly_reachable f0 f :
  server f0 = init -> map_Forall (fun _ => fresh) (boxes f0) -> rtc step f0 f -> orderly f.
Proof.
  intros Hs Hf Hr. assert (Hi : orderly f0).
  { unfold orderly. rewrite Hs. split; [split; [by left|by split; [apply map_Forall_empty|]]|].
    intros c b Hb. destruct (Hf c b Hb) as (Hph & Hu & Hd). unfold tracked, in_step, todo. rewrite Hph, Hd.
    split_and!; [done| |exists ""; constructor]. intros _. split; [by apply lookup_empty|done]. }
  clear Hs Hf. induction Hr as [|? ? ? Hst _ IH]; [done|]. by eapply IH, orderly_step.
Qed.

(** *** Handed to one runtime only *)

Lemma handed_to_sublist c h : handed_to c h `sublist_of` handed h.
Proof.
  unfold handed_to, handed, handed_on. induction h as [|e h IH]; [done|]. cbn [omap list_omap].
  case_decide; destruct (handed_by e); try done; by constructor.
Qed.

Lemma handed_to_apart h c c' p : NoDup (handed h) -> c <> c' -> p ∈ handed_to c h -> p ∉ handed_to c' h.
Proof.
  intros Hn Hne H1 H2. apply list_elem_of_omap in H1 as (e & He & E). apply list_elem_of_omap in H2 as (e' & He' & E').
  unfold handed_on in *. case_decide; [|done]. case_decide; [|done].
  enough (e = e') by congruence. unfold handed in Hn. induction h as [|x h IH]; [by apply not_elem_of_nil in He|].
  assert (Hin : forall e, e ∈ h -> handed_by e = Some p -> p ∈ omap handed_by h).
  { intros e0 Hin E0. apply list_elem_of_omap. by exists e0. }
  cbn [omap list_omap] in Hn. apply elem_of_cons in He as [->|He]; apply elem_of_cons in He' as [->|He']; try done.
  - rewrite E in Hn. apply NoDup_cons_1_1 in Hn. by destruct Hn; eapply Hin.
  - rewrite E' in Hn. apply NoDup_cons_1_1 in Hn. by destruct Hn; eapply Hin.
  - apply IH; try done. destruct (handed_by x); [by apply NoDup_cons_1_2 in Hn|done].
Qed.

(** C9: No job is run twice, whoever runs it.  Any number of runtimes poll one
    server while other clients submit jobs and connections break at any
    time.  If the jobs submitted are different: a runtime runs at most the
    jobs it was handed, in their order and the allowed ones only; no job is
    handed out twice, to one runtime or to two; and a runtime whose connection
    has lasted has, whenever it asks for the next job, run every one it was
    handed. *)
Theorem fleet_runs_each_job_once f0 f
    (Hs : server f0 = init) (Hf : map_Forall (fun _ => fresh) (boxes f0)) (Hr : rtc step f0 f)
    (Hd : NoDup (submitted (history (server f)))) :
  let h := history (server f) in
  (forall c b, boxes f !! c = Some b ->
     ran (did b) `sublist_of` omap (job_of b) (handed_to c h) /\
     (up b = true -> at_phase b = Idle -> ran (did b) = omap (job_of b) (handed_to c h))) /\
  (forall c, NoDup (handed_to c h) /\ handed_to c h `sublist_of` submitted h) /\
  (forall c c' p, c <> c' -> p ∈ handed_to c h -> p ∉ handed_to c' h).
Proof.
  intros h. destruct (orderly_reachable f0 f Hs Hf Hr) as [(_ & _ & Hfifo) Hm]. fold h in Hfifo, Hd.
  assert (Hsub : handed h `sublist_of` submitted h) by (rewrite Hfifo; by apply sublist_inserts_r).
  assert (Hn : NoDup (handed h)) by (by eapply sublist_NoDup).
  split_and!.
  - intros c b Hb. destruct (Hm c b Hb) as (Hsl & Hin & _). split.
    + etrans; [|exact Hsl]. by apply sublist_inserts_r.
    + intros Hu Hph. specialize (Hin Hu). unfold in_step in Hin. rewrite Hph in Hin. destruct Hin as [_ E].
      unfold todo in E. rewrite Hph, app_nil_r in E. exact E.
  - intros c. split; [eapply sublist_NoDup; [exact Hn|]|etrans; [|exact Hsub]]; apply handed_to_sublist.
  - intros c c' p. by apply handed_to_apart.
Qed.

End Safety.

End Fleet.

(** ** Witness *)

Definition demo_box : box :=
  mkBox (Main.demo_options "standard") Security.new_manager Idle true (Main.mkCounters 0 0) [].
Definition demo_fleet : fleet := mkFleet init {[0%nat := demo_box]}.

(** A client on connection 5 submits a job, and the runtime is handed it. *)
Lemma fleet_runs_each_job_once_witness : exists f,
  handed_to 0%nat (history (server f)) = ["7|build|local|make|"] /\ NoDup (handed_to 0%nat (history (server f))).
Proof.
  assert (exists f, rtc (fstep (H := ascii_text) (admits := fun args => ~ raw_queue_write (H := ascii_text) args)
                           (breaks := fun _ => True) (machine := fun _ => True)) demo_fleet f /\
    handed_to 0%nat (history (server f)) = ["7|build|local|make|"] /\
    submitted (history (server f)) = ["7|build|local|make|"]) as (f & Hr & Hh & Hs).
  { eexists. split.
    - eapply rtc_l; [apply (client_request (H := ascii_text)) with (c := 5%nat) (args := ["job submit"; "7"; "build"; "local"; "make"]);
        [reflexivity|reflexivity|reflexivity|by apply (not_raw (H := ascii_text))|by apply System.polite_request; [cbn; lia|repeat (constructor; [apply System.polite_name; [cbn; lia|reflexivity]|]); constructor]]|].
      eapply rtc_l; [apply (server_op (H := ascii_text)) with (c := 5%nat) (now := 0); reflexivity|].
      eapply rtc_l; [apply (box_asks (H := ascii_text)) with (c := 0%nat) (b := demo_box); reflexivity|].
      eapply rtc_l; [apply (server_op (H := ascii_text)) with (c := 0%nat) (now := 0); reflexivity|]. apply rtc_refl.
    - split; vm_compute; reflexivity. }
  destruct (fleet_runs_each_job_once (H := ascii_text) (breaks := fun _ => True) (machine := fun _ => True) demo_fleet f eq_refl) as (_ & Hone & _).
  - intros c b Hb. cbn in Hb. by apply lookup_singleton_Some in Hb as [_ <-].
  - exact Hr.
  - rewrite Hs. apply (bool_decide_unpack _). vm_compute. exact I.
  - exists f. split; [exact Hh|apply Hone].
Defined.

End Fleet.
