(* ===== verification/FleetJobs.v ===== *)
(** * What a fleet makes of its queue

    The runtimes of [Fleet.v] with connections that last, and a queue of jobs.
    The keys of a job belong to the runtime the job was handed to: what the
    other connections do between two operations of its commands does not
    show in them, and so the interleaved commands leave what they would leave
    one after the other.  From this: every job is waiting, in the hands of one
    runtime, or settled. *)

From stdpp Require Import base strings gmap list numbers relations.
From Stdlib Require Import ZArith Lia.
From S2P Require Import Prelude Text ServerProto RedisClient Security Sandbox Store Handler Pool Types Main System Fleet.
From stdpp Require Import list.

#[local] Open Scope Z_scope.

Module FleetJobs.
Import Handler Pool System Fleet.

(** ** The keys of a job *)

Definition job_keys (id : string) : list string := [status_key id; result_key id; log_key id].

Lemma status_in id : status_key id ∈ job_keys id.
Proof. by left. Qed.
Lemma result_in id : result_key id ∈ job_keys id.
Proof. right. by left. Qed.
Lemma log_in id : log_key id ∈ job_keys id.
Proof. do 2 right. by left. Qed.
#[local] Hint Resolve status_in result_in log_in : core.

Definition view (id : string) (st : Store.store) : list (option Store.Entry) := (fun key => st !! key) <$> job_keys id.

(** Commands that write keys of a kind only. *)
Definition writes_in (K : string -> Prop) : prog -> Prop := every (fun o => forall key, writes o = Some key -> K key).

(** Commands that read nothing but the log of a job. *)
Fixpoint local (id : string) (p : prog) : Prop :=
  match p with
  | Do o k =>
      match o as o return (reply o -> prog) -> Prop with
      | SetStr _ _ | Lpush _ _ => fun _ => True
      | Lrange key _ _ => fun _ => key = log_key id
      | Del key => fun k => key = log_key id \/ k true = k false
      | _ => fun _ => False
      end k /\ forall v, local id (k v)
  | _ => True
  end.

(** What the commands of a runtime that holds a job write. *)
Definition own_key (sb id key : string) : Prop :=
  key ∈ job_keys id \/ key = RESULTS \/ key = sandbox_status_key sb \/ key = sandbox_job_key sb.

Section FleetJobs.
Context `{RustText}.
(** What the machines of the runtimes can do in a turn. *)
Context {machine : Main.surroundings -> Prop}.

#[local] Set Default Proof Using "Type".
#[local] Arguments reverse : simpl never.
#[local] Arguments small : simpl never.

(** Commands that do not panic. *)
Fixpoint sound (p : prog) : Prop :=
  match p with
  | Reply _ => True
  | Panic => False
  | Do o k => forall now st, sound (k (exec now o st).1)
  end.

(** Replies that the client reads. *)
Fixpoint brief (p : prog) : Prop :=
  match p with
  | Reply r => small r
  | Panic => True
  | Do o k => forall v, brief (k v)
  end.

Lemma view_lookup id st st' : view id st = view id st' <-> forall key, key ∈ job_keys id -> st !! key = st' !! key.
Proof.
  unfold view, job_keys. cbn. split.
  - intros [= E1 E2 E3] key. rewrite !elem_of_cons, elem_of_nil. by intros [->|[->|[->|[]]]].
  - intros Hk. by rewrite !Hk by set_solver.
Qed.

(** Two stores that agree on a job's keys, before and after. *)
Lemma exec_local id now now' o k st st' :
  local id (Do o k) -> view id st = view id st' ->
  k (exec now o st).1 = k (exec now' o st').1 /\ view id (exec now o st).2 = view id (exec now' o st').2.
Proof.
  intros [Ho _] Hv. pose proof (proj1 (view_lookup id st st') Hv) as Hk.
  assert (Hlog : st !! log_key id = st' !! log_key id) by auto.
  destruct o; try done; cbn [exec fst snd].
  - split; [done|]. apply view_lookup. intros key' Hin. unfold Store.set_str.
    destruct (decide (key = key')) as [<-|]; [by rewrite !lookup_insert_eq|rewrite !lookup_insert_ne by done; auto].
  - split.
    + unfold Store.del. cbn [fst]. destruct Ho as [->|Ho]; [by rewrite Hlog|].
      by destruct (bool_decide _), (bool_decide (is_Some (st' !! key))).
    + cbn [Store.del snd]. apply view_lookup. intros key' Hin.
      destruct (decide (key = key')) as [<-|]; [by rewrite !lookup_delete_eq|rewrite !lookup_delete_ne by done; auto].
  - split; [done|]. apply view_lookup. intros key' Hin. destruct (decide (key = key')) as [<-|].
    + unfold Store.lpush. rewrite (Hk key Hin). destruct (st' !! key) as [e|] eqn:E.
      * destruct (Store.typ e); rewrite ?lookup_insert_eq; try done; by rewrite (Hk key Hin).
      * by rewrite !lookup_insert_eq.
    + rewrite !Store.lpush_other by done. auto.
  - split; [|done]. cbn in Ho. subst key. unfold Store.lrange. by rewrite (Store.list_at_lookup _ _ _ Hlog).
Qed.

Lemma run_local id now now' p st st' :
  local id p -> view id st = view id st' -> view id (run now p st).2 = view id (run now' p st').2.
Proof.
  revert st st'. induction p as [| |o k IH]; intros st st' Hp Hv; [done|done|].
  destruct (exec_local id now now' o k st st' Hp Hv) as [Ek Ev]. destruct Hp as [_ Hp]. cbn [run].
  destruct (exec now o st) as [v s], (exec now' o st') as [v' s']. cbn [fst snd] in *. rewrite Ek. by apply IH.
Qed.

(** ** A runtime's requests *)

Definition command_of (args : list string) : prog := handler (fun _ => Panic) args.

(** The store after requests, one after the other. *)
Definition after (reqs : list (list string)) (st : Store.store) : Store.store :=
  foldl (fun st args => (run 0 (command_of args) st).2) st reqs.

Lemma after_report sb id logs code ms st :
  in_i64 code -> in_i64 ms -> after (Main.report sb id logs code ms) st = reported sb id logs code ms st.
Proof.
  intros Hc Hm. rewrite <- reported_fold. unfold after, command_of.
  generalize (report_does (fun _ => Panic) sb id logs code ms Hc Hm).
  generalize (Main.report sb id logs code ms). intros reqs Hd. revert st.
  induction Hd as [|args g reqs fs (resp & _ & Hrun) _ IH]; intros st; [done|]. cbn [foldl]. by rewrite Hrun, IH.
Qed.

Lemma local_each id key vals k : local id k -> local id (lpush_each key vals k).
Proof. intros. induction vals; [done|]. by split. Qed.

Lemma sound_each key vals k : sound k -> sound (lpush_each key vals k).
Proof. intros Hk. induction vals as [|v vals IH]; [done|]. intros now st. exact IH. Qed.

Lemma brief_each key vals k : brief k -> brief (lpush_each key vals k).
Proof. intros Hk. induction vals as [|v vals IH]; [done|]. intros []. exact IH. Qed.

Definition well_behaved (sb id : string) (p : prog) : Prop := writes_in (own_key sb id) p /\ local id p /\ sound p /\ brief p.

#[local] Ltac own_tac :=
  cbn;
  repeat match goal with
  | |- _ /\ _ => split
  | |- _ => done
  | |- forall _, _ => intros ?
  | |- _ \/ _ = _ => by right
  | |- small (Server.Int _) => by apply small_int
  | |- small (Server.Str _) => apply small_str; unfold short; repeat case_match; cbn; lia
  | |- small (if ?b then _ else _) => destruct b
  end.

#[local] Ltac own_write := intros ? [= <-]; unfold own_key, job_keys; set_solver.

Lemma own_command sb id args cmd :
  own_request sb id args -> dispatch args = Some cmd -> well_behaved sb id cmd /\ command_of args = cmd.
Proof.
  intros Ho Hd. split; [|by unfold command_of, handler; rewrite Hd].
  unfold well_behaved, writes_in. destruct Ho as [|line|code ms Hc Hm|];
    rewrite dispatch_lower in Hd by (done || by vm_compute); injection Hd as <-.
  - change (command _ _) with (sandbox_claim [sb; id]). split; [every_tac own_write|own_tac].
  - change (command _ _) with (job_log [id; line]). unfold job_log. split_and!.
    + every_tac own_write.
    + split; [done|]. intros [vals|]; [|done]. split; [by left|]. intros _. by apply local_each.
    + intros now st. cbn [exec fst]. destruct (Store.list_at (log_key id) st) as [l|] eqn:E;
        [rewrite (Store.lrange_all _ l) by done|rewrite Store.lrange_none by done]; intros ? ?; by apply sound_each.
    + cbn. intros [vals|]; [|own_tac]. intros ?. apply brief_each. own_tac.
  - change (command _ _) with (job_result [id; to_string code; to_string ms]). unfold job_result.
    rewrite !parse_i64_to_string by done. split; [every_tac own_write|own_tac].
  - change (command _ _) with (sandbox_release [sb]). split; [every_tac own_write|own_tac].
Qed.

Lemma after_local sb id reqs st st' :
  Forall (own_request sb id) reqs -> view id st = view id st' -> view id (after reqs st) = view id (after reqs st').
Proof.
  intros Ho. revert st st'. induction Ho as [|args reqs Ho _ IH]; intros st st' Hv; [done|]. cbn [after foldl].
  apply IH. destruct (own_lower sb id args Ho) as (name & rest & -> & Hl & Hn & _).
  destruct (own_command sb id (name :: rest) _ Ho (dispatch_lower _ _ Hl Hn)) as [(_ & Hloc & _) ->].
  by apply run_local.
Qed.

(** ** Jobs apart *)

Lemma status_not_result id id' : status_key id <> result_key id'.
Proof.
  unfold status_key, result_key. intros E. apply (inj (String.append "devops:job:")) in E. by apply app_suffix_eq in E.
Qed.

Lemma result_key_inj id id' : result_key id = result_key id' -> id = id'.
Proof. unfold result_key. intros E. apply (inj (String.append "devops:job:")) in E. by apply app_suffix_inj in E. Qed.

Lemma log_key_inj id id' : log_key id = log_key id' -> id = id'.
Proof. unfold log_key. intros E. apply (inj (String.append "devops:job:")) in E. by apply app_suffix_inj in E. Qed.

Lemma own_key_apart sb id id' key : own_key sb id key -> key ∈ job_keys id' -> id = id'.
Proof.
  unfold own_key, job_keys. rewrite !elem_of_cons, !elem_of_nil.
  intros [[->|[->|[->|[]]]]|[->|[->| ->]]] [E|[E|[E|[]]]]; try discriminate.
  all: first [by apply status_key_inj|by apply result_key_inj|by apply log_key_inj|exfalso].
  all: first [by apply status_not_result in E|by apply eq_sym, status_not_result in E
             |by apply Types.log_not_status in E|by apply eq_sym, Types.log_not_status in E
             |by apply Types.log_not_result in E|by apply eq_sym, Types.log_not_result in E].
Qed.

Lemma own_key_queue sb id : ~ own_key sb id QUEUE.
Proof. unfold own_key, job_keys. rewrite !elem_of_cons, elem_of_nil. intros [[E|[E|[E|[]]]]|[E|[E|E]]]; discriminate. Qed.

Lemma NoDup_fmap_same {A B} (g : A -> B) l x y : NoDup (g <$> l) -> x ∈ l -> y ∈ l -> g x = g y -> x = y.
Proof.
  induction l as [|a l IH]; intros Hn Hx Hy E; [by apply not_elem_of_nil in Hx|]. cbn in Hn.
  pose proof (NoDup_cons_1_1 _ _ Hn) as Ha. apply NoDup_cons_1_2 in Hn.
  apply elem_of_cons in Hx as [->|Hx]; apply elem_of_cons in Hy as [->|Hy]; try done.
  - destruct Ha. rewrite E. by apply list_elem_of_fmap_2.
  - destruct Ha. rewrite <- E. by apply list_elem_of_fmap_2.
  - by apply IH.
Qed.

(** *** Entries without expiry *)

Definition persistent (st : Store.store) : Prop := map_Forall (fun _ e => Store.exp_at e = None) st.

Lemma persistent_exec now o st :
  match o with Expire _ _ => False | _ => True end -> persistent st -> persistent (exec now o st).2.
Proof.
  intros Ho Hp. assert (Hk : forall key e, st !! key = Some e -> Store.exp_at e = None) by exact Hp.
  destruct (writes o) as [key|] eqn:Ew; [|by rewrite exec_reads].
  destruct o; try done; injection Ew as ->; cbn;
    unfold Store.set_str, Store.lpush, Store.rpop, Store.lpop, Store.z_add, Store.z_rem, Store.lrem, Store.set_bit;
    repeat (case_match; cbn); try done; try (by apply map_Forall_delete); apply map_Forall_insert_2; try done;
    cbn; by eauto.
Qed.

Lemma persistent_retain now st : persistent st -> Store.retain now st = st.
Proof. intros Hp. apply map_filter_id. intros key e Hk. unfold Store.expired. cbn. by rewrite (Hp key e Hk). Qed.

(** ** The invariant *)

Definition fields (j : job) : list string := [jid j; jname j; jtarget j; jcommand j; jargs j].

(** A job whose outcome is in the store. *)
Definition settled_as (logs : list string) (code ms : Z) (id : string) (st : Store.store) : Prop :=
  st !! status_key id = text (verdict code) /\
  st !! result_key id = text ("exit_code=" +:+ to_string code +:+ ",duration_ms=" +:+ to_string ms) /\
  log_lines id st = log_order [] logs.

Lemma settled_as_view logs code ms id st st' :
  view id st = view id st' -> settled_as logs code ms id st -> settled_as logs code ms id st'.
Proof.
  intros Hv (H1 & H2 & H3). pose proof (proj1 (view_lookup id st st') Hv) as Hk.
  unfold settled_as. rewrite <- !Hk by auto. split_and!; [done|done|].
  rewrite <- H3. symmetry. apply log_lines_lookup, Hk. auto.
Qed.

Section Jobs.
(** The runtimes there are, and the jobs. *)
Context (cfg : Main.Options -> Security.SecurityManager -> Prop).

(** Settled by the outcome of a run in one of the runtimes. *)
Definition settled (j : job) (st : Store.store) : Prop :=
  exists o s e logs code ms, cfg o s /\
    Main.job_outcome o s e (jid j) (jtarget j) (jcommand j) = Ret (logs, code, ms) /\
    settled_as logs code ms (jid j) st.

Lemma settled_view j st st' : view (jid j) st = view (jid j) st' -> settled j st -> settled j st'.
Proof.
  intros Hv (o & s & e & logs & code & ms & Hc & Ho & Hs). exists o, s, e, logs, code, ms.
  split_and!; [done|done|]. by eapply settled_as_view.
Qed.

(** What a runtime has to do, with the command of its connection; [Some j]
    while it holds the job [j]. *)
Definition duty (st : Store.store) (cmd : option prog) (b : box) (held : option job) : Prop :=
  let own j := own_request (Main.sandbox_id (opts b)) (jid j) in
  match at_phase b, held with
  | Idle, None => cmd = None
  | Asked, None => cmd = Some job_next \/ cmd = Some (Reply Server.Nil)
  | Asked, Some j =>
      st !! log_key (jid j) = None /\
      (cmd = Some (Do (SetStr (status_key (jid j)) "running") (fun _ => arr_reply (fields j))) \/
       cmd = Some (Reply (Server.Arr (Server.Str <$> fields j))))
  | Doing acts, None => cmd = None /\ Main.requests acts = []
  | Doing acts, Some j =>
      cmd = None /\ Forall (own j) (Main.requests acts) /\ settled j (after (Main.requests acts) st)
  | Sent acts, Some j =>
      exists p, cmd = Some p /\ well_behaved (Main.sandbox_id (opts b)) (jid j) p /\
      Forall (own j) (Main.requests acts) /\ settled j (after (Main.requests acts) (run 0 p st).2)
  | _, _ => False
  end.

Lemma duty_view st st' cmd b j :
  view (jid j) st = view (jid j) st' -> duty st cmd b (Some j) -> duty st' cmd b (Some j).
Proof.
  intros Hv. unfold duty. destruct (at_phase b); try done.
  - intros [Hl Hc]. split; [|done]. rewrite <- Hl. symmetry. apply (view_lookup (jid j)); [done|].
    auto.
  - intros (-> & Ho & Hs). split_and!; [done|done|]. eapply settled_view; [|exact Hs]. by eapply after_local.
  - intros (p & -> & (Hw & Hl & Hp) & Ho & Hs). exists p. split_and!; try done.
    eapply settled_view; [|exact Hs]. eapply after_local; [done|]. by apply run_local.
Qed.

Context (js : list job).
Hypothesis Hgood : Forall good_job js.
Hypothesis Hids : NoDup (jid <$> js).

#[local] Set Default Proof Using "All".

Record inv (D : gmap nat job) (hs ws : list job) (f : fleet) : Prop := {
  inv_js : js = hs ++ ws;
  inv_queue : Store.list_at QUEUE (data (server f)) = Some (reverse (job_payload <$> ws));
  inv_persistent : persistent (data (server f));
  inv_boxes c b : boxes f !! c = Some b ->
    cfg (opts b) (sec b) /\ up b = true /\ duty (data (server f)) (conns (server f) !! c) b (D !! c);
  inv_held c j : D !! c = Some j ->
    j ∈ hs /\ is_Some (boxes f !! c) /\ last (handed_to c (history (server f))) = Some (job_payload j);
  inv_one c c' j : D !! c = Some j -> D !! c' = Some j -> c = c';
  inv_handed j : j ∈ hs -> (exists c, D !! c = Some j) \/ settled j (data (server f));
  inv_waiting j : j ∈ ws -> data (server f) !! log_key (jid j) = None;
  inv_others c p : boxes f !! c = None -> conns (server f) !! c = Some p -> writes_in (fun _ => False) p
}.

Lemma same_job j j' : j ∈ js -> j' ∈ js -> jid j = jid j' -> j = j'.
Proof. intros. by eapply NoDup_fmap_same. Qed.

Lemma hs_ws_apart D hs ws f j : inv D hs ws f -> j ∈ hs -> j ∉ ws.
Proof.
  intros I Hh Hw. pose proof (NoDup_fmap_1 _ _ Hids) as Hn. rewrite (inv_js _ _ _ _ I) in Hn.
  apply NoDup_app in Hn as (_ & Hn & _). by apply (Hn j).
Qed.

Lemma in_hs D hs ws f j : inv D hs ws f -> j ∈ hs -> j ∈ js.
Proof. intros I Hj. rewrite (inv_js _ _ _ _ I). apply elem_of_app. by left. Qed.

Lemma in_ws D hs ws f j : inv D hs ws f -> j ∈ ws -> j ∈ js.
Proof. intros I Hj. rewrite (inv_js _ _ _ _ I). apply elem_of_app. by right. Qed.

(** Writes to the keys of the job a connection holds, if it holds one. *)
Definition own_writes (D : gmap nat job) (c : nat) (sb : string) (st st' : Store.store) : Prop :=
  forall key, st' !! key = st !! key \/ exists j, D !! c = Some j /\ own_key sb (jid j) key.

Lemma own_writes_view D hs ws f c sb st' j :
  inv D hs ws f -> own_writes D c sb (data (server f)) st' -> j ∈ js -> D !! c <> Some j ->
  view (jid j) (data (server f)) = view (jid j) st'.
Proof.
  intros I Hw Hj Hne. apply view_lookup. intros key Hk. destruct (Hw key) as [E|(j' & Hc & Ho)]; [done|].
  destruct Hne. rewrite Hc. f_equal. apply same_job; [|done|by eapply own_key_apart].
  eapply in_hs; [done|]. by apply (inv_held _ _ _ _ I c).
Qed.

(** A step of one runtime and of the command on its connection. *)
Lemma inv_update D hs ws f p' c b b' :
  inv D hs ws f -> boxes f !! c = Some b ->
  (forall c', c' <> c -> conns p' !! c' = conns (server f) !! c' /\
                         handed_to c' (history p') = handed_to c' (history (server f))) ->
  handed_to c (history p') = handed_to c (history (server f)) ->
  own_writes D c (Main.sandbox_id (opts b)) (data (server f)) (data p') -> persistent (data p') ->
  opts b' = opts b -> sec b' = sec b -> up b' = true -> duty (data p') (conns p' !! c) b' (D !! c) ->
  inv D hs ws (mkFleet p' (<[c := b']> (boxes f))).
Proof.
  intros I Hb Hoth Hh Hw Hp Eo Es Hu Hd.
  assert (Hview : forall j, j ∈ js -> D !! c <> Some j -> view (jid j) (data (server f)) = view (jid j) (data p'))
    by (intros; by eapply own_writes_view).
  assert (Hhand : forall c', handed_to c' (history p') = handed_to c' (history (server f))).
  { intros c'. destruct (decide (c' = c)) as [->|Hne]; [done|]. by apply Hoth. }
  split; cbn [server boxes].
  - apply I.
  - rewrite <- (inv_queue _ _ _ _ I). apply Store.list_at_lookup.
    destruct (Hw QUEUE) as [E|(j & _ & Ho)]; [done|]. by apply own_key_queue in Ho.
  - done.
  - intros c' b0 Hb0. destruct (decide (c = c')) as [<-|Hne].
    + rewrite lookup_insert_eq in Hb0. injection Hb0 as <-. rewrite Eo, Es. split_and!; [|done|done].
      by apply (inv_boxes _ _ _ _ I c).
    + rewrite lookup_insert_ne in Hb0 by done. destruct (inv_boxes _ _ _ _ I c' b0 Hb0) as (Hc & Hup & Hd0).
      split_and!; [done|done|]. rewrite (proj1 (Hoth c' (not_eq_sym Hne))).
      destruct (D !! c') as [j|] eqn:Ej; [|exact Hd0]. eapply duty_view; [|exact Hd0]. apply Hview.
      * eapply in_hs; [done|]. by apply (inv_held _ _ _ _ I c').
      * intros Ec. destruct Hne. by eapply (inv_one _ _ _ _ I).
  - intros c' j Hj. destruct (inv_held _ _ _ _ I c' j Hj) as (H1 & H2 & H3). rewrite Hhand. split_and!; [done| |done].
    destruct (decide (c = c')) as [<-|Hne]; [rewrite lookup_insert_eq; by eexists|by rewrite lookup_insert_ne].
  - apply I.
  - intros j Hj. destruct (inv_handed _ _ _ _ I j Hj) as [Hl|Hs]; [by left|].
    destruct (D !! c) as [jc|] eqn:Ec; [destruct (decide (jid jc = jid j)) as [E|Hne]|].
    + left. exists c. rewrite Ec. f_equal. apply same_job; [| |done]; (eapply in_hs; [done|]); [|done].
      by apply (inv_held _ _ _ _ I c).
    + right. eapply settled_view; [|exact Hs]. apply Hview; [by eapply in_hs|]. congruence.
    + right. eapply settled_view; [|exact Hs]. apply Hview; [by eapply in_hs|]. congruence.
  - intros j Hj. rewrite <- (inv_waiting _ _ _ _ I j Hj). symmetry.
    apply (view_lookup (jid j)); [|auto]. apply Hview; [by eapply in_ws|].
    intros Ec. destruct (inv_held _ _ _ _ I c j Ec) as [Hh' _]. by eapply hs_ws_apart.
  - intros c' p0 Hn Hp0. destruct (decide (c = c')) as [<-|Hne]; [by rewrite lookup_insert_eq in Hn|].
    rewrite lookup_insert_ne in Hn by done. rewrite (proj1 (Hoth c' (not_eq_sym Hne))) in Hp0.
    by apply (inv_others _ _ _ _ I c').
Qed.

(** A step of a connection that is no runtime's and changes nothing. *)
Lemma inv_no_box D hs ws f p' c :
  inv D hs ws f -> boxes f !! c = None ->
  (forall c', c' <> c -> conns p' !! c' = conns (server f) !! c' /\
                         handed_to c' (history p') = handed_to c' (history (server f))) ->
  data p' = data (server f) -> (forall p, conns p' !! c = Some p -> writes_in (fun _ => False) p) ->
  inv D hs ws (mkFleet p' (boxes f)).
Proof.
  intros I Hn Hoth Ed Hr.
  assert (Hc : forall c' b, boxes f !! c' = Some b -> c' <> c) by (intros c' b Hb ->; by rewrite Hn in Hb).
  split; cbn [server boxes]; rewrite ?Ed; try apply I.
  - intros c' b Hb. rewrite (proj1 (Hoth c' (Hc c' b Hb))). by apply I.
  - intros c' j Hj. destruct (inv_held _ _ _ _ I c' j Hj) as (H1 & [b Hb] & H3).
    rewrite (proj2 (Hoth c' (Hc c' b Hb))). split_and!; [done|by eexists|done].
  - intros c' p Hb Hp. destruct (decide (c' = c)) as [->|Hne]; [by apply Hr|].
    rewrite (proj1 (Hoth c' Hne)) in Hp. by apply (inv_others _ _ _ _ I c').
Qed.

(** A runtime takes the next job. *)
Lemma inv_pop D hs ws j f p' st' c b :
  inv D hs (j :: ws) f -> boxes f !! c = Some b -> at_phase b = Asked -> D !! c = None ->
  Store.rpop QUEUE (data (server f)) = (Some (job_payload j), st') ->
  Store.list_at QUEUE st' = Some (reverse (job_payload <$> ws)) -> data p' = st' ->
  (forall c', c' <> c -> conns p' !! c' = conns (server f) !! c' /\
                         handed_to c' (history p') = handed_to c' (history (server f))) ->
  conns p' !! c = Some (Do (SetStr (status_key (jid j)) "running") (fun _ => arr_reply (fields j))) ->
  handed_to c (history p') = handed_to c (history (server f)) ++ [job_payload j] ->
  inv (<[c := j]> D) (hs ++ [j]) ws (mkFleet p' (boxes f)).
Proof.
  intros I Hb Hph HD Epop Hq Ed Hoth Hc Hh.
  assert (Hst : forall key, key <> QUEUE -> st' !! key = data (server f) !! key).
  { intros key Hk. pose proof (Store.rpop_other QUEUE key (data (server f)) (not_eq_sym Hk)) as E. by rewrite Epop in E. }
  assert (Hview : forall id, view id (data (server f)) = view id st').
  { intros id. apply view_lookup. intros key Hk. symmetry. apply Hst. intros ->.
    apply (own_key_queue "" id). by left. }
  assert (Hws : forall j', j' ∈ hs -> j' <> j).
  { intros j' Hj' ->. eapply hs_ws_apart; [done..|]. by left. }
  split; cbn [server boxes]; rewrite ?Ed.
  - rewrite (inv_js _ _ _ _ I), <- app_assoc. done.
  - done.
  - pose proof (persistent_exec 0 (Rpop QUEUE) (data (server f)) Logic.I (inv_persistent _ _ _ _ I)) as Hp.
    cbn [exec] in Hp. by rewrite Epop in Hp.
  - intros c' b' Hb'. destruct (inv_boxes _ _ _ _ I c' b' Hb') as (H1 & H2 & H3). split_and!; [done|done|].
    destruct (decide (c = c')) as [<-|Hne].
    + rewrite Hb in Hb'. injection Hb' as <-. rewrite lookup_insert_eq, Hc. unfold duty. rewrite Hph. split; [|by left].
      rewrite Hst by key_ne. apply (inv_waiting _ _ _ _ I). by left.
    + rewrite lookup_insert_ne, (proj1 (Hoth c' (not_eq_sym Hne))) by done.
      destruct (D !! c') as [j'|]; [|done]. eapply duty_view; [apply Hview|exact H3].
  - intros c' j' Hj'. destruct (decide (c = c')) as [<-|Hne].
    + rewrite lookup_insert_eq in Hj'. injection Hj' as <-. rewrite Hh, last_snoc.
      split_and!; [|by eexists|done]. apply elem_of_app. right. by left.
    + rewrite lookup_insert_ne in Hj' by done. destruct (inv_held _ _ _ _ I c' j' Hj') as (H1 & H2 & H3).
      rewrite (proj2 (Hoth c' (not_eq_sym Hne))). split_and!; [|done|done]. apply elem_of_app. by left.
  - intros c1 c2 j' H1 H2. destruct (decide (c = c1)) as [<-|N1], (decide (c = c2)) as [<-|N2]; [done| | |].
    + rewrite lookup_insert_eq in H1. injection H1 as <-. rewrite lookup_insert_ne in H2 by done.
      by destruct (Hws j (proj1 (inv_held _ _ _ _ I c2 j H2))).
    + rewrite lookup_insert_eq in H2. injection H2 as <-. rewrite lookup_insert_ne in H1 by done.
      by destruct (Hws j (proj1 (inv_held _ _ _ _ I c1 j H1))).
    + rewrite lookup_insert_ne in H1, H2 by done. by eapply (inv_one _ _ _ _ I).
  - intros j' Hj'. apply elem_of_app in Hj' as [Hj'|Hj'%list_elem_of_singleton].
    + destruct (inv_handed _ _ _ _ I j' Hj') as [[c' Hc']|Hs].
      * left. exists c'. rewrite lookup_insert_ne; [done|]. intros ->. by rewrite HD in Hc'.
      * right. eapply settled_view; [apply Hview|exact Hs].
    + subst j'. left. exists c. by rewrite lookup_insert_eq.
  - intros j' Hj'. rewrite Hst by key_ne. apply (inv_waiting _ _ _ _ I). by right.
  - intros c' p Hn Hp. destruct (decide (c' = c)) as [->|Hne]; [by rewrite Hb in Hn|].
    rewrite (proj1 (Hoth c' Hne)) in Hp. by apply (inv_others _ _ _ _ I c').
Qed.

(** A runtime has done everything for its job. *)
Lemma inv_release D hs ws f c b j :
  inv D hs ws f -> boxes f !! c = Some b -> at_phase b = Doing [] -> D !! c = Some j ->
  inv (delete c D) hs ws (set_box c (with_phase Idle b) f).
Proof.
  intros I Hb Hph HD. destruct (inv_boxes _ _ _ _ I c b Hb) as (Hcfg & Hu & Hd).
  unfold duty in Hd. rewrite Hph, HD in Hd. destruct Hd as (Hcmd & _ & Hs).
  split; cbn [server boxes set_box]; try apply I.
  - intros c' b' Hb'. destruct (decide (c = c')) as [<-|Hne].
    + rewrite lookup_insert_eq in Hb'. injection Hb' as <-. rewrite lookup_delete_eq.
      split_and!; [exact Hcfg|exact Hu|exact Hcmd].
    + rewrite lookup_insert_ne in Hb' by done. rewrite lookup_delete_ne by done. by apply I.
  - intros c' j' [Hne Hj']%lookup_delete_Some. rewrite lookup_insert_ne by done. by apply (inv_held _ _ _ _ I c').
  - intros c1 c2 j' [_ H1]%lookup_delete_Some [_ H2]%lookup_delete_Some. by eapply (inv_one _ _ _ _ I).
  - intros j' Hj'. destruct (inv_handed _ _ _ _ I j' Hj') as [[c' Hc']|Hs']; [|by right].
    destruct (decide (c = c')) as [<-|Hne].
    + rewrite HD in Hc'. injection Hc' as <-. by right.
    + left. exists c'. by rewrite lookup_delete_ne.
  - intros c' p Hn Hp. destruct (decide (c = c')) as [<-|Hne]; [by rewrite lookup_insert_eq in Hn|].
    rewrite lookup_insert_ne in Hn by done. by apply (inv_others _ _ _ _ I c').
Qed.

(** ** Operations *)

(** An operation of a command: what is left of it, the store, the event. *)
Definition stepped (now : Z) (c : nat) (p : prog) (st : Store.store) : option (prog * Store.store * event) :=
  match p with
  | Do o k => Some (k (exec now o st).1, (exec now o st).2, mkEvent c o (exec now o st).1)
  | _ => None
  end.

Definition operated (c : nat) (p : prog) (st : Store.store) (e : event) (f : fleet) : fleet :=
  mkFleet (mkPool st (<[c := p]> (conns (server f))) (history (server f) ++ [e])) (boxes f).

Lemma operated_others c p st e f c' : who e = c -> c' <> c ->
  conns (server (operated c p st e f)) !! c' = conns (server f) !! c' /\
  handed_to c' (history (server (operated c p st e f))) = handed_to c' (history (server f)).
Proof. intros Hw Hne. cbn. rewrite lookup_insert_ne by done. split; [done|]. apply handed_to_other. congruence. Qed.

Lemma operated_quiet c p st e f : handed_by e = None ->
  handed_to c (history (server (operated c p st e f))) = handed_to c (history (server f)).
Proof. intros He. cbn [operated server history]. rewrite handed_to_snoc. unfold handed_on. case_decide; rewrite ?He; by rewrite app_nil_r. Qed.

Lemma rpop_empty key st : Store.list_at key st = Some [] -> Store.rpop key st = (None, st).
Proof.
  unfold Store.list_at, Store.rpop. destruct (st !! key) as [e|]; [|done]. destruct (Store.typ e); try done. by intros [= ->].
Qed.

Lemma splitn_fields j : j ∈ js -> splitn 4 BAR (job_payload j) = fields j.
Proof.
  intros Hj. destruct (proj1 (Forall_forall _ _) Hgood j Hj) as [Hb _].
  decompose_Forall. by apply splitn_payload.
Qed.

(** The same runtime, with the command of its connection one operation on. *)
Lemma inv_operated D hs ws f c b p st e :
  inv D hs ws f -> boxes f !! c = Some b -> who e = c -> handed_by e = None ->
  own_writes D c (Main.sandbox_id (opts b)) (data (server f)) st -> persistent st ->
  duty st (Some p) b (D !! c) -> inv D hs ws (operated c p st e f).
Proof.
  intros I Hb Hw He Hown Hp Hd. destruct (inv_boxes _ _ _ _ I c b Hb) as (_ & Hu & _).
  pose proof (inv_update D hs ws f (server (operated c p st e f)) c b b I Hb) as U.
  rewrite insert_id in U by done. apply U; try done.
  - intros c'. by apply operated_others.
  - by apply operated_quiet.
  - cbn. by rewrite lookup_insert_eq.
Qed.

(** The operation of a request for a job. *)
Lemma inv_op_next D hs ws f c b now p st e :
  inv D hs ws f -> boxes f !! c = Some b -> at_phase b = Asked -> D !! c = None ->
  stepped now c job_next (data (server f)) = Some (p, st, e) ->
  exists D' hs' ws', inv D' hs' ws' (operated c p st e f) /\ ws' `suffix_of` ws.
Proof.
  intros I Hb Hph HD Est. unfold job_next in Est. cbn [stepped exec] in Est. destruct ws as [|j ws].
  - rewrite (rpop_empty QUEUE) in Est by apply (inv_queue _ _ _ _ I). cbn [fst snd] in Est.
    assert (p = Reply Server.Nil /\ st = data (server f) /\ e = mkEvent c (Rpop QUEUE) None) as (-> & -> & ->)
      by (injection Est; auto).
    exists D, hs, []. split; [|done]. eapply inv_operated; try done.
    + intros key. by left.
    + apply I.
    + rewrite HD. unfold duty. rewrite Hph. by right.
  - pose proof (inv_queue _ _ _ _ I) as Hq. rewrite fmap_cons, reverse_cons in Hq.
    destruct (Store.rpop_snoc _ _ _ _ Hq) as (st' & Epop & Hq'). rewrite Epop in Est. cbn [fst snd] in Est.
    assert (Hj : j ∈ js) by (eapply in_ws; [done|by left]).
    rewrite (splitn_fields j Hj) in Est. cbn [fields] in Est.
    assert (p = Do (SetStr (status_key (jid j)) "running") (fun _ => arr_reply (fields j)) /\ st = st' /\
      e = mkEvent c (Rpop QUEUE) (Some (job_payload j))) as (-> & -> & ->) by (injection Est; auto).
    exists (<[c := j]> D), (hs ++ [j]), ws. split; [|by apply suffix_cons_r]. eapply inv_pop; try done.
    + intros c'. by apply operated_others.
    + cbn. by rewrite lookup_insert_eq.
    + cbn [operated server history]. rewrite handed_to_snoc. f_equal. unfold handed_on. cbn [who handed_by].
      by rewrite !decide_True.
Qed.

Lemma inv_op_mark D hs ws f c b j now p st e :
  inv D hs ws f -> boxes f !! c = Some b -> at_phase b = Asked -> D !! c = Some j ->
  data (server f) !! log_key (jid j) = None ->
  stepped now c (Do (SetStr (status_key (jid j)) "running") (fun _ => arr_reply (fields j))) (data (server f)) =
    Some (p, st, e) ->
  inv D hs ws (operated c p st e f).
Proof.
  intros I Hb Hph HD Hlog Est. cbn [stepped exec fst snd] in Est.
  assert (p = arr_reply (fields j) /\ st = Store.set_str (status_key (jid j)) "running" (data (server f)) /\
          e = mkEvent c (SetStr (status_key (jid j)) "running") tt) as (-> & -> & ->) by (injection Est; auto).
  eapply inv_operated; try done.
  - intros key. destruct (decide (key = status_key (jid j))) as [->|Hne].
    + right. exists j. split; [done|]. left. auto.
    + left. by apply Store.set_str_other.
  - apply (persistent_exec now (SetStr (status_key (jid j)) "running")); [done|apply I].
  - rewrite HD. unfold duty. rewrite Hph. split; [|by right]. rewrite Store.set_str_other by key_ne. done.
Qed.

(** The operation of a request for the job it holds. *)
Lemma inv_op_sent D hs ws f c b j acts o k now :
  inv D hs ws f -> boxes f !! c = Some b -> at_phase b = Sent acts -> D !! c = Some j ->
  duty (data (server f)) (Some (Do o k)) b (Some j) ->
  let v := (exec now o (data (server f))).1 in
  inv D hs ws (operated c (k v) (exec now o (data (server f))).2 (mkEvent c o v) f).
Proof.
  intros I Hb Hph HD Hd v. unfold duty in Hd. rewrite Hph in Hd.
  destruct Hd as (p0 & E & (Hw & Hl & Hs) & Hreq & Hset). injection E as <-. destruct Hw as [Hwo Hw].
  eapply inv_operated; try done.
  - destruct o; try done. cbn [handed_by]. case_decide as Ek; [|done].
    by destruct (own_key_queue (Main.sandbox_id (opts b)) (jid j)); apply Hwo; rewrite Ek.
  - intros key. destruct (decide (writes o = Some key)) as [Ew|Ew]; [right; exists j; by auto|].
    left. by apply exec_other.
  - apply persistent_exec; [by destruct o, Hl|apply I].
  - rewrite HD. unfold duty. rewrite Hph. eexists. split; [done|].
    split; [split_and!; [apply Hw|apply Hl|apply Hs|apply Hs]|]. split; [done|].
    eapply settled_view; [|exact Hset]. eapply after_local; [done|]. cbn [run].
    destruct (exec_local (jid j) 0 now o k (data (server f)) (data (server f)) Hl eq_refl) as [Ek Ev].
    destruct (exec 0 o (data (server f))) as [v0 s0]. cbn [fst snd] in *. rewrite Ek.
    apply run_local; [apply Hl|done].
Qed.

Lemma inv_op D hs ws f c o k now :
  inv D hs ws f -> conns (server f) !! c = Some (Do o k) ->
  let v := (exec now o (data (server f))).1 in
  exists D' hs' ws', inv D' hs' ws' (operated c (k v) (exec now o (data (server f))).2 (mkEvent c o v) f) /\
    ws' `suffix_of` ws.
Proof.
  intros I Hc v.
  assert (Est : stepped now c (Do o k) (data (server f)) =
                Some (k v, (exec now o (data (server f))).2, mkEvent c o v)) by done.
  destruct (boxes f !! c) as [b|] eqn:Hb.
  - destruct (inv_boxes _ _ _ _ I c b Hb) as (_ & _ & Hd). rewrite Hc in Hd. pose proof Hd as Hduty. unfold duty in Hd.
    destruct (at_phase b) eqn:Hph, (D !! c) as [j|] eqn:HD; try done; try (by destruct Hd as [Hd _]).
    + destruct Hd as (Hlog & [E|E]); [|done]. apply (inj Some) in E. rewrite E in Est.
      exists D, hs, ws. split; [|done]. by eapply inv_op_mark.
    + destruct Hd as [E|E]; [|done]. apply (inj Some) in E. rewrite E in Est. by eapply inv_op_next.
    + exists D, hs, ws. split; [|done]. by eapply inv_op_sent.
  - assert (Hr : writes_in (fun _ => False) (Do o k)) by (by eapply inv_others). destruct Hr as [Hwo Hr].
    exists D, hs, ws. split; [|done]. eapply inv_no_box; [done|done| | |].
    + intros c'. by apply operated_others.
    + cbn. apply exec_reads. destruct (writes o) as [key|]; [by destruct (Hwo key)|done].
    + intros p Hp. cbn in Hp. rewrite lookup_insert_eq in Hp. injection Hp as <-. apply Hr.
Qed.

(** ** Steps *)

(** Requests that only look. *)
Definition observer (args : list string) : Prop :=
  match args with
  | name :: _ => to_lowercase name ∈ ["keys"; "get"; "lrange"; "lindex"; "llen"; "job status"; "job list";
                                      "metric query"; "metric summary"; "sandbox status"; "pttl"; "zscore"; "zquery";
                                      "getbit"; "bitcount"; "bfget"; "ts.range"; "ts.info"; "ts.list"]
  | [] => False
  end.

Abbreviation step := (fstep (admits := observer) (breaks := fun _ => False) (machine := machine)).

(** A step of one runtime that leaves the store alone. *)
Lemma inv_box D hs ws f c b b' m :
  inv D hs ws f -> boxes f !! c = Some b -> (forall c', c' <> c -> m !! c' = conns (server f) !! c') ->
  opts b' = opts b -> sec b' = sec b -> up b' = true -> duty (data (server f)) (m !! c) b' (D !! c) ->
  inv D hs ws (set_conns m (set_box c b' f)).
Proof.
  intros I Hb Hm Eo Es Hu Hd.
  apply (inv_update D hs ws f (mkPool (data (server f)) m (history (server f))) c b b'); try done.
  - intros c' Hne. split; [by apply Hm|done].
  - intros key. by left.
  - apply I.
Qed.

(** The turn after the reply. *)
Lemma inv_told D hs ws f c b r e acts n :
  inv D hs ws f -> boxes f !! c = Some b -> at_phase b = Asked -> conns (server f) !! c = Some (Reply r) ->
  in_i64 (Main.ended_ms e - Main.started_ms e) ->
  Main.job_turn (opts b) (sec b) e (Some (Redis.of_server r)) (count b) = Ret (acts, n) ->
  inv D hs ws (set_conns (delete c (conns (server f))) (set_box c (with_phase (Doing acts) (with_count n b)) f)).
Proof.
  intros I Hb Hph Hc Hms Ht. destruct (inv_boxes _ _ _ _ I c b Hb) as (Hcfg & Hu & Hd).
  eapply inv_box; try done; [by intros; rewrite lookup_delete_ne|]. rewrite lookup_delete_eq.
  unfold duty in *. rewrite Hph, Hc in Hd. cbn [at_phase with_phase opts with_count]. destruct (D !! c) as [j|].
  - destruct Hd as (Hlog & [E|E]); [done|]. injection E as ->.
    erewrite Main.job_turn_job in Ht by reflexivity. cbn [Redis.as_str Redis.str Redis.of_server] in Ht.
    destruct (run_job_own _ _ _ _ _ _ _ _ _ _ Hms Ht) as (logs & code & ms & Eo & Hcode & Hm & ->).
    split; [done|]. split; [by apply report_own|]. rewrite after_report by done.
    destruct (reported_at (Main.sandbox_id (opts b)) (jid j) logs code ms (data (server f))) as (_ & H2 & H3 & H4 & _).
    exists (opts b), (sec b), e, logs, code, ms. split_and!; [done|done|]. split_and!; [done|done|].
    rewrite H4. unfold log_lines, Store.list_at. by rewrite Hlog.
  - destruct Hd as [E|E]; [done|]. injection E as ->. by injection Ht as <- <-.
Qed.

Lemma observer_reads args cmd : observer args -> dispatch args = Some cmd -> writes_in (fun _ => False) cmd.
Proof.
  unfold dispatch, observer. destruct args as [|name args]; [done|]. intros Ho.
  case_decide as Hn; [done|]. intros [= <-]. clear Hn. unfold writes_in.
  each_command; rewrite Ecmd in Ho; first [apply (bool_decide_eq_true_2 _) in Ho; vm_compute in Ho; discriminate Ho|clear Ho];
  unfold_commands; every_tac done.
Qed.

Lemma alter_missing {A} (g : A -> A) (m : gmap nat A) c : m !! c = None -> alter g c m = m.
Proof.
  intros E. apply map_eq. intros i. destruct (decide (c = i)) as [<-|]; [by rewrite lookup_alter_eq, E|by rewrite lookup_alter_ne].
Qed.

(** No command that a runtime has sent panics. *)
Lemma duty_sound st b held : ~ duty st (Some Panic) b held.
Proof.
  unfold duty. intros Hd. destruct (at_phase b), held; try done.
  - destruct Hd as (_ & [E|E]); done.
  - destruct Hd as [E|E]; done.
  - by destruct Hd.
  - by destruct Hd.
  - destruct Hd as (p & E & (_ & _ & Hs & _) & _). by injection E as <-.
Qed.

(** Without a runtime, the end of a command changes nothing. *)
Lemma inv_dropped D hs ws f c :
  inv D hs ws f -> boxes f !! c = None -> inv D hs ws (set_conns (delete c (conns (server f))) f).
Proof.
  intros I Hn. eapply (inv_no_box D hs ws f _ c); try done; cbn.
  - intros c' Hne. by rewrite lookup_delete_ne.
  - intros p. by rewrite lookup_delete_eq.
Qed.

(** A step that leaves the server alone. *)
Lemma set_box_conns c b f : set_box c b f = set_conns (conns (server f)) (set_box c b f).
Proof. by destruct f as [[? ? ?] ?]. Qed.

Lemma inv_acts D hs ws f c b a acts :
  inv D hs ws f -> boxes f !! c = Some b -> at_phase b = Doing (a :: acts) -> Main.requests [a] = [] ->
  inv D hs ws (set_box c (with_phase (Doing acts) (with_did a b)) f).
Proof.
  intros I Hb Hph Ha. destruct (inv_boxes _ _ _ _ I c b Hb) as (Hcfg & Hup & Hdt).
  assert (Er : Main.requests (a :: acts) = Main.requests acts) by (by rewrite Main.requests_cons, Ha).
  rewrite set_box_conns. eapply inv_box; try done. unfold duty in *. rewrite Hph, Er in Hdt. exact Hdt.
Qed.

Lemma inv_ends D hs ws f c b :
  inv D hs ws f -> boxes f !! c = Some b -> at_phase b = Doing [] ->
  exists D' hs' ws', inv D' hs' ws' (set_box c (with_phase Idle b) f) /\ ws' `suffix_of` ws.
Proof.
  intros I Hb Hph. destruct (D !! c) as [j|] eqn:HD.
  - exists (delete c D), hs, ws. split; [|done]. by eapply inv_release.
  - exists D, hs, ws. split; [|done]. destruct (inv_boxes _ _ _ _ I c b Hb) as (Hcfg & Hup & Hdt).
    rewrite set_box_conns. eapply inv_box; try done. unfold duty in *. rewrite Hph, HD in Hdt. rewrite HD. by destruct Hdt.
Qed.

Lemma inv_sends D hs ws f c b args acts cmd :
  inv D hs ws f -> boxes f !! c = Some b -> at_phase b = Doing (Main.Request args :: acts) -> dispatch args = Some cmd ->
  inv D hs ws (set_conns (<[c := cmd]> (conns (server f))) (set_box c (with_phase (Sent acts) (with_did (Main.Request args) b)) f)).
Proof.
  intros I Hb Hph Hd. destruct (inv_boxes _ _ _ _ I c b Hb) as (Hcfg & Hup & Hdt).
  eapply inv_box; try done; [by intros; rewrite lookup_insert_ne|]. rewrite lookup_insert_eq.
  unfold duty in *. rewrite Hph in Hdt. cbn [at_phase with_phase with_did opts Main.requests] in *.
  destruct (D !! c) as [j|]; [|by destruct Hdt]. destruct Hdt as (_ & Hown & Hs).
  apply Forall_cons_1 in Hown as [Ho Hown]. destruct (own_command _ _ _ _ Ho Hd) as [Hw Ecmd].
  exists cmd. split_and!; [done|done|done|]. cbn [after foldl] in Hs. by rewrite Ecmd in Hs.
Qed.

Lemma inv_answered D hs ws f c b r acts :
  inv D hs ws f -> boxes f !! c = Some b -> at_phase b = Sent acts -> conns (server f) !! c = Some (Reply r) ->
  inv D hs ws (set_conns (delete c (conns (server f))) (set_box c (with_phase (Doing acts) b) f)).
Proof.
  intros I Hb Hph Hc. destruct (inv_boxes _ _ _ _ I c b Hb) as (Hcfg & Hup & Hdt).
  eapply inv_box; try done; [by intros; rewrite lookup_delete_ne|]. rewrite lookup_delete_eq.
  unfold duty in *. rewrite Hph, Hc in Hdt. cbn [at_phase with_phase opts].
  destruct (D !! c) as [j|]; [|done]. destruct Hdt as (p & E & _ & Hown & Hs). injection E as <-. done.
Qed.

Lemma inv_step D hs ws f f' : step f f' -> inv D hs ws f -> exists D' hs' ws', inv D' hs' ws' f' /\ ws' `suffix_of` ws.
Proof.
  intros Hst I.
  assert (Hup : forall c b, boxes f !! c = Some b -> up b <> false)
    by (intros c b Hb; destruct (inv_boxes _ _ _ _ I c b Hb) as (_ & ? & _); congruence).
  destruct Hst as [f c o k now Hc|f now|f c r Hc Hb|f c Hc|f c args cmd Hb Hc Hd Hadm Hpol|f c b cmd Hb Hph Hu Hc Hd
    |f c b r e acts n Hb Hph Hu Hc Hsm Hmac Hms Ht|f c b a acts Hb Hph Ha|f c b args acts cmd Hb Hph Hu Hc Hd Hpol
    |f c b r acts Hb Hph Hu Hc Hsm|f c b Hb Hph|f c b Hb []|f c b args acts Hb Hph Hu Hc Hpol []|f c b Hb Hu Hph|f c b args acts Hb Hu Hph|f c b e acts n Hb Hu Hph Ht];
    try (by apply Hup in Hb); try (by eapply inv_op); try (by eapply inv_ends); exists D, hs, ws; (split; [|done]).
  - destruct f as [[st m h] bs]. cbn [data server conns history boxes].
    rewrite persistent_retain; [done|]. apply (inv_persistent _ _ _ _ I).
  - apply inv_dropped; [done|]. destruct (boxes f !! c) as [b|] eqn:Eb; [|done]. by destruct (Hup c b Eb), (Hb b eq_refl).
  - destruct (boxes f !! c) as [b|] eqn:Eb.
    + exfalso. destruct (inv_boxes _ _ _ _ I c b Eb) as (_ & _ & Hd). rewrite Hc in Hd. by apply duty_sound in Hd.
    + rewrite alter_missing by done. by apply inv_dropped.
  - eapply (inv_no_box D hs ws f _ c); try done; cbn.
    + intros c' Hne. by rewrite lookup_insert_ne.
    + intros p. rewrite lookup_insert_eq. intros [= <-]. by eapply observer_reads.
  - destruct (inv_boxes _ _ _ _ I c b Hb) as (Hcfg & _ & Hdt).
    rewrite dispatch_lower in Hd by (done || by vm_compute). injection Hd as <-.
    eapply inv_box; try done; [by intros; rewrite lookup_insert_ne|]. rewrite lookup_insert_eq.
    unfold duty in *. rewrite Hph in Hdt. cbn. destruct (D !! c); [done|]. by left.
  - by eapply inv_told.
  - by apply inv_acts.
  - by eapply inv_sends.
  - by eapply inv_answered.
Qed.

Lemma inv_steps D hs ws f f' :
  rtc step f f' -> inv D hs ws f -> exists D' hs' ws', inv D' hs' ws' f' /\ ws' `suffix_of` ws.
Proof.
  intros Hr. revert D hs ws. induction Hr as [f|f1 f2 f3 Hst _ IH]; intros D hs ws I; [by exists D, hs, ws|].
  destruct (inv_step _ _ _ _ _ Hst I) as (D1 & hs1 & ws1 & I1 & H1).
  destruct (IH _ _ _ I1) as (D2 & hs2 & ws2 & I2 & H2). exists D2, hs2, ws2. split; [done|]. by etrans.
Qed.

(** ** Every runtime can finish *)

(** The machine of every runtime brings every job to an end, and the lines of
    a job's output are valid UTF-8. *)
Hypothesis Hrun : forall o s j, cfg o s -> exists e, machine e /\ in_i64 (Main.ended_ms e - Main.started_ms e) /\
  (j ∈ js -> exists logs code ms, Main.job_outcome o s e (jid j) (jtarget j) (jcommand j) = Ret (logs, code, ms)).
Hypothesis Hlines : forall o s e j logs code ms, cfg o s -> machine e -> j ∈ js ->
  Main.job_outcome o s e (jid j) (jtarget j) (jcommand j) = Ret (logs, code, ms) -> Forall utf8 logs.
Hypothesis Hname : forall o s, cfg o s -> polite_id (Main.sandbox_id o).

(** The server reads every request that is left to do. *)
Definition courteous (f : fleet) : Prop := forall c b acts,
  boxes f !! c = Some b -> at_phase b = Doing acts \/ at_phase b = Sent acts -> Forall polite (Main.requests acts).

Lemma told_courteous D hs ws f c b r e acts n :
  inv D hs ws f -> boxes f !! c = Some b -> at_phase b = Asked -> conns (server f) !! c = Some (Reply r) ->
  machine e -> in_i64 (Main.ended_ms e - Main.started_ms e) ->
  Main.job_turn (opts b) (sec b) e (Some (Redis.of_server r)) (count b) = Ret (acts, n) ->
  Forall polite (Main.requests acts).
Proof.
  intros I Hb Hph Hc Hmac Hms Ht. destruct (inv_boxes _ _ _ _ I c b Hb) as (Hcfg & _ & Hd).
  unfold duty in Hd. rewrite Hph, Hc in Hd. destruct (D !! c) as [j|] eqn:HD.
  - destruct Hd as (_ & [E|E]); [done|]. injection E as ->.
    erewrite Main.job_turn_job in Ht by reflexivity. cbn [Redis.as_str Redis.str Redis.of_server] in Ht.
    destruct (run_job_own _ _ _ _ _ _ _ _ _ _ Hms Ht) as (logs & code & ms & Eo & Hcode & Hm & ->).
    assert (Hj : j ∈ js) by (eapply in_hs; [done|]; by apply (inv_held _ _ _ _ I c)).
    destruct (proj1 (Forall_forall _ _) Hgood j Hj) as (_ & Hshort & Hid).
    apply report_polite; try done; [by eapply Hname|split; [by inversion Hshort|done]|].
    apply Forall_both; [|by eapply Hlines]. by apply (job_outcome_bounds _ _ _ _ _ _ _ _ _ Eo).
  - destruct Hd as [E|E]; [done|]. injection E as ->. injection Ht as <- _. constructor.
Qed.

Lemma courteous_step D hs ws f f' : step f f' -> inv D hs ws f -> courteous f -> courteous f'.
Proof.
  intros Hst I Hc.
  assert (Hset : forall m c b, (forall acts, at_phase b = Doing acts \/ at_phase b = Sent acts ->
             Forall polite (Main.requests acts)) -> courteous (set_conns m (set_box c b f))).
  { intros m c b Hb c' b' acts Hb' Hph. cbn in Hb'. destruct (decide (c = c')) as [<-|Hne].
    - rewrite lookup_insert_eq in Hb'. injection Hb' as <-. by apply Hb.
    - rewrite lookup_insert_ne in Hb' by done. by eapply Hc. }
  assert (Hkeep : forall c b, boxes f !! c = Some b -> forall acts, at_phase b = Doing acts \/ at_phase b = Sent acts ->
             Forall polite (Main.requests acts)) by (intros; by eapply Hc).
  destruct Hst as [| |f c r Hcn Hb|f c Hcn| | |f c b r e acts n Hb Hph Hu Hcn Hsm Hmac Hms Ht|f c b a acts Hb Hph Ha
    |f c b args acts cmd Hb Hph Hu Hcn Hd Hpol|f c b r acts Hb Hph Hu Hcn Hsm|f c b Hb Hph|f c b Hb []
    |f c b args acts Hb Hph Hu Hcn Hpol []|f c b Hb Hu Hph|f c b args acts Hb Hu Hph|f c b e acts n Hb Hu Hph Ht];
    try exact Hc; try (rewrite set_box_conns; apply Hset); try (apply Hset);
    try (intros l [E|E]; cbn in E; try discriminate E; injection E as <-).
  - intros c' b' acts Hb'. cbn in Hb'. destruct (decide (c = c')) as [<-|Hne].
    + rewrite lookup_alter_eq in Hb'. apply fmap_Some in Hb' as (b0 & Hb0 & ->). by apply (Hkeep c b0).
    + rewrite lookup_alter_ne in Hb' by done. by apply (Hkeep c' b').
  - by eapply told_courteous.
  - pose proof (Hkeep c b Hb (a :: acts) (or_introl Hph)) as Hl. by rewrite Main.requests_cons, Ha in Hl.
  - pose proof (Hkeep c b Hb _ (or_introl Hph)) as Hl. by apply Forall_cons_1 in Hl as [_ ?].
  - by apply (Hkeep c b Hb acts (or_intror Hph)).
  - destruct Hph as [Hph|Hph]; [by apply (Hkeep c b Hb acts (or_intror Hph))|].
    pose proof (Hkeep c b Hb _ (or_introl Hph)) as Hl. by apply Forall_cons_1 in Hl as [_ ?].
  - injection Ht as <- _. constructor.
Qed.

(** The invariant with both parts. *)
Definition alive (D : gmap nat job) (hs ws : list job) (f : fleet) : Prop := inv D hs ws f /\ courteous f.

Lemma alive_step D hs ws f f' :
  step f f' -> alive D hs ws f -> exists D' hs' ws', alive D' hs' ws' f' /\ ws' `suffix_of` ws.
Proof.
  intros Hst [I Hc]. destruct (inv_step _ _ _ _ _ Hst I) as (D' & hs' & ws' & I' & Hw).
  exists D', hs', ws'. split; [|done]. split; [done|]. by eapply courteous_step.
Qed.

Lemma alive_steps D hs ws f f' :
  rtc step f f' -> alive D hs ws f -> exists D' hs' ws', alive D' hs' ws' f' /\ ws' `suffix_of` ws.
Proof.
  intros Hr. revert D hs ws. induction Hr as [f|f1 f2 f3 Hst _ IH]; intros D hs ws I; [by exists D, hs, ws|].
  destruct (alive_step _ _ _ _ _ Hst I) as (D1 & hs1 & ws1 & I1 & H1).
  destruct (IH _ _ _ I1) as (D2 & hs2 & ws2 & I2 & H2). exists D2, hs2, ws2. split; [done|]. by etrans.
Qed.

Lemma drain_cmd f c p : conns (server f) !! c = Some p -> sound p ->
  exists f', rtc step f f' /\ boxes f' = boxes f /\
  exists r, conns (server f') !! c = Some (Reply r) /\ (brief p -> small r).
Proof.
  revert f. induction p as [r| |o k IH]; intros f Hc Hs; [|done|].
  - exists f. split_and!; [apply rtc_refl|done|by exists r].
  - pose proof (server_op (admits := observer) (breaks := fun _ => False) (machine := machine) f c o k 0 Hc) as Hst.
    match type of Hst with fstep _ ?f1 =>
      destruct (IH (exec 0 o (data (server f))).1 f1) as (f' & Hr & Hb & r & Hrep & Hsm);
        [cbn; by rewrite lookup_insert_eq|by apply Hs|]
    end.
    exists f'. split_and!; [by eapply rtc_l|exact Hb|]. exists r. split; [exact Hrep|]. intros Hbr. apply Hsm, Hbr.
Qed.

Definition only (c : nat) (f f' : fleet) : Prop := forall c', c' <> c -> boxes f' !! c' = boxes f !! c'.

(** The runtime [c] has come to rest. *)
Definition rests (c : nat) (f f' : fleet) : Prop :=
  rtc step f f' /\ only c f f' /\ exists b, boxes f' !! c = Some b /\ at_phase b = Idle.

Lemma rests_after c f1 f2 f3 : rtc step f1 f2 -> only c f1 f2 -> rests c f2 f3 -> rests c f1 f3.
Proof. intros Hr Ho (Hr' & Ho' & Hb). split_and!; [by etrans| |done]. intros c' Hne. by rewrite Ho', Ho. Qed.

Lemma rests_acts acts : forall D hs ws f c b,
  alive D hs ws f -> boxes f !! c = Some b -> at_phase b = Doing acts -> exists f', rests c f f'.
Proof.
  induction acts as [|a acts IH]; intros D hs ws f c b I Hb Hph.
  - exists (set_box c (with_phase Idle b) f). split_and!.
    + by apply rtc_once, box_ends.
    + intros c' Hne. cbn. by rewrite lookup_insert_ne.
    + exists (with_phase Idle b). cbn. by rewrite lookup_insert_eq.
  - destruct (inv_boxes _ _ _ _ (proj1 I) c b Hb) as (_ & Hu & Hd). unfold duty in Hd. rewrite Hph in Hd.
    pose proof (proj2 I c b (a :: acts) Hb (or_introl Hph)) as Hpolite.
    destruct (decide (Main.requests [a] = [])) as [Ha|Ha].
    + assert (Hst : step f (set_box c (with_phase (Doing acts) (with_did a b)) f)) by (by apply box_acts).
      destruct (alive_step _ _ _ _ _ Hst I) as (D1 & hs1 & ws1 & I1 & _).
      destruct (IH _ _ _ _ c (with_phase (Doing acts) (with_did a b)) I1) as [f' Hf']; [cbn; by rewrite lookup_insert_eq|done|].
      exists f'. eapply rests_after; [by apply rtc_once| |done]. intros c' Hne. cbn. by rewrite lookup_insert_ne.
    + destruct a as [args| | | | | | | | |]; try done. cbn [Main.requests] in Hd, Hpolite.
      apply Forall_cons_1 in Hpolite as [Hpolite _].
      destruct (D !! c) as [j|] eqn:HD; [|by destruct Hd]. destruct Hd as (Hc & Hown & _).
      apply Forall_cons_1 in Hown as [Ho _].
      destruct (own_lower _ _ _ Ho) as (name & rest & -> & Hl & Hn & _ & _).
      pose proof (dispatch_lower _ rest Hl Hn) as Hdis.
      destruct (own_command _ _ _ _ Ho Hdis) as [(_ & _ & Hsound & Hbrief) _].
      set (f1 := set_conns (<[c := command name rest]> (conns (server f)))
                   (set_box c (with_phase (Sent acts) (with_did (Main.Request (name :: rest)) b)) f)).
      assert (Hst : step f f1) by (by eapply box_sends).
      destruct (drain_cmd f1 c (command name rest)) as (f2 & Hr2 & Hb2 & r & Hrep & Hsm); [cbn; by rewrite lookup_insert_eq|done|].
      set (b2 := with_phase (Sent acts) (with_did (Main.Request (name :: rest)) b)) in *.
      assert (Eb : boxes f2 !! c = Some b2) by (rewrite Hb2; cbn; by rewrite lookup_insert_eq).
      assert (Hst3 : step f2 (set_conns (delete c (conns (server f2))) (set_box c (with_phase (Doing acts) b2) f2)))
        by (by eapply box_answered; eauto).
      assert (Hr3 : rtc step f (set_conns (delete c (conns (server f2))) (set_box c (with_phase (Doing acts) b2) f2)))
        by (eapply rtc_l; [exact Hst|]; by eapply rtc_r).
      destruct (alive_steps _ _ _ _ _ Hr3 I) as (D3 & hs3 & ws3 & I3 & _).
      destruct (IH _ _ _ _ c (with_phase (Doing acts) b2) I3) as [f' Hf']; [cbn; by rewrite lookup_insert_eq|done|].
      exists f'. eapply rests_after; [exact Hr3| |done]. intros c' Hne. cbn. rewrite lookup_insert_ne by done.
      rewrite Hb2. cbn. by rewrite lookup_insert_ne.
Qed.

Lemma next_sound : sound job_next.
Proof.
  intros now st. cbn [exec]. destruct (Store.rpop QUEUE st) as [[p|] st']; cbn [fst]; [|done].
  by destruct (splitn 4 BAR p) as [|? [|? [|? [|? [|? [|? ?]]]]]].
Qed.

Lemma asked_sound D hs ws f c b : inv D hs ws f -> boxes f !! c = Some b -> at_phase b = Asked ->
  exists p, conns (server f) !! c = Some p /\ sound p.
Proof.
  intros I Hb Hph. destruct (inv_boxes _ _ _ _ I c b Hb) as (_ & _ & Hd). unfold duty in Hd. rewrite Hph in Hd.
  destruct (D !! c); [destruct Hd as (_ & [E|E])|destruct Hd as [E|E]]; eexists; split; try exact E; try done.
  apply next_sound.
Qed.

(** A reply to a request for a job leads to a turn. *)
Lemma told_at D hs ws f c b r : inv D hs ws f -> boxes f !! c = Some b -> at_phase b = Asked ->
  conns (server f) !! c = Some (Reply r) ->
  small r /\ exists e acts n, machine e /\ in_i64 (Main.ended_ms e - Main.started_ms e) /\
    Main.job_turn (opts b) (sec b) e (Some (Redis.of_server r)) (count b) = Ret (acts, n).
Proof.
  intros I Hb Hph Hc. destruct (inv_boxes _ _ _ _ I c b Hb) as (Hcfg & _ & Hd). unfold duty in Hd.
  rewrite Hph, Hc in Hd. destruct (D !! c) as [j|] eqn:HD.
  - destruct Hd as (_ & [E|E]); [done|]. injection E as ->.
    assert (Hj : j ∈ js) by (eapply in_hs; [done|]; by apply (inv_held _ _ _ _ I c)).
    split; [apply (small_strs (fields j)); [cbn; lia|]; by apply (proj1 (Forall_forall _ _) Hgood j Hj)|].
    destruct (Hrun _ _ j Hcfg) as (e & Hmac & Hms & logs & code & ms & Ho); [done|].
    destruct (Main.run_job_reports _ _ _ _ (jname j) _ _ (count b) _ _ _ Ho) as (acts & E & _).
    exists e, acts. eexists. split; [done|]. split; [done|]. erewrite Main.job_turn_job by reflexivity. exact E.
  - destruct Hd as [E|E]; [done|]. injection E as ->.
    split; [split; [done|unfold Redis.MAX_RESPONSE; cbn; lia]|].
    destruct (Hrun _ _ (mkJob "" "" "" "" "") Hcfg) as (e & Hmac & Hms & _).
    exists e, [Main.Sleep 500], (count b). by split_and!.
Qed.

Lemma rests_box D hs ws f c b : alive D hs ws f -> boxes f !! c = Some b -> exists f', rests c f f'.
Proof.
  intros I Hb. destruct (inv_boxes _ _ _ _ (proj1 I) c b Hb) as (_ & Hu & Hd). destruct (at_phase b) as [| |acts|acts|] eqn:Hph.
  - exists f. split_and!; [apply rtc_refl|done|by exists b].
  - destruct (asked_sound _ _ _ _ _ _ (proj1 I) Hb Hph) as (p & Hp & Hs).
    destruct (drain_cmd f c p Hp Hs) as (f2 & Hr2 & Hb2 & r & Hrep & Hsm).
    destruct (alive_steps _ _ _ _ _ Hr2 I) as (D2 & hs2 & ws2 & I2 & _).
    assert (Eb : boxes f2 !! c = Some b) by (by rewrite Hb2).
    destruct (told_at _ _ _ _ _ _ _ (proj1 I2) Eb Hph Hrep) as (Hsmall & e & acts & n & Hmac & Hms & Ht).
    pose proof (box_told (admits := observer) (breaks := fun _ => False) (machine := machine) f2 c b r e acts n Eb Hph Hu Hrep Hsmall Hmac Hms Ht) as Hst.
    destruct (alive_step _ _ _ _ _ Hst I2) as (D3 & hs3 & ws3 & I3 & _).
    destruct (rests_acts acts _ _ _ _ c (with_phase (Doing acts) (with_count n b)) I3) as [f' Hf'];
      [cbn; by rewrite lookup_insert_eq|done|].
    exists f'. eapply rests_after; [by eapply rtc_r| |done].
    intros c' Hne. cbn. by rewrite lookup_insert_ne, Hb2.
  - by eapply rests_acts.
  - unfold duty in Hd. rewrite Hph in Hd. destruct (D !! c) as [j|]; [|done].
    destruct Hd as (p & Hp & (_ & _ & Hs & Hbrief) & _).
    destruct (drain_cmd f c p Hp Hs) as (f2 & Hr2 & Hb2 & r & Hrep & Hsm).
    assert (Eb : boxes f2 !! c = Some b) by (by rewrite Hb2).
    pose proof (box_answered (admits := observer) (breaks := fun _ => False) (machine := machine) f2 c b r acts Eb Hph Hu Hrep (Hsm Hbrief)) as Hst.
    assert (Hr3 : rtc step f (set_conns (delete c (conns (server f2))) (set_box c (with_phase (Doing acts) b) f2)))
      by (by eapply rtc_r).
    destruct (alive_steps _ _ _ _ _ Hr3 I) as (D3 & hs3 & ws3 & I3 & _).
    destruct (rests_acts acts _ _ _ _ c (with_phase (Doing acts) b) I3) as [f' Hf'];
      [cbn; by rewrite lookup_insert_eq|done|].
    exists f'. eapply rests_after; [done| |done]. intros c' Hne. cbn. by rewrite lookup_insert_ne, Hb2.
  - unfold duty in Hd. by rewrite Hph in Hd.
Qed.

(** A step of one runtime keeps the others there. *)
Lemma same_boxes f f' : step f f' -> forall c, is_Some (boxes f !! c) <-> is_Some (boxes f' !! c).
Proof using Type.
  intros Hst c0. destruct Hst; cbn [boxes set_conns set_box]; try done;
    try (destruct (decide (c = c0)) as [<-|Hne];
         [rewrite lookup_insert_eq; split; [by eexists|by eexists; eauto]|by rewrite lookup_insert_ne]).
  destruct (decide (c = c0)) as [<-|Hne]; [|by rewrite lookup_alter_ne].
  rewrite lookup_alter_eq. by destruct (boxes f !! c).
Qed.

Lemma same_boxes_steps f f' : rtc step f f' -> forall c, is_Some (boxes f !! c) <-> is_Some (boxes f' !! c).
Proof using Type. induction 1 as [|? ? ? Hst _ IH]; intros c; [done|]. by rewrite (same_boxes _ _ Hst c). Qed.

Definition idle (f : fleet) (c : nat) : Prop := forall b, boxes f !! c = Some b -> at_phase b = Idle.

Lemma rests_some cs : forall D hs ws f, alive D hs ws f -> exists f', rtc step f f' /\ Forall (idle f') cs.
Proof.
  induction cs as [|c cs IH]; intros D hs ws f I; [exists f; split; [apply rtc_refl|constructor]|].
  destruct (IH _ _ _ _ I) as (f1 & Hr1 & Hi1). destruct (boxes f1 !! c) as [b|] eqn:Hb.
  - destruct (alive_steps _ _ _ _ _ Hr1 I) as (D1 & hs1 & ws1 & I1 & _).
    destruct (rests_box _ _ _ _ c b I1 Hb) as (f2 & Hr2 & Ho & b2 & Hb2 & Hph2). exists f2. split; [by etrans|].
    assert (Hc : idle f2 c) by (intros b' Hb'; congruence). constructor; [done|].
    eapply Forall_impl; [exact Hi1|]. intros c' Hc' b' Hb'. destruct (decide (c' = c)) as [->|Hne]; [by apply Hc|].
    rewrite Ho in Hb' by done. by apply Hc'.
  - exists f1. split; [done|]. constructor; [intros b Hb'; congruence|done].
Qed.

Lemma rests_all D hs ws f : alive D hs ws f -> exists f', rtc step f f' /\ forall c, idle f' c.
Proof.
  intros I. destruct (rests_some ((map_to_list (boxes f)).*1) _ _ _ _ I) as (f' & Hr & Hi). exists f'. split; [done|].
  intros c b Hb. destruct (proj2 (same_boxes_steps _ _ Hr c) (ltac:(by eexists))) as [b0 Hb0].
  apply elem_of_map_to_list in Hb0. rewrite Forall_forall in Hi. apply (Hi c); [|done].
  apply list_elem_of_fmap. by exists (c, b0).
Qed.

(** A runtime at rest takes the next job. *)
Lemma takes_next D hs ws j f c b :
  alive D hs (j :: ws) f -> boxes f !! c = Some b -> at_phase b = Idle ->
  exists f' D' hs' ws', rtc step f f' /\ alive D' hs' ws' f' /\ (length ws' <= length ws)%nat.
Proof.
  intros I Hb Hph. destruct (inv_boxes _ _ _ _ (proj1 I) c b Hb) as (_ & Hu & Hd). unfold duty in Hd. rewrite Hph in Hd.
  destruct (D !! c) as [|] eqn:HD; [done|].
  assert (Hdis : dispatch ["job next"] = Some job_next) by (by apply dispatch_lower).
  pose proof (box_asks (admits := observer) (breaks := fun _ => False) (machine := machine) f c b _ Hb Hph Hu Hd Hdis) as Hst1.
  destruct (alive_step _ _ _ _ _ Hst1 I) as (D1 & hs1 & ws1 & I1 & Hw1).
  set (f1 := set_conns _ _) in *.
  assert (Hc1 : conns (server f1) !! c = Some job_next) by (cbn; by rewrite lookup_insert_eq).
  pose proof (inv_queue _ _ _ _ (proj1 I1)) as Hq1. pose proof (inv_queue _ _ _ _ (proj1 I)) as Hq0. cbn in Hq1.
  rewrite Hq0 in Hq1. apply (inj Some), (inj reverse) in Hq1.
  destruct ws1 as [|j1 ws1]; [done|].
  pose proof Hq0 as Hq. rewrite fmap_cons, reverse_cons in Hq.
  destruct (Store.rpop_snoc _ _ _ _ Hq) as (st' & Epop & Hq').
  pose proof (server_op (admits := observer) (breaks := fun _ => False) (machine := machine) f1 c _ _ 0 Hc1) as Hst2.
  destruct (alive_step _ _ _ _ _ Hst2 I1) as (D2 & hs2 & ws2 & I2 & Hw2).
  eexists _, D2, hs2, ws2. split; [eapply rtc_l; [exact Hst1|by apply rtc_once]|]. split; [exact I2|].
  pose proof (inv_queue _ _ _ _ (proj1 I2)) as Hq2. cbn [server data exec] in Hq2.
  change (data (server f1)) with (data (server f)) in Hq2. rewrite Epop in Hq2. cbn [snd] in Hq2.
  rewrite Hq' in Hq2. apply (inj Some), (inj reverse) in Hq2. apply (f_equal length) in Hq2.
  rewrite !length_fmap in Hq2. lia.
Qed.

Lemma all_served n : forall D hs ws f, (length ws <= n)%nat -> alive D hs ws f -> (exists c, is_Some (boxes f !! c)) ->
  exists f' D' hs', rtc step f f' /\ alive D' hs' [] f' /\ forall c, idle f' c.
Proof.
  induction n as [|n IH]; intros D hs ws f Hn I [c Hc].
  - destruct ws; [|cbn in Hn; lia]. destruct (rests_all _ _ _ _ I) as (f' & Hr & Hi).
    destruct (alive_steps _ _ _ _ _ Hr I) as (D' & hs' & ws' & I' & Hw). apply suffix_nil_inv in Hw as ->.
    by exists f', D', hs'.
  - destruct ws as [|j ws]; [by apply (IH D hs [] f); [cbn; lia|done|exists c]|].
    destruct (rests_all _ _ _ _ I) as (f1 & Hr1 & Hi1).
    destruct (alive_steps _ _ _ _ _ Hr1 I) as (D1 & hs1 & ws1 & I1 & Hw1%suffix_length).
    assert (Hc1 : is_Some (boxes f1 !! c)) by (by apply (same_boxes_steps _ _ Hr1 c)). cbn in Hn, Hw1.
    assert (exists f2 D2 hs2 ws2, rtc step f1 f2 /\ alive D2 hs2 ws2 f2 /\ (length ws2 <= n)%nat) as (f2 & D2 & hs2 & ws2 & Hr2 & I2 & Hw2).
    { destruct ws1 as [|j1 ws1]; [exists f1, D1, hs1, []; split_and!; [apply rtc_refl|done|cbn; lia]|].
      destruct Hc1 as [b Hb]. destruct (takes_next _ _ _ _ _ c b I1 Hb (Hi1 c b Hb)) as (f2 & D2 & hs2 & ws2 & Hr2 & I2 & Hw2).
      exists f2, D2, hs2, ws2. split_and!; [done|done|]. cbn in Hw1. lia. }
    destruct (IH D2 hs2 ws2 f2 Hw2 I2) as (f3 & D3 & hs3 & Hr3 & I3 & Hi3);
      [exists c; by apply (same_boxes_steps _ _ Hr2 c)|].
    exists f3, D3, hs3. split_and!; [by do 2 (etrans; [done|])|done|done].
Qed.

End Jobs.

(** ** Properties *)

Abbreviation step := (fstep (admits := observer) (breaks := fun _ => False) (machine := machine)).

Definition configs (f : fleet) (o : Main.Options) (s : Security.SecurityManager) : Prop :=
  exists c b, boxes f !! c = Some b /\ opts b = o /\ sec b = s.

(** A fleet about to start on a queue of jobs. *)
Record launched (js : list job) (f : fleet) : Prop := {
  launched_good : Forall good_job js;
  launched_ids : NoDup (jid <$> js);
  launched_fresh : map_Forall (fun _ => fresh) (boxes f);
  launched_conns : conns (server f) = ∅;
  launched_queue : Store.list_at QUEUE (data (server f)) = Some (reverse (job_payload <$> js));
  launched_persistent : persistent (data (server f));
  launched_logs : Forall (fun j => data (server f) !! log_key (jid j) = None) js
}.

Lemma launched_inv js f : launched js f -> inv (configs f) js ∅ [] js f.
Proof.
  intros L. split; try done; try apply L.
  - intros c b Hb. destruct (launched_fresh _ _ L c b Hb) as (Hph & Hu & _). split_and!; [by exists c, b|done|].
    unfold duty. by rewrite Hph, (launched_conns _ _ L).
  - intros j Hj. by apply not_elem_of_nil in Hj.
  - intros j Hj. by apply (proj1 (Forall_forall _ _) (launched_logs _ _ L)).
  - intros c p _. by rewrite (launched_conns _ _ L).
Qed.

(** In the hands of a runtime: the last job it was handed, and it is not yet
    back at its request for the next. *)
Definition in_hands (f : fleet) (j : job) : Prop :=
  exists c b, boxes f !! c = Some b /\ at_phase b <> Idle /\
    last (handed_to c (history (server f))) = Some (job_payload j).

(** C10: Runtimes that share a queue settle its jobs.  Any number of runtimes
    whose connections last work on a queue of jobs with different ids, while
    others look at the server.  At every moment and in every interleaving of
    their commands, a job waits in the queue, or is the last one handed to a
    runtime that is not idle, or is settled: its status, result and log are
    those of a run of its command in one of the runtimes, undisturbed by the
    commands of the others. *)
Theorem fleet_settles js f0 f (Hl : launched js f0) (Hr : rtc step f0 f) :
  exists ws, Store.list_at QUEUE (data (server f)) = Some (reverse (job_payload <$> ws)) /\ ws `suffix_of` js /\
  forall j, j ∈ js -> j ∈ ws \/ in_hands f j \/ settled (configs f0) j (data (server f)).
Proof.
  destruct (inv_steps (configs f0) js (launched_good _ _ Hl) (launched_ids _ _ Hl) _ _ _ _ _ Hr (launched_inv _ _ Hl))
    as (D & hs & ws & I & Hw).
  exists ws. split; [apply I|]. split; [done|]. intros j Hj. rewrite (inv_js _ _ _ _ _ _ I) in Hj.
  apply elem_of_app in Hj as [Hj|Hj]; [|by left]. right.
  destruct (inv_handed _ _ _ _ _ _ I j Hj) as [[c Hc]|Hs]; [left|by right].
  destruct (inv_held _ _ _ _ _ _ I c j Hc) as (_ & [b Hb] & Hlast). exists c, b. split_and!; [done| |done].
  intros Hph. destruct (inv_boxes _ _ _ _ _ _ I c b Hb) as (_ & _ & Hd). unfold duty in Hd. by rewrite Hph, Hc in Hd.
Qed.


End FleetJobs.

(** ** Witnesses *)

(** Two runtimes and two jobs. *)
Definition demo_box (sandbox : string) : box :=
  mkBox (Main.mkOptions "127.0.0.1" 1234 sandbox "local" 9090 "" true "standard" false false 3)
    Security.new_manager Idle true (Main.mkCounters 0 0) [].
Definition demo_jobs : list job := [demo_job "7" "make"; demo_job "8" "make"].
Definition demo_fleet : fleet :=
  mkFleet (mkPool (System.server (demo_link demo_jobs)) ∅ []) {[0%nat := demo_box "a"; 1%nat := demo_box "b"]}.

Lemma demo_launched : launched demo_jobs demo_fleet.
Proof.
  split.
  - repeat constructor; try (by vm_compute); apply demo_good; auto.
  - apply (bool_decide_unpack _). vm_compute. exact I.
  - intros c b Hb. cbn in Hb. apply lookup_insert_Some in Hb as [[_ <-]|[_ Hb]]; [done|].
    by apply lookup_singleton_Some in Hb as [_ <-].
  - done.
  - vm_compute. reflexivity.
  - intros key e He. cbn in He. by apply lookup_singleton_Some in He as [_ <-].
  - repeat constructor; vm_compute; reflexivity.
Qed.

(** Machines on which every job prints the same lines. *)
Definition demo_machine (e : Main.surroundings) : Prop := e = Main.demo_surroundings.

(** The first runtime has asked, and the server has given it the first job. *)
Lemma demo_step : exists f,
  rtc (fstep (H := ascii_text) (admits := observer (H := ascii_text)) (breaks := fun _ => False) (machine := demo_machine)) demo_fleet f /\
  handed_to 0%nat (history (server f)) = [job_payload (demo_job "7" "make")].
Proof.
  eexists. split.
  - eapply rtc_l; [apply (box_asks (H := ascii_text)) with (c := 0%nat) (b := demo_box "a"); reflexivity|].
    eapply rtc_l; [eapply (server_op (H := ascii_text) _ 0%nat _ _ 0); reflexivity|]. apply rtc_refl.
  - vm_compute. reflexivity.
Qed.

Lemma fleet_settles_witness : exists f ws,
  handed_to 0%nat (history (server f)) = [job_payload (demo_job "7" "make")] /\
  Store.list_at QUEUE (data (server f)) = Some (reverse (job_payload <$> ws)).
Proof.
  destruct demo_step as (f & Hr & Hh).
  destruct (fleet_settles (H := ascii_text) (machine := demo_machine) demo_jobs demo_fleet f demo_launched Hr) as (ws & Hq & _).
  by exists f, ws.
Defined.

Lemma demo_fleet_runs o s j : configs demo_fleet o s -> j ∈ demo_jobs ->
  Main.job_outcome o s Main.demo_surroundings (jid j) (jtarget j) (jcommand j) = Ret (demo_output, 0, 4).
Proof.
  intros (c & b & Hb & <- & <-) Hj. cbn in Hb. unfold demo_jobs in Hj.
  apply lookup_insert_Some in Hb as [[_ <-]|[_ Hb]]; [|apply lookup_singleton_Some in Hb as [_ <-]];
    apply elem_of_cons in Hj as [->|Hj]; try (apply list_elem_of_singleton in Hj as ->); vm_compute; reflexivity.
Qed.


End FleetJobs.
